(* ===== verification/_CoqProject ===== *)
-Q . S2P
Prelude.v
CString.v
UnixFile.v
Lfs.v
Mfs.v
LfsSpec.v
LfsProofs.v
LfsCreat.v
LfsOps.v
LfsTheorems.v
LfsStart.v
LfsUnlink.v
LfsFaults.v
MfsProofs.v
LfsWitness.v
Pipe.v
Kalloc.v
Spinlock.v
Fs.v
Bio.v
Ide.v
IdeProofs.v
FsFile.v
Mkfs.v
MkfsProofs.v
MkfsImage.v
MkfsTree.v
File.v
Syscall.v
Sysfile.v
SysfileProofs.v
Grep.v
Printf.v
ShParse.v
ShProofs.v
Sh.v
Proc.v
ProcProofs.v
Sleep.v
Vm.v
VmProofs.v
Console.v
ConsoleProofs.v
Kbd.v
Umalloc.v
UmallocTiles.v
UmallocProofs.v
VmUser.v
VmSetup.v
VmCopy.v
Exec.v
ExecProofs.v
ExecRuns.v
Machine.v
Trap.v
Gates.v
Dev.v
Mp.v
Boot.v
Start.v
Utils.v
ShMain.v
