(* ===== verification/Prelude.v ===== *)
(** * A verification of the log-structured file server and of the xv6 kernel

    The repository holds two programs. [src/linux] is a log-structured file
    system served over UDP: [lfs.c] is the server's store, [mfs.c] the client
    library, [server.c] and [client.c] small mains. [src/xv6] is the teaching
    kernel with a file system extended by checksummed files: [kernel] the
    kernel, [user] its programs, [tools/mkfs.c] the program that writes the
    first disk image.

    ** How the code is modelled

    C functions become Rocq functions of the same names. Effects are the monad
    [M S A] of this file: a state [S] and an [outcome], which is a value,
    a [panic], a sleep nobody ends ([Blocked]), an undefined behaviour of C
    ([Undef]) or the end of a loop's fuel ([NoFuel]). Pure code that may fail
    returns an option. Machine integers are [Z] with their wrap-around written
    out ([u8], [u16], [u32], [i32]); bytes are [Z] in [0, 256); memories and disks are
    finite maps or lists of blocks. A pointer is an address where the code does
    arithmetic on it and an index otherwise. Memory the C code leaves
    uninitialised is an argument ([Uninit] for the server's stack buffers).

    ** The files

    - [Prelude.v]: outcomes, the monad, machine integers, little-endian bytes,
      array splices, C strings, and the shared automation.
    - [CString.v]: the string routines of [xv6/kernel/string.c] and
      [xv6/user/ulib.c] and of the C library the server uses.
    - [UnixFile.v]: a file of the host, as [read], [write] and [lseek] see it.
    - The server. [Lfs.v] translates [lfs.c]; [LfsSpec.v] says which images are
      well formed ([lfs_ok]) and what file system an image is ([abs]);
      [LfsProofs.v], [LfsCreat.v], [LfsOps.v], [LfsStart.v], [LfsUnlink.v] run
      each call against that meaning; [LfsTheorems.v], [LfsFaults.v],
      [LfsWitness.v] hold the results: an entry made is found, what is written
      is read, what is unlinked is gone, a restarted server finds what it had,
      a new image has its root; and where the code fails.
    - The client. [Mfs.v] translates [mfs.c] with the server's dispatch
      ([listenOnServer]) and a network that loses, delays and repeats packets
      as its [rounds] say; [MfsProofs.v] shows that calls take effect as if
      made once.
    - Kernel memory. [Kalloc.v] is the page allocator of [kalloc.c]; [Vm.v] the
      page tables of [vm.c] on the same memory and [VmProofs.v] their meaning
      to the processor; [VmUser.v] says what an address space that a process
      owns is ([user_ok]) and runs growing, shrinking and freeing against it,
      [VmSetup.v] making one and [VmCopy.v] copying one.
    - Processes. [Spinlock.v] is [spinlock.c]; [Proc.v] is [proc.c] over an
      interface [Kernel] of memory, files and inodes; [ProcProofs.v] has the
      invariant of the process table over all calls; [Sleep.v] the
      interleavings of [sleep], [wakeup] and the scheduler. [Exec.v] is
      [exec.c] on the file system and the page tables together, [ExecProofs.v]
      and [ExecRuns.v] its results; [Machine.v] gives the interface [Kernel]
      its real implementation and shows [fork] and [growproc] over it.
    - Traps and devices. [Trap.v] is [trap.c] with [sysproc.c], from the entry
      of the kernel to the return or the switch to another process, over a
      class [Devices] of interrupt handlers; [Gates.v] the descriptors of
      [mmu.h] that [tvinit], [seginit] and [switchuvm] make, with what the
      processor makes of them; [Dev.v] the interrupt controllers, the timer
      and the serial port ([picirq.c], [ioapic.c], [lapic.c], [timer.c],
      [uart.c]); [Mp.v] the multiprocessor tables of [mp.c]; [Boot.v] the boot
      loader, [bootmain.c]; [Start.v] how the other processors are started,
      [bootothers] of [main.c].
    - Pipes and the console. [Pipe.v] is [pipe.c]; [Console.v] and
      [ConsoleProofs.v] are [console.c]; [Kbd.v] is [kbd.c], from scan codes to
      the console; [Printf.v] is the formatted output of both the kernel and
      the user's library.
    - The kernel's file system. [Ide.v] is the disk driver, [ide.c], over a
      class [Ata] for the controller, and [IdeProofs.v] its queue's meaning;
      [Fs.v] is [fs.c] over the promise of a buffer cache; [Bio.v] is [bio.c]
      with the proof that it keeps the promise; [FsFile.v] has the results on
      file contents and checksums; [File.v] is [file.c]; [Syscall.v] is
      [syscall.c]; [Sysfile.v] is [sysfile.c] and [SysfileProofs.v] its
      reference counts. [Mkfs.v] is [tools/mkfs.c]; [MkfsProofs.v],
      [MkfsImage.v] and [MkfsTree.v] follow the image it builds up to what the
      kernel reads from it.
    - Programs. [Grep.v] is [grep.c]; [ShParse.v], [ShProofs.v] and [Sh.v] are
      the shell's parser and what it runs, [ShMain.v] its main loop over
      [Utils.v], which holds the small programs ([cat.c], [echo.c], [init.c],
      [kill.c], [ln.c], [ls.c], [mkdir.c], [rm.c], [wc.c]) over a class [Os] of
      system calls; [Umalloc.v] is the allocator [umalloc.c], with
      [UmallocTiles.v] and [UmallocProofs.v].

    ** What the theorems show

    Refinements: the disk driver against one request after the other
    ([IdeProofs.ide_serves_in_order]), the buffer cache against direct access to
    the disk ([Bio.bcache_refines_disk]), a pipe against a queue
    ([Pipe.pipe_fifo]), the console against an editor of lines
    ([ConsoleProofs.console_is_an_editor]), page mapping against the
    processor's translation ([VmProofs.mappages_translates]), the image of
    [mkfs] as the kernel reads it against the host's directories
    ([MkfsTree.mkfs_image_reads]), client calls against one call of the server
    ([MfsProofs.MFS_Write_applied_once]). Invariants over every sequence of
    calls: open-file reference counts ([SysfileProofs.runs_count_references]),
    the family of processes ([ProcProofs.zombies_are_reaped]), pages in use and
    free ([Kalloc.kalloc_conserves_pages]), the blocks of the user's heap
    ([UmallocProofs.malloc_keeps_blocks_apart], [UmallocProofs.heap_comes_back]).
    Interleavings: mutual exclusion ([Spinlock.lock_mutual_exclusion]), no lost
    wake-up ([Sleep.no_lost_wakeup]), killed processes that never get back to
    their programs ([Trap.killed_never_returns]), sleeps that end with the
    clock ([Trap.sleep_counts_ticks]). Processes over the real memory and
    files, with free pages enough for an empty address space: [exec] loads the
    program or changes nothing
    ([ExecRuns.exec_runs], [ExecRuns.exec_all_or_nothing]), [fork] copies
    ([Machine.fork_copies]), [growproc] grows and shrinks
    ([Machine.growproc_grows]). Start and hardware: what the boot loader loads
    ([Boot.boot_loads_kernel]), the processors that are found
    ([Mp.mpinit_reads_table]) and started
    ([Start.bootothers_starts]), the lines the controllers hear
    ([Dev.enabled_lines_heard]), the ways into the kernel
    ([Gates.kernel_entries]). Functional behaviour and round trips: the server's
    calls, file reads, a typed line ([Kbd.typed_line_is_read]), the shell from
    its input to the programs it starts ([ShMain.shell_runs_script],
    [ShProofs.parsecmd_reads_back], [Sh.runcmd_wires]). Termination: the
    parser, every fuelled loop a theorem runs, the scheduler's pass. Errors:
    damage that a checksum detects, and the code's own faults, as lemmas next
    to the routines that have them.

    ** Bounds and fuel

    Loops that are not structural carry fuel, chosen from what bounds the loop:
    [CREAT_FUEL] is 29 (14 pointers looked at twice, and one round to leave),
    [MAP_FUEL] is one more than the pages of the address space, [KILL_FUEL] one
    more than the ring's characters, [parse_fuel] four times the line and 8, and
    loops over a file or a range of pages one round per block or page and a
    few to spare. [MALLOC_FUEL] covers the units of the largest heap four times;
    [getc_all] and [uart_chars] take one round per character and one to see the
    end; [readseg] one per sector and three; [mpinit] and the loops of the user's
    programs take any fuel above the number of entries, lines or bytes. Polling a
    controller needs an answer within the fuel, which is a hypothesis on the
    controller ([ready] in [Boot.v], the class [Ata] in [Ide.v]). The theorems
    show results, so the fuel was enough.

    ** What is not modelled

    Assembly (the entry of the boot sector, [trapasm.S], [swtch.S], the system
    call stubs) and with it the switch of contexts and the loading of control
    registers ([vmenable], [switchkvm], [idtinit]); the rest of [main.c], the
    order in which the parts are initialised; messages printed to the console, [panic]'s own
    printing and [procdump]; the delays of [microdelay]; the test programs and
    the main of [grep]; [src/linux]'s mains, and its UDP library, which is
    third-party code and a parameter here. [exec] and [growproc] leave out
    [switchuvm], which is in [Gates.v]. Sleeping ends a step: except in [Sleep.v]
    and [Spinlock.v], a routine between [acquire] and [release] is one step of
    one process. *)

From Stdlib Require Export ZArith Lia Ascii String.
From stdpp Require Export base tactics numbers list gmap strings option.

#[global] Open Scope Z_scope.

(** ** Outcomes of C code

    A C function either returns, calls [panic], goes to sleep on a channel
    nobody else will signal in the sequential model, or does something the
    language gives no meaning to. [NoFuel] marks a loop whose fuel ran out;
    every loop of the development has a theorem that rules it out. *)
Inductive outcome (A : Type) : Type :=
  | Ok (a : A)
  | Panic (msg : string)
  | Blocked
  | Undef
  | NoFuel.
Arguments Ok {A} a.
Arguments Panic {A} msg.
Arguments Blocked {A}.
Arguments Undef {A}.
Arguments NoFuel {A}.

(** The state and outcome monad of the effectful code. *)
Definition M (S A : Type) : Type := S → outcome (A * S).

#[global] Instance M_ret {S} : MRet (M S) := λ A a s, Ok (a, s).
#[global] Instance M_bind {S} : MBind (M S) := λ A B f m s,
  match m s with
  | Ok (a, s') => f a s'
  | Panic msg => Panic msg
  | Blocked => Blocked
  | Undef => Undef
  | NoFuel => NoFuel
  end.

Definition panic {S A} (msg : string) : M S A := λ _, Panic msg.
Definition blocked {S A} : M S A := λ _, Blocked.
Definition undef {S A} : M S A := λ _, Undef.
Definition nofuel {S A} : M S A := λ _, NoFuel.
Definition get {S} : M S S := λ s, Ok (s, s).
Definition put {S} (s : S) : M S unit := λ _, Ok (tt, s).
Definition gets {S A} (f : S → A) : M S A := λ s, Ok (f s, s).
Definition modify {S} (f : S → S) : M S unit := λ s, Ok (tt, f s).
Definition when {S} (b : bool) (m : M S unit) : M S unit := if b then m else mret tt.

(** A routine of one component, run on the state of two. *)
Definition on_fst {S T A} (m : M S A) : M (S * T) A := λ s,
  match m s.1 with
  | Ok (a, x) => Ok (a, (x, s.2))
  | Panic msg => Panic msg | Blocked => Blocked | Undef => Undef | NoFuel => NoFuel
  end.
Definition on_snd {S T A} (m : M T A) : M (S * T) A := λ s,
  match m s.2 with
  | Ok (a, x) => Ok (a, (s.1, x))
  | Panic msg => Panic msg | Blocked => Blocked | Undef => Undef | NoFuel => NoFuel
  end.
(** [x] read through a partial access: a miss is undefined behaviour. *)
Definition need {S A} (o : option A) : M S A :=
  match o with Some a => mret a | None => undef end.

(** ** Machine integers *)
Definition u8 (z : Z) : Z := z `mod` 256.
Definition u16 (z : Z) : Z := z `mod` 65536.
Definition u32 (z : Z) : Z := z `mod` 4294967296.
Definition i16 (z : Z) : Z := (z + 32768) `mod` 65536 - 32768.
Definition i32 (z : Z) : Z := (z + 2147483648) `mod` 4294967296 - 2147483648.
(** [char] is signed on x86. *)
Definition i8 (z : Z) : Z := (z + 128) `mod` 256 - 128.

Definition is_byte (b : Z) : Prop := 0 ≤ b < 256.
Definition is_i32 (z : Z) : Prop := -2147483648 ≤ z < 2147483648.
Definition is_u32 (z : Z) : Prop := 0 ≤ z < 4294967296.

(** C truth values. *)
Definition cbool (b : bool) : Z := if b then 1 else 0.
Definition ctrue (z : Z) : bool := negb (z =? 0).

(** ** Bytes and strings *)
Definition zascii (c : ascii) : Z := Z.of_N (N_of_ascii c).
Definition zstr (s : string) : list Z := zascii <$> String.list_ascii_of_string s.

(** Little-endian encoding of the low [8 * n] bits. *)
Fixpoint le_bytes (n : nat) (z : Z) : list Z :=
  match n with
  | O => []
  | S n' => z `mod` 256 :: le_bytes n' (z `div` 256)
  end.
Fixpoint le_val (bs : list Z) : Z :=
  match bs with
  | [] => 0
  | b :: bs' => b + 256 * le_val bs'
  end.

(** The array of bytes with [bs] written at index [i] (the C code never lets
    it run past the end; the splice keeps the length). *)
Definition splice {A} (i : nat) (bs l : list A) : list A :=
  take i l ++ take (length l - i) bs ++ drop (i + length bs) l.
Definition slice {A} (i n : nat) (l : list A) : list A := take n (drop i l).

(** The bytes of a C string that starts at the head of [l], or nothing when
    the object ends before a NUL. *)
Fixpoint cstr (l : list Z) : option (list Z) :=
  match l with
  | [] => None
  | b :: l' => if b =? 0 then Some [] else (λ r, b :: r) <$> cstr l'
  end.

(** A byte list without NUL: what a C string may hold. *)
Definition nonul (s : list Z) : Prop := Forall (λ b, b ≠ 0) s.
#[global] Instance nonul_dec s : Decision (nonul s) := _.

(** ** Lemmas: the monad *)

Lemma bind_Ok {S A B} (m : M S A) (f : A → M S B) s a s' :
  m s = Ok (a, s') → (m ≫= f) s = f a s'.
Proof. intros H. unfold mbind, M_bind. by rewrite H. Qed.

Lemma bind_inv {S A B} (m : M S A) (f : A → M S B) s b s2 :
  (m ≫= f) s = Ok (b, s2) → ∃ a s1, m s = Ok (a, s1) ∧ f a s1 = Ok (b, s2).
Proof.
  unfold mbind, M_bind. intros H. destruct (m s) as [[a s1]| | | |] eqn:E; try done.
  eauto.
Qed.

Lemma on_fst_Ok {S T A} (m : M S A) s (t : T) a s' : m s = Ok (a, s') → on_fst m (s, t) = Ok (a, (s', t)).
Proof. intros H. unfold on_fst. cbn. by rewrite H. Qed.
Lemma on_snd_Ok {S T A} (m : M T A) (s : S) t a t' : m t = Ok (a, t') → on_snd m (s, t) = Ok (a, (s, t')).
Proof. intros H. unfold on_snd. cbn. by rewrite H. Qed.

Lemma need_Some {S A} (a : A) (s : S) : need (Some a) s = Ok (a, s).
Proof. done. Qed.

Lemma bind_ret {S A B} (a : A) (f : A → M S B) s : (mret a ≫= f) s = f a s.
Proof. done. Qed.

Lemma bind_assoc {S A B C} (m : M S A) (f : A → M S B) (g : B → M S C) s :
  ((m ≫= f) ≫= g) s = (m ≫= λ a, f a ≫= g) s.
Proof. unfold mbind, M_bind. by destruct (m s) as [[? ?]| | | |]. Qed.

(** [step H] rewrites the head of the goal's sequence by the equation [H];
    [minv] splits a hypothesis about a successful sequence. *)
Ltac step H := rewrite (bind_Ok _ _ _ _ _ H).
Ltac minv H :=
  let a := fresh "r" in let s := fresh "s" in let E := fresh "E" in
  apply bind_inv in H as (a & s & E & H).

(** ** Lemmas: machine integers *)

Lemma u8_small z : 0 ≤ z < 256 → u8 z = z.
Proof. apply Z.mod_small. Qed.
Lemma u16_small z : 0 ≤ z < 65536 → u16 z = z.
Proof. apply Z.mod_small. Qed.
Lemma u32_small z : is_u32 z → u32 z = z.
Proof. apply Z.mod_small. Qed.
Lemma i32_small z : is_i32 z → i32 z = z.
Proof. unfold is_i32, i32. intros. rewrite Z.mod_small; lia. Qed.
Lemma i16_small z : -32768 ≤ z < 32768 → i16 z = z.
Proof. unfold i16. intros. rewrite Z.mod_small; lia. Qed.
Lemma u32_range z : is_u32 (u32 z).
Proof. unfold u32, is_u32. apply Z.mod_pos_bound. lia. Qed.
Lemma i32_range z : is_i32 (i32 z).
Proof. unfold i32, is_i32. pose proof (Z.mod_pos_bound (z + 2147483648) 4294967296). lia. Qed.
Lemma u8_byte z : is_byte (u8 z).
Proof. unfold u8, is_byte. apply Z.mod_pos_bound. lia. Qed.
Lemma i32_mod z : i32 (z `mod` 4294967296) = i32 z.
Proof. unfold i32. f_equal. by rewrite Zplus_mod_idemp_l. Qed.
Lemma i16_mod z : i16 (z `mod` 65536) = i16 z.
Proof. unfold i16. f_equal. by rewrite Zplus_mod_idemp_l. Qed.
Lemma u32_u32 z : u32 (u32 z) = u32 z.
Proof. unfold u32. by rewrite Z.mod_mod. Qed.

(** ** Lemmas: little-endian bytes *)

Lemma length_le_bytes n z : length (le_bytes n z) = n.
Proof. revert z. induction n; intros; simpl; auto. Qed.

Lemma le_bytes_bytes n z : Forall is_byte (le_bytes n z).
Proof.
  revert z. induction n as [|n IH]; intros z; simpl; constructor; [|apply IH].
  unfold is_byte. apply Z.mod_pos_bound. lia.
Qed.

Lemma le_val_le_bytes n z : le_val (le_bytes n z) = z `mod` 256 ^ Z.of_nat n.
Proof.
  revert z. induction n as [|n IH]; intros z.
  - simpl. by rewrite Z.mod_1_r.
  - cbn [le_bytes le_val]. rewrite IH, Nat2Z.inj_succ, Z.pow_succ_r by lia.
    rewrite Z.rem_mul_r by lia. lia.
Qed.

Lemma le_bytes_val bs : Forall is_byte bs → le_bytes (length bs) (le_val bs) = bs.
Proof.
  induction 1 as [|b bs Hb _ IH]; [done|]. cbn [length le_bytes le_val].
  unfold is_byte in Hb. f_equal.
  - rewrite (Z.mul_comm 256), Z.mod_add, Z.mod_small; lia.
  - rewrite (Z.mul_comm 256), Z.div_add, Z.div_small, Z.add_0_l by lia. done.
Qed.

Lemma le_val_range bs :
  Forall is_byte bs → 0 ≤ le_val bs < 256 ^ Z.of_nat (length bs).
Proof.
  induction 1 as [|b bs Hb _ IH]; cbn [length le_val]; [simpl; lia|].
  unfold is_byte in Hb. rewrite Nat2Z.inj_succ, Z.pow_succ_r by lia. nia.
Qed.

Lemma i32_le_bytes z : is_i32 z → i32 (le_val (le_bytes 4 z)) = z.
Proof.
  intros H. rewrite le_val_le_bytes. change (256 ^ Z.of_nat 4) with 4294967296.
  rewrite i32_mod. by apply i32_small.
Qed.

Lemma u32_le_bytes z : is_u32 z → le_val (le_bytes 4 z) = z.
Proof. intros H. rewrite le_val_le_bytes. by apply u32_small. Qed.

(** ** Lemmas: arrays *)

Section splice.
Context {A : Type}.
Implicit Types (l bs : list A) (i j n : nat).

Lemma length_splice i bs l : (i ≤ length l)%nat → length (splice i bs l) = length l.
Proof. intros. unfold splice. rewrite !length_app, !length_take, length_drop. lia. Qed.

Lemma lookup_splice_in i j bs l :
  (i ≤ j < i + length bs)%nat → (i + length bs ≤ length l)%nat →
  splice i bs l !! j = bs !! (j - i)%nat.
Proof.
  intros. unfold splice. rewrite (take_ge bs) by lia.
  rewrite lookup_app_r by (rewrite length_take; lia).
  rewrite length_take, Nat.min_l by lia. by rewrite lookup_app_l by lia.
Qed.

Lemma lookup_splice_out i j bs l :
  (j < i ∨ i + length bs ≤ j)%nat → (i + length bs ≤ length l)%nat →
  splice i bs l !! j = l !! j.
Proof.
  intros Hj Hl. unfold splice. rewrite (take_ge bs) by lia. destruct Hj.
  - rewrite lookup_app_l by (rewrite length_take; lia). by rewrite lookup_take_lt by lia.
  - rewrite !lookup_app_r by (rewrite ?length_take; lia).
    rewrite length_take, Nat.min_l, lookup_drop by lia. f_equal. lia.
Qed.

Lemma lookup_slice i n j l : slice i n l !! j = if decide (j < n)%nat then l !! (i + j)%nat else None.
Proof.
  unfold slice. case_decide.
  - by rewrite lookup_take_lt, lookup_drop by lia.
  - by rewrite lookup_take_ge by lia.
Qed.

Lemma length_slice i n l : (i + n ≤ length l)%nat → length (slice i n l) = n.
Proof. intros. unfold slice. rewrite length_take, length_drop. lia. Qed.

Lemma slice_splice_same i bs l :
  (i + length bs ≤ length l)%nat → slice i (length bs) (splice i bs l) = bs.
Proof.
  intros. apply list_eq. intros j. rewrite lookup_slice. case_decide.
  - rewrite lookup_splice_in by lia. f_equal. lia.
  - by rewrite lookup_ge_None_2 by lia.
Qed.

Lemma slice_splice_other i n i' bs l :
  (i' + length bs ≤ length l)%nat → (i + n ≤ i' ∨ i' + length bs ≤ i)%nat →
  slice i n (splice i' bs l) = slice i n l.
Proof.
  intros. apply list_eq. intros j. rewrite !lookup_slice. case_decide; [|done].
  apply lookup_splice_out; lia.
Qed.

Lemma slice_0_all l : slice 0 (length l) l = l.
Proof. unfold slice. rewrite drop_0. by apply take_ge. Qed.
End splice.

Lemma Forall_splice {A} (P : A → Prop) i bs l :
  Forall P bs → Forall P l → Forall P (splice i bs l).
Proof.
  intros. unfold splice. rewrite !Forall_app. split_and!; auto using Forall_take, Forall_drop.
Qed.

Lemma list_alter_insert {A} (f : A → A) b (bs : list A) x :
  bs !! b = Some x → alter f b bs = <[b := f x]> bs.
Proof.
  intros Hx. apply list_eq. intros i. destruct (decide (i = b)) as [->|Hi].
  - rewrite list_lookup_alter_eq, list_lookup_insert_eq by (by eapply lookup_lt_Some). by rewrite Hx.
  - by rewrite list_lookup_alter_ne, list_lookup_insert_ne by done.
Qed.

(** ** Lemmas: C strings *)

Lemma cstr_app s r : nonul s → cstr (s ++ 0 :: r) = Some s.
Proof.
  unfold nonul. induction 1 as [|b s Hb _ IH]; simpl; [done|].
  rewrite (proj2 (Z.eqb_neq b 0) Hb). by rewrite IH.
Qed.

Lemma cstr_nonul l s : cstr l = Some s → nonul s.
Proof.
  revert s. induction l as [|b l IH]; intros s H; simpl in H; [done|].
  destruct (Z.eqb_spec b 0); simplify_eq; [by constructor|].
  destruct (cstr l) as [r|]; simplify_eq/=. constructor; [done|]. by apply IH.
Qed.

Lemma cstr_split l s : cstr l = Some s → ∃ r, l = s ++ 0 :: r.
Proof.
  revert s. induction l as [|b l IH]; intros s H; simpl in H; [done|].
  destruct (Z.eqb_spec b 0); simplify_eq; [by exists l|].
  destruct (cstr l) as [r|]; simplify_eq/=. destruct (IH r) as [r' ->]; [done|].
  by exists r'.
Qed.

Lemma cstr_app_l l r s : cstr l = Some s → cstr (l ++ r) = Some s.
Proof.
  intros H. pose proof (cstr_nonul _ _ H). apply cstr_split in H as [r' ->].
  rewrite <-app_assoc. by apply cstr_app.
Qed.

(** ** Automation *)

#[global] Arguments le_bytes : simpl never.
#[global] Arguments le_val : simpl never.
#[global] Arguments splice : simpl never.
#[global] Arguments slice : simpl never.

Create HintDb c.
Create Rewrite HintDb c.
#[export] Hint Rewrite @length_app @length_take @length_drop @length_insert @length_fmap
  @length_replicate length_le_bytes @length_seqZ : c.
#[export] Hint Resolve u8_byte le_bytes_bytes u32_range i32_range : c.
(** [len] normalises lengths and closes the arithmetic. *)
Ltac len := autorewrite with c in *; try lia.
