(* ===== verification/CString.v ===== *)
(** The string and memory routines of [xv6/kernel/string.c] and
    [xv6/user/ulib.c] (the second also stands for the C library's [strcmp] and
    [strcpy] that [linux/lfs.c] calls).

    Memory is a list of bytes and a pointer into it an index; a routine that
    reads or writes past the list returns [None] (undefined behaviour). *)

From S2P Require Import Prelude.

(** ** Definitions *)

(** [memset(dst, c, n)]: the kernel's goes through [stosb], which stores the
    low byte of [c]. *)
Definition memset (mem : list Z) (dst : nat) (c : Z) (n : nat) : option (list Z) :=
  if decide (dst + n ≤ length mem)%nat
  then Some (splice dst (replicate n (u8 c)) mem) else None.

Fixpoint memcmp (v1 v2 : list Z) (n : nat) : option Z :=
  match n with
  | O => Some 0
  | S n' =>
      match v1, v2 with
      | a :: v1', b :: v2' => if a =? b then memcmp v1' v2' n' else Some (a - b)
      | _, _ => None
      end
  end.

(** One byte store [*d = *s]. *)
Definition copy1 (mem : list Z) (d s : nat) : option (list Z) :=
  b ← mem !! s; if decide (d < length mem)%nat then Some (<[d:=b]> mem) else None.

(** [while(n-- > 0) *--d = *--s;] from [d + n], [s + n] downwards. *)
Fixpoint copy_backward (mem : list Z) (d s n : nat) : option (list Z) :=
  match n with
  | O => Some mem
  | S n' => mem' ← copy1 mem (d + n')%nat (s + n')%nat; copy_backward mem' d s n'
  end.

(** [while(n-- > 0) *d++ = *s++;] *)
Fixpoint copy_forward (mem : list Z) (d s n : nat) : option (list Z) :=
  match n with
  | O => Some mem
  | S n' => mem' ← copy1 mem d s; copy_forward mem' (S d) (S s) n'
  end.

(** The kernel's [memmove] picks the direction by the overlap... *)
Definition memmove (mem : list Z) (dst src n : nat) : option (list Z) :=
  if decide (src < dst ∧ dst < src + n)%nat
  then copy_backward mem dst src n
  else copy_forward mem dst src n.

(** ... its [memcpy] forwards to it ... *)
Definition memcpy (mem : list Z) (dst src n : nat) : option (list Z) := memmove mem dst src n.

(** ... and the user library's always copies upwards. *)
Definition memmove_user (mem : list Z) (vdst vsrc n : nat) : option (list Z) :=
  copy_forward mem vdst vsrc n.

Fixpoint strncmp (p q : list Z) (n : nat) : option Z :=
  match n with
  | O => Some 0
  | S n' =>
      match p, q with
      | a :: p', b :: q' =>
          if negb (a =? 0) && (a =? b) then strncmp p' q' n' else Some (a - b)
      | _, _ => None
      end
  end.

(** The [n] bytes [strncpy] stores: the string, then NULs. *)
Fixpoint strncpy_bytes (t : list Z) (n : nat) : option (list Z) :=
  match n with
  | O => Some []
  | S n' =>
      match t with
      | [] => None
      | b :: t' => if b =? 0 then Some (0 :: replicate n' 0)
                   else (λ r, b :: r) <$> strncpy_bytes t' n'
      end
  end.
Definition strncpy (s t : list Z) (n : nat) : option (list Z) :=
  bs ← strncpy_bytes t n;
  if decide (n ≤ length s)%nat then Some (splice 0 bs s) else None.

(** [safestrcpy]: at most [n - 1] bytes and always a NUL; when the loop stops
    at the source's NUL, the final store is a second one. *)
Fixpoint safestrcpy_bytes (t : list Z) (n : nat) : option (list Z) :=
  match n with
  | O => Some []
  | S n' =>
      if decide (n' = O) then Some [0] else
      match t with
      | [] => None
      | b :: t' => if b =? 0 then Some [0; 0] else (λ r, b :: r) <$> safestrcpy_bytes t' n'
      end
  end.
Definition safestrcpy (s t : list Z) (n : nat) : option (list Z) :=
  bs ← safestrcpy_bytes t n;
  if decide (n ≤ length s)%nat then Some (splice 0 bs s) else None.

Fixpoint strlen (s : list Z) : option Z :=
  match s with
  | [] => None
  | b :: s' => if b =? 0 then Some 0 else Z.succ <$> strlen s'
  end.

(** [strcpy(s, t)] into the object [s] at offset [d]: the string and its NUL. *)
Definition strcpy (s : list Z) (d : nat) (t : list Z) : option (list Z) :=
  bs ← cstr t;
  if decide (d + length bs + 1 ≤ length s)%nat
  then Some (splice d (bs ++ [0]) s) else None.

Fixpoint strcmp (p q : list Z) : option Z :=
  match p, q with
  | a :: p', b :: q' =>
      if negb (a =? 0) && (a =? b) then strcmp p' q' else Some (u8 a - u8 b)
  | _, _ => None
  end.

(** [strchr]: the suffix at the first [c], or the null pointer ([Some None]). *)
Fixpoint strchr (s : list Z) (c : Z) : option (option (list Z)) :=
  match s with
  | [] => None
  | b :: s' =>
      if b =? 0 then Some None
      else if b =? c then Some (Some s) else strchr s' c
  end.

(** [atoi], in [int] arithmetic. *)
Fixpoint atoi_loop (s : list Z) (n : Z) : option Z :=
  match s with
  | [] => None
  | c :: s' =>
      if (48 <=? c) && (c <=? 57) then atoi_loop s' (i32 (n * 10 + c - 48)) else Some n
  end.
Definition atoi (s : list Z) : option Z := atoi_loop s 0.

(** ** Copies *)

Section copies.
Implicit Types (mem : list Z) (d s n j : nat).

Lemma copy1_Some mem d s :
  (s < length mem)%nat → (d < length mem)%nat →
  ∃ b, mem !! s = Some b ∧ copy1 mem d s = Some (<[d:=b]> mem).
Proof.
  intros Hs Hd. destruct (lookup_lt_is_Some_2 mem s Hs) as [b Hb]. exists b. split; [done|].
  unfold copy1. rewrite Hb. simpl. by rewrite decide_True.
Qed.

(** The cells a copy of [n] bytes from [s] to [d] leaves. *)
Definition copied mem mem' d s n : Prop :=
  length mem' = length mem ∧
  ∀ j, mem' !! j = if decide (d ≤ j < d + n)%nat then mem !! (s + (j - d))%nat else mem !! j.

Lemma copy_forward_copied n mem d s :
  (d ≤ s ∨ s + n ≤ d)%nat → (d + n ≤ length mem)%nat → (s + n ≤ length mem)%nat →
  ∃ mem', copy_forward mem d s n = Some mem' ∧ copied mem mem' d s n.
Proof.
  revert mem d s. induction n as [|n IH]; intros mem d s Ho Hd Hs.
  { exists mem. split; [done|]. split; [done|]. intros j. rewrite decide_False; [done|lia]. }
  destruct (copy1_Some mem d s) as (b & Hb & E); [lia..|].
  destruct (IH (<[d:=b]> mem) (S d) (S s)) as (mem' & E' & Hl & Hj); [len..|].
  exists mem'. cbn [copy_forward]. rewrite E. split; [done|]. split; [by rewrite Hl, length_insert|].
  intros j. rewrite Hj. repeat case_decide; try lia.
  - rewrite list_lookup_insert_ne by lia. f_equal. lia.
  - replace j with d by lia. rewrite list_lookup_insert_eq by lia.
    by replace (s + (d - d))%nat with s by lia.
  - by rewrite list_lookup_insert_ne by lia.
Qed.

Lemma copy_backward_copied n mem d s :
  (s ≤ d)%nat → (d + n ≤ length mem)%nat → (s + n ≤ length mem)%nat →
  ∃ mem', copy_backward mem d s n = Some mem' ∧ copied mem mem' d s n.
Proof.
  revert mem. induction n as [|n IH]; intros mem Ho Hd Hs.
  { exists mem. split; [done|]. split; [done|]. intros j. rewrite decide_False; [done|lia]. }
  destruct (copy1_Some mem (d + n) (s + n)) as (b & Hb & E); [lia..|].
  destruct (IH (<[(d + n)%nat:=b]> mem)) as (mem' & E' & Hl & Hj); [len..|].
  exists mem'. cbn [copy_backward]. rewrite E. split; [done|].
  split; [by rewrite Hl, length_insert|].
  intros j. rewrite Hj. repeat case_decide; try lia.
  - by rewrite list_lookup_insert_ne by lia.
  - replace j with (d + n)%nat by lia. rewrite list_lookup_insert_eq by lia.
    by replace (s + (d + n - d))%nat with (s + n)%nat by lia.
  - by rewrite list_lookup_insert_ne by lia.
Qed.

Lemma copied_splice mem mem' d s n :
  (d + n ≤ length mem)%nat → (s + n ≤ length mem)%nat →
  copied mem mem' d s n → mem' = splice d (slice s n mem) mem.
Proof.
  intros Hd Hs [Hl Hj]. apply list_eq. intros j. rewrite Hj.
  assert (length (slice s n mem) = n) as Hn by (by apply length_slice).
  case_decide.
  - rewrite lookup_splice_in by lia. rewrite lookup_slice, decide_True by lia. done.
  - by rewrite lookup_splice_out by lia.
Qed.
End copies.

(** The kernel's memmove copies correctly for every overlap of source and
    destination: the destination range gets the bytes the source range had
    before the call, and nothing else changes. *)
Theorem memmove_correct mem dst src n :
  (dst + n ≤ length mem)%nat → (src + n ≤ length mem)%nat →
  memmove mem dst src n = Some (splice dst (slice src n mem) mem).
Proof.
  intros Hd Hs. unfold memmove. case_decide.
  - destruct (copy_backward_copied n mem dst src) as (mem' & -> & Hc); [lia..|].
    f_equal. by apply copied_splice.
  - destruct (copy_forward_copied n mem dst src) as (mem' & -> & Hc); [lia..|].
    f_equal. by apply copied_splice.
Qed.

Lemma memmove_correct_witness :
  memmove [1; 2; 3; 4; 5] 1 0 4 = Some [1; 1; 2; 3; 4].
Proof. apply (memmove_correct [1; 2; 3; 4; 5] 1 0 4); simpl; lia. Defined.

(** The user library's version agrees with it unless the destination lies
    inside the source range above its start. *)
Lemma memmove_user_correct mem dst src n :
  (dst ≤ src ∨ src + n ≤ dst)%nat → memmove_user mem dst src n = memmove mem dst src n.
Proof. intros Ho. unfold memmove, memmove_user. by rewrite decide_False by lia. Qed.

(** There the copy smears the first byte over the destination. *)
Lemma memmove_user_smears :
  memmove_user [1; 2; 3; 4; 5] 1 0 4 = Some [1; 1; 1; 1; 1]
  ∧ memmove [1; 2; 3; 4; 5] 1 0 4 = Some [1; 1; 2; 3; 4].
Proof. done. Qed.

(** ** Strings *)

(** A string that fits is copied whole. *)
Lemma safestrcpy_bytes_cstr from : ∀ nm n, cstr from = Some nm → (length nm < n)%nat →
  ∃ z, safestrcpy_bytes from n = Some (nm ++ 0 :: z).
Proof.
  induction from as [|b from IH]; intros nm [|n] Hc Hn; try lia; [done|]. cbn [cstr safestrcpy_bytes] in *.
  destruct (Z.eqb_spec b 0) as [->|Hb].
  - injection Hc as <-. case_decide; by eexists.
  - destruct (cstr from) as [nm'|]; [|done]. injection Hc as <-. cbn [length] in Hn. rewrite decide_False by lia.
    destruct (IH nm' n eq_refl ltac:(lia)) as [z ->]. by exists z.
Qed.

Lemma safestrcpy_cstr to from nm n : cstr from = Some nm → (length nm < n ≤ length to)%nat →
  ∃ r, safestrcpy to from n = Some r ∧ cstr r = Some nm.
Proof.
  intros Hc Hn. unfold safestrcpy. destruct (safestrcpy_bytes_cstr from nm n Hc ltac:(lia)) as [z ->]. cbn [mbind option_bind].
  rewrite decide_True by lia. eexists. split; [done|]. unfold splice. rewrite take_0, Nat.sub_0_r, app_nil_l.
  rewrite take_app, take_ge by lia. destruct (length to - length nm)%nat as [|m] eqn:E; [lia|]. cbn [take].
  rewrite <-app_assoc. cbn [app]. apply cstr_app. by eapply cstr_nonul.
Qed.

Lemma strlen_cstr l s : cstr l = Some s → strlen l = Some (Z.of_nat (length s)).
Proof.
  revert s. induction l as [|b l IH]; intros s H; simpl in *; [done|].
  destruct (b =? 0); simplify_eq/=; [done|].
  destruct (cstr l) as [r|]; simplify_eq/=. rewrite (IH r) by done. simpl. f_equal. lia.
Qed.

Lemma u8_inj a b : is_byte a → is_byte b → u8 a - u8 b = 0 → a = b.
Proof. unfold is_byte. intros ??. rewrite !u8_small by done. lia. Qed.

(** [strcmp] of two strings of bytes: defined, and zero exactly on equality. *)
Lemma strcmp_strings p q s t :
  cstr p = Some s → cstr q = Some t → Forall is_byte p → Forall is_byte q →
  ∃ z, strcmp p q = Some z ∧ (z = 0 ↔ s = t).
Proof.
  revert q s t. induction p as [|a p IH]; intros [|b q] s t Hp Hq Bp Bq; simpl in *; try done.
  apply Forall_cons_1 in Bp as [Ba Bp]. apply Forall_cons_1 in Bq as [Bb Bq].
  destruct (Z.eqb_spec a 0) as [->|Ha], (Z.eqb_spec b 0) as [->|Hb]; simplify_eq/=.
  - by exists 0.
  - destruct (cstr q); simplify_eq/=. eexists; split; [done|]. split; [|done].
    intros E. apply u8_inj in E; done.
  - rewrite (proj2 (Z.eqb_neq a 0)) by done.
    destruct (cstr p); simplify_eq/=. eexists; split; [done|]. split; [|done].
    intros E. apply u8_inj in E; done.
  - destruct (cstr p) as [s'|] eqn:Es, (cstr q) as [t'|] eqn:Et; simplify_eq/=.
    destruct (Z.eqb_spec a b) as [->|Hab].
    + destruct (IH q s' t') as (z & -> & Hz); [done..|]. exists z. split; [done|].
      rewrite Hz. naive_solver.
    + eexists; split; [done|]. split; [|naive_solver].
      intros E. by apply u8_inj in E.
Qed.
