(* ===== verification/UnixFile.v ===== *)
(** The open file of [linux/lfs.c]: a file image and its offset, with the
    [lseek]/[read]/[write] of POSIX as the server uses them. A seek to a
    negative offset fails and leaves the offset alone; a read stops at the end
    of the file; a write past the end extends the file with zeroes. The device
    does not fail and is never full: the server checks no return value. *)

From S2P Require Import Prelude.

Record file := mkFile {
  fdata : gmap Z Z;   (* offset to byte; a hole reads as zero *)
  fsize : Z;
  foff : Z
}.

Definition empty_file : file := mkFile ∅ 0 0.

Fixpoint put_bytes (m : gmap Z Z) (o : Z) (bs : list Z) : gmap Z Z :=
  match bs with
  | [] => m
  | b :: bs' => put_bytes (<[o:=b]> m) (o + 1) bs'
  end.

Definition bytes_at (m : gmap Z Z) (o n : Z) : list Z :=
  (λ i, default 0 (m !! i)) <$> seqZ o n.

Definition flseek (o : Z) (f : file) : file :=
  if o <? 0 then f else mkFile (fdata f) (fsize f) o.

(** The bytes read (at most [n]) and the file with its offset moved. *)
Definition fread (n : Z) (f : file) : list Z * file :=
  let k := Z.max 0 (Z.min n (fsize f - foff f)) in
  (bytes_at (fdata f) (foff f) k, mkFile (fdata f) (fsize f) (foff f + k)).

Definition fwrite (bs : list Z) (f : file) : file :=
  let o' := foff f + Z.of_nat (length bs) in
  mkFile (put_bytes (fdata f) (foff f) bs) (Z.max (fsize f) o') o'.

(** Bytes read over the old contents of a buffer: a short read leaves its tail. *)
Definition overlay (old bs : list Z) : list Z := bs ++ drop (length bs) old.

(** ** Lemmas *)

Lemma lookup_put_bytes bs : ∀ m o i,
  put_bytes m o bs !! i =
  if decide (o ≤ i < o + Z.of_nat (length bs)) then bs !! Z.to_nat (i - o) else m !! i.
Proof.
  induction bs as [|b bs IH]; intros m o i; cbn [put_bytes length].
  { rewrite decide_False by lia. done. }
  rewrite IH. repeat case_decide; try lia.
  - replace (Z.to_nat (i - o)) with (S (Z.to_nat (i - (o + 1)))) by lia. done.
  - replace i with o by lia. rewrite lookup_insert_eq.
    by replace (Z.to_nat (o - o)) with O by lia.
  - by rewrite lookup_insert_ne by lia.
Qed.

Lemma length_bytes_at m o n : length (bytes_at m o n) = Z.to_nat n.
Proof. unfold bytes_at. by rewrite length_fmap, length_seqZ. Qed.

Lemma lookup_bytes_at m o n i :
  bytes_at m o n !! i =
  if decide (Z.of_nat i < n) then Some (default 0 (m !! (o + Z.of_nat i))) else None.
Proof.
  unfold bytes_at. rewrite list_lookup_fmap. case_decide.
  - by rewrite lookup_seqZ_lt by lia.
  - by rewrite lookup_seqZ_ge by lia.
Qed.

Lemma bytes_at_ext m m' o n :
  (∀ i, o ≤ i < o + n → m' !! i = m !! i) → bytes_at m' o n = bytes_at m o n.
Proof.
  intros H. apply list_eq. intros i. rewrite !lookup_bytes_at. case_decide; [|done].
  by rewrite H by lia.
Qed.

Lemma bytes_at_prefix m o n k :
  0 ≤ k ≤ n → bytes_at m o k = take (Z.to_nat k) (bytes_at m o n).
Proof.
  intros H. apply list_eq. intros i. rewrite lookup_bytes_at. case_decide.
  - rewrite lookup_take_lt, lookup_bytes_at, decide_True by lia. done.
  - by rewrite lookup_take_ge by lia.
Qed.

Lemma bytes_at_put_other m o' bs o n :
  o + n ≤ o' ∨ o' + Z.of_nat (length bs) ≤ o →
  bytes_at (put_bytes m o' bs) o n = bytes_at m o n.
Proof.
  intros H. apply bytes_at_ext. intros i Hi. rewrite lookup_put_bytes.
  by rewrite decide_False by lia.
Qed.

(** A window inside the bytes just written. *)
Lemma bytes_at_put_in m o' bs o n :
  o' ≤ o → o + n ≤ o' + Z.of_nat (length bs) →
  bytes_at (put_bytes m o' bs) o n = take (Z.to_nat n) (drop (Z.to_nat (o - o')) bs).
Proof.
  intros Ho Hn. apply list_eq. intros i. rewrite lookup_bytes_at. case_decide as Hi.
  - rewrite lookup_put_bytes, decide_True by lia.
    rewrite lookup_take_lt, lookup_drop by lia.
    replace (Z.to_nat (o + Z.of_nat i - o')) with (Z.to_nat (o - o') + i)%nat by lia.
    destruct (lookup_lt_is_Some_2 bs (Z.to_nat (o - o') + i)%nat) as [b Hb]; [lia|].
    by rewrite Hb.
  - by rewrite lookup_take_ge by lia.
Qed.

Lemma bytes_at_put_same m o bs n :
  n = Z.of_nat (length bs) → bytes_at (put_bytes m o bs) o n = bs.
Proof.
  intros ->. rewrite bytes_at_put_in, Z.sub_diag, Nat2Z.id, drop_0 by lia.
  by apply take_ge.
Qed.

Lemma fsize_flseek f o : fsize (flseek o f) = fsize f.
Proof. unfold flseek. by destruct (o <? 0). Qed.

Lemma foff_flseek f o : 0 ≤ o → foff (flseek o f) = o.
Proof. intros. unfold flseek. by rewrite (proj2 (Z.ltb_ge o 0)). Qed.

Lemma fdata_flseek f o : fdata (flseek o f) = fdata f.
Proof. unfold flseek. by destruct (o <? 0). Qed.

(** A read wholly inside the file returns its bytes. *)
Lemma fread_full n f :
  0 ≤ n → foff f + n ≤ fsize f →
  fread n f = (bytes_at (fdata f) (foff f) n, mkFile (fdata f) (fsize f) (foff f + n)).
Proof. intros. unfold fread. by replace (Z.max 0 (Z.min n (fsize f - foff f))) with n by lia. Qed.

Lemma overlay_full old bs : length bs = length old → overlay old bs = bs.
Proof. intros H. unfold overlay. rewrite H, drop_ge by lia. apply app_nil_r. Qed.

Lemma length_overlay old bs : (length bs ≤ length old)%nat → length (overlay old bs) = length old.
Proof. intros. unfold overlay. len. Qed.

#[export] Hint Rewrite length_bytes_at fsize_flseek fdata_flseek : c.

#[global] Opaque bytes_at put_bytes.
