(* ===== verification/Lfs.v ===== *)
(** The log-structured file server of [linux/lfs.c]: the data model, the
    on-disk encoding and every [*_server] routine, on the open file of
    [UnixFile]. What the routines promise is in [LfsSpec] and [LfsProofs].

    A [name] argument is the memory at the pointer, NUL included. An
    uninitialised local is a parameter: byte [i] of the object [x] is
    [uninit x i], and every theorem holds for all of them. *)

From S2P Require Import Prelude CString UnixFile.

(** ** Constants and data ([lfs.h], [mfs.h]) *)

Definition MAXINODES : Z := 4096.
Definition CRSIZE : Z := 6.
Definition BLOCKSIZE : Z := 4096.
Definition MFS_DIRECTORY : Z := 0.
Definition MFS_REGULAR_FILE : Z := 1.
Definition NDPTR : Z := 14.
Definition NDIRENT : nat := 128.
Definition NAMELEN : nat := 28.

Record inode := mkInode {
  i_size : Z;
  i_type : Z;
  i_inum : Z;
  dpointers : list Z;
  dp_used : list Z
}.

Record directory := mkDir {
  inums : list Z;
  names : list Z   (* the 128 arrays of 28 bytes, one after the other *)
}.

Record MFS_Stat_t := mkStat { st_type : Z; st_size : Z }.

(** The server's globals: [imap], [next_block] and the file behind [fd]. *)
Record lfs := mkLfs { imap : list Z; next_block : Z; fd : file }.

(** ** Encoding: the structs are arrays of 4-byte ints, little-endian *)

Definition enc_ints (zs : list Z) : list Z := zs ≫= le_bytes 4.
Definition dec_ints (n : nat) (bs : list Z) : list Z :=
  (λ i, i32 (le_val (slice (4 * i) 4 bs))) <$> seq 0 n.
#[global] Arguments enc_ints : simpl never.
#[global] Arguments dec_ints : simpl never.

Definition INODE_BYTES : Z := 124.
Definition enc_inode (n : inode) : list Z :=
  enc_ints (i_size n :: i_type n :: i_inum n :: dpointers n ++ dp_used n).
Definition dec_inode (bs : list Z) : inode :=
  let w := dec_ints 31 bs in
  mkInode (default 0 (w !! 0%nat)) (default 0 (w !! 1%nat)) (default 0 (w !! 2%nat))
    (slice 3 14 w) (slice 17 14 w).

Definition enc_dir (d : directory) : list Z := enc_ints (inums d) ++ names d.
Definition dec_dir (bs : list Z) : directory :=
  mkDir (dec_ints NDIRENT bs) (slice 512 3584 bs).

(** ** Uninitialised locals *)

Class Uninit := uninit : string → Z → Z.
Definition junk `{Uninit} (x : string) (n : Z) : list Z :=
  (λ i, u8 (uninit x i)) <$> seqZ 0 n.

(** ** Accessors *)

Definition idx (l : list Z) (i : Z) : Z := default 0 (l !! Z.to_nat i).
Definition set_idx (l : list Z) (i v : Z) : list Z := <[Z.to_nat i:=v]> l.

Definition set_imap (v : list Z) (s : lfs) : lfs := mkLfs v (next_block s) (fd s).
Definition set_next (v : Z) (s : lfs) : lfs := mkLfs (imap s) v (fd s).
Definition set_fd (v : file) (s : lfs) : lfs := mkLfs (imap s) (next_block s) v.

(** [imap[inum]]; out of range is undefined. *)
Definition imap_get (inum : Z) : M lfs Z := λ s,
  if decide (0 ≤ inum) then need (imap s !! Z.to_nat inum) s else Undef.
Definition imap_set (inum v : Z) : M lfs unit := λ s,
  if decide (0 ≤ inum < Z.of_nat (length (imap s)))
  then Ok (tt, set_imap (set_idx (imap s) inum v) s) else Undef.

Definition lseek (o : Z) : M lfs unit := modify (λ s, set_fd (flseek o (fd s)) s).
(** [block * BLOCKSIZE] is an [int] product. *)
Definition seek_block (b : Z) : M lfs unit := lseek (i32 (b * BLOCKSIZE)).
(** [read(fd, buf, n)] into a buffer that held [old]. *)
Definition read (old : list Z) (n : Z) : M lfs (list Z) := λ s,
  let '(bs, f) := fread n (fd s) in Ok (overlay old bs, set_fd f s).
Definition write (bs : list Z) : M lfs unit := modify (λ s, set_fd (fwrite bs (fd s)) s).
(** [next_block++] *)
Definition bump : M lfs unit := modify (λ s, set_next (i32 (next_block s + 1)) s).

(** ** Routines *)

Section server.
  Context `{Uninit}.

Definition update_CR (inum : Z) : M lfs Z :=
  when (negb (inum =? -1)) (
    lseek (inum * 4);;
    e ← imap_get inum;
    write (le_bytes 4 e));;
  lseek (MAXINODES * 4);;
  nb ← gets next_block;
  write (le_bytes 4 nb);;
  mret 0.

(** [find_inode]: the return value and the node, which starts as [node]. *)
Definition find_inode (inum : Z) (node : inode) : M lfs (Z * inode) :=
  if (inum <? 0) || (inum >=? MAXINODES) then mret (-1, node) else
  inode_block ← imap_get inum;
  seek_block inode_block;;
  bs ← read (enc_inode node) INODE_BYTES;
  mret (0, dec_inode bs).

Definition DNE : list Z := zstr "DNE" ++ [0].

(** [strcpy(d.names[i], s)] for a literal that fits the slot. *)
Definition set_name (i : nat) (s nm : list Z) : list Z := splice (NAMELEN * i) s nm.

(** The loop that blanks the slots from [i0] on. *)
Definition blank_dir (i0 : nat) (d : directory) : directory :=
  foldl (λ d i, mkDir (<[i:=-1]> (inums d)) (set_name i DNE (names d))) d
    (seq i0 (NDIRENT - i0)).

(** The entries "." and "..". *)
Definition dot_entries (inum pinum : Z) (d : directory) : directory :=
  mkDir (<[1%nat:=pinum]> (<[0%nat:=inum]> (inums d)))
    (set_name 1 (zstr ".." ++ [0]) (set_name 0 (zstr "." ++ [0]) (names d))).

Definition junk_dir (x : string) : directory := dec_dir (junk x BLOCKSIZE).
Definition junk_inode (x : string) : inode := dec_inode (junk x INODE_BYTES).

Definition build_dir_block (first_block inum pinum : Z) : M lfs Z :=
  let d := blank_dir 0 (junk_dir "build_dir_block.d") in
  let d := if ctrue first_block then dot_entries inum pinum d else d in
  nb ← gets next_block;
  seek_block nb;;
  write (enc_dir d);;
  bump;;
  nb' ← gets next_block;
  mret (nb' - 1).

(** [start_server] up to [listenOnServer]. [opened] is what [open(path, O_RDWR)]
    gives, [created] whether the [O_CREAT] that follows a failure succeeds. *)
Definition format_server : M lfs unit :=
  modify (set_next CRSIZE);;
  modify (set_imap (replicate (Z.to_nat MAXINODES) (-1)));;
  lseek 0;;
  m ← gets imap;
  write (enc_ints m);;
  nb ← gets next_block;
  write (le_bytes 4 nb);;
  let root_node := mkInode BLOCKSIZE MFS_DIRECTORY 0
    (nb :: replicate 13 (-1)) (1 :: replicate 13 0) in
  let base_block := blank_dir 2 (dot_entries 0 0 (junk_dir "start_server.base_block")) in
  seek_block nb;;
  write (enc_dir base_block);;
  bump;;
  nb1 ← gets next_block;
  imap_set 0 nb1;;
  seek_block nb1;;
  write (enc_inode root_node);;
  bump;;
  update_CR 0;;
  mret tt.

(** The globals start as zeroes; a short image leaves their tail. *)
Definition recover_server : M lfs unit :=
  lseek 0;;
  bs ← read (replicate (Z.to_nat (4 * MAXINODES)) 0) (4 * MAXINODES);
  modify (set_imap (dec_ints (Z.to_nat MAXINODES) bs));;
  nb ← read (replicate 4 0) 4;
  modify (set_next (i32 (le_val nb))).

Definition start_server (opened : option file) (created : bool) : outcome (option lfs) :=
  let run m f := match m (mkLfs [] 0 f) with
                 | Ok (_, s) => Ok (Some s) | Panic e => Panic e
                 | Blocked => Blocked | Undef => Undef | NoFuel => NoFuel end in
  match opened with
  | Some f => run recover_server f
  | None => if created then run format_server empty_file else Ok None
  end.

(** The scan [for(j...) if(strcmp(direct.names[j], name) == 0)]: the first
    matching slot from [j] on. *)
Fixpoint find_name (n j : nat) (nm name : list Z) : outcome (option nat) :=
  match n with
  | O => Ok None
  | S n' =>
      match strcmp (drop (NAMELEN * j) nm) name with
      | None => Undef
      | Some c => if c =? 0 then Ok (Some j) else find_name n' (S j) nm name
      end
  end.

Definition lift_o {A} (o : outcome A) : M lfs A := λ s,
  match o with
  | Ok a => Ok (a, s) | Panic m => Panic m
  | Blocked => Blocked | Undef => Undef | NoFuel => NoFuel
  end.

Definition lookup_block (b : Z) (direct : directory) : M lfs directory :=
  seek_block b;;
  bs ← read (enc_dir direct) BLOCKSIZE;
  mret (dec_dir bs).

(** The loop over the direct pointers, [n] of them left. *)
Fixpoint lookup_loop (n : nat) (i : Z) (pinode : inode) (direct : directory)
    (name : list Z) : M lfs Z :=
  match n with
  | O => mret (-1)
  | S n' =>
      if idx (dp_used pinode) i =? 1 then
        direct ← lookup_block (idx (dpointers pinode) i) direct;
        o ← lift_o (find_name NDIRENT 0 (names direct) name);
        match o with
        | Some j => mret (idx (inums direct) (Z.of_nat j))
        | None => lookup_loop n' (i + 1) pinode direct name
        end
      else lookup_loop n' (i + 1) pinode direct name
  end.

Definition lookup_server (pinum : Z) (name : list Z) : M lfs Z :=
  '(rc, pinode) ← find_inode pinum (junk_inode "lookup_server.pinode");
  if negb (rc =? 0) then mret (-1) else
  lookup_loop (Z.to_nat NDPTR) 0 pinode (junk_dir "lookup_server.direct") name.

Definition stat_server (inum : Z) (m : MFS_Stat_t) : M lfs (Z * MFS_Stat_t) :=
  '(rc, node) ← find_inode inum (junk_inode "stat_server.node");
  if rc =? -1 then mret (-1, m) else
  mret (0, mkStat (i_type node) (i_size node)).

(** The first slot of an array that holds -1, from index [i] on. *)
Fixpoint first_free (l : list Z) (i : Z) : option Z :=
  match l with
  | [] => None
  | x :: l' => if x =? -1 then Some i else first_free l' (i + 1)
  end.

(** The body of the inner loop once a free slot [e] of block [b] is found. *)
Definition creat_entry (pinum type inum b e : Z) (name : list Z)
    (parent : inode) (block : directory) : M lfs Z :=
  pb ← imap_get pinum;
  seek_block pb;;
  (* BLOCKSIZE bytes from &parent: the struct and the stack above it *)
  write (enc_inode parent ++ junk "creat_server.above_parent" (BLOCKSIZE - INODE_BYTES));;
  nm ← need (strcpy (names block) (NAMELEN * Z.to_nat e) name);
  let block := mkDir (set_idx (inums block) e inum) nm in
  seek_block (idx (dpointers parent) b);;
  write (enc_dir block);;
  let n := mkInode 0 type inum (replicate 14 (-1)) (replicate 14 0) in
  n ← (if type =? MFS_DIRECTORY then
         nb ← gets next_block;
         build_dir_block 1 inum pinum;;
         mret (mkInode (i_size n + BLOCKSIZE) type inum
           (set_idx (dpointers n) 0 nb) (set_idx (dp_used n) 0 1))
       else mret n);
  if negb (type =? MFS_DIRECTORY) && negb (type =? MFS_REGULAR_FILE) then mret (-1) else
  nb ← gets next_block;
  imap_set inum nb;;
  seek_block nb;;
  write (enc_inode n);;
  bump;;
  update_CR inum;;
  mret 0.

(** The loop over the parent's pointers. An unused one gets a fresh block and
    is looked at again ([b--]), so 14 pointers need at most 28 rounds and one
    to leave. *)
Fixpoint creat_loop (fuel : nat) (pinum type inum b : Z) (name : list Z)
    (parent : inode) (block : directory) : M lfs Z :=
  match fuel with
  | O => nofuel
  | S fuel' =>
      if b <? NDPTR then
        if ctrue (idx (dp_used parent) b) then
          block ← lookup_block (idx (dpointers parent) b) block;
          match first_free (inums block) 0 with
          | Some e => creat_entry pinum type inum b e name parent block
          | None => creat_loop fuel' pinum type inum (b + 1) name parent block
          end
        else
          bl ← build_dir_block 0 inum (-1);
          let parent := mkInode (i32 (i_size parent + BLOCKSIZE)) (i_type parent)
            (i_inum parent) (set_idx (dpointers parent) b bl)
            (set_idx (dp_used parent) b 1) in
          creat_loop fuel' pinum type inum (b - 1 + 1) name parent block
      else mret (-1)
  end.
Definition CREAT_FUEL : nat := 29.

Definition creat_server (pinum type : Z) (name : list Z) : M lfs Z :=
  '(rc, parent) ← find_inode pinum (junk_inode "creat_server.parent");
  if rc =? -1 then mret (-1) else
  if negb (i_type parent =? MFS_DIRECTORY) then mret (-1) else
  l ← lookup_server pinum name;
  if negb (l =? -1) then mret 0 else
  m ← gets imap;
  match first_free m 0 with
  | None => mret (-1)
  | Some inum =>
      creat_loop CREAT_FUEL pinum type inum 0 name parent (junk_dir "creat_server.block")
  end.

Definition write_server (inum : Z) (buffer : list Z) (block : Z) : M lfs Z :=
  '(rc, node) ← find_inode inum (junk_inode "write_server.node");
  if negb (rc =? 0) then mret (-1) else
  if negb (i_type node =? MFS_REGULAR_FILE) then mret (-1) else
  if (block <? 0) || (block >? 13) then mret (-1) else
  data ← need (if decide (length buffer < Z.to_nat BLOCKSIZE)%nat then None
               else Some (take (Z.to_nat BLOCKSIZE) buffer));
  nb ← gets next_block;
  seek_block nb;;
  write data;;
  let used := if negb (ctrue (idx (dp_used node) block))
              then set_idx (dp_used node) block 1 else dp_used node in
  let size := if (block + 1) * BLOCKSIZE >? i_size node
              then (block + 1) * BLOCKSIZE else i_size node in
  let node := mkInode size (i_type node) (i_inum node)
    (set_idx (dpointers node) block nb) used in
  ib ← imap_get inum;
  seek_block ib;;
  write (enc_inode node);;
  bump;;
  update_CR inum;;
  mret 0.

(** [read_server]'s scan of one block of the parent: [dirEnt] is the 32 bytes
    of the [MFS_DirEnt_t], overwritten at every matching slot. *)
Fixpoint dirent_scan (n j : nat) (inum : Z) (direct : directory) (dirEnt : list Z)
    : outcome (list Z) :=
  match n with
  | O => Ok dirEnt
  | S n' =>
      if idx (inums direct) (Z.of_nat j) =? inum then
        match strcpy dirEnt 0 (drop (NAMELEN * j) (names direct)) with
        | None => Undef
        | Some de => dirent_scan n' (S j) inum direct (splice 28 (le_bytes 4 inum) de)
        end
      else dirent_scan n' (S j) inum direct dirEnt
  end.
Fixpoint dirent_loop (n : nat) (i inum : Z) (pnode : inode) (direct : directory)
    (dirEnt : list Z) : M lfs (list Z) :=
  match n with
  | O => mret dirEnt
  | S n' =>
      if idx (dp_used pnode) i =? 1 then
        direct ← lookup_block (idx (dpointers pnode) i) direct;
        dirEnt ← lift_o (dirent_scan NDIRENT 0 inum direct dirEnt);
        dirent_loop n' (i + 1) inum pnode direct dirEnt
      else dirent_loop n' (i + 1) inum pnode direct dirEnt
  end.

(** The return value and the caller's buffer, which held [buffer]. *)
Definition read_server (inum : Z) (buffer : list Z) (block : Z) : M lfs (Z * list Z) :=
  '(rc, node) ← find_inode inum (junk_inode "read_server.node");
  if negb (rc =? 0) then mret (-1, buffer) else
  if (block <? 0) || (block >? 13) then mret (-1, buffer) else
  if i_type node =? MFS_REGULAR_FILE then
    seek_block (idx (dpointers node) block);;
    bs ← read buffer BLOCKSIZE;
    mret (0, bs)
  else
    let pinum := idx (dpointers node) 1 in
    '(_, pnode) ← find_inode pinum (junk_inode "read_server.pnode");
    dirEnt ← dirent_loop (Z.to_nat NDPTR) 0 inum pnode
      (junk_dir "read_server.direct") (junk "read_server.dirEnt" 32);
    mret (0, overlay buffer dirEnt).

(** Is a slot from 2 on in use? *)
Definition dir_busy (d : directory) : bool :=
  existsb (λ x, negb (x =? -1)) (drop 2 (take NDIRENT (inums d))).

(** [unlink_server]'s loop from slot [j] on: [Some rc] is an early return. *)
Fixpoint unlink_loop (n j : nat) (name : list Z) (pinode node : inode)
    (direct : directory) : M lfs (option Z) :=
  match n with
  | O => mret None
  | S n' =>
      c ← need (strcmp (drop (NAMELEN * j) (names direct)) name);
      if negb (c =? 0) then unlink_loop n' (S j) name pinode node direct else
      let cleared := mkDir (<[j:=-1]> (inums direct)) (set_name j DNE (names direct)) in
      let clear :=
        seek_block (idx (dpointers pinode) 0);;
        write (enc_dir cleared);;
        unlink_loop n' (S j) name pinode node cleared in
      if i_type node =? MFS_REGULAR_FILE then clear else
      tempDir ← lookup_block (idx (dpointers node) 0) (junk_dir "unlink_server.tempDir");
      if dir_busy tempDir then mret (Some (-1)) else clear
  end.

Definition unlink_server (pinum : Z) (name : list Z) : M lfs Z :=
  '(rc, pinode) ← find_inode pinum (junk_inode "unlink_server.pinode");
  if negb (rc =? 0) then mret (-1) else
  if negb (i_type pinode =? MFS_DIRECTORY) then mret (-1) else
  direct ← lookup_block (idx (dpointers pinode) 0) (junk_dir "unlink_server.direct");
  inum ← lookup_server pinum name;
  if inum <? 0 then mret 0 else
  '(_, node) ← find_inode inum (junk_inode "unlink_server.node");
  o ← unlink_loop NDIRENT 0 name pinode node direct;
  match o with
  | Some rc => mret rc
  | None =>
      imap_set inum (-1);;
      update_CR inum;;
      mret 0
  end.

End server.
