(* ===== verification/Mfs.v ===== *)
(** The file system's protocol: the packet, the server's dispatch
    ([linux/listenServer.c]), the client's retransmission ([linux/sendPacket.c],
    [linux/udp.c]) and the client library ([linux/mfs.c]).

    The network is an argument: one [round] per turn of the client's loop says
    whether the copy of the request sent in that turn reaches the server, and
    which of the replies produced so far (if any) arrives before the timeout.
    So requests and replies may be lost, delayed and answered repeatedly. *)

From S2P Require Import Prelude CString UnixFile Lfs.

(** ** Packets ([mfs.h]) *)

Definition INIT : Z := 0.
Definition LOOKUP : Z := 1.
Definition STAT : Z := 2.
Definition WRITE : Z := 3.
Definition READ : Z := 4.
Definition CREAT : Z := 5.
Definition UNLINK : Z := 6.
Definition SHUTDOWN : Z := 7.
Definition RESPONSE : Z := 8.

Record MFS_Packet_t := mkPacket {
  pk_method : Z;
  pk_stat : MFS_Stat_t;
  pk_inum : Z;
  pk_type : Z;
  pk_block : Z;
  pk_name : list Z;    (* 28 bytes *)
  pk_buffer : list Z   (* 4096 bytes *)
}.

Definition MFS_BLOCK_SIZE : Z := 4096.

Section protocol.
Context `{Uninit}.

Definition junk_packet (x : string) : MFS_Packet_t :=
  mkPacket (uninit x 0) (mkStat (uninit x 1) (uninit x 2)) (uninit x 3) (uninit x 4) (uninit x 5)
    (junk (x +:+ ".name") 28) (junk (x +:+ ".buffer") MFS_BLOCK_SIZE).

Definition with_inum (i : Z) (p : MFS_Packet_t) : MFS_Packet_t :=
  mkPacket (pk_method p) (pk_stat p) i (pk_type p) (pk_block p) (pk_name p) (pk_buffer p).
Definition with_method (m : Z) (p : MFS_Packet_t) : MFS_Packet_t :=
  mkPacket m (pk_stat p) (pk_inum p) (pk_type p) (pk_block p) (pk_name p) (pk_buffer p).
Definition with_stat (st : MFS_Stat_t) (p : MFS_Packet_t) : MFS_Packet_t :=
  mkPacket (pk_method p) st (pk_inum p) (pk_type p) (pk_block p) (pk_name p) (pk_buffer p).
Definition with_type (t : Z) (p : MFS_Packet_t) : MFS_Packet_t :=
  mkPacket (pk_method p) (pk_stat p) (pk_inum p) t (pk_block p) (pk_name p) (pk_buffer p).
Definition with_block (b : Z) (p : MFS_Packet_t) : MFS_Packet_t :=
  mkPacket (pk_method p) (pk_stat p) (pk_inum p) (pk_type p) b (pk_name p) (pk_buffer p).
Definition with_name (n : list Z) (p : MFS_Packet_t) : MFS_Packet_t :=
  mkPacket (pk_method p) (pk_stat p) (pk_inum p) (pk_type p) (pk_block p) n (pk_buffer p).
Definition with_buffer (b : list Z) (p : MFS_Packet_t) : MFS_Packet_t :=
  mkPacket (pk_method p) (pk_stat p) (pk_inum p) (pk_type p) (pk_block p) (pk_name p) b.

(** The memory at [&sentPacket.name]: the name field, then the buffer. *)
Definition name_memory (p : MFS_Packet_t) : list Z := pk_name p ++ pk_buffer p.

(** ** The server *)

(** One packet that [UDP_Read] delivered: the response, and whether the
    server then shuts down. *)
Definition listenOnServer (sentPacket : MFS_Packet_t) : M lfs (MFS_Packet_t * bool) :=
  let response := junk_packet "listenOnServer.response" in
  let m := pk_method sentPacket in
  response ← (
    if m =? LOOKUP then
      i ← lookup_server (pk_inum sentPacket) (name_memory sentPacket);
      mret (with_inum i response)
    else if m =? STAT then
      '(i, st) ← stat_server (pk_inum sentPacket) (pk_stat response);
      mret (with_inum i (with_stat st response))
    else if m =? WRITE then
      i ← write_server (pk_inum sentPacket) (pk_buffer sentPacket) (pk_block sentPacket);
      mret (with_inum i response)
    else if m =? READ then
      '(i, bs) ← read_server (pk_inum sentPacket) (pk_buffer response) (pk_block sentPacket);
      mret (with_inum i (with_buffer bs response))
    else if m =? CREAT then
      i ← creat_server (pk_inum sentPacket) (pk_type sentPacket) (name_memory sentPacket);
      mret (with_inum i response)
    else if m =? UNLINK then
      i ← unlink_server (pk_inum sentPacket) (name_memory sentPacket);
      mret (with_inum i response)
    else mret response);
  mret (with_method RESPONSE response, m =? SHUTDOWN).

(** ** The client's side of the network *)

(** [UDP_Open]: [sock] and [bind_rc] are what [socket] and [bind] return. *)
Definition UDP_Open (sock bind_rc : Z) : Z :=
  if sock =? -1 then 0 else if bind_rc =? -1 then -1 else sock.

(** [UDP_FillSockAddr]: [resolved] is whether [gethostbyname] succeeds. *)
Definition UDP_FillSockAddr (resolved : bool) : Z := if resolved then 0 else -1.

Record round := mkRound {
  r_delivered : bool;
  r_reply : option nat   (* index into the replies produced so far *)
}.
Record network := mkNet { n_sock : Z; n_bind : Z; n_resolved : bool; n_rounds : list round }.

(** The loop of [sendPacket]; without a reply in any round it goes on for
    ever, which is [Blocked]. A server that has shut down runs nothing. *)
Fixpoint send_loop (rounds : list round) (sent : MFS_Packet_t) (up : bool)
    (replies : list MFS_Packet_t) : M lfs MFS_Packet_t :=
  match rounds with
  | [] => blocked
  | r :: rounds' =>
      '(up, replies) ← (if r_delivered r && up then
          '(reply, stop) ← listenOnServer sent;
          mret (negb stop, replies ++ [reply])
        else mret (up, replies));
      match r_reply r with
      | Some k =>
          match replies !! k with
          | Some response => mret response
          | None => send_loop rounds' sent up replies
          end
      | None => send_loop rounds' sent up replies
      end
  end.

(** [sendPacket]: -1 ([None]) when the socket or the address fails. On a
    failed [socket] call [UDP_Open] gives 0, which is not the error it tests
    for; every receive on that descriptor then fails and the loop never ends. *)
Definition sendPacket (net : network) (sent : MFS_Packet_t) : M lfs (option MFS_Packet_t) :=
  let sd := UDP_Open (n_sock net) (n_bind net) in
  if sd <? 0 then mret None else
  if UDP_FillSockAddr (n_resolved net) <? 0 then mret None else
  if sd =? 0 then blocked else
  r ← send_loop (n_rounds net) sent true [];
  mret (Some r).

(** ** The client library *)

(** The globals of [mfs.c]. *)
Record client := mkClient { init_done : bool; server_name : list Z; server_port : Z }.

(** A [char *] argument: null, or the memory it points to. *)
Definition ptr : Type := option (list Z).

(** [memcpy(dst, src, n)] of the C library, between two objects. *)
Definition libc_memcpy (dst src : list Z) (n : nat) : option (list Z) :=
  if decide (n ≤ length dst ∧ n ≤ length src)%nat then Some (splice 0 (take n src) dst) else None.

(** [strlen] is given the pointer before anyone tests it for null. *)
Definition length_check {S} (name : ptr) : M S Z :=
  s ← need name;
  n ← need (strlen s);
  mret (if n >? 27 then -1 else 0).

(** [sizeof(hostname + 1)]: the size of a pointer. *)
Definition SIZEOF_PTR : Z := 8.

Definition MFS_Init (hostname : ptr) (port : Z) : M client Z :=
  match hostname with
  | None => mret (-1)
  | Some h =>
      if port <? 0 then mret (-1) else
      nm ← need (strcpy (junk "MFS_Init.malloc" SIZEOF_PTR) 0 h);
      put (mkClient true nm port);;
      mret 0
  end.

Definition MFS_Lookup (c : client) (net : network) (pinum : Z) (name : ptr) : M lfs Z :=
  if negb (init_done c) then mret (-1) else
  l ← length_check name;
  if l <? 0 then mret (-1) else
  s ← need name;
  let send := with_inum pinum (junk_packet "MFS_Lookup.send") in
  nm ← need (strcpy (pk_name send) 0 s);
  let send := with_method LOOKUP (with_name nm send) in
  r ← sendPacket net send;
  match r with
  | None => mret (-1)
  | Some receive => mret (pk_inum receive)
  end.

(** The return value and the caller's [*m]. *)
Definition MFS_Stat (c : client) (net : network) (inum : Z) (m : MFS_Stat_t)
    : M lfs (Z * MFS_Stat_t) :=
  if negb (init_done c) then mret (-1, m) else
  let send := with_method STAT (with_inum inum (junk_packet "MFS_Stat.send")) in
  r ← sendPacket net send;
  match r with
  | None => mret (-1, m)
  | Some receive =>
      if pk_inum receive <? 0 then mret (-1, m) else mret (pk_inum receive, pk_stat receive)
  end.

Definition MFS_Write (c : client) (net : network) (inum : Z) (buffer : list Z) (block : Z)
    : M lfs Z :=
  if negb (init_done c) then mret (-1) else
  let send := with_inum inum (with_method WRITE (junk_packet "MFS_Write.send")) in
  b ← need (libc_memcpy (pk_buffer send) buffer (Z.to_nat 4096));
  let send := with_block block (with_buffer b send) in
  r ← sendPacket net send;
  match r with
  | None => mret (-1)
  | Some receive => mret (pk_inum receive)
  end.

(** The return value and the caller's buffer. *)
Definition MFS_Read (c : client) (net : network) (inum : Z) (buffer : list Z) (block : Z)
    : M lfs (Z * list Z) :=
  if negb (init_done c) then mret (-1, buffer) else
  let send := with_block block (with_inum inum (with_method READ (junk_packet "MFS_Read.send"))) in
  r ← sendPacket net send;
  match r with
  | None => mret (-1, buffer)
  | Some receive =>
      if pk_inum receive >? -1 then
        b ← need (libc_memcpy buffer (pk_buffer receive) (Z.to_nat 4096));
        mret (pk_inum receive, b)
      else mret (pk_inum receive, buffer)
  end.

Definition MFS_Creat (c : client) (net : network) (pinum type : Z) (name : ptr) : M lfs Z :=
  if negb (init_done c) then mret (-1) else
  l ← length_check name;
  if l <? 0 then mret (-1) else
  s ← need name;
  let send := with_method CREAT (with_type type (with_inum pinum (junk_packet "MFS_Creat.send"))) in
  nm ← need (strcpy (pk_name send) 0 s);
  let send := with_name nm send in
  r ← sendPacket net send;
  match r with
  | None => mret (-1)
  | Some receive => mret (pk_inum receive)
  end.

Definition MFS_Unlink (c : client) (net : network) (pinum : Z) (name : ptr) : M lfs Z :=
  if negb (init_done c) then mret (-1) else
  l ← length_check name;
  if l <? 0 then mret (-1) else
  s ← need name;
  let send := with_inum pinum (with_method UNLINK (junk_packet "MFS_Unlink.send")) in
  nm ← need (strcpy (pk_name send) 0 s);
  let send := with_name nm send in
  r ← sendPacket net send;
  match r with
  | None => mret (-1)
  | Some receive => mret (pk_inum receive)
  end.

Definition MFS_Shutdown (c : client) (net : network) : M lfs Z :=
  if negb (init_done c) then mret (-1) else
  r ← sendPacket net (with_method SHUTDOWN (junk_packet "MFS_Shutdown.send"));
  match r with None => mret (-1) | Some _ => mret 0 end.

End protocol.
