(* ===== verification/LfsSpec.v ===== *)
(** What the file server of [Lfs] promises: the abstract file system behind a
    server state, the invariant of the disk image, and the lemmas that relate
    both to single reads and writes of the image. *)

From S2P Require Import Prelude CString UnixFile Lfs.

(** ** The abstract file system *)

(** A file or directory: its type and size, and per direct pointer the block
    it holds, if the pointer is in use. *)
Record anode := ANode { a_type : Z; a_size : Z; a_data : list (option (list Z)) }.

Definition blk (s : lfs) (b : Z) : list Z := bytes_at (fdata (fd s)) (b * BLOCKSIZE) BLOCKSIZE.
Definition inode_at (s : lfs) (b : Z) : inode :=
  dec_inode (bytes_at (fdata (fd s)) (b * BLOCKSIZE) INODE_BYTES).

(** The block of inode [i], if it is allocated. *)
Definition inode_blk (s : lfs) (i : Z) : option Z :=
  if decide (0 ≤ i) then
    e ← imap s !! Z.to_nat i; if e =? -1 then None else Some e
  else None.
Definition inode_of (s : lfs) (i : Z) : option inode := inode_at s <$> inode_blk s i.

Definition abs_inode (s : lfs) (n : inode) : anode :=
  ANode (i_type n) (i_size n)
    (zip_with (λ u p, if u =? 0 then None else Some (blk s p)) (dp_used n) (dpointers n)).
Definition abs (s : lfs) (i : Z) : option anode := abs_inode s <$> inode_of s i.

(** The name in slot [j] of a directory, and the first slot with a given name. *)
Definition slot_name (d : directory) (j : nat) : option (list Z) :=
  cstr (slice (NAMELEN * j) NAMELEN (names d)).
Fixpoint dir_find (d : directory) (nm : list Z) (n j : nat) : option nat :=
  match n with
  | O => None
  | S n' => if decide (slot_name d j = Some nm) then Some j else dir_find d nm n' (S j)
  end.
Definition dir_lookup (d : directory) (nm : list Z) : option Z :=
  (λ j, idx (inums d) (Z.of_nat j)) <$> dir_find d nm NDIRENT 0.

(** Lookup in an abstract directory: the first block with the name decides. *)
Fixpoint blocks_lookup (data : list (option (list Z))) (nm : list Z) : Z :=
  match data with
  | [] => -1
  | None :: data' => blocks_lookup data' nm
  | Some bs :: data' =>
      match dir_lookup (dec_dir bs) nm with
      | Some i => i
      | None => blocks_lookup data' nm
      end
  end.
Definition spec_lookup (σ : Z → option anode) (pinum : Z) (nm : list Z) : option Z :=
  nd ← σ pinum; Some (blocks_lookup (a_data nd) nm).

(** ** The invariant of the image *)

(** The places that name a block: an inode's block, or one of its pointers. *)
Inductive slot := SInode (i : Z) | SData (i : Z) (k : nat).
#[global] Instance slot_eq_dec : EqDecision slot.
Proof. solve_decision. Defined.

Definition slot_block (s : lfs) (sl : slot) : option Z :=
  match sl with
  | SInode i => inode_blk s i
  | SData i k =>
      n ← inode_of s i;
      u ← dp_used n !! k; if u =? 0 then None else dpointers n !! k
  end.

Definition slot_bytes (sl : slot) : Z :=
  match sl with SInode _ => INODE_BYTES | SData _ _ => BLOCKSIZE end.

Record inode_ok (n : inode) : Prop := {
  io_used : Forall (λ u, u = 0 ∨ u = 1) (dp_used n);
  io_type : i_type n = MFS_DIRECTORY ∨ i_type n = MFS_REGULAR_FILE;
  io_root : i_type n = MFS_DIRECTORY → dp_used n !! 0%nat = Some 1
}.

(** Every name slot of a directory block ends within its 28 bytes. *)
Record dir_ok (d : directory) : Prop := {
  do_names : ∀ j, (j < NDIRENT)%nat → is_Some (slot_name d j);
  do_bytes : Forall is_byte (names d)
}.

Record lfs_ok (s : lfs) : Prop := {
  ok_imap : length (imap s) = Z.to_nat MAXINODES;
  ok_ints : Forall is_i32 (imap s);
  ok_next : CRSIZE ≤ next_block s < 524288;
  ok_range : ∀ sl b, slot_block s sl = Some b → CRSIZE ≤ b < next_block s;
  ok_inj : ∀ sl sl' b, slot_block s sl = Some b → slot_block s sl' = Some b → sl = sl';
  ok_size : ∀ sl b, slot_block s sl = Some b → b * BLOCKSIZE + slot_bytes sl ≤ fsize (fd s);
  ok_inode : ∀ i n, inode_of s i = Some n → inode_ok n;
  ok_dir : ∀ i n k b, inode_of s i = Some n → i_type n = MFS_DIRECTORY →
    slot_block s (SData i k) = Some b → dir_ok (dec_dir (blk s b))
}.

(** The checkpoint region agrees with the globals: what a restart relies on. *)
Record cr_ok (s : lfs) : Prop := {
  cr_imap : bytes_at (fdata (fd s)) 0 (4 * MAXINODES) = enc_ints (imap s);
  cr_next : bytes_at (fdata (fd s)) (4 * MAXINODES) 4 = le_bytes 4 (next_block s);
  cr_size : 4 * MAXINODES + 4 ≤ fsize (fd s)
}.

(** ** Encoding lemmas *)

Lemma length_enc_ints zs : length (enc_ints zs) = (4 * length zs)%nat.
Proof.
  unfold enc_ints. induction zs as [|z zs IH]; [done|].
  rewrite bind_cons, length_app, IH, length_le_bytes. simpl. lia.
Qed.

Lemma length_dec_ints n bs : length (dec_ints n bs) = n.
Proof. unfold dec_ints. by rewrite length_fmap, length_seq. Qed.

Lemma dec_ints_i32 n bs : Forall is_i32 (dec_ints n bs).
Proof. apply Forall_fmap, Forall_forall. intros. apply i32_range. Qed.

Lemma slice_enc_ints zs i z r :
  zs !! i = Some z → slice (4 * i) 4 (enc_ints zs ++ r) = le_bytes 4 z.
Proof.
  revert i. induction zs as [|y zs IH]; intros i H; [done|].
  change (enc_ints (y :: zs) ++ r) with ((le_bytes 4 y ++ enc_ints zs) ++ r).
  rewrite <-app_assoc. destruct i as [|i]; cbn [lookup list_lookup] in H.
  - injection H as ->. unfold slice. rewrite Nat.mul_0_r, drop_0.
    apply take_app_length'. by rewrite length_le_bytes.
  - rewrite <-(IH i H). unfold slice. f_equal.
    replace (4 * S i)%nat with (4 + 4 * i)%nat by lia. rewrite <-drop_drop. f_equal.
Qed.

Lemma dec_enc_ints zs r n :
  Forall is_i32 zs → length zs = n → dec_ints n (enc_ints zs ++ r) = zs.
Proof.
  intros Hz <-. apply list_eq. intros i. unfold dec_ints. rewrite list_lookup_fmap.
  destruct (decide (i < length zs)%nat) as [Hi|Hi].
  - destruct (lookup_lt_is_Some_2 zs i Hi) as [z Hzi].
    rewrite lookup_seq_lt by done. cbn [fmap option_fmap option_map]. rewrite ?Nat.add_0_l.
    rewrite (slice_enc_ints zs i z) by done.
    rewrite i32_le_bytes; [by rewrite Hzi|]. by eapply Forall_lookup_1.
  - rewrite lookup_seq_ge, lookup_ge_None_2 by lia. done.
Qed.

Lemma enc_ints_bytes zs : Forall is_byte (enc_ints zs).
Proof. unfold enc_ints. apply Forall_bind, Forall_forall. auto with c. Qed.

(** The shape every decoded inode has. *)
Record inode_shape (n : inode) : Prop := {
  sh_ptrs : length (dpointers n) = 14%nat;
  sh_used : length (dp_used n) = 14%nat;
  sh_ints : Forall is_i32 (i_size n :: i_type n :: i_inum n :: dpointers n ++ dp_used n)
}.

Lemma dec_inode_shape bs : inode_shape (dec_inode bs).
Proof.
  pose proof (dec_ints_i32 31 bs) as Hi. pose proof (length_dec_ints 31 bs) as Hl.
  unfold dec_inode. remember (dec_ints 31 bs) as w. clear Heqw.
  assert (∀ k, (k < 31)%nat → is_i32 (default 0 (w !! k))) as H.
  { intros k Hk. destruct (lookup_lt_is_Some_2 w k) as [z Hz]; [lia|].
    rewrite Hz. by eapply Forall_lookup_1. }
  constructor; cbn [dpointers dp_used i_size i_type i_inum]; [rewrite length_slice; lia..|].
  do 3 (apply Forall_cons; [apply H; lia|]). apply Forall_app.
  unfold slice. split; by apply Forall_take, Forall_drop.
Qed.

Lemma length_enc_inode n : inode_shape n → length (enc_inode n) = Z.to_nat INODE_BYTES.
Proof.
  intros [Hp Hu _]. unfold enc_inode. rewrite length_enc_ints. cbn [length].
  rewrite length_app, Hp, Hu. done.
Qed.

Lemma dec_enc_inode n r : inode_shape n → dec_inode (enc_inode n ++ r) = n.
Proof.
  intros [Hp Hu Hi]. unfold dec_inode, enc_inode.
  rewrite dec_enc_ints; [|done|cbn [length]; rewrite length_app, Hp, Hu; done].
  destruct n as [sz ty nu ps us]; cbn [dpointers dp_used i_size i_type i_inum] in *. f_equal.
  - change (take 14 (ps ++ us) = ps). by apply take_app_length'.
  - change (take 14 (drop 14 (ps ++ us)) = us).
    rewrite drop_app_length' by done. apply take_ge. lia.
Qed.

Record dir_shape (d : directory) : Prop := {
  ds_inums : length (inums d) = NDIRENT;
  ds_names : length (names d) = 3584%nat;
  ds_ints : Forall is_i32 (inums d)
}.

Lemma dec_dir_shape bs : length bs = Z.to_nat BLOCKSIZE → dir_shape (dec_dir bs).
Proof.
  intros H. unfold dec_dir. constructor; cbn [inums names]; [apply length_dec_ints| |apply dec_ints_i32].
  rewrite length_slice; [done|]. rewrite H. unfold BLOCKSIZE. lia.
Qed.

Lemma length_enc_dir d : dir_shape d → length (enc_dir d) = Z.to_nat BLOCKSIZE.
Proof.
  intros [Hi Hn _]. unfold enc_dir. rewrite length_app, length_enc_ints, Hi, Hn. done.
Qed.

Lemma dec_enc_dir d : dir_shape d → dec_dir (enc_dir d) = d.
Proof.
  intros [Hi Hn Hz]. unfold dec_dir, enc_dir. rewrite dec_enc_ints by done.
  destruct d as [js nms]; cbn [inums names] in *. f_equal. unfold slice.
  rewrite drop_app_length' by (rewrite length_enc_ints, Hi; done).
  apply take_ge. lia.
Qed.

(** ** Reading the image: states that differ in the file offset only *)

Definition off (o : Z) (s : lfs) : lfs := set_fd (mkFile (fdata (fd s)) (fsize (fd s)) o) s.
(** [lseek(o); write(bs)] *)
Definition pw (o : Z) (bs : list Z) (s : lfs) : lfs := set_fd (fwrite bs (flseek o (fd s))) s.

Lemma off_self s : off (foff (fd s)) s = s.
Proof. by destruct s as [m nb [d z o]]. Qed.
Lemma off_off o o' s : off o (off o' s) = off o s.
Proof. done. Qed.
Lemma idx_Some l k v : l !! k = Some v → idx l (Z.of_nat k) = v.
Proof. intros H. unfold idx. by rewrite Nat2Z.id, H. Qed.
Lemma lfs_ok_off s o : lfs_ok s → lfs_ok (off o s).
Proof. intros []. by constructor. Qed.
Lemma cr_ok_off s o : cr_ok s → cr_ok (off o s).
Proof. intros []. by constructor. Qed.
Lemma pw_off o bs o' s : 0 ≤ o → pw o bs (off o' s) = pw o bs s.
Proof. intros H. unfold pw, off, flseek. simpl. by rewrite (proj2 (Z.ltb_ge o 0)). Qed.

Lemma i32_block b : 0 ≤ b < 524288 → i32 (b * BLOCKSIZE) = b * BLOCKSIZE.
Proof. unfold BLOCKSIZE. intros. apply i32_small. unfold is_i32. lia. Qed.

Lemma run_read_block {A} b n old (k : list Z → M lfs A) s :
  0 ≤ b < 524288 → 0 ≤ n → b * BLOCKSIZE + n ≤ fsize (fd s) → length old = Z.to_nat n →
  (seek_block b;; bs ← read old n; k bs) s =
  k (bytes_at (fdata (fd s)) (b * BLOCKSIZE) n) (off (b * BLOCKSIZE + n) s).
Proof.
  intros Hb Hn Hs Ho. unfold seek_block. rewrite i32_block by done.
  unfold mbind, M_bind, lseek, modify, read. cbn [fd set_fd].
  rewrite fread_full.
  - rewrite foff_flseek by (unfold BLOCKSIZE; lia). rewrite fsize_flseek, fdata_flseek.
    rewrite overlay_full by (rewrite length_bytes_at; lia). done.
  - done.
  - rewrite foff_flseek, fsize_flseek by (unfold BLOCKSIZE; lia). done.
Qed.

Lemma run_write_block {A} b bs (k : M lfs A) s :
  0 ≤ b < 524288 → (seek_block b;; write bs;; k) s = k (pw (b * BLOCKSIZE) bs s).
Proof. intros. unfold seek_block. by rewrite i32_block. Qed.

Lemma run_imap_get {A} s i e (k : Z → M lfs A) :
  inode_blk s i = Some e → (imap_get i ≫= k) s = k e s.
Proof.
  unfold inode_blk, imap_get, mbind, M_bind. case_decide; [|done].
  destruct (imap s !! Z.to_nat i) as [x|]; simpl; [|done].
  destruct (x =? -1); intros [=->]. done.
Qed.

Lemma inode_blk_range s i e :
  lfs_ok s → inode_blk s i = Some e →
  0 ≤ i < MAXINODES ∧ CRSIZE ≤ e < next_block s ∧ e * BLOCKSIZE + INODE_BYTES ≤ fsize (fd s).
Proof.
  intros Hok H. split_and!; try apply (ok_range s Hok (SInode i)); try done.
  - unfold inode_blk in H. by case_decide.
  - unfold inode_blk in H. case_decide; [|done].
    destruct (imap s !! Z.to_nat i) eqn:E; [|done].
    apply lookup_lt_Some in E. rewrite (ok_imap s Hok) in E. unfold MAXINODES in *. lia.
  - by apply (ok_size s Hok (SInode i)).
Qed.

Lemma run_find_inode s i e n0 :
  lfs_ok s → inode_blk s i = Some e → inode_shape n0 →
  find_inode i n0 s = Ok ((0, inode_at s e), off (e * BLOCKSIZE + INODE_BYTES) s).
Proof.
  intros Hok He Hn. destruct (inode_blk_range s i e Hok He) as (Hi & Hr & Hs).
  pose proof (ok_next s Hok). unfold find_inode.
  rewrite (proj2 (Z.ltb_ge i 0)), Z.geb_leb, (proj2 (Z.leb_gt MAXINODES i)) by lia. cbn [orb].
  rewrite (run_imap_get s i e) by done. unfold CRSIZE in *.
  rewrite run_read_block; [done|lia|done|done|by apply length_enc_inode].
Qed.

Lemma run_find_inode_bad i n0 s :
  i < 0 ∨ MAXINODES ≤ i → find_inode i n0 s = Ok ((-1, n0), s).
Proof.
  intros H. unfold find_inode. rewrite Z.geb_leb. destruct H.
  - by rewrite (proj2 (Z.ltb_lt i 0)).
  - by rewrite (proj2 (Z.leb_le MAXINODES i)), orb_true_r.
Qed.

(** ** Directory lookup *)

Section lookup.
Context `{Uninit}.

Lemma junk_inode_shape x : inode_shape (junk_inode x).
Proof. apply dec_inode_shape. Qed.
Lemma length_junk x n : length (junk x n) = Z.to_nat n.
Proof. unfold junk. by rewrite length_fmap, length_seqZ. Qed.
Lemma junk_bytes x n : Forall is_byte (junk x n).
Proof. apply Forall_fmap, Forall_forall. intros. apply u8_byte. Qed.
Lemma junk_dir_shape x : dir_shape (junk_dir x).
Proof. apply dec_dir_shape, length_junk. Qed.

Lemma blk_shape s b : dir_shape (dec_dir (blk s b)).
Proof. apply dec_dir_shape. unfold blk. by rewrite length_bytes_at. Qed.

Lemma run_lookup_block s b d :
  0 ≤ b < 524288 → b * BLOCKSIZE + BLOCKSIZE ≤ fsize (fd s) → dir_shape d →
  lookup_block b d s = Ok (dec_dir (blk s b), off (b * BLOCKSIZE + BLOCKSIZE) s).
Proof.
  intros. unfold lookup_block. rewrite run_read_block; [done|done|done|done|].
  by apply length_enc_dir.
Qed.

Lemma slot_name_drop d j nm :
  slot_name d j = Some nm → cstr (drop (NAMELEN * j) (names d)) = Some nm.
Proof.
  unfold slot_name, slice. intros Hn.
  rewrite <-(take_drop NAMELEN (drop (NAMELEN * j) (names d))). by apply cstr_app_l.
Qed.

Lemma find_name_spec d nm name n j :
  dir_ok d → cstr name = Some nm → Forall is_byte name → (j + n ≤ NDIRENT)%nat →
  find_name n j (names d) name = Ok (dir_find d nm n j).
Proof.
  intros Hd Hn Hb. revert j. induction n as [|n IH]; intros j Hj; [done|].
  cbn [find_name dir_find].
  destruct (do_names d Hd j) as [s Hs]; [lia|].
  destruct (strcmp_strings (drop (NAMELEN * j) (names d)) name s nm) as (z & -> & Hz).
  - by apply slot_name_drop.
  - done.
  - apply Forall_drop, (do_bytes d Hd).
  - done.
  - rewrite Hs. destruct (Z.eqb_spec z 0) as [E|E].
    + rewrite decide_True; [done|]. by rewrite (proj1 Hz E).
    + rewrite decide_False; [|naive_solver]. apply IH. lia.
Qed.

Lemma slot_data s i n k p u :
  inode_of s i = Some n → dp_used n !! k = Some u → u ≠ 0 → dpointers n !! k = Some p →
  slot_block s (SData i k) = Some p.
Proof.
  intros Hn Hu Hz Hp. simpl. rewrite Hn. simpl. rewrite Hu. simpl.
  by rewrite (proj2 (Z.eqb_neq u 0) Hz).
Qed.

Lemma inode_of_shape s i n : inode_of s i = Some n → inode_shape n.
Proof.
  unfold inode_of. destruct (inode_blk s i); [|done]. intros [= <-]. apply dec_inode_shape.
Qed.

(** Pointer [k] of an inode: its use flag and its target. *)
Lemma inode_ptr s i n k :
  lfs_ok s → inode_of s i = Some n → (k < 14)%nat →
  ∃ u p, dp_used n !! k = Some u ∧ dpointers n !! k = Some p ∧ (u = 0 ∨ u = 1) ∧
    a_data (abs_inode s n) !! k = Some (if u =? 0 then None else Some (blk s p)).
Proof.
  intros Hok Hn Hk. pose proof (inode_of_shape s i n Hn) as [Hp Hu _].
  destruct (lookup_lt_is_Some_2 (dp_used n) k) as [u Eu]; [lia|].
  destruct (lookup_lt_is_Some_2 (dpointers n) k) as [p Ep]; [lia|].
  exists u, p. split_and!; [done..| |].
  - exact (Forall_lookup_1 _ _ _ _ (io_used n (ok_inode s Hok i n Hn)) Eu).
  - simpl. by rewrite lookup_zip_with, Eu, Ep.
Qed.

Lemma slot_facts s sl b :
  lfs_ok s → slot_block s sl = Some b →
  0 ≤ b < 524288 ∧ CRSIZE ≤ b < next_block s ∧ b * BLOCKSIZE + slot_bytes sl ≤ fsize (fd s).
Proof.
  intros Hok Hb. pose proof (ok_range s Hok sl b Hb). pose proof (ok_size s Hok sl b Hb).
  pose proof (ok_next s Hok). unfold CRSIZE in *. lia.
Qed.

Lemma lookup_loop_run s i nd nm name n k d o :
  lfs_ok s → inode_of s i = Some nd → i_type nd = MFS_DIRECTORY →
  cstr name = Some nm → Forall is_byte name → (k + n = 14)%nat → dir_shape d →
  ∃ o', lookup_loop n (Z.of_nat k) nd d name (off o s) =
        Ok (blocks_lookup (drop k (a_data (abs_inode s nd))) nm, off o' s).
Proof.
  intros Hok Hn Ht Hc Hb. revert k d o. induction n as [|n IH]; intros k d o Hk Hd.
  { exists o. rewrite drop_ge; [done|]. simpl. rewrite length_zip_with.
    pose proof (inode_of_shape s i nd Hn) as [-> -> _]. lia. }
  destruct (inode_ptr s i nd k) as (u & p & Eu & Ep & Hu & Ea); [done|done|lia|].
  rewrite (drop_S _ _ _ Ea). cbn [lookup_loop].
  rewrite (idx_Some _ _ _ Eu).
  replace (Z.of_nat k + 1) with (Z.of_nat (S k)) by lia.
  destruct Hu as [-> | ->]; cbn [Z.eqb Pos.eqb blocks_lookup].
  { apply IH; [lia|done]. }
  assert (slot_block s (SData i k) = Some p) as Hsl by by eapply slot_data.
  destruct (slot_facts s _ p Hok Hsl) as (Hr & _ & Hs).
  rewrite (idx_Some _ _ _ Ep).
  step (run_lookup_block (off o s) p d Hr Hs Hd).
  change (blk (off o s) p) with (blk s p). rewrite off_off.
  rewrite (find_name_spec _ nm);
    [|exact (ok_dir s Hok i nd k p Hn Ht Hsl)|done|done|unfold NDIRENT; lia].
  unfold lift_o, mbind, M_bind, dir_lookup.
  destruct (dir_find (dec_dir (blk s p)) nm NDIRENT 0) as [j|]; simpl.
  - by eexists.
  - apply IH; [lia|apply blk_shape].
Qed.

Lemma abs_Some s i nd :
  abs s i = Some nd → ∃ e n, inode_blk s i = Some e ∧ n = inode_at s e ∧
    inode_of s i = Some n ∧ nd = abs_inode s n.
Proof.
  unfold abs, inode_of. destruct (inode_blk s i) as [e|]; [|done]. intros [= <-]. eauto 10.
Qed.

(** The server's lookup is the abstract one, and only moves the offset. *)
Lemma run_lookup_server s pinum nd nm name :
  lfs_ok s → abs s pinum = Some nd → a_type nd = MFS_DIRECTORY →
  cstr name = Some nm → Forall is_byte name →
  ∃ o, lookup_server pinum name s = Ok (blocks_lookup (a_data nd) nm, off o s).
Proof.
  intros Hok Ha Ht Hc Hb. apply abs_Some in Ha as (e & n & He & -> & Hn & ->).
  unfold lookup_server. step (run_find_inode s pinum e _ Hok He (junk_inode_shape "lookup_server.pinode")).
  cbv beta iota. cbn [Z.eqb negb].
  exact (lookup_loop_run s pinum _ nm name 14 0 _ _ Hok Hn Ht Hc Hb eq_refl (junk_dir_shape _)).
Qed.
End lookup.

(** ** Writing the image *)

Lemma fdata_pw o bs s : 0 ≤ o → fdata (fd (pw o bs s)) = put_bytes (fdata (fd s)) o bs.
Proof. intros. unfold pw. simpl. by rewrite foff_flseek, fdata_flseek. Qed.
Lemma fsize_pw o bs s :
  0 ≤ o → fsize (fd (pw o bs s)) = Z.max (fsize (fd s)) (o + Z.of_nat (length bs)).
Proof. intros. unfold pw. simpl. by rewrite foff_flseek, fsize_flseek. Qed.
Lemma imap_pw o bs s : imap (pw o bs s) = imap s.
Proof. done. Qed.
Lemma next_pw o bs s : next_block (pw o bs s) = next_block s.
Proof. done. Qed.
#[export] Hint Rewrite imap_pw next_pw : c.

Definition owner (sl : slot) : Z := match sl with SInode i | SData i _ => i end.

(** [same_slot s s' sl]: the bytes of [sl]'s block are the same in both states. *)
Definition same_bytes (s s' : lfs) (sl : slot) : Prop :=
  ∀ b, slot_block s sl = Some b →
  bytes_at (fdata (fd s')) (b * BLOCKSIZE) (slot_bytes sl) =
  bytes_at (fdata (fd s)) (b * BLOCKSIZE) (slot_bytes sl).

Section frame.
Context (s s' : lfs) (i : Z).
Hypothesis Hblk : inode_blk s' i = inode_blk s i.
Hypothesis Hino : same_bytes s s' (SInode i).

Lemma inode_of_frame : inode_of s' i = inode_of s i.
Proof.
  unfold inode_of. rewrite Hblk. destruct (inode_blk s i) as [e|] eqn:E; [|done].
  simpl. f_equal. unfold inode_at. f_equal. by apply Hino.
Qed.

Lemma slot_frame sl : owner sl = i → slot_block s' sl = slot_block s sl.
Proof. destruct sl; simpl; intros ->; [done|]. by rewrite inode_of_frame. Qed.

Lemma abs_frame : (∀ k, same_bytes s s' (SData i k)) → abs s' i = abs s i.
Proof.
  intros Hd. unfold abs. rewrite inode_of_frame.
  destruct (inode_of s i) as [n|] eqn:E; [|done]. simpl. f_equal. unfold abs_inode. f_equal.
  apply list_eq. intros k. rewrite !lookup_zip_with.
  destruct (dp_used n !! k) as [u|] eqn:Eu; [|done]. simpl.
  destruct (dpointers n !! k) as [p|] eqn:Ep; [|done]. simpl.
  destruct (Z.eqb_spec u 0); [done|]. do 2 f_equal. apply (Hd k).
  by eapply slot_data.
Qed.
End frame.

(** The invariant after a step that touches the inodes [ts] only: their slots
    keep their blocks or move to fresh ones. *)
Section preserve.
Context (s s' : lfs) (ts : list Z).
Hypothesis Hok : lfs_ok s.
Hypothesis Hblk : ∀ j, j ∉ ts → inode_blk s' j = inode_blk s j.
Hypothesis Hsame : ∀ sl, owner sl ∉ ts → same_bytes s s' sl.

Lemma untouched_slot sl : owner sl ∉ ts → slot_block s' sl = slot_block s sl.
Proof.
  intros H. apply (slot_frame s s' (owner sl)); [by apply Hblk| |done].
  by apply (Hsame (SInode (owner sl))).
Qed.
Lemma untouched_abs j : j ∉ ts → abs s' j = abs s j.
Proof.
  intros H. apply abs_frame; [by apply Hblk|by apply (Hsame (SInode j))|].
  intros k. by apply (Hsame (SData j k)).
Qed.
Lemma untouched_inode j : j ∉ ts → inode_of s' j = inode_of s j.
Proof. intros H. apply inode_of_frame; [by apply Hblk|by apply (Hsame (SInode j))]. Qed.

Lemma lfs_ok_preserve :
  length (imap s') = Z.to_nat MAXINODES → Forall is_i32 (imap s') →
  next_block s ≤ next_block s' < 524288 → fsize (fd s) ≤ fsize (fd s') →
  (∀ sl b, owner sl ∈ ts → slot_block s' sl = Some b →
     (slot_block s sl = Some b ∨ next_block s ≤ b < next_block s') ∧
     b * BLOCKSIZE + slot_bytes sl ≤ fsize (fd s')) →
  (∀ sl sl' b, owner sl ∈ ts → owner sl' ∈ ts → next_block s ≤ b →
     slot_block s' sl = Some b → slot_block s' sl' = Some b → sl = sl') →
  (∀ i n, i ∈ ts → inode_of s' i = Some n → inode_ok n) →
  (∀ i n k b, i ∈ ts → inode_of s' i = Some n → i_type n = MFS_DIRECTORY →
     slot_block s' (SData i k) = Some b → dir_ok (dec_dir (blk s' b))) →
  lfs_ok s'.
Proof.
  intros Hlen Hints Hnext Hsz Hnew Hinj Hino Hdir.
  pose proof (ok_next s Hok) as Hn0. unfold CRSIZE in *.
  assert (∀ sl b, slot_block s' sl = Some b →
    (slot_block s sl = Some b ∨ owner sl ∈ ts ∧ next_block s ≤ b < next_block s') ∧
    b * BLOCKSIZE + slot_bytes sl ≤ fsize (fd s')) as Hcase.
  { intros sl b Hb. destruct (decide (owner sl ∈ ts)) as [Ht|Ht].
    - destruct (Hnew sl b Ht Hb) as [[?|?] ?]; auto.
    - rewrite untouched_slot in Hb by done. pose proof (ok_size s Hok sl b Hb).
      split; [by left|lia]. }
  constructor; [done|done|unfold CRSIZE; lia| | | | |].
  - intros sl b Hb. destruct (Hcase sl b Hb) as [[Ho|?] _]; unfold CRSIZE; [|lia].
    pose proof (ok_range s Hok sl b Ho). unfold CRSIZE in *. lia.
  - intros sl sl' b Hb Hb'.
    destruct (Hcase sl b Hb) as [[Ho|[? ?]] _], (Hcase sl' b Hb') as [[Ho'|[? ?]] _].
    + by eapply (ok_inj s Hok).
    + pose proof (ok_range s Hok sl b Ho). lia.
    + pose proof (ok_range s Hok sl' b Ho'). lia.
    + eapply Hinj; eauto. lia.
  - intros sl b Hb. apply Hcase, Hb.
  - intros i n Hi. destruct (decide (i ∈ ts)) as [Ht|Ht]; [by eapply Hino|].
    rewrite untouched_inode in Hi by done. by eapply (ok_inode s Hok).
  - intros i n k b Hi Ht' Hb. destruct (decide (i ∈ ts)) as [Ht|Ht]; [by eapply Hdir|].
    rewrite untouched_inode in Hi by done.
    rewrite (untouched_slot (SData i k)) in Hb by done.
    pose proof (Hsame (SData i k) Ht b Hb) as E. cbn [slot_bytes] in E.
    unfold blk. rewrite E. by eapply (ok_dir s Hok).
Qed.
End preserve.

(** ** The checkpoint region *)

Definition cr_write (i e : Z) (s : lfs) : lfs :=
  pw (4 * MAXINODES) (le_bytes 4 (next_block s)) (pw (i * 4) (le_bytes 4 e) s).

Lemma run_update_CR s i e :
  0 ≤ i → imap s !! Z.to_nat i = Some e → update_CR i s = Ok (0, cr_write i e s).
Proof.
  intros Hi He. unfold update_CR. rewrite (proj2 (Z.eqb_neq i (-1))) by lia.
  unfold when, imap_get, mbind, M_bind, lseek, modify, negb. simpl imap.
  rewrite decide_True by done. rewrite He. done.
Qed.

Lemma length_cr_imap m i e :
  (i < length m)%nat →
  splice (4 * i) (le_bytes 4 e) (enc_ints m) = enc_ints (<[i:=e]> m).
Proof.
  revert i. induction m as [|x m IH]; intros i Hi; simpl in Hi; [lia|].
  change (enc_ints (x :: m)) with (le_bytes 4 x ++ enc_ints m). destruct i as [|i].
  - unfold splice. rewrite Nat.mul_0_r, take_0. cbn [app insert list_insert Nat.add].
    change (enc_ints (e :: m)) with (le_bytes 4 e ++ enc_ints m).
    rewrite take_ge by (rewrite length_le_bytes; len).
    done.
  - change (<[S i:=e]> (x :: m)) with (x :: <[i:=e]> m).
    change (enc_ints (x :: <[i:=e]> m)) with (le_bytes 4 x ++ enc_ints (<[i:=e]> m)).
    rewrite <-IH by lia. unfold splice.
    pose proof (length_le_bytes 4 x) as Hl4.
    rewrite take_app_ge, drop_app_ge by lia. rewrite <-app_assoc. f_equal.
    rewrite length_app, Hl4. f_equal; [f_equal; lia|]. f_equal; [f_equal; lia|].
    f_equal. lia.
Qed.

Lemma bytes_at_splice m o' bs o n :
  o ≤ o' → o' + Z.of_nat (length bs) ≤ o + n →
  bytes_at (put_bytes m o' bs) o n = splice (Z.to_nat (o' - o)) bs (bytes_at m o n).
Proof.
  intros H1 H2. apply list_eq. intros j.
  pose proof (length_bytes_at m o n) as Hl.
  destruct (decide (Z.to_nat (o' - o) ≤ j < Z.to_nat (o' - o) + length bs)%nat) as [Hj|Hj].
  - rewrite lookup_splice_in by lia. rewrite lookup_bytes_at, decide_True by lia.
    rewrite lookup_put_bytes, decide_True by lia.
    replace (Z.to_nat (o + Z.of_nat j - o')) with (j - Z.to_nat (o' - o))%nat by lia.
    by destruct (lookup_lt_is_Some_2 bs (j - Z.to_nat (o' - o))%nat) as [b ->]; [lia|].
  - rewrite lookup_splice_out by lia. rewrite !lookup_bytes_at. case_decide; [|done].
    by rewrite lookup_put_bytes, decide_False by lia.
Qed.

(** Writing entry [i] of the map and the next block keeps the region in step. *)
Lemma cr_ok_write s s0 i e :
  cr_ok s0 → 0 ≤ i < MAXINODES → length (imap s0) = Z.to_nat MAXINODES →
  imap s = <[Z.to_nat i:=e]> (imap s0) →
  bytes_at (fdata (fd s)) 0 (4 * MAXINODES) = bytes_at (fdata (fd s0)) 0 (4 * MAXINODES) →
  fsize (fd s0) ≤ fsize (fd s) →
  cr_ok (cr_write i e s).
Proof.
  intros [Hi _ Hz] Hr Hlen Him Hb Hsz. unfold MAXINODES in *. unfold cr_write.
  constructor.
  - rewrite !fdata_pw by (unfold MAXINODES; lia).
    rewrite bytes_at_put_other by (unfold MAXINODES; lia).
    rewrite bytes_at_splice by (rewrite ?length_le_bytes; unfold MAXINODES; lia).
    change (imap (pw _ _ _)) with (imap s). unfold MAXINODES in *. rewrite Hb, Hi, Him.
    replace (Z.to_nat (i * 4 - 0)) with (4 * Z.to_nat i)%nat by lia.
    apply length_cr_imap. lia.
  - rewrite !fdata_pw by (unfold MAXINODES; lia).
    by rewrite bytes_at_put_same by (by rewrite length_le_bytes).
  - rewrite !fsize_pw by (unfold MAXINODES; lia). rewrite !length_le_bytes. lia.
Qed.
