(* ===== verification/LfsProofs.v ===== *)
(** The file server's routines implement the abstract file system of
    [LfsSpec]: for each one, its result and the abstract file system after it,
    on every branch, with the invariant of the image preserved. *)

From S2P Require Import Prelude CString UnixFile Lfs LfsSpec.

#[local] Ltac consts := unfold MAXINODES, BLOCKSIZE, CRSIZE, INODE_BYTES, NDPTR in *.

(** Bytes of the image after a sequence of [pw]s, away from all of them. *)
Lemma cr_write_bytes i e s o n :
  0 ≤ i < MAXINODES → CRSIZE * BLOCKSIZE ≤ o →
  bytes_at (fdata (fd (cr_write i e s))) o n = bytes_at (fdata (fd s)) o n.
Proof.
  intros. consts. unfold cr_write, MAXINODES. rewrite !fdata_pw by lia.
  by rewrite !bytes_at_put_other by (rewrite length_le_bytes; lia).
Qed.

Lemma cr_write_size i e s :
  0 ≤ i < MAXINODES → CRSIZE * BLOCKSIZE ≤ fsize (fd s) →
  fsize (fd (cr_write i e s)) = fsize (fd s).
Proof.
  intros. consts. unfold cr_write, MAXINODES. rewrite !fsize_pw by lia.
  rewrite !length_le_bytes. lia.
Qed.

Lemma pw_bytes_other b bs s b' n :
  0 ≤ b → b' ≠ b → Z.of_nat (length bs) ≤ BLOCKSIZE → 0 ≤ n ≤ BLOCKSIZE →
  bytes_at (fdata (fd (pw (b * BLOCKSIZE) bs s))) (b' * BLOCKSIZE) n =
  bytes_at (fdata (fd s)) (b' * BLOCKSIZE) n.
Proof.
  intros. consts. rewrite fdata_pw by lia. apply bytes_at_put_other. lia.
Qed.

Lemma pw_bytes_same b bs s n :
  0 ≤ b → 0 ≤ n ≤ Z.of_nat (length bs) →
  bytes_at (fdata (fd (pw (b * BLOCKSIZE) bs s))) (b * BLOCKSIZE) n = take (Z.to_nat n) bs.
Proof.
  intros. consts. rewrite fdata_pw by lia. rewrite bytes_at_put_in by lia.
  by rewrite Z.sub_diag, drop_0.
Qed.

Lemma pw_block_size b bs s :
  0 ≤ b → fsize (fd (pw (b * BLOCKSIZE) bs s)) =
          Z.max (fsize (fd s)) (b * BLOCKSIZE + Z.of_nat (length bs)).
Proof. intros. consts. by rewrite fsize_pw by lia. Qed.

(** An inode written in its block is the inode found there. *)
Lemma inode_at_dec s e n r :
  inode_shape n → bytes_at (fdata (fd s)) (e * BLOCKSIZE) INODE_BYTES = enc_inode n ++ r →
  inode_at s e = n.
Proof. intros Hn H. unfold inode_at. rewrite H. by apply dec_enc_inode. Qed.

(** The updates of an inode's fields keep its shape. *)
Lemma set_idx_length l i v : length (set_idx l i v) = length l.
Proof. apply length_insert. Qed.
Lemma set_idx_lookup l i v k :
  0 ≤ i → (k < length l)%nat →
  set_idx l i v !! k = if decide (k = Z.to_nat i) then Some v else l !! k.
Proof.
  intros. unfold set_idx. case_decide; subst.
  - by apply list_lookup_insert_eq.
  - by apply list_lookup_insert_ne.
Qed.
Lemma Forall_set_idx (P : Z → Prop) l i v : Forall P l → P v → Forall P (set_idx l i v).
Proof. intros. by apply Forall_insert. Qed.

Lemma inode_shape_update n sz ps us :
  inode_shape n → is_i32 sz → length ps = 14%nat → length us = 14%nat →
  Forall is_i32 ps → Forall is_i32 us →
  inode_shape (mkInode sz (i_type n) (i_inum n) ps us).
Proof.
  intros [_ _ Hi] Hs Hp Hu Fp Fu. apply Forall_cons_1 in Hi as [_ Hi].
  apply Forall_cons_1 in Hi as [? Hi]. apply Forall_cons_1 in Hi as [? _].
  constructor; [done..|]. cbn [i_size i_type i_inum dpointers dp_used].
  repeat (apply Forall_cons; [done|]). by apply Forall_app.
Qed.

Lemma shape_parts n :
  inode_shape n → is_i32 (i_size n) ∧ Forall is_i32 (dpointers n) ∧ Forall is_i32 (dp_used n).
Proof.
  intros [_ _ Hi]. apply Forall_cons_1 in Hi as [? Hi]. do 2 apply Forall_cons_1 in Hi as [_ Hi].
  by apply Forall_app in Hi as [? ?].
Qed.

Lemma Forall_used_i32 us : Forall (λ u, u = 0 ∨ u = 1) us → Forall is_i32 us.
Proof. apply Forall_impl. unfold is_i32. intros. lia. Qed.

(** ** write_server *)

Section write.
Context `{Uninit}.
Context (s : lfs) (inum block : Z) (buf : list Z) (e : Z).
Let n := inode_at s e.
Let nb := next_block s.
(** The inode and the state [write_server] leaves. *)
Definition written_inode : inode :=
  mkInode (Z.max (i_size n) ((block + 1) * BLOCKSIZE)) (i_type n) (i_inum n)
    (set_idx (dpointers n) block nb) (set_idx (dp_used n) block 1).
Definition written_state : lfs :=
  cr_write inum e (set_next (nb + 1)
    (pw (e * BLOCKSIZE) (enc_inode written_inode) (pw (nb * BLOCKSIZE) buf s))).

Hypothesis Hok : lfs_ok s.
Hypothesis He : inode_blk s inum = Some e.
Hypothesis Ht : i_type n = MFS_REGULAR_FILE.
Hypothesis Hblock : 0 ≤ block ≤ 13.
Hypothesis Hbuf : length buf = Z.to_nat BLOCKSIZE.
Hypothesis Hnb : nb + 1 < 524288.

Local Lemma nb_eq : nb = next_block s.
Proof. done. Qed.
Local Lemma Hn : inode_of s inum = Some n.
Proof. unfold inode_of. by rewrite He. Qed.
Local Lemma Hshape : inode_shape n.
Proof. apply dec_inode_shape. Qed.
Local Lemma He_facts :
  0 ≤ inum < MAXINODES ∧ CRSIZE ≤ e < nb ∧ e * BLOCKSIZE + INODE_BYTES ≤ fsize (fd s)
  ∧ CRSIZE ≤ nb ∧ imap s !! Z.to_nat inum = Some e.
Proof.
  destruct (inode_blk_range s inum e Hok He) as (?&?&?).
  pose proof (ok_next s Hok). pose proof nb_eq. split_and!; try lia.
  revert He. unfold inode_blk. case_decide; [|done].
  destruct (imap s !! Z.to_nat inum) as [x|]; simpl; [|done].
  by destruct (x =? -1); intros [= ->].
Qed.

Lemma written_shape : inode_shape written_inode.
Proof.
  destruct (shape_parts n Hshape) as (Hs & Hp & Hu). pose proof Hshape as [Lp Lu _].
  destruct He_facts as (_ & _ & _ & Hc & _). consts.
  apply inode_shape_update; [apply Hshape| |by rewrite set_idx_length..| |].
  - unfold is_i32 in *. consts. lia.
  - apply Forall_set_idx; [done|]. unfold is_i32. lia.
  - apply Forall_set_idx; [done|]. unfold is_i32. lia.
Qed.

Lemma written_used :
  (if negb (ctrue (idx (dp_used n) block)) then set_idx (dp_used n) block 1 else dp_used n)
  = set_idx (dp_used n) block 1.
Proof.
  destruct (inode_ptr s inum n (Z.to_nat block) Hok Hn) as (u & p & Eu & _ & Hu & _); [lia|].
  rewrite <-(Z2Nat.id block) at 1 by lia. rewrite (idx_Some _ _ _ Eu).
  destruct Hu as [-> | ->]; [done|]. symmetry. by apply list_insert_id.
Qed.

Lemma run_write_server : write_server inum buf block s = Ok (0, written_state).
Proof.
  destruct He_facts as (Hi & Hr & Hs & Hc & Him). unfold CRSIZE in *.
  unfold write_server. step (run_find_inode s inum e _ Hok He (junk_inode_shape "write_server.node")).
  cbv beta iota. cbn [Z.eqb negb]. fold n. rewrite (proj2 (Z.eqb_eq _ _) Ht). cbn [negb].
  rewrite Z.gtb_ltb, (proj2 (Z.ltb_ge block 0)), (proj2 (Z.ltb_ge 13 block)) by lia. cbn [orb].
  rewrite decide_False by (rewrite Hbuf; lia). cbn [need].
  rewrite take_ge by (rewrite Hbuf; lia). rewrite bind_ret.
  change ((gets next_block ≫= ?f) (off ?o s)) with (f nb (off o s)).
  cbv beta. rewrite run_write_block by lia.
  rewrite pw_off by (unfold BLOCKSIZE; lia).
  rewrite (run_imap_get _ inum e) by done. rewrite written_used.
  assert ((if (block + 1) * BLOCKSIZE >? i_size n then (block + 1) * BLOCKSIZE else i_size n)
    = Z.max (i_size n) ((block + 1) * BLOCKSIZE)) as ->.
  { rewrite Z.gtb_ltb. destruct (Z.ltb_spec (i_size n) ((block + 1) * BLOCKSIZE)); lia. }
  fold written_inode. rewrite run_write_block by lia.
  change ((bump ≫= ?f) ?S) with (f tt (set_next (i32 (nb + 1)) S)). cbv beta.
  rewrite i32_small by (unfold is_i32; lia).
  erewrite bind_Ok; [|by apply (run_update_CR _ inum e); [lia|exact Him]]. done.
Qed.

Lemma written_bytes b k :
  CRSIZE ≤ b → b ≠ e → b ≠ nb → 0 ≤ k ≤ BLOCKSIZE →
  bytes_at (fdata (fd written_state)) (b * BLOCKSIZE) k =
  bytes_at (fdata (fd s)) (b * BLOCKSIZE) k.
Proof.
  intros. destruct He_facts as (Hi & Hr & Hs & Hc & Him). unfold CRSIZE in *.
  unfold written_state. rewrite cr_write_bytes by (consts; lia). cbn [set_next set_fd fd].
  pose proof (length_enc_inode _ written_shape).
  rewrite !pw_bytes_other by (consts; lia). done.
Qed.

Lemma written_inode_at : inode_at written_state e = written_inode.
Proof.
  destruct He_facts as (Hi & Hr & Hs & Hc & Him). unfold CRSIZE in *.
  pose proof (length_enc_inode _ written_shape) as Hl.
  apply (inode_at_dec _ _ _ []); [apply written_shape|].
  unfold written_state. rewrite cr_write_bytes by (consts; lia). cbn [set_next set_fd fd].
  rewrite pw_bytes_same by (rewrite ?Hl; consts; lia).
  rewrite app_nil_r. apply take_ge. by rewrite Hl.
Qed.

Lemma written_blk : blk written_state nb = buf.
Proof.
  destruct He_facts as (Hi & Hr & Hs & Hc & Him). unfold CRSIZE in *.
  pose proof (length_enc_inode _ written_shape) as Hl.
  unfold blk, written_state. rewrite cr_write_bytes by (consts; lia). cbn [set_next set_fd fd].
  rewrite pw_bytes_other by (consts; lia).
  rewrite pw_bytes_same by (rewrite ?Hbuf; consts; lia). apply take_ge. by rewrite Hbuf.
Qed.

Lemma written_size :
  Z.max (fsize (fd s)) (nb * BLOCKSIZE + BLOCKSIZE) ≤ fsize (fd written_state).
Proof.
  destruct He_facts as (Hi & Hr & Hs & Hc & Him). unfold CRSIZE in *.
  unfold written_state.
  rewrite cr_write_size; [|done|]; cbn [set_next set_fd fd]; rewrite !pw_block_size by lia;
    rewrite Hbuf; consts; lia.
Qed.

Lemma written_inode_of : inode_of written_state inum = Some written_inode.
Proof.
  unfold inode_of. change (inode_blk written_state inum) with (inode_blk s inum).
  rewrite He. simpl. by rewrite written_inode_at.
Qed.

(** Only the written pointer moves, to the block that was next. *)
Lemma written_slot k :
  slot_block written_state (SData inum k) =
  if decide (k = Z.to_nat block) then Some nb else slot_block s (SData inum k).
Proof.
  simpl. rewrite written_inode_of, Hn. cbn [mbind option_bind dp_used dpointers written_inode].
  pose proof Hshape as [Lp Lu _].
  destruct (decide (k < 14)%nat) as [Hk|Hk].
  - rewrite !set_idx_lookup by lia. by case_decide.
  - rewrite !(lookup_ge_None_2 (set_idx _ _ _)) by (rewrite set_idx_length; lia).
    rewrite (lookup_ge_None_2 (dp_used n)) by lia. by rewrite decide_False by lia.
Qed.

Lemma written_same sl : owner sl ∉ [inum] → same_bytes s written_state sl.
Proof.
  intros Hs b Hb. rewrite list_elem_of_singleton in Hs.
  destruct (slot_facts s sl b Hok Hb) as (_ & Hr & _).
  apply written_bytes; [lia| |pose proof nb_eq; lia|by destruct sl].
  intros ->. apply Hs. by rewrite (ok_inj s Hok sl (SInode inum) e Hb He).
Qed.

Lemma written_ok : lfs_ok written_state.
Proof.
  destruct He_facts as (Hi & Hr & Hs & Hc & Him). pose proof written_size as Hsz.
  apply (lfs_ok_preserve s written_state [inum]); [done|done|apply written_same| | | | | | | |].
  - apply (ok_imap s Hok).
  - apply (ok_ints s Hok).
  - change (next_block written_state) with (nb + 1). pose proof nb_eq; lia.
  - lia.
  - intros sl b Hsl Hb. apply list_elem_of_singleton in Hsl.
    change (next_block written_state) with (nb + 1).
    assert (slot_block s sl = Some b ∨ sl = SData inum (Z.to_nat block) ∧ b = nb) as Hc'.
    { destruct sl as [i|i k]; simpl in Hsl; subst i; [by left|].
      rewrite written_slot in Hb. case_decide; [|by left]. right. by simplify_eq. }
    destruct Hc' as [Ho|[-> ->]]; [|cbn [slot_bytes]; split; [right; pose proof nb_eq; lia|lia]].
    split; [by left|]. pose proof (ok_size s Hok sl b Ho). lia.
  - intros sl sl' b Hsl Hsl' Hnew Hb Hb'. apply list_elem_of_singleton in Hsl, Hsl'.
    assert (∀ sl, owner sl = inum → slot_block written_state sl = Some b →
      sl = SData inum (Z.to_nat block)) as Hu.
    { intros [i|i k] Ho Hbb; simpl in Ho; subst i.
      - pose proof (ok_range s Hok (SInode inum) b Hbb). lia.
      - rewrite written_slot in Hbb. case_decide; [by subst|].
        pose proof (ok_range s Hok _ b Hbb). lia. }
    by rewrite (Hu sl), (Hu sl').
  - intros i m Hin Hm. apply list_elem_of_singleton in Hin as ->.
    rewrite written_inode_of in Hm. injection Hm as <-.
    destruct (ok_inode s Hok inum n Hn) as [Hu Hty Hroot].
    constructor; cbn [dp_used i_type written_inode]; [|done|].
    + apply Forall_set_idx; [done|by right].
    + rewrite Ht. done.
  - intros i m k b Hin Hm Hd. apply list_elem_of_singleton in Hin as ->.
    rewrite written_inode_of in Hm. injection Hm as <-. change (i_type n = MFS_DIRECTORY) in Hd.
    by rewrite Ht in Hd.
Qed.

Lemma written_cr : cr_ok s → cr_ok written_state.
Proof.
  intros Hcr. destruct He_facts as (Hi & Hr & Hs & Hc & Him). unfold CRSIZE in *.
  apply (cr_ok_write _ s); [done|done|apply (ok_imap s Hok)| | |].
  - symmetry. by apply list_insert_id.
  - cbn [set_next fd]. rewrite !fdata_pw by (consts; lia).
    rewrite !bytes_at_put_other by (consts; lia). done.
  - cbn [set_next fd]. rewrite !pw_block_size by lia. lia.
Qed.

Lemma written_abs :
  abs written_state inum = Some (ANode MFS_REGULAR_FILE
    (Z.max (i_size n) ((block + 1) * BLOCKSIZE))
    (<[Z.to_nat block:=Some buf]> (a_data (abs_inode s n)))).
Proof.
  unfold abs. rewrite written_inode_of. cbn [fmap option_fmap option_map]. f_equal.
  unfold abs_inode at 1. cbn [i_type i_size written_inode]. rewrite Ht. f_equal.
  pose proof Hshape as [Lp Lu _].
  apply list_eq. intros k. rewrite lookup_zip_with. cbn [dp_used dpointers written_inode].
  destruct (decide (k < 14)%nat) as [Hk|Hk].
  - destruct (inode_ptr s inum n k Hok Hn Hk) as (u & p & Eu & Ep & Hu & Ea).
    rewrite !set_idx_lookup by lia. case_decide as Hkb.
    + subst k. rewrite list_lookup_insert_eq
        by (cbn [a_data abs_inode]; rewrite length_zip_with; lia).
      cbn. do 2 f_equal. apply written_blk.
    + rewrite list_lookup_insert_ne by done. rewrite Ea, Eu, Ep. simpl.
      destruct (Z.eqb_spec u 0) as [|Hu0]; [done|]. do 2 f_equal. unfold blk.
      pose proof (slot_data s inum n k p u Hn Eu Hu0 Ep) as Hsl.
      destruct (slot_facts s _ p Hok Hsl) as (_ & Hr & _).
      apply written_bytes; [lia| |pose proof nb_eq; lia|done].
      intros ->. by pose proof (ok_inj s Hok (SData inum k) (SInode inum) e Hsl He).
  - rewrite !lookup_ge_None_2; [done|..]; rewrite ?length_insert, ?set_idx_length;
      cbn [a_data abs_inode]; rewrite ?length_zip_with; lia.
Qed.
End write.

(** ** Directory blocks *)

Lemma slice_lookup_eq {A} (l l' : list A) i n :
  (∀ j, (i ≤ j < i + n)%nat → l' !! j = l !! j) → slice i n l' = slice i n l.
Proof.
  intros H. apply list_eq. intros j. rewrite !lookup_slice. case_decide; [|done].
  apply H. lia.
Qed.

(** Storing a string and its NUL in slot [e]. *)
Lemma slot_name_splice d js nm e j :
  length (names d) = 3584%nat → nonul nm → (length nm < NAMELEN)%nat →
  (e < NDIRENT)%nat → (j < NDIRENT)%nat →
  slot_name (mkDir js (splice (NAMELEN * e) (nm ++ [0]) (names d))) j =
  if decide (j = e) then Some nm else slot_name d j.
Proof.
  unfold NAMELEN, NDIRENT. intros Hl Hn Hs He Hj. unfold slot_name, NAMELEN. cbn [names].
  assert (28 * e + length (nm ++ [0%Z]) ≤ length (names d))%nat by (len; simpl; lia).
  case_decide as E.
  - subst j. set (m := splice _ _ _).
    assert (slice (28 * e) 28 m = (nm ++ [0]) ++ slice (28 * e + length (nm ++ [0%Z])) (27 - length nm) m)
      as ->.
    { apply list_eq. intros j. rewrite lookup_slice. rewrite length_app in *. simpl in *.
      case_decide as Hj28.
      - destruct (decide (j < length nm + 1)%nat).
        + rewrite lookup_app_l by (len; simpl; lia). unfold m.
          rewrite lookup_splice_in by (len; simpl; lia). f_equal. lia.
        + rewrite lookup_app_r by (len; simpl; lia). rewrite length_app. simpl.
          rewrite lookup_slice, decide_True by lia. f_equal. lia.
      - rewrite lookup_app_r by (len; simpl; lia). rewrite length_app. simpl.
        by rewrite lookup_slice, decide_False by lia. }
    rewrite <-app_assoc. by apply cstr_app.
  - f_equal. apply slice_splice_other; [lia|]. len. simpl. destruct (decide (j < e)%nat); lia.
Qed.

Definition blank1 (d : directory) (i : nat) : directory :=
  mkDir (<[i:=-1]> (inums d)) (set_name i DNE (names d)).

Record dir_wf (d : directory) : Prop := {
  dw_shape : dir_shape d;
  dw_bytes : Forall is_byte (names d)
}.

Lemma DNE_eq : DNE = zstr "DNE" ++ [0].
Proof. done. Qed.

Lemma put_slot_wf d i v nm :
  dir_wf d → is_i32 v → (i < NDIRENT)%nat → (length nm < NAMELEN)%nat → Forall is_byte nm →
  dir_wf (mkDir (<[i:=v]> (inums d)) (set_name i (nm ++ [0]) (names d))).
Proof.
  unfold NAMELEN, NDIRENT. intros [[Hi Hn Hz] Hb] Hv Hr Hl Hnm. unfold NDIRENT in *.
  constructor; [constructor|]; cbn [inums names].
  - by rewrite length_insert.
  - unfold set_name, NAMELEN. rewrite length_splice; lia.
  - by apply Forall_insert.
  - apply Forall_splice; [|done]. apply Forall_app. split; [done|].
    constructor; [|done]. unfold is_byte. lia.
Qed.

Lemma blank_fold_spec l : ∀ d, dir_wf d → Forall (λ i, (i < NDIRENT)%nat) l →
  dir_wf (foldl blank1 d l) ∧
  (∀ j, (j < NDIRENT)%nat → slot_name (foldl blank1 d l) j =
     if decide (j ∈ l) then Some (zstr "DNE") else slot_name d j) ∧
  (∀ j, (j < NDIRENT)%nat → inums (foldl blank1 d l) !! j =
     if decide (j ∈ l) then Some (-1) else inums d !! j).
Proof.
  induction l as [|i l IH]; intros d Hd Hl; cbn [foldl].
  { split_and!; [done|intros..]; (rewrite decide_False; [done|apply not_elem_of_nil]). }
  apply Forall_cons_1 in Hl as [Hi Hl].
  assert (dir_wf (blank1 d i)) as Hd1.
  { unfold blank1. rewrite DNE_eq. apply put_slot_wf; [done|unfold is_i32; lia|done|unfold NAMELEN; simpl; lia|].
    repeat constructor; unfold is_byte; vm_compute; done. }
  destruct (IH (blank1 d i) Hd1 Hl) as (Hw & Hn & Hj). split_and!; [done| |].
  - intros j Hjr. rewrite Hn by done. unfold blank1, set_name. rewrite DNE_eq.
    rewrite slot_name_splice; [|apply Hd|by repeat constructor|unfold NAMELEN; simpl; lia|done|done].
    destruct (decide (j ∈ i :: l)) as [E|E]; rewrite elem_of_cons in E;
      repeat case_decide; try done; tauto.
  - intros j Hjr. rewrite Hj by done. cbn [inums blank1].
    pose proof (ds_inums d (dw_shape d Hd)) as Hlen.
    destruct (decide (j = i)) as [->|Hne].
    + rewrite (decide_True (P := i ∈ i :: l)) by set_solver.
      case_decide; [done|]. apply list_lookup_insert_eq. lia.
    + rewrite list_lookup_insert_ne by done.
      destruct (decide (j ∈ i :: l)) as [E|E]; rewrite elem_of_cons in E;
        repeat case_decide; try done; tauto.
Qed.

Lemma blank_dir_fold i0 d : blank_dir i0 d = foldl blank1 d (seq i0 (NDIRENT - i0)).
Proof. done. Qed.

Lemma dir_wf_ok d :
  dir_wf d → (∀ j, (j < NDIRENT)%nat → is_Some (slot_name d j)) → dir_ok d.
Proof. intros [_ Hb] Hn. by constructor. Qed.

Lemma dir_wf_enc d : dir_wf d → dec_dir (enc_dir d) = d ∧ length (enc_dir d) = Z.to_nat BLOCKSIZE.
Proof. intros [Hs _]. split; [by apply dec_enc_dir|by apply length_enc_dir]. Qed.

Lemma first_free_Some l i e :
  first_free l i = Some e →
  i ≤ e < i + Z.of_nat (length l) ∧ l !! Z.to_nat (e - i) = Some (-1) ∧
  ∀ k x, (k < Z.to_nat (e - i))%nat → l !! k = Some x → x ≠ -1.
Proof.
  revert i. induction l as [|x l IH]; intros i H; simpl in H; [done|].
  destruct (Z.eqb_spec x (-1)) as [->|Hx]; simplify_eq/=.
  - rewrite Z.sub_diag. split_and!; [lia|lia|done|]. intros. lia.
  - destruct (IH _ H) as (H1 & H2 & H3).
    replace (Z.to_nat (e - i)) with (S (Z.to_nat (e - (i + 1)))) by lia.
    split_and!; [lia|lia|done|]. intros [|k] y Hk Hy; simplify_eq/=; [done|].
    eapply H3; [|done]. lia.
Qed.

Lemma first_free_None l i : first_free l i = None → ∀ x, x ∈ l → x ≠ -1.
Proof.
  revert i. induction l as [|x l IH]; intros i H; simpl in H; [set_solver|].
  destruct (Z.eqb_spec x (-1)); [done|]. intros y. rewrite elem_of_cons.
  intros [->|Hy]; [done|by eapply IH].
Qed.

Section junk_dirs.
Context `{Uninit}.
Lemma junk_dir_wf x : dir_wf (junk_dir x).
Proof.
  constructor; [apply junk_dir_shape|]. unfold junk_dir, dec_dir. cbn [names].
  unfold slice. apply Forall_take, Forall_drop, junk_bytes.
Qed.

(** The fresh block a full directory gets... *)
Definition fresh_dir : directory := blank_dir 0 (junk_dir "build_dir_block.d").
(** ... and the first block of a new directory. *)
Definition dots_dir (inum pinum : Z) : directory := dot_entries inum pinum fresh_dir.

Lemma blank_dir_spec d :
  dir_wf d → dir_wf (blank_dir 0 d) ∧
  ∀ j, (j < NDIRENT)%nat →
    slot_name (blank_dir 0 d) j = Some (zstr "DNE") ∧ inums (blank_dir 0 d) !! j = Some (-1).
Proof.
  intros Hd. rewrite blank_dir_fold.
  destruct (blank_fold_spec (seq 0 (NDIRENT - 0)) d Hd) as (Hw & Hn & Hj).
  { apply Forall_forall. intros i Hi%list_elem_of_In%elem_of_seq. lia. }
  split; [done|]. intros j Hjr. rewrite Hn, Hj by done.
  rewrite !decide_True by (apply elem_of_seq; lia). done.
Qed.

Lemma fresh_dir_spec :
  dir_wf fresh_dir ∧ ∀ j, (j < NDIRENT)%nat →
    slot_name fresh_dir j = Some (zstr "DNE") ∧ inums fresh_dir !! j = Some (-1).
Proof. exact (blank_dir_spec _ (junk_dir_wf "build_dir_block.d")). Qed.

#[local] Opaque fresh_dir.

Lemma fresh_dir_ok : dir_wf fresh_dir ∧ dir_ok fresh_dir.
Proof.
  destruct fresh_dir_spec as [Hw Hj].
  split; [done|]. apply dir_wf_ok; [done|]. intros j Hr. rewrite (proj1 (Hj j Hr)). eauto.
Qed.

Lemma fresh_dir_free : first_free (inums fresh_dir) 0 = Some 0.
Proof.
  destruct fresh_dir_spec as [_ Hj]. destruct (Hj 0%nat) as [_ H0]; [unfold NDIRENT; lia|].
  revert H0. generalize (inums fresh_dir). intros [|x l]; [done|]. by intros [= ->].
Qed.

(** "." and ".." over any well-formed block. *)
Lemma dot_entries_spec inum pinum d :
  dir_wf d → is_i32 inum → is_i32 pinum →
  dir_wf (dot_entries inum pinum d) ∧
  (∀ j, (j < NDIRENT)%nat → slot_name (dot_entries inum pinum d) j =
     if decide (j = 1%nat) then Some (zstr "..") else
     if decide (j = 0%nat) then Some (zstr ".") else slot_name d j) ∧
  inums (dot_entries inum pinum d) = <[1%nat:=pinum]> (<[0%nat:=inum]> (inums d)).
Proof.
  intros Hd Hi Hp. pose proof (dw_shape d Hd) as [_ Hl _].
  assert (dir_wf (mkDir (<[0%nat:=inum]> (inums d)) (set_name 0 (zstr "." ++ [0]) (names d)))) as H0.
  { apply put_slot_wf; [done|done|unfold NDIRENT; lia|unfold NAMELEN; simpl; lia|].
    repeat constructor; unfold is_byte; vm_compute; done. }
  assert (dir_wf (dot_entries inum pinum d)) as H1.
  { apply (put_slot_wf (mkDir (<[0%nat:=inum]> (inums d)) (set_name 0 (zstr "." ++ [0]) (names d))));
      [done|done|unfold NDIRENT; lia|unfold NAMELEN; simpl; lia|].
    repeat constructor; unfold is_byte; vm_compute; done. }
  split_and!; [done| |done]. intros j Hj. unfold dot_entries, set_name.
  pose proof (dw_shape _ H0) as [_ Hl0 _].
  rewrite (slot_name_splice (mkDir (<[0%nat:=inum]> (inums d)) (set_name 0 (zstr "." ++ [0]) (names d))));
    [|done|by repeat constructor|unfold NAMELEN; simpl; lia|unfold NDIRENT; lia|done].
  case_decide; [done|]. unfold set_name.
  by rewrite slot_name_splice; [|done|by repeat constructor|unfold NAMELEN; simpl; lia|unfold NDIRENT; lia|done].
Qed.

Lemma dots_dir_ok inum pinum :
  is_i32 inum → is_i32 pinum → dir_wf (dots_dir inum pinum) ∧ dir_ok (dots_dir inum pinum).
Proof.
  intros Hi Hp. destruct fresh_dir_ok as [Hw Hok].
  destruct (dot_entries_spec inum pinum fresh_dir Hw Hi Hp) as (H1 & H2 & _).
  unfold dots_dir. split; [exact H1|]. apply dir_wf_ok; [exact H1|]. intros j Hj. rewrite H2 by done.
  case_decide; [by eexists|]. case_decide; [by eexists|]. by apply (do_names _ Hok).
Qed.
End junk_dirs.
