(* ===== verification/LfsCreat.v ===== *)
(** [creat_server]: the entry made in the parent (first section), the new
    inode (second), and the search for a slot that joins them. *)

From S2P Require Import Prelude CString UnixFile Lfs LfsSpec LfsProofs.

#[local] Ltac consts := unfold MAXINODES, BLOCKSIZE, CRSIZE, INODE_BYTES, NDPTR in *.

(** A directory block with name [nm] and inode [v] stored in slot [e]. *)
Definition dir_put (d : directory) (e : nat) (v : Z) (nm : list Z) : directory :=
  mkDir (<[e:=v]> (inums d)) (splice (NAMELEN * e) (nm ++ [0]) (names d)).

Lemma dir_put_ok d e v nm :
  dir_wf d → dir_ok d → is_i32 v → (e < NDIRENT)%nat → nonul nm → (length nm < NAMELEN)%nat →
  Forall is_byte nm →
  dir_wf (dir_put d e v nm) ∧ dir_ok (dir_put d e v nm) ∧
  ∀ j, (j < NDIRENT)%nat →
    slot_name (dir_put d e v nm) j = if decide (j = e) then Some nm else slot_name d j.
Proof.
  intros Hw Hok Hv He Hn Hl Hb.
  assert (dir_wf (dir_put d e v nm)) as Hw' by by apply put_slot_wf.
  assert (∀ j, (j < NDIRENT)%nat →
    slot_name (dir_put d e v nm) j = if decide (j = e) then Some nm else slot_name d j) as Hs.
  { intros j Hj. apply slot_name_splice; try done. apply (ds_names d), (dw_shape d Hw). }
  split_and!; [done| |done]. apply dir_wf_ok; [done|]. intros j Hj. rewrite Hs by done.
  case_decide; [by eexists|by apply (do_names d Hok)].
Qed.

Section entry.
Context `{Uninit}.
Context (s : lfs) (pinum inum pb : Z) (b e : nat) (fresh : bool) (nm : list Z).
Let m := inode_at s pb.
Let N := next_block s.

(** The parent in memory, the block that gets the entry and where it is. *)
Definition entry_parent : inode :=
  if fresh then mkInode (i32 (i_size m + BLOCKSIZE)) (i_type m) (i_inum m)
    (set_idx (dpointers m) (Z.of_nat b) N) (set_idx (dp_used m) (Z.of_nat b) 1)
  else m.
Definition entry_blk : Z := if fresh then N else idx (dpointers m) (Z.of_nat b).
Definition entry_dir : directory := if fresh then fresh_dir else dec_dir (blk s entry_blk).
Definition entry_base : lfs :=
  if fresh then set_next (N + 1) (pw (N * BLOCKSIZE) (enc_dir fresh_dir) s) else s.
Definition entry_state : lfs :=
  pw (entry_blk * BLOCKSIZE) (enc_dir (dir_put entry_dir e inum nm))
    (pw (pb * BLOCKSIZE) (enc_inode entry_parent ++
      junk "creat_server.above_parent" (BLOCKSIZE - INODE_BYTES)) entry_base).

Hypothesis Hok : lfs_ok s.
Hypothesis Hpb : inode_blk s pinum = Some pb.
Hypothesis Hdir : i_type m = MFS_DIRECTORY.
Hypothesis Hb14 : (b < 14)%nat.
Hypothesis Hsite : if fresh then dp_used m !! b = Some 0 else dp_used m !! b = Some 1.
Hypothesis He : (e < NDIRENT)%nat.
Hypothesis Hnm : nonul nm.
Hypothesis Hlen : (length nm < NAMELEN)%nat.
Hypothesis Hbytes : Forall is_byte nm.
Hypothesis Hinum : is_i32 inum.
Hypothesis HN : N + 1 < 524288.

Local Lemma N_eq : N = next_block s.
Proof. done. Qed.
Lemma entry_m : inode_of s pinum = Some m.
Proof. unfold inode_of. by rewrite Hpb. Qed.
Local Lemma m_shape : inode_shape m.
Proof. apply dec_inode_shape. Qed.
Lemma entry_pb : 0 ≤ pinum < MAXINODES ∧ CRSIZE ≤ pb < N ∧ CRSIZE ≤ N.
Proof.
  destruct (inode_blk_range s pinum pb Hok Hpb) as (?&?&?). pose proof N_eq. lia.
Qed.

(** The target block: the slot's own, or the fresh one. *)
Lemma entry_blk_cases :
  (fresh = true ∧ entry_blk = N) ∨
  (fresh = false ∧ slot_block s (SData pinum b) = Some entry_blk).
Proof.
  unfold entry_blk. destruct fresh; [by left|right]. split; [done|].
  destruct (inode_ptr s pinum m b Hok entry_m Hb14) as (u & p & Eu & Ep & _).
  rewrite (idx_Some _ _ _ Ep). eapply slot_data; [apply entry_m|exact Hsite|done|done].
Qed.

Lemma entry_blk_range : CRSIZE ≤ entry_blk ≤ N ∧ entry_blk ≠ pb ∧ 0 ≤ entry_blk < 524288.
Proof.
  destruct entry_pb as (_ & Hp & Hc). pose proof N_eq. unfold CRSIZE in *.
  destruct entry_blk_cases as [[_ ->]|[_ Hs]]; [lia|].
  destruct (slot_facts s _ _ Hok Hs) as (? & Hr & _). unfold CRSIZE in *.
  split_and!; try lia. intros E. rewrite E in Hs.
  by pose proof (ok_inj s Hok (SData pinum b) (SInode pinum) pb Hs Hpb).
Qed.

Lemma entry_dir_ok : dir_wf entry_dir ∧ dir_ok entry_dir.
Proof.
  unfold entry_dir. destruct entry_blk_cases as [[-> _]|[-> Hs]]; [apply fresh_dir_ok|].
  pose proof (ok_dir s Hok pinum m b _ entry_m Hdir Hs) as Hd.
  split; [|done]. constructor; [apply blk_shape|apply (do_bytes _ Hd)].
Qed.

Lemma entry_put_ok :
  dir_wf (dir_put entry_dir e inum nm) ∧ dir_ok (dir_put entry_dir e inum nm) ∧
  ∀ j, (j < NDIRENT)%nat → slot_name (dir_put entry_dir e inum nm) j =
    if decide (j = e) then Some nm else slot_name entry_dir j.
Proof. destruct entry_dir_ok. by apply dir_put_ok. Qed.

Lemma entry_parent_shape : inode_shape entry_parent ∧ i_type entry_parent = MFS_DIRECTORY.
Proof.
  destruct entry_pb as (_ & Hp & Hc). pose proof N_eq. unfold entry_parent.
  destruct fresh; [|split; [apply m_shape|done]]. split; [|done].
  destruct (shape_parts m m_shape) as (Hs & Hps & Hu). pose proof m_shape as [Lp Lu _].
  consts. apply inode_shape_update;
    [apply m_shape|apply i32_range|by rewrite set_idx_length..| |].
  - apply Forall_set_idx; [done|unfold is_i32; lia].
  - apply Forall_set_idx; [done|unfold is_i32; lia].
Qed.

Lemma entry_parent_ptr k :
  dp_used entry_parent !! k = (if decide (k = b) then Some 1 else dp_used m !! k) ∧
  dpointers entry_parent !! k = (if decide (k = b) then Some entry_blk else dpointers m !! k).
Proof.
  pose proof m_shape as [Lp Lu _]. unfold entry_parent, entry_blk.
  destruct (inode_ptr s pinum m b Hok entry_m Hb14) as (u & p & Eu & Ep & _).
  destruct fresh; cbn [dp_used dpointers].
  - unfold set_idx. rewrite Nat2Z.id. case_decide; subst.
    + rewrite !list_lookup_insert_eq by lia. done.
    + by rewrite !list_lookup_insert_ne by done.
  - case_decide; subst; [|done]. by rewrite (idx_Some _ _ _ Ep).
Qed.

Local Lemma len_parent : length (enc_inode entry_parent ++
  junk "creat_server.above_parent" (BLOCKSIZE - INODE_BYTES)) = Z.to_nat BLOCKSIZE.
Proof.
  rewrite length_app, length_junk, length_enc_inode by apply entry_parent_shape. consts. lia.
Qed.
Local Lemma len_put : length (enc_dir (dir_put entry_dir e inum nm)) = Z.to_nat BLOCKSIZE.
Proof. apply dir_wf_enc, entry_put_ok. Qed.
Local Lemma len_fresh : length (enc_dir fresh_dir) = Z.to_nat BLOCKSIZE.
Proof. apply dir_wf_enc, fresh_dir_ok. Qed.

Lemma entry_bytes bb k :
  CRSIZE ≤ bb → bb ≠ pb → bb ≠ entry_blk → 0 ≤ k ≤ BLOCKSIZE →
  bytes_at (fdata (fd entry_state)) (bb * BLOCKSIZE) k =
  bytes_at (fdata (fd s)) (bb * BLOCKSIZE) k.
Proof.
  intros. destruct entry_pb as (_ & Hp & Hc), entry_blk_range as (Hr & Hne & _).
  unfold CRSIZE in *. unfold entry_state.
  rewrite !pw_bytes_other by (rewrite ?len_parent, ?len_put; consts; lia).
  unfold entry_base. destruct entry_blk_cases as [[-> E]|[-> _]]; [|done].
  cbn [set_next fd]. apply pw_bytes_other; rewrite ?len_fresh; consts; lia.
Qed.

Lemma entry_cr_bytes :
  bytes_at (fdata (fd entry_state)) 0 (4 * MAXINODES) = bytes_at (fdata (fd s)) 0 (4 * MAXINODES).
Proof.
  destruct entry_pb as (_ & Hp & Hc), entry_blk_range as (Hr & Hne & _). unfold CRSIZE in *.
  unfold entry_state. rewrite !fdata_pw by (consts; lia).
  rewrite !bytes_at_put_other by (consts; lia). unfold entry_base. destruct fresh; [|done].
  cbn [set_next fd]. rewrite fdata_pw, bytes_at_put_other by (consts; lia). done.
Qed.

Lemma entry_inode_at : inode_at entry_state pb = entry_parent.
Proof.
  destruct entry_pb as (_ & Hp & Hc), entry_blk_range as (Hr & Hne & _). unfold CRSIZE in *.
  apply (inode_at_dec _ _ _ []); [apply entry_parent_shape|]. unfold entry_state.
  rewrite pw_bytes_other by (rewrite ?len_put; consts; lia).
  rewrite pw_bytes_same by (rewrite ?len_parent; consts; lia).
  rewrite take_app_le, take_ge, app_nil_r; [done|..];
    rewrite length_enc_inode by apply entry_parent_shape; done.
Qed.

Lemma entry_blk_at : blk entry_state entry_blk = enc_dir (dir_put entry_dir e inum nm).
Proof.
  destruct entry_blk_range as (Hr & Hne & _). unfold CRSIZE in *. unfold blk, entry_state.
  rewrite pw_bytes_same by (rewrite ?len_put; consts; lia).
  apply take_ge. by rewrite len_put.
Qed.

Lemma entry_size :
  fsize (fd s) ≤ fsize (fd entry_state) ∧
  pb * BLOCKSIZE + BLOCKSIZE ≤ fsize (fd entry_state) ∧
  entry_blk * BLOCKSIZE + BLOCKSIZE ≤ fsize (fd entry_state).
Proof.
  destruct entry_pb as (_ & Hp & Hc), entry_blk_range as (Hr & Hne & _). unfold CRSIZE in *.
  unfold entry_state. rewrite !pw_block_size, len_parent, len_put by lia.
  assert (fsize (fd s) ≤ fsize (fd entry_base)).
  { unfold entry_base. destruct fresh; [|done]. cbn [set_next fd].
    rewrite pw_block_size by lia. lia. }
  consts. lia.
Qed.

Lemma entry_next : next_block entry_state = (if fresh then N + 1 else N) ∧
  imap entry_state = imap s.
Proof. unfold entry_state, entry_base. by destruct fresh. Qed.

Lemma entry_inode_blk i : inode_blk entry_state i = inode_blk s i.
Proof. unfold inode_blk. by rewrite (proj2 entry_next). Qed.

Lemma entry_inode_of : inode_of entry_state pinum = Some entry_parent.
Proof. unfold inode_of. rewrite entry_inode_blk, Hpb. simpl. by rewrite entry_inode_at. Qed.

Lemma entry_slot k :
  slot_block entry_state (SData pinum k) =
  if decide (k = b) then Some entry_blk else slot_block s (SData pinum k).
Proof.
  simpl. rewrite entry_inode_of, entry_m. cbn [mbind option_bind].
  destruct (entry_parent_ptr k) as [-> ->]. by case_decide.
Qed.

Lemma entry_same sl : owner sl ∉ [pinum] → same_bytes s entry_state sl.
Proof.
  intros Hs bb Hbb. rewrite list_elem_of_singleton in Hs.
  destruct (slot_facts s sl bb Hok Hbb) as (_ & Hr & _). pose proof N_eq.
  apply entry_bytes; [lia| | |by destruct sl].
  - intros ->. apply Hs. by rewrite (ok_inj s Hok sl (SInode pinum) pb Hbb Hpb).
  - destruct entry_blk_cases as [[_ ->]|[_ Hsl]]; [lia|]. intros ->.
    apply Hs. by rewrite (ok_inj s Hok sl (SData pinum b) _ Hbb Hsl).
Qed.

Lemma entry_ok : lfs_ok entry_state.
Proof.
  destruct entry_pb as (Hi & Hp & Hc), entry_blk_range as (Hr & Hne & Hr').
  destruct entry_size as (Hs1 & Hs2 & Hs3), entry_next as [Hnx Him]. pose proof N_eq as HNe.
  pose proof (ok_next s Hok) as Hnb.
  apply (lfs_ok_preserve s entry_state [pinum]);
    [done|intros; apply entry_inode_blk|apply entry_same| | | | | | | |].
  - rewrite Him. apply (ok_imap s Hok).
  - rewrite Him. apply (ok_ints s Hok).
  - rewrite Hnx. unfold CRSIZE in *. destruct fresh; lia.
  - done.
  - intros [i|i k] bb Hsl Hbb; apply list_elem_of_singleton in Hsl; simpl in Hsl; subst i.
    + simpl in Hbb. rewrite entry_inode_blk in Hbb. split; [by left|].
      rewrite Hpb in Hbb. simplify_eq.
      cbn [slot_bytes]. consts. lia.
    + rewrite entry_slot in Hbb. case_decide; simplify_eq.
      * cbn [slot_bytes]. split; [|lia].
        destruct entry_blk_cases as [[Hf E]|[_ Hsl]]; [right|by left].
        rewrite Hnx, Hf, E. lia.
      * split; [by left|]. pose proof (ok_size s Hok _ bb Hbb). lia.
  - intros sl sl' bb Hsl Hsl' Hnew Hbb Hbb'. apply list_elem_of_singleton in Hsl, Hsl'.
    assert (∀ sl, owner sl = pinum → slot_block entry_state sl = Some bb →
      sl = SData pinum b) as Hu.
    { intros [i|i k] Ho Hx; simpl in Ho; subst i.
      - simpl in Hx. rewrite entry_inode_blk in Hx.
        pose proof (ok_range s Hok (SInode pinum) bb Hx). lia.
      - rewrite entry_slot in Hx. case_decide; [by subst|].
        pose proof (ok_range s Hok _ bb Hx). lia. }
    by rewrite (Hu sl), (Hu sl').
  - intros i n Hin Hn. apply list_elem_of_singleton in Hin as ->.
    rewrite entry_inode_of in Hn. injection Hn as <-.
    destruct (ok_inode s Hok pinum m entry_m) as [Hu Hty Hroot].
    constructor; [|left; apply entry_parent_shape|].
    + apply Forall_lookup. intros k u Hk. rewrite (proj1 (entry_parent_ptr k)) in Hk.
      case_decide; [simplify_eq; by right|]. exact (Forall_lookup_1 _ _ _ _ Hu Hk).
    + intros _. rewrite (proj1 (entry_parent_ptr 0)). case_decide; [done|by apply Hroot].
  - intros i n k bb Hin Hn _ Hbb. apply list_elem_of_singleton in Hin as ->.
    rewrite entry_slot in Hbb. case_decide.
    + simplify_eq. rewrite entry_blk_at. destruct entry_put_ok as (Hw & Hd & _).
      by rewrite (proj1 (dir_wf_enc _ Hw)).
    + assert (bb ≠ entry_blk) as Hbe.
      { destruct entry_blk_cases as [[_ ->]|[_ Hsl]].
        - pose proof (ok_range s Hok _ bb Hbb). lia.
        - intros ->. pose proof (ok_inj s Hok _ _ _ Hbb Hsl). naive_solver. }
      assert (bb ≠ pb) as Hbp.
      { intros ->. by pose proof (ok_inj s Hok _ (SInode pinum) _ Hbb Hpb). }
      pose proof (ok_range s Hok _ bb Hbb). unfold blk.
      rewrite entry_bytes by (unfold BLOCKSIZE; lia).
      exact (ok_dir s Hok pinum m k bb entry_m Hdir Hbb).
Qed.

Lemma entry_abs :
  abs entry_state pinum = Some (ANode MFS_DIRECTORY (i_size entry_parent)
    (<[b:=Some (enc_dir (dir_put entry_dir e inum nm))]> (a_data (abs_inode s m)))).
Proof.
  unfold abs. rewrite entry_inode_of. cbn [fmap option_fmap option_map]. f_equal.
  unfold abs_inode at 1. rewrite (proj2 entry_parent_shape). f_equal.
  pose proof m_shape as [Lp Lu _]. pose proof (proj1 entry_parent_shape) as [Lp' Lu' _].
  apply list_eq. intros k. rewrite lookup_zip_with.
  destruct (decide (k < 14)%nat) as [Hk|Hk].
  - destruct (inode_ptr s pinum m k Hok entry_m Hk) as (u & p & Eu & Ep & Hu & Ea).
    destruct (entry_parent_ptr k) as [-> ->]. case_decide as Hkb.
    + subst k. rewrite list_lookup_insert_eq
        by (cbn [a_data abs_inode]; rewrite length_zip_with; lia).
      cbn. do 2 f_equal. apply entry_blk_at.
    + rewrite list_lookup_insert_ne by done. rewrite Ea, Eu, Ep. simpl.
      destruct (Z.eqb_spec u 0) as [|Hu0]; [done|]. do 2 f_equal. unfold blk.
      pose proof (slot_data s pinum m k p u entry_m Eu Hu0 Ep) as Hsl.
      pose proof (ok_range s Hok _ p Hsl). pose proof N_eq.
      apply entry_bytes; [lia| | |unfold BLOCKSIZE; lia].
      * intros ->. by pose proof (ok_inj s Hok (SData pinum k) (SInode pinum) pb Hsl Hpb).
      * destruct entry_blk_cases as [[_ ->]|[_ Hsl']]; [lia|].
        intros ->. pose proof (ok_inj s Hok _ _ _ Hsl Hsl'). naive_solver.
  - rewrite !lookup_ge_None_2; [done|..]; rewrite ?length_insert;
      cbn [a_data abs_inode]; rewrite ?length_zip_with; lia.
Qed.

Lemma entry_abs_other j : j ≠ pinum → abs entry_state j = abs s j.
Proof.
  intros Hj. apply (untouched_abs s entry_state [pinum]);
    [intros; apply entry_inode_blk|apply entry_same|by rewrite list_elem_of_singleton].
Qed.
End entry.

(** ** The new inode *)

Section alloc.
Context `{Uninit}.
Context (t : lfs) (pinum inum type : Z).
Let N := next_block t.
Let isdir := type =? MFS_DIRECTORY.

Definition alloc_base : lfs :=
  if isdir then set_next (N + 1) (pw (N * BLOCKSIZE) (enc_dir (dots_dir inum pinum)) t) else t.
Definition alloc_node : inode :=
  if isdir then mkInode (0 + BLOCKSIZE) type inum
    (set_idx (replicate 14 (-1)) 0 N) (set_idx (replicate 14 0) 0 1)
  else mkInode 0 type inum (replicate 14 (-1)) (replicate 14 0).
Definition alloc_blk : Z := if isdir then N + 1 else N.
Definition alloc_state : lfs :=
  cr_write inum alloc_blk (set_next (alloc_blk + 1)
    (pw (alloc_blk * BLOCKSIZE) (enc_inode alloc_node)
      (set_imap (set_idx (imap t) inum alloc_blk) alloc_base))).
(** What the new file or directory holds. *)
Definition alloc_data : list (option (list Z)) :=
  (if isdir then Some (enc_dir (dots_dir inum pinum)) else None) :: replicate 13 None.

Hypothesis Hok : lfs_ok t.
Hypothesis Hfree : imap t !! Z.to_nat inum = Some (-1).
Hypothesis Hinum : 0 ≤ inum.
Hypothesis Hpinum : is_i32 pinum.
Hypothesis Htype : type = MFS_DIRECTORY ∨ type = MFS_REGULAR_FILE.
Hypothesis HN : N + 2 < 524288.

Lemma alloc_facts : 0 ≤ inum < MAXINODES ∧ CRSIZE ≤ N ∧ N = next_block t ∧
  inode_blk t inum = None ∧ N ≤ alloc_blk ≤ N + 1.
Proof.
  pose proof (lookup_lt_Some _ _ _ Hfree) as Hl. rewrite (ok_imap t Hok) in Hl.
  pose proof (ok_next t Hok). assert (N = next_block t) by done.
  assert (inode_blk t inum = None).
  { unfold inode_blk. rewrite decide_True by done. by rewrite Hfree. }
  unfold alloc_blk. consts. split_and!; try done; destruct isdir; lia.
Qed.

Lemma alloc_dots : dir_wf (dots_dir inum pinum) ∧ dir_ok (dots_dir inum pinum).
Proof.
  apply dots_dir_ok; [|done]. destruct alloc_facts as (Hr & _). consts. unfold is_i32. lia.
Qed.

Lemma alloc_node_shape : inode_shape alloc_node ∧ i_type alloc_node = type ∧ inode_ok alloc_node.
Proof.
  destruct alloc_facts as (Hr & Hc & _).
  assert (is_i32 0 ∧ is_i32 BLOCKSIZE ∧ is_i32 inum ∧ is_i32 N ∧ is_i32 type)
    as (H0 & HB & Hi & HNi & Hty).
  { unfold is_i32. consts. unfold MFS_DIRECTORY, MFS_REGULAR_FILE in *. lia. }
  assert (Forall is_i32 (replicate 14 (-1))) as Hm.
  { apply Forall_replicate. unfold is_i32. lia. }
  assert (Forall is_i32 (replicate 14 0)) as Hz by by apply Forall_replicate.
  unfold alloc_node. subst isdir. destruct (Z.eqb_spec type MFS_DIRECTORY) as [E|E].
  - split_and!; [|done|].
    + constructor; [done..|]. cbn [i_size i_type i_inum dpointers dp_used].
      rewrite Z.add_0_l. do 3 (apply Forall_cons; [done|]). apply Forall_app.
      split; by apply Forall_set_idx.
    + constructor; [|by left|done]. cbn [dp_used].
      apply Forall_set_idx; [|by right]. apply Forall_replicate. by left.
  - split_and!; [|done|].
    + constructor; [done..|]. cbn [i_size i_type i_inum dpointers dp_used].
      do 3 (apply Forall_cons; [done|]). by apply Forall_app.
    + constructor; cbn [dp_used i_type]; [|done|done]. apply Forall_replicate. by left.
Qed.

Local Lemma len_dots : length (enc_dir (dots_dir inum pinum)) = Z.to_nat BLOCKSIZE.
Proof. apply dir_wf_enc, alloc_dots. Qed.
Local Lemma len_node : length (enc_inode alloc_node) = Z.to_nat INODE_BYTES.
Proof. apply length_enc_inode, alloc_node_shape. Qed.

Lemma alloc_bytes b k :
  CRSIZE ≤ b < N → 0 ≤ k ≤ BLOCKSIZE →
  bytes_at (fdata (fd alloc_state)) (b * BLOCKSIZE) k =
  bytes_at (fdata (fd t)) (b * BLOCKSIZE) k.
Proof.
  intros. destruct alloc_facts as (Hr & Hc & _ & _ & Ha). unfold CRSIZE in *.
  unfold alloc_state. rewrite cr_write_bytes by (consts; lia). cbn [set_next fd].
  rewrite pw_bytes_other by (rewrite ?len_node; consts; lia). cbn [set_imap fd].
  unfold alloc_base. destruct isdir; [|done]. cbn [set_next fd].
  apply pw_bytes_other; rewrite ?len_dots; consts; lia.
Qed.

Lemma alloc_inode_at : inode_at alloc_state alloc_blk = alloc_node.
Proof.
  destruct alloc_facts as (Hr & Hc & _ & _ & Ha). unfold CRSIZE in *.
  apply (inode_at_dec _ _ _ []); [apply alloc_node_shape|]. unfold alloc_state.
  rewrite cr_write_bytes by (consts; lia). cbn [set_next fd].
  rewrite pw_bytes_same by (rewrite ?len_node; consts; lia).
  rewrite app_nil_r. apply take_ge. by rewrite len_node.
Qed.

Lemma alloc_size :
  fsize (fd t) ≤ fsize (fd alloc_state) ∧
  alloc_blk * BLOCKSIZE + INODE_BYTES ≤ fsize (fd alloc_state) ∧
  (isdir = true → N * BLOCKSIZE + BLOCKSIZE ≤ fsize (fd alloc_state)).
Proof.
  destruct alloc_facts as (Hr & Hc & _ & _ & Ha). unfold CRSIZE in *. unfold alloc_state.
  rewrite cr_write_size; [|done|]; cbn [set_next set_imap fd];
    rewrite ?pw_block_size, ?len_node by lia; unfold alloc_base, alloc_blk in *;
    destruct isdir; cbn [set_next set_imap fd]; rewrite ?pw_block_size, ?len_dots by lia;
    consts; split_and?; try done; lia.
Qed.

Lemma alloc_inode_blk i :
  inode_blk alloc_state i = if decide (i = inum) then Some alloc_blk else inode_blk t i.
Proof.
  destruct alloc_facts as (Hr & Hc & _ & _ & Ha).
  unfold inode_blk. change (imap alloc_state) with (set_idx (imap t) inum alloc_blk).
  unfold set_idx. case_decide as Hi.
  - destruct (decide (i = inum)) as [->|Hne].
    + rewrite list_lookup_insert_eq by (rewrite (ok_imap t Hok); consts; lia). simpl.
      by rewrite (proj2 (Z.eqb_neq alloc_blk (-1))) by (consts; lia).
    + by rewrite list_lookup_insert_ne by lia.
  - by rewrite decide_False by lia.
Qed.

Lemma alloc_inode_of : inode_of alloc_state inum = Some alloc_node.
Proof. unfold inode_of. rewrite alloc_inode_blk, decide_True by done. simpl. by rewrite alloc_inode_at. Qed.

Lemma alloc_slot sl b :
  owner sl = inum → slot_block alloc_state sl = Some b →
  (sl = SInode inum ∧ b = alloc_blk) ∨ (sl = SData inum 0 ∧ isdir = true ∧ b = N).
Proof.
  destruct sl as [i|i k]; simpl; intros -> Hb.
  - rewrite alloc_inode_blk, decide_True in Hb by done. left. by simplify_eq.
  - right. rewrite alloc_inode_of in Hb. cbn [mbind option_bind] in Hb.
    unfold alloc_node in Hb. destruct isdir; cbn [dp_used dpointers] in Hb.
    + destruct k as [|k]; [by simplify_eq/=|]. exfalso. revert Hb. unfold set_idx.
      rewrite !list_lookup_insert_ne by done.
      destruct (replicate 14 0 !! S k) eqn:E; [|done].
      apply lookup_replicate in E as [-> _]. done.
    + exfalso. revert Hb. destruct (replicate 14 0 !! k) eqn:E; [|done].
      apply lookup_replicate in E as [-> _]. done.
Qed.

Lemma alloc_same sl : owner sl ∉ [inum] → same_bytes t alloc_state sl.
Proof.
  intros _ b Hb. destruct (slot_facts t sl b Hok Hb) as (_ & Hr & _).
  apply alloc_bytes; [done|by destruct sl].
Qed.

Lemma alloc_blk_dots : isdir = true → blk alloc_state N = enc_dir (dots_dir inum pinum).
Proof.
  intros Hd. destruct alloc_facts as (Hr & Hc & _ & _ & Ha). unfold CRSIZE in *.
  unfold blk, alloc_state. rewrite cr_write_bytes by (consts; lia). cbn [set_next fd].
  assert (alloc_blk = N + 1) as Eb by (unfold alloc_blk; by rewrite Hd).
  rewrite pw_bytes_other by (rewrite ?len_node, ?Eb; consts; lia). cbn [set_imap fd].
  unfold alloc_base. rewrite Hd. cbn [set_next fd].
  rewrite pw_bytes_same by (rewrite ?len_dots; consts; lia).
  apply take_ge. by rewrite len_dots.
Qed.

Lemma alloc_ok : lfs_ok alloc_state.
Proof.
  destruct alloc_facts as (Hr & Hc & HNe & Hnone & Ha), alloc_size as (Hs1 & Hs2 & Hs3).
  apply (lfs_ok_preserve t alloc_state [inum]);
    [done| |apply alloc_same| | | | | | | |].
  - intros j Hj. rewrite alloc_inode_blk, decide_False; [done|set_solver].
  - change (imap alloc_state) with (set_idx (imap t) inum alloc_blk).
    rewrite set_idx_length. apply (ok_imap t Hok).
  - change (imap alloc_state) with (set_idx (imap t) inum alloc_blk).
    apply Forall_set_idx; [apply (ok_ints t Hok)|]. unfold is_i32. consts. lia.
  - change (next_block alloc_state) with (alloc_blk + 1). lia.
  - done.
  - intros sl b Hsl Hb. apply list_elem_of_singleton in Hsl.
    change (next_block alloc_state) with (alloc_blk + 1).
    destruct (alloc_slot sl b Hsl Hb) as [[-> ->]|(-> & Hd & ->)].
    + split; [right; lia|done].
    + split; [right; lia|by apply Hs3].
  - intros sl sl' b Hsl Hsl' _ Hb Hb'. apply list_elem_of_singleton in Hsl, Hsl'.
    destruct (alloc_slot sl b Hsl Hb) as [[-> ->]|(-> & Hd & ->)],
      (alloc_slot sl' _ Hsl' Hb') as [[-> E]|(-> & Hd' & E)]; try done;
      exfalso; revert E; unfold alloc_blk; rewrite ?Hd, ?Hd'; lia.
  - intros i n Hin Hn. apply list_elem_of_singleton in Hin as ->.
    rewrite alloc_inode_of in Hn. injection Hn as <-. apply alloc_node_shape.
  - intros i n k b Hin Hn _ Hb. apply list_elem_of_singleton in Hin as ->.
    destruct (alloc_slot (SData inum k) b eq_refl Hb) as [[? _]|(_ & Hd & ->)]; [done|].
    rewrite (alloc_blk_dots Hd), (proj1 (dir_wf_enc _ (proj1 alloc_dots))). apply alloc_dots.
Qed.

Lemma alloc_abs :
  abs alloc_state inum = Some (ANode type (if isdir then BLOCKSIZE else 0) alloc_data).
Proof.
  unfold abs. rewrite alloc_inode_of. cbn [fmap option_fmap option_map]. f_equal.
  unfold abs_inode. rewrite (proj1 (proj2 alloc_node_shape)). unfold alloc_node, alloc_data.
  pose proof alloc_blk_dots as Hd. destruct isdir; cbn [i_size dp_used dpointers]; f_equal.
  change (set_idx (replicate 14 (-1)) 0 N) with (N :: replicate 13 (-1)).
  change (set_idx (replicate 14 0) 0 1) with (1 :: replicate 13 0).
  cbn [zip_with Z.eqb]. rewrite Hd by done. done.
Qed.

Lemma alloc_abs_other j : j ≠ inum → abs alloc_state j = abs t j.
Proof.
  intros Hj. apply (untouched_abs t alloc_state [inum]);
    [|apply alloc_same|by rewrite list_elem_of_singleton].
  intros i Hi. rewrite alloc_inode_blk, decide_False; [done|set_solver].
Qed.
End alloc.
