(* ===== verification/LfsOps.v ===== *)
(** The file server's routines run on a well-formed image: what each returns
    and the state it leaves, in terms of the states of [LfsProofs] and
    [LfsCreat]. *)

From S2P Require Import Prelude CString UnixFile Lfs LfsSpec LfsProofs LfsCreat.

#[local] Ltac consts := unfold MAXINODES, BLOCKSIZE, CRSIZE, INODE_BYTES, NDPTR in *.

Lemma strcpy_fits m d name nm :
  cstr name = Some nm → (d + length nm + 1 ≤ length m)%nat →
  strcpy m d name = Some (splice d (nm ++ [0]) m).
Proof. intros Hc Hl. unfold strcpy. rewrite Hc. simpl. by rewrite decide_True. Qed.

(** ** creat_server *)

(** The first block, from pointer [k] on, that can take an entry: the
    pointer, whether its block is fresh, and the slot. *)
Fixpoint creat_site (data : list (option (list Z))) (k : nat) : option (nat * bool * nat) :=
  match data with
  | [] => None
  | None :: _ => Some (k, true, O)
  | Some bs :: data' =>
      match first_free (inums (dec_dir bs)) 0 with
      | Some e => Some (k, false, Z.to_nat e)
      | None => creat_site data' (S k)
      end
  end.

Definition ftype_ok (type : Z) : bool := (type =? MFS_DIRECTORY) || (type =? MFS_REGULAR_FILE).

Section build.
Context `{Uninit}.

(** The block [build_dir_block] writes. *)
Definition built_dir (fb i p : Z) : directory :=
  if ctrue fb then dots_dir i p else fresh_dir.

Lemma run_build_dir_block t o fb i p :
  0 ≤ next_block t → next_block t + 1 < 524288 →
  build_dir_block fb i p (off o t) =
  Ok (next_block t, set_next (next_block t + 1)
    (pw (next_block t * BLOCKSIZE) (enc_dir (built_dir fb i p)) t)).
Proof.
  intros H0 H1. unfold build_dir_block, built_dir, dots_dir, fresh_dir. cbv zeta.
  generalize (blank_dir 0 (junk_dir "build_dir_block.d")). intros d0.
  generalize (if ctrue fb then dot_entries i p d0 else d0). intros d.
  change ((gets next_block ≫= ?f) (off ?o ?t)) with (f (next_block t) (off o t)). cbv beta.
  rewrite run_write_block by lia. rewrite pw_off by (consts; lia).
  change ((bump ≫= ?f) ?S) with (f tt (set_next (i32 (next_block S + 1)) S)). cbv beta.
  rewrite next_pw, i32_small by (unfold is_i32; lia).
  unfold mbind, M_bind, gets, mret, M_ret. cbn [next_block set_next].
  do 2 f_equal. lia.
Qed.
End build.

Section creat_entry_run.
Context `{Uninit}.
Context (s : lfs) (pinum inum type pb : Z) (b e : nat) (fresh : bool) (name nm : list Z).
Let m := inode_at s pb.
Hypothesis Hok : lfs_ok s.
Hypothesis Hpb : inode_blk s pinum = Some pb.
Hypothesis Hdir : i_type m = MFS_DIRECTORY.
Hypothesis Hb14 : (b < 14)%nat.
Hypothesis Hsite : if fresh then dp_used m !! b = Some 0 else dp_used m !! b = Some 1.
Hypothesis He : (e < NDIRENT)%nat.
Hypothesis Hname : cstr name = Some nm.
Hypothesis Hlen : (length nm < NAMELEN)%nat.
Hypothesis Hbytes : Forall is_byte nm.
Hypothesis Hfree : imap s !! Z.to_nat inum = Some (-1).
Hypothesis Hinum : 0 ≤ inum.
Hypothesis Hpi : is_i32 pinum.
Hypothesis HN : next_block s + 3 < 524288.

Lemma creat_nonul : nonul nm.
Proof. by eapply cstr_nonul. Qed.


Local Lemma inum_range : 0 ≤ inum < MAXINODES ∧ is_i32 inum.
Proof.
  apply lookup_lt_Some in Hfree. rewrite (ok_imap s Hok) in Hfree. unfold is_i32. consts. lia.
Qed.

Lemma creat_alloc_hyps :
  lfs_ok (entry_state s inum pb b e fresh nm) ∧
  imap (entry_state s inum pb b e fresh nm) !! Z.to_nat inum = Some (-1) ∧
  CRSIZE ≤ next_block (entry_state s inum pb b e fresh nm) ∧
  next_block (entry_state s inum pb b e fresh nm) + 2 < 524288.
Proof.
  destruct (entry_next s inum pb b e fresh nm Hsite) as [En Ei].
  pose proof (ok_next s Hok). split_and!.
  - eapply (entry_ok s pinum); try done; [apply creat_nonul|apply inum_range|lia].
  - by rewrite Ei.
  - rewrite En. destruct fresh; lia.
  - rewrite En. destruct fresh; lia.
Qed.

(** The part of [creat_server] after the parent's block is written. *)
Lemma run_alloc t :
  imap t !! Z.to_nat inum = Some (-1) → length (imap t) = Z.to_nat MAXINODES →
  CRSIZE ≤ next_block t → next_block t + 2 < 524288 →
  (n ← (if type =? MFS_DIRECTORY then
         nb ← gets next_block;
         build_dir_block 1 inum pinum;;
         mret (mkInode (0 + BLOCKSIZE) type inum
           (set_idx (replicate 14 (-1)) 0 nb) (set_idx (replicate 14 0) 0 1))
       else mret (mkInode 0 type inum (replicate 14 (-1)) (replicate 14 0)));
  if negb (type =? MFS_DIRECTORY) && negb (type =? MFS_REGULAR_FILE) then mret (-1) else
  nb ← gets next_block;
  imap_set inum nb;;
  seek_block nb;;
  write (enc_inode n);;
  bump;;
  update_CR inum;;
  mret 0) t =
  if ftype_ok type then Ok (0, alloc_state t pinum inum type) else Ok (-1, t).
Proof.
  intros Hf Hl Hc Hn. unfold ftype_ok. rewrite <-negb_orb.
  pose proof inum_range as [Hi _].
  assert (∀ t' n, imap t' = imap t → next_block t ≤ next_block t' ≤ next_block t + 1 →
    (nb ← gets next_block;
     imap_set inum nb;;
     seek_block nb;;
     write (enc_inode n);;
     bump;;
     update_CR inum;;
     mret 0) t' =
    Ok (0, cr_write inum (next_block t') (set_next (next_block t' + 1)
      (pw (next_block t' * BLOCKSIZE) (enc_inode n)
        (set_imap (set_idx (imap t') inum (next_block t')) t'))))) as Htail.
  { intros t' n Hm Hnn. consts.
    change ((gets next_block ≫= ?f) t') with (f (next_block t') t'). cbv beta.
    unfold imap_set at 1. unfold mbind at 1, M_bind at 1.
    rewrite decide_True by (rewrite Hm, Hl; lia).
    rewrite run_write_block by lia.
    change ((bump ≫= ?f) ?S) with (f tt (set_next (i32 (next_block S + 1)) S)). cbv beta.
    cbn [next_block set_next set_imap pw set_fd].
    rewrite i32_small by (unfold is_i32; lia).
    erewrite bind_Ok; [|apply (run_update_CR _ inum (next_block t')); [lia|]]; [done|].
    cbn [imap set_next set_imap pw set_fd]. unfold set_idx.
    apply list_lookup_insert_eq. rewrite Hm, Hl. lia. }
  unfold alloc_state, alloc_node, alloc_blk, alloc_base. destruct (type =? MFS_DIRECTORY); cbn [orb negb].
  - pose proof (run_build_dir_block t (foff (fd t)) 1 inum pinum) as Hb.
    rewrite off_self in Hb. consts.
    erewrite bind_Ok; [|
      change ((gets next_block ≫= ?f) t) with (f (next_block t) t); cbv beta;
      rewrite (bind_Ok _ _ _ _ _ (Hb ltac:(lia) ltac:(lia))); reflexivity].
    rewrite Htail by (cbn [imap next_block set_next pw set_fd]; lia || done).
    change (built_dir 1 inum pinum) with (dots_dir inum pinum). reflexivity.
  - rewrite bind_ret. destruct (type =? MFS_REGULAR_FILE); cbn [negb]; [|done].
    by rewrite Htail by (lia || done).
Qed.

Lemma run_creat_entry o :
  creat_entry pinum type inum (Z.of_nat b) (Z.of_nat e) name
    (entry_parent s pb b fresh) (entry_dir s pb b fresh) (off o (entry_base s fresh)) =
  if ftype_ok type
  then Ok (0, alloc_state (entry_state s inum pb b e fresh nm) pinum inum type)
  else Ok (-1, entry_state s inum pb b e fresh nm).
Proof.
  destruct creat_alloc_hyps as (Hok' & Hf & Hc & Hn).
  pose proof inum_range as [Hi Hi32]. pose proof (ok_imap _ Hok') as Hl.
  destruct (entry_blk_range s pinum pb b e fresh nm) as (_ & _ & Hr); try done; [lia|].
  destruct (inode_blk_range s pinum pb Hok Hpb) as (_ & Hpr & _).
  pose proof (ok_next s Hok). unfold CRSIZE in *.
  unfold creat_entry. rewrite (run_imap_get _ pinum pb) by (by destruct fresh).
  rewrite run_write_block by lia. rewrite pw_off by (consts; lia).
  destruct (entry_dir_ok s pinum pb b fresh) as [[[_ Hln _] _] _]; try done.
  rewrite Nat2Z.id, (strcpy_fits _ _ name nm) by (done || (unfold NAMELEN, NDIRENT in *; lia)).
  cbn [need]. rewrite bind_ret.
  assert (idx (dpointers (entry_parent s pb b fresh)) (Z.of_nat b) = entry_blk s pb b fresh) as ->.
  { apply idx_Some. rewrite (proj2 (entry_parent_ptr s pinum pb b e fresh nm Hok Hpb Hb14 Hsite He Hlen b)). by case_decide. }
  rewrite run_write_block by done. cbv zeta.
  assert (∀ l v, set_idx l (Z.of_nat e) v = <[e:=v]> l) as -> by (intros; unfold set_idx; by rewrite Nat2Z.id).
  exact (run_alloc _ Hf Hl Hc Hn).
Qed.
End creat_entry_run.

Lemma length_a_data s e : length (a_data (abs_inode s (inode_at s e))) = 14%nat.
Proof.
  cbn [a_data abs_inode]. rewrite length_zip_with.
  destruct (dec_inode_shape (bytes_at (fdata (fd s)) (e * BLOCKSIZE) INODE_BYTES)) as [Hp Hu _].
  unfold inode_at. lia.
Qed.

(** The fresh block, once written, reads back as the blank directory. *)
Lemma entry_base_blk `{Uninit} s :
  0 ≤ next_block s → blk (entry_base s true) (next_block s) = enc_dir fresh_dir ∧
  next_block s * BLOCKSIZE + BLOCKSIZE ≤ fsize (fd (entry_base s true)).
Proof.
  intros Hn. unfold blk, entry_base. cbn [set_next fd].
  pose proof (proj2 (dir_wf_enc _ (proj1 fresh_dir_ok))) as Hl. split.
  - rewrite pw_bytes_same by (rewrite ?Hl; consts; lia). apply take_ge. by rewrite Hl.
  - rewrite pw_block_size, Hl by lia. consts. lia.
Qed.

#[local] Opaque fresh_dir dots_dir creat_entry build_dir_block lookup_block.

Section creat_loop_run.
Context `{Uninit}.
Context (s : lfs) (pinum inum type pb : Z) (name nm : list Z).
Let m := inode_at s pb.
Hypothesis Hok : lfs_ok s.
Hypothesis Hpb : inode_blk s pinum = Some pb.
Hypothesis Hdir : i_type m = MFS_DIRECTORY.
Hypothesis Hname : cstr name = Some nm.
Hypothesis Hlen : (length nm < NAMELEN)%nat.
Hypothesis Hbytes : Forall is_byte nm.
Hypothesis Hfree : imap s !! Z.to_nat inum = Some (-1).
Hypothesis Hinum : 0 ≤ inum.
Hypothesis Hpi : is_i32 pinum.
Hypothesis HN : next_block s + 3 < 524288.

(** Where the search ends: what it left is [o]. *)
Definition creat_end (site : option (nat * bool * nat)) (o : Z) : outcome (Z * lfs) :=
  match site with
  | None => Ok (-1, off o s)
  | Some (b, fresh, e) =>
      let t := entry_state s inum pb b e fresh nm in
      if ftype_ok type then Ok (0, alloc_state t pinum inum type) else Ok (-1, t)
  end.

Lemma creat_site_facts n k b fresh e :
  (k + n = 14)%nat →
  creat_site (drop k (a_data (abs_inode s m))) k = Some (b, fresh, e) →
  (k ≤ b < 14)%nat ∧ (e < NDIRENT)%nat ∧
  (if fresh then dp_used m !! b = Some 0 else dp_used m !! b = Some 1).
Proof.
  revert k. induction n as [|n IH]; intros k Hk.
  { rewrite drop_ge; [done|]. unfold m. rewrite length_a_data. lia. }
  assert (inode_of s pinum = Some m) as Hm by (unfold inode_of; by rewrite Hpb).
  destruct (inode_ptr s pinum m k Hok Hm) as (u & p & Eu & Ep & Hu & Ea); [lia|].
  rewrite (drop_S _ _ _ Ea). cbn [creat_site].
  destruct Hu as [-> | ->]; cbn [Z.eqb Pos.eqb].
  - intros [= <- <- <-]. unfold NDIRENT. split_and!; [lia..|done].
  - destruct (first_free _ 0) as [e'|] eqn:Ef.
    + intros [= <- <- <-]. apply first_free_Some in Ef as (He & _).
      pose proof (ds_inums _ (blk_shape s p)) as Hl. unfold NDIRENT in *.
      split_and!; [lia..|done].
    + intros Hs. destruct (IH (S k)) as (H1 & H2 & H3); [lia|done|]. split_and!; [lia..|done].
Qed.

Lemma run_creat_loop n : ∀ k fuel d o,
  (k + n = 14)%nat → (2 * n + 1 ≤ fuel)%nat → dir_shape d →
  ∃ o', creat_loop fuel pinum type inum (Z.of_nat k) name m d (off o s) =
    creat_end (creat_site (drop k (a_data (abs_inode s m))) k) o'.
Proof.
  induction n as [|n IH]; intros k fuel d o Hk Hf Hd; destruct fuel as [|fuel]; [lia| |lia|].
  all: cbn [creat_loop].
  { exists o. rewrite (proj2 (Z.ltb_ge _ _)) by (consts; lia).
    rewrite drop_ge; [done|]. unfold m. rewrite length_a_data. lia. }
  rewrite (proj2 (Z.ltb_lt _ _)) by (consts; lia).
  assert (inode_of s pinum = Some m) as Hm by (unfold inode_of; by rewrite Hpb).
  pose proof (ok_next s Hok) as Hnx.
  destruct (inode_ptr s pinum m k Hok Hm) as (u & p & Eu & Ep & Hu & Ea); [lia|].
  rewrite (idx_Some _ _ _ Eu). rewrite (drop_S _ _ _ Ea). cbn [creat_site].
  destruct Hu as [-> | ->]; cbn [Z.eqb Pos.eqb ctrue negb].
  - (* an unused pointer: a fresh block, then its first slot *)
    exists 0. rewrite (bind_Ok _ _ _ _ _ (run_build_dir_block s o 0 inum (-1)
      ltac:(consts; lia) ltac:(lia))).
    replace (Z.of_nat k - 1 + 1) with (Z.of_nat k) by lia.
    change (mkInode _ _ _ _ _) with (entry_parent s pb k true).
    change (built_dir 0 inum (-1)) with fresh_dir.
    destruct fuel as [|fuel]; [lia|]. cbn [creat_loop].
    rewrite (proj2 (Z.ltb_lt _ _)) by (consts; lia).
    assert (k < 14)%nat as Hk14 by lia.
    assert (0 < NDIRENT)%nat as H128 by (unfold NDIRENT; lia).
    destruct (entry_parent_ptr s pinum pb k 0 true nm Hok Hpb Hk14 Eu H128 Hlen k) as [Eu' Ep'].
    rewrite !decide_True in Eu', Ep' by done.
    rewrite (idx_Some _ _ _ Eu'), (idx_Some _ _ _ Ep').
    cbn [ctrue Z.eqb negb]. change (entry_blk s pb k true) with (next_block s).
    destruct (entry_base_blk s) as [Eb Es]; [consts; lia|].
    change (set_next _ (pw _ _ s)) with (entry_base s true).
    rewrite (bind_Ok _ _ _ _ _ (run_lookup_block (entry_base s true) (next_block s) d
      ltac:(consts; lia) Es Hd)).
    rewrite Eb, (proj1 (dir_wf_enc _ (proj1 fresh_dir_ok))), fresh_dir_free.
    by apply (run_creat_entry s pinum inum type pb k 0 true).
  - rewrite (idx_Some _ _ _ Ep).
    assert (slot_block s (SData pinum k) = Some p) as Hsl by by eapply slot_data.
    destruct (slot_facts s _ p Hok Hsl) as (Hr & _ & Hs).
    rewrite (bind_Ok _ _ _ _ _ (run_lookup_block (off o s) p d Hr Hs Hd)).
    change (blk (off o s) p) with (blk s p). rewrite off_off.
    destruct (first_free (inums (dec_dir (blk s p))) 0) as [e|] eqn:Ef.
    + exists 0. assert (entry_blk s pb k false = p) as Eb by (unfold entry_blk; by apply idx_Some).
      pose proof Ef as (He & _)%first_free_Some.
      pose proof (ds_inums _ (blk_shape s p)) as Hl. unfold NDIRENT in *.
      rewrite <-(Z2Nat.id e) at 1 by lia.
      rewrite <-Eb.
      apply (run_creat_entry s pinum inum type pb k (Z.to_nat e) false); try done; [lia|].
      unfold NDIRENT. lia.
    + replace (Z.of_nat k + 1) with (Z.of_nat (S k)) by lia.
      apply IH; [lia|lia|apply blk_shape].
Qed.
End creat_loop_run.
