(* ===== verification/LfsTheorems.v ===== *)
(** What each server routine does, as theorems: the results, the abstract
    file system afterwards, and the checkpoint a restart reads. *)

From S2P Require Import Prelude CString UnixFile Lfs LfsSpec LfsProofs LfsCreat LfsOps.

#[local] Ltac consts := unfold MAXINODES, BLOCKSIZE, CRSIZE, INODE_BYTES, NDPTR in *.
#[local] Opaque fresh_dir dots_dir creat_entry build_dir_block lookup_block.

(** ** Specifications over the abstract file system *)

(** [write]: the block is replaced, the size grows to cover it. *)
Definition spec_write (nd : anode) (block : Z) (buf : list Z) : anode :=
  ANode (a_type nd) (Z.max (a_size nd) ((block + 1) * BLOCKSIZE))
    (<[Z.to_nat block:=Some buf]> (a_data nd)).

(** [creat]: the entry in the first block with room, and the new node. *)
Definition spec_creat `{Uninit} (σ : Z → option anode) (pinum type inum : Z) (nm : list Z)
    : option (Z → option anode) :=
  p ← σ pinum;
  '(b, fresh, e) ← creat_site (a_data p) 0;
  let d := if (fresh : bool) then fresh_dir
           else dec_dir (default [] (default None (a_data p !! b))) in
  let size := if (fresh : bool) then i32 (a_size p + BLOCKSIZE) else a_size p in
  let p' := ANode MFS_DIRECTORY size
    (<[b:=Some (enc_dir (dir_put d e inum nm))]> (a_data p)) in
  let new := ANode type (if type =? MFS_DIRECTORY then BLOCKSIZE else 0)
    (alloc_data pinum inum type) in
  Some (λ j, if decide (j = inum) then Some new else
             if decide (j = pinum) then Some p' else σ j).

(** No slot of the directory holds the name. *)
Definition absent (nd : anode) (nm : list Z) : Prop :=
  ∀ k bs, a_data nd !! k = Some (Some bs) → dir_lookup (dec_dir bs) nm = None.

(** ** write_server and read_server *)

(** ** Lookup in a changed directory *)

Lemma dir_find_Some d nm n j i :
  dir_find d nm n j = Some i ↔
  (j ≤ i < j + n)%nat ∧ slot_name d i = Some nm ∧
  ∀ k, (j ≤ k < i)%nat → slot_name d k ≠ Some nm.
Proof.
  revert j. induction n as [|n IH]; intros j; cbn [dir_find]; [split; [done|lia]|].
  case_decide as E.
  - split; [intros [= <-]; split_and!; [lia..|done|lia]|].
    intros (H1 & H2 & H3). destruct (decide (i = j)) as [->|]; [done|]. by destruct (H3 j); [lia|].
  - rewrite IH. split; intros (H1 & H2 & H3).
    + split_and!; [lia..|done|]. intros k Hk. destruct (decide (k = j)) as [->|]; [done|].
      apply H3. lia.
    + assert (i ≠ j) by (intros ->; done). split_and!; [lia..|done|]. intros k Hk. apply H3. lia.
Qed.

Lemma dir_find_None d nm n j :
  dir_find d nm n j = None ↔ ∀ k, (j ≤ k < j + n)%nat → slot_name d k ≠ Some nm.
Proof.
  revert j. induction n as [|n IH]; intros j; cbn [dir_find]; [split; [lia|done]|].
  case_decide as E.
  - split; [done|]. intros H. by destruct (H j); [lia|].
  - rewrite IH. split; intros H k Hk.
    + destruct (decide (k = j)) as [->|]; [done|]. apply H. lia.
    + apply H. lia.
Qed.

Lemma dir_lookup_None d nm k :
  dir_lookup d nm = None → (k < NDIRENT)%nat → slot_name d k ≠ Some nm.
Proof.
  unfold dir_lookup. destruct (dir_find d nm NDIRENT 0) eqn:Ef; [done|]. intros _ Hk.
  rewrite dir_find_None in Ef. apply Ef. lia.
Qed.

Definition block_lookup (o : option (list Z)) (nm : list Z) : option Z :=
  bs ← o; dir_lookup (dec_dir bs) nm.

Lemma blocks_lookup_foldr data nm :
  blocks_lookup data nm = foldr (λ o r, default r (block_lookup o nm)) (-1) data.
Proof.
  induction data as [|o data IH]; [done|].
  rewrite foldr_cons, <-IH. destruct o as [bs|]; [|done].
  cbn [blocks_lookup]. change (block_lookup (Some bs) nm) with (dir_lookup (dec_dir bs) nm).
  by generalize (dir_lookup (dec_dir bs) nm) as r; intros [r|].
Qed.

Lemma absent_lookup p nm : absent p nm → blocks_lookup (a_data p) nm = -1.
Proof.
  unfold absent. generalize (a_data p). induction l as [|[bs|] l IH]; intros Ha; [done| |].
  - cbn [blocks_lookup]. rewrite (Ha 0%nat bs) by done. apply IH.
    intros k bs' Hk. by apply (Ha (S k)).
  - apply IH. intros k bs' Hk. by apply (Ha (S k)).
Qed.

(** The entry just put is found; the other entries are found as before. *)
Lemma dir_put_lookup d e v nm :
  dir_wf d → dir_ok d → is_i32 v → (e < NDIRENT)%nat → nonul nm → (length nm < NAMELEN)%nat →
  Forall is_byte nm → (∀ k, (k < e)%nat → slot_name d k ≠ Some nm) →
  dir_lookup (dir_put d e v nm) nm = Some v.
Proof.
  intros Hw Hok Hv He Hn Hl Hb Hno. destruct (dir_put_ok d e v nm) as (_ & _ & Hs); [done..|].
  unfold dir_lookup.
  assert (dir_find (dir_put d e v nm) nm NDIRENT 0 = Some e) as ->.
  { apply dir_find_Some. split_and!; [lia..| |].
    - rewrite Hs by done. by case_decide.
    - intros k Hk. rewrite Hs by lia. case_decide; [lia|]. apply Hno. lia. }
  cbn. f_equal. unfold idx. rewrite Nat2Z.id, list_lookup_insert_eq; [done|].
  by rewrite (ds_inums d (dw_shape d Hw)).
Qed.

Lemma dir_put_lookup_other d e v nm nm' :
  dir_wf d → dir_ok d → is_i32 v → (e < NDIRENT)%nat → nonul nm → (length nm < NAMELEN)%nat →
  Forall is_byte nm → nm' ≠ nm → inums d !! e = Some (-1) → dir_lookup d nm' ≠ Some (-1) →
  dir_lookup (dir_put d e v nm) nm' = dir_lookup d nm'.
Proof.
  intros Hw Hok Hv He Hn Hl Hb Hne Hfree Hlk. destruct (dir_put_ok d e v nm) as (_ & _ & Hs); [done..|].
  unfold dir_lookup in *. destruct (dir_find d nm' NDIRENT 0) as [j|] eqn:Ef.
  - pose proof Ef as (Hj & Hsj & Hpre)%dir_find_Some.
    assert (j ≠ e) as Hje.
    { intros ->. apply Hlk. cbn. f_equal. by apply idx_Some. }
    assert (dir_find (dir_put d e v nm) nm' NDIRENT 0 = Some j) as ->.
    { apply dir_find_Some. split_and!; [lia..| |].
      - rewrite Hs by lia. by rewrite decide_False.
      - intros k Hk. rewrite Hs by lia. case_decide; [congruence|]. apply Hpre. lia. }
    cbn. f_equal. unfold idx. rewrite Nat2Z.id. by rewrite list_lookup_insert_ne.
  - assert (dir_find (dir_put d e v nm) nm' NDIRENT 0 = None) as ->; [|done].
    apply dir_find_None. rewrite dir_find_None in Ef. intros k Hk. rewrite Hs by lia.
    case_decide; [congruence|]. by apply Ef.
Qed.

Lemma fresh_dir_lookup `{Uninit} nm : nm ≠ zstr "DNE" → dir_lookup fresh_dir nm = None.
Proof.
  intros Hn. unfold dir_lookup. assert (dir_find fresh_dir nm NDIRENT 0 = None) as ->; [|done].
  apply dir_find_None. intros k Hk. destruct fresh_dir_spec as [_ Hs].
  rewrite (proj1 (Hs k ltac:(lia))). congruence.
Qed.

Lemma foldr_default_acc (f : option (list Z) → option Z) l a :
  (∀ a', foldr (λ o r, default r (f o)) a' l = foldr (λ o r, default r (f o)) a l) ∨
  (∀ a', foldr (λ o r, default r (f o)) a' l = a').
Proof.
  induction l as [|o l IH]; [by right|]. cbn [foldr].
  destruct (f o); [by left|]. exact IH.
Qed.

Lemma blocks_lookup_put data b new nm i :
  (b < length data)%nat →
  (∀ k bs, data !! k = Some (Some bs) → dir_lookup (dec_dir bs) nm = None) →
  dir_lookup (dec_dir new) nm = Some i → blocks_lookup (<[b:=Some new]> data) nm = i.
Proof.
  intros Hb Ha Hi. rewrite insert_take_drop by done. rewrite blocks_lookup_foldr, foldr_app, foldr_cons.
  change (block_lookup (Some new) nm) with (dir_lookup (dec_dir new) nm). rewrite Hi. cbn [default].
  assert (Forall (λ o, block_lookup o nm = None) (take b data)) as Hf.
  { apply Forall_take, Forall_lookup. intros k [bs|] Hk; [exact (Ha k bs Hk)|done]. }
  induction Hf as [|o l Ho _ IH]; [done|]. rewrite foldr_cons, Ho. exact IH.
Qed.

Lemma blocks_lookup_keep data b old new nm :
  data !! b = Some old →
  (block_lookup old nm ≠ Some (-1) → dir_lookup (dec_dir new) nm = block_lookup old nm) →
  blocks_lookup data nm ≠ -1 → blocks_lookup (<[b:=Some new]> data) nm = blocks_lookup data nm.
Proof.
  intros Hb Hk Hne. pose proof (lookup_lt_Some _ _ _ Hb) as Hlt.
  rewrite insert_take_drop by done. revert Hne. rewrite <-(take_drop_middle _ _ _ Hb) at 1 4.
  rewrite !blocks_lookup_foldr, !foldr_app, !foldr_cons.
  change (block_lookup (Some new) nm) with (dir_lookup (dec_dir new) nm).
  destruct (foldr_default_acc (λ o, block_lookup o nm) (take b data) 0) as [E|E]; cbv beta in E.
  { intros _. etransitivity; [apply E|symmetry; apply E]. }
  rewrite !E. intros Hne. rewrite Hk; [done|]. intros E'. by rewrite E' in Hne.
Qed.

Section theorems.
Context `{Uninit}.

Lemma write_server_refines s inum nd block buf :
  lfs_ok s → cr_ok s → abs s inum = Some nd → a_type nd = MFS_REGULAR_FILE →
  0 ≤ block ≤ 13 → length buf = Z.to_nat BLOCKSIZE → next_block s + 1 < 524288 →
  ∃ s', write_server inum buf block s = Ok (0, s') ∧ lfs_ok s' ∧ cr_ok s' ∧
    next_block s' = next_block s + 1 ∧
    ∀ j, abs s' j = if decide (j = inum) then Some (spec_write nd block buf) else abs s j.
Proof.
  intros Hok Hcr Ha Ht Hb Hl Hn. apply abs_Some in Ha as (e & n & He & -> & Hi & ->).
  cbn [a_type abs_inode] in Ht.
  exists (written_state s inum block buf e). split_and!.
  - by apply run_write_server.
  - by apply written_ok.
  - by apply written_cr.
  - done.
  - intros j. case_decide as Hj; [subst j|].
    + rewrite written_abs by done. unfold spec_write. cbn [a_type a_size abs_inode].
      by rewrite Ht.
    + apply (untouched_abs s _ [inum]); [done|by apply written_same|].
      by rewrite list_elem_of_singleton.
Qed.

(** The errors of [write_server] leave the image alone. *)
Lemma write_server_errors s inum block buf :
  lfs_ok s →
  (inum < 0 ∨ MAXINODES ≤ inum → write_server inum buf block s = Ok (-1, s)) ∧
  (∀ nd, abs s inum = Some nd → a_type nd ≠ MFS_REGULAR_FILE ∨ block < 0 ∨ 13 < block →
    ∃ o, write_server inum buf block s = Ok (-1, off o s)).
Proof.
  intros Hok. split.
  - intros Hr. unfold write_server. by rewrite (bind_Ok _ _ _ _ _ (run_find_inode_bad _ _ _ Hr)).
  - intros nd Ha Hbad. apply abs_Some in Ha as (e & n & He & -> & Hi & ->). eexists.
    unfold write_server. step (run_find_inode s inum e _ Hok He (junk_inode_shape "write_server.node")).
    cbn [Z.eqb negb]. cbn [a_type abs_inode] in Hbad.
    destruct (Z.eqb_spec (i_type (inode_at s e)) MFS_REGULAR_FILE) as [Et|Et]; cbn [negb]; [|done].
    destruct Hbad as [Hbad|Hbad]; [done|].
    assert ((block <? 0) || (block >? 13) = true) as ->; [|done].
    rewrite Z.gtb_ltb. apply orb_true_iff. rewrite !Z.ltb_lt. lia.
Qed.

Lemma run_read_server s inum nd block buf bs :
  lfs_ok s → abs s inum = Some nd → a_type nd = MFS_REGULAR_FILE →
  0 ≤ block ≤ 13 → length buf = Z.to_nat BLOCKSIZE →
  a_data nd !! Z.to_nat block = Some (Some bs) →
  ∃ o, read_server inum buf block s = Ok ((0, bs), off o s).
Proof.
  intros Hok Ha Ht Hb Hl Hd. apply abs_Some in Ha as (e & n & He & -> & Hi & ->).
  destruct (inode_ptr s inum _ (Z.to_nat block) Hok Hi) as (u & p & Eu & Ep & Hu & Ea); [lia|].
  rewrite Hd in Ea. destruct (Z.eqb_spec u 0) as [|Hu0]; [done|]. injection Ea as ->.
  pose proof (slot_data s inum _ _ p u Hi Eu Hu0 Ep) as Hsl.
  destruct (slot_facts s _ p Hok Hsl) as (Hr & _ & Hs). cbn [slot_bytes] in Hs.
  eexists. unfold read_server.
  step (run_find_inode s inum e _ Hok He (junk_inode_shape "read_server.node")).
  cbn [Z.eqb negb]. cbn [a_type abs_inode] in Ht.
  rewrite Z.gtb_ltb, (proj2 (Z.ltb_ge block 0)), (proj2 (Z.ltb_ge 13 block)) by lia. cbn [orb].
  rewrite Ht. cbn [MFS_REGULAR_FILE Z.eqb Pos.eqb].
  rewrite <-(Z2Nat.id block) by lia. rewrite (idx_Some _ _ _ Ep).
  change (0 ≤ p < 524288) in Hr.
  rewrite (run_read_block p BLOCKSIZE buf); [|done|consts; lia|done|done]. reflexivity.
Qed.

(** ** creat_server *)

Lemma run_find_dir s pinum p n0 :
  lfs_ok s → abs s pinum = Some p → inode_shape n0 →
  ∃ pb o, inode_blk s pinum = Some pb ∧ p = abs_inode s (inode_at s pb) ∧
    find_inode pinum n0 s = Ok ((0, inode_at s pb), off o s).
Proof.
  intros Hok Ha Hn. apply abs_Some in Ha as (e & n & He & -> & Hi & ->).
  exists e. eexists. split_and!; [done|done|by apply run_find_inode].
Qed.

Lemma first_free_range m inum :
  first_free m 0 = Some inum → 0 ≤ inum ∧ m !! Z.to_nat inum = Some (-1).
Proof. intros (H1 & H2 & _)%first_free_Some. rewrite Z.sub_0_r in H2. split; [lia|done]. Qed.

(** [creat_server] up to its loop, on a directory. *)
Lemma run_creat_server s pinum type p nm name :
  lfs_ok s → abs s pinum = Some p → a_type p = MFS_DIRECTORY →
  cstr name = Some nm → Forall is_byte name → (length nm < NAMELEN)%nat →
  next_block s + 3 < 524288 →
  ∃ pb o, inode_blk s pinum = Some pb ∧ p = abs_inode s (inode_at s pb) ∧
    creat_server pinum type name s =
    if negb (blocks_lookup (a_data p) nm =? -1) then Ok (0, off o s) else
    match first_free (imap s) 0 with
    | None => Ok (-1, off o s)
    | Some inum => creat_end s pinum inum type pb nm (creat_site (a_data p) 0) o
    end.
Proof.
  intros Hok Ha Ht Hc Hb Hl Hn.
  destruct (run_find_dir s pinum p (junk_inode "creat_server.parent") Hok Ha (junk_inode_shape _))
    as (pb & o1 & Hpb & Hp & E1).
  destruct (run_lookup_server (off o1 s) pinum p nm name) as [o2 E2];
    [by apply lfs_ok_off|done..|].
  assert (i_type (inode_at s pb) = MFS_DIRECTORY) as Hdir by (by rewrite Hp in Ht).
  destruct (first_free (imap s) 0) as [inum|] eqn:Ef.
  - destruct (first_free_range _ _ Ef) as [Hi Hfree].
    destruct (inode_blk_range s pinum pb Hok Hpb) as (Hpr & _).
    assert (is_i32 pinum) as Hpi by (unfold is_i32; consts; lia).
    pose proof (cstr_nonul _ _ Hc) as Hnn.
    assert (Forall is_byte nm) as Hbn.
    { apply cstr_split in Hc as [r ->]. by apply Forall_app in Hb as [? _]. }
    destruct (run_creat_loop s pinum inum type pb name nm Hok Hpb Hdir Hc Hl Hbn Hfree Hi Hn
      14 0 CREAT_FUEL (junk_dir "creat_server.block") o2) as [o3 E3];
      [done|unfold CREAT_FUEL; lia|apply junk_dir_shape|].
    rewrite drop_0 in E3. rewrite <-Hp in E3.
    exists pb, (if blocks_lookup (a_data p) nm =? -1 then o3 else o2). split_and!; [done|done|].
    unfold creat_server. rewrite (bind_Ok _ _ _ _ _ E1). cbn [Z.eqb negb].
    rewrite Hdir. cbn [MFS_DIRECTORY Z.eqb negb]. rewrite (bind_Ok _ _ _ _ _ E2).
    destruct (Z.eqb_spec (blocks_lookup (a_data p) nm) (-1)); cbn [negb]; [|done].
    change ((gets imap ≫= ?f) (off o2 (off o1 s))) with (f (imap s) (off o2 (off o1 s))). cbv beta.
    rewrite Ef. exact E3.
  - exists pb, o2. split_and!; [done|done|].
    unfold creat_server. rewrite (bind_Ok _ _ _ _ _ E1). cbn [Z.eqb negb].
    rewrite Hdir. cbn [MFS_DIRECTORY Z.eqb negb]. rewrite (bind_Ok _ _ _ _ _ E2).
    destruct (Z.eqb_spec (blocks_lookup (a_data p) nm) (-1)); cbn [negb]; [|done].
    change ((gets imap ≫= ?f) (off o2 (off o1 s))) with (f (imap s) (off o2 (off o1 s))). cbv beta.
    by rewrite Ef.
Qed.
Lemma alloc_cr s t pinum inum type :
  cr_ok s → lfs_ok s → lfs_ok t → imap t = imap s → fsize (fd s) ≤ fsize (fd t) →
  bytes_at (fdata (fd t)) 0 (4 * MAXINODES) = bytes_at (fdata (fd s)) 0 (4 * MAXINODES) →
  0 ≤ inum < MAXINODES → cr_ok (alloc_state t pinum inum type).
Proof.
  intros Hcr Hok Hokt Him Hsz Hb Hi. pose proof (ok_next t Hokt). unfold alloc_state.
  apply (cr_ok_write _ s); [done|done|apply (ok_imap s Hok)| | |]; cbn [set_next set_imap fd];
    unfold alloc_blk, alloc_base; unfold CRSIZE in *.
  - cbn [set_next set_imap imap pw set_fd]. by rewrite Him.
  - rewrite <-Hb. destruct (type =? MFS_DIRECTORY); cbn [set_next set_imap fd imap];
      rewrite !fdata_pw by (consts; lia); cbn [set_next set_imap fd];
      rewrite ?fdata_pw by (consts; lia); rewrite !bytes_at_put_other by (consts; lia); done.
  - destruct (type =? MFS_DIRECTORY); cbn [set_next set_imap fd imap];
      rewrite !pw_block_size by lia; cbn [set_next set_imap fd];
      rewrite ?pw_block_size by lia; lia.
Qed.

(** The whole call when there is room. *)
Lemma creat_server_creates s pinum type p nm name inum σ' :
  lfs_ok s → cr_ok s → abs s pinum = Some p → a_type p = MFS_DIRECTORY →
  cstr name = Some nm → Forall is_byte name → (length nm < NAMELEN)%nat →
  next_block s + 3 < 524288 →
  blocks_lookup (a_data p) nm = -1 → ftype_ok type = true →
  first_free (imap s) 0 = Some inum →
  spec_creat (abs s) pinum type inum nm = Some σ' →
  ∃ s', creat_server pinum type name s = Ok (0, s') ∧ lfs_ok s' ∧ cr_ok s' ∧
    next_block s' ≤ next_block s + 3 ∧ ∀ j, abs s' j = σ' j.
Proof.
  intros Hok Hcr Ha Ht Hc Hb Hl Hn Hlk Hty Hf Hσ.
  destruct (run_creat_server s pinum type p nm name) as (pb & o & Hpb & Hp & E); [done..|].
  rewrite Hlk, Hf in E. cbn [Z.eqb Pos.eqb negb] in E.
  unfold spec_creat in Hσ. rewrite Ha in Hσ. cbn [mbind option_bind] in Hσ.
  destruct (creat_site (a_data p) 0) as [[[b fresh] e]|] eqn:Es; [|done].
  injection Hσ as <-. unfold creat_end in E. rewrite Hty in E. cbv zeta in E.
  destruct (first_free_range _ _ Hf) as [Hi Hfree].
  destruct (inode_blk_range s pinum pb Hok Hpb) as (Hpr & _).
  assert (i_type (inode_at s pb) = MFS_DIRECTORY) as Hdir by (by rewrite Hp in Ht).
  assert (inode_of s pinum = Some (inode_at s pb)) as Hino by (unfold inode_of; by rewrite Hpb).
  pose proof (cstr_nonul _ _ Hc) as Hnn.
  assert (Forall is_byte nm) as Hbn.
  { apply cstr_split in Hc as [r ->]. by apply Forall_app in Hb as [? _]. }
  destruct (creat_site_facts s pinum pb nm Hok Hpb Hl 14 0 b fresh e) as (Hb14 & He & Hsite);
    [done|by rewrite drop_0, <-Hp|].
  assert (0 ≤ inum < MAXINODES) as Hir.
  { apply lookup_lt_Some in Hfree. rewrite (ok_imap s Hok) in Hfree. consts. lia. }
  assert (is_i32 inum ∧ is_i32 pinum) as [Hii Hpi] by (unfold is_i32; consts; lia).
  assert (type = MFS_DIRECTORY ∨ type = MFS_REGULAR_FILE) as Hty'.
  { unfold ftype_ok in Hty. apply orb_true_iff in Hty as [?%Z.eqb_eq|?%Z.eqb_eq]; auto. }
  assert (inode_blk s inum = None) as Hnone.
  { unfold inode_blk. rewrite decide_True by lia. by rewrite Hfree. }
  assert (inum ≠ pinum) as Hne by (intros ->; congruence).
  set (t := entry_state s inum pb b e fresh nm) in *.
  assert (lfs_ok t) as Hokt by (eapply (entry_ok s pinum); try done; lia).
  destruct (entry_next s inum pb b e fresh nm Hsite) as [Hnx Him].
  assert (next_block t + 2 < 524288) as Hnt by (unfold t; rewrite Hnx; destruct fresh; lia).
  assert (fsize (fd s) ≤ fsize (fd t)) as Hsz.
  { pose proof (entry_size s pinum inum pb b e fresh nm Hok Hpb Hdir (proj2 Hb14) Hsite He
      Hnn Hl Hbn Hii ltac:(lia)) as (Hsz & _). exact Hsz. }
  assert (bytes_at (fdata (fd t)) 0 (4 * MAXINODES) = bytes_at (fdata (fd s)) 0 (4 * MAXINODES)) as Hcb.
  { rewrite <-(entry_cr_bytes s pinum inum pb b e fresh nm); try done; lia. }
  assert (imap t !! Z.to_nat inum = Some (-1)) as Hft by (unfold t; rewrite Him; exact Hfree).
  exists (alloc_state t pinum inum type). split_and!; [exact E| | | |].
  - exact (alloc_ok t pinum inum type Hokt Hft Hi Hpi Hty' Hnt).
  - exact (alloc_cr s t pinum inum type Hcr Hok Hokt Him Hsz Hcb Hir).
  - change (next_block (alloc_state t pinum inum type)) with (alloc_blk t type + 1).
    unfold alloc_blk. replace (next_block t) with (if fresh then next_block s + 1 else next_block s).
    destruct fresh, (type =? MFS_DIRECTORY); lia.
  - intros j. case_decide as Hj; [subst j|].
    + exact (alloc_abs t pinum inum type Hokt Hft Hi Hpi Hty' Hnt).
    + rewrite (alloc_abs_other t pinum inum type Hokt Hft Hi Hpi Hty' Hnt j Hj).
      case_decide as Hjp; [subst j|].
      * unfold t. rewrite (entry_abs s pinum inum pb b e fresh nm Hok Hpb Hdir (proj2 Hb14) Hsite He
          Hnn Hl Hbn Hii ltac:(lia)).
        rewrite <-Hp. unfold entry_parent, entry_dir, entry_blk.
        destruct (inode_ptr s pinum _ b Hok Hino (proj2 Hb14)) as (u & q & Eu & Eq & _ & Ea).
        destruct fresh; [by rewrite Hp|].
        rewrite Hsite in Eu. injection Eu as <-.
        rewrite (idx_Some _ _ _ Eq). rewrite <-Hp in Ea. rewrite Ea. cbn [default Z.eqb].
        by rewrite Hp.
      * exact (entry_abs_other s pinum inum pb b e fresh nm Hok Hpb Hdir (proj2 Hb14) Hsite He
          Hnn Hl Hbn Hii ltac:(lia) j Hjp).
Qed.

Lemma creat_site_lookup data k b fresh e :
  creat_site data k = Some (b, fresh, e) →
  (k ≤ b)%nat ∧ if fresh then data !! (b - k)%nat = Some None ∧ e = O
  else ∃ bs, data !! (b - k)%nat = Some (Some bs) ∧ first_free (inums (dec_dir bs)) 0 = Some (Z.of_nat e).
Proof.
  revert k. induction data as [|[bs|] data IH]; intros k; cbn [creat_site]; [done| |].
  - destruct (first_free _ 0) as [e'|] eqn:Ef.
    + intros [= <- <- <-]. split; [lia|]. rewrite Nat.sub_diag. exists bs. split; [done|].
      pose proof Ef as (He & _)%first_free_Some. rewrite Z2Nat.id by lia. exact Ef.
    + intros Hs%IH. destruct Hs as [H1 H2]. split; [lia|].
      by replace (b - k)%nat with (S (b - S k))%nat by lia.
  - intros [= <- <- <-]. split; [lia|]. rewrite Nat.sub_diag. done.
Qed.

#[local] Opaque dir_lookup dec_dir.

(** Lookup in the parent [spec_creat] leaves. *)
Lemma spec_creat_lookup s pinum type p nm inum σ' :
  lfs_ok s → abs s pinum = Some p → a_type p = MFS_DIRECTORY → absent p nm →
  nonul nm → (length nm < NAMELEN)%nat → Forall is_byte nm → is_i32 inum → inum ≠ pinum →
  spec_creat (abs s) pinum type inum nm = Some σ' →
  ∃ p', σ' pinum = Some p' ∧ a_type p' = MFS_DIRECTORY ∧
    blocks_lookup (a_data p') nm = inum ∧
    ∀ nm', nm' ≠ nm → nm' ≠ zstr "DNE" → blocks_lookup (a_data p) nm' ≠ -1 →
      blocks_lookup (a_data p') nm' = blocks_lookup (a_data p) nm'.
Proof.
  intros Hok Ha Ht Habs Hnn Hl Hbn Hii Hne Hσ.
  unfold spec_creat in Hσ. rewrite Ha in Hσ. cbn [mbind option_bind] in Hσ.
  destruct (creat_site (a_data p) 0) as [[[b fresh] e]|] eqn:Es; [|done].
  injection Hσ as <-. rewrite decide_False, decide_True by done.
  eexists. split; [done|]. cbn [a_type a_data]. split; [done|].
  pose proof (creat_site_lookup _ _ _ _ _ Es) as [_ Hsite]. rewrite Nat.sub_0_r in Hsite.
  set (d := if fresh then fresh_dir else _).
  assert (dir_wf d ∧ dir_ok d ∧ (e < NDIRENT)%nat ∧ inums d !! e = Some (-1) ∧
    (∀ k, (k < e)%nat → slot_name d k ≠ Some nm) ∧ ∃ old, a_data p !! b = Some old ∧
    ∀ nm', nm' ≠ zstr "DNE" → dir_lookup d nm' = block_lookup old nm')
    as (Hw & Hdok & He & Hfr & Hpre & old & Hold & Hlk).
  { destruct fresh.
    - destruct Hsite as [Hs ->]. destruct fresh_dir_ok as [Hw Hdok]. unfold d.
      destruct fresh_dir_spec as [_ Hsp]. pose proof (Hsp 0%nat ltac:(unfold NDIRENT; lia)) as [_ H0].
      split_and!; [exact Hw|exact Hdok|unfold NDIRENT; lia|exact H0|lia|].
      exists None. split; [done|]. exact fresh_dir_lookup.
    - destruct Hsite as (bs & Hs & Hff). unfold d. rewrite Hs. cbn [default].
      destruct (abs_Some s pinum p Ha) as (pb & n & Hpb & -> & Hino & Hp).
      assert (b < 14)%nat as Hb14.
      { apply lookup_lt_Some in Hs. by rewrite Hp, length_a_data in Hs. }
      destruct (inode_ptr s pinum _ b Hok Hino Hb14) as (u & q & Eu & Eq & Hu & Ea).
      rewrite <-Hp, Hs in Ea. destruct (Z.eqb_spec u 0) as [|Hu0]; [done|]. injection Ea as Ebs.
      pose proof (slot_data s pinum _ b q u Hino Eu Hu0 Eq) as Hsl.
      assert (i_type (inode_at s pb) = MFS_DIRECTORY) as Hty by (by rewrite Hp in Ht).
      pose proof (ok_dir s Hok pinum _ b q Hino Hty Hsl) as Hd. rewrite <-Ebs in Hd.
      pose proof (blk_shape s q) as Hsh. rewrite <-Ebs in Hsh.
      pose proof Hff as (He & Hfree & _)%first_free_Some. rewrite Z.sub_0_r, Nat2Z.id in Hfree.
      rewrite (ds_inums _ Hsh) in He.
      split_and!; [by constructor; [|apply (do_bytes _ Hd)]|done|lia|done| |].
      + intros k Hk. apply dir_lookup_None; [exact (Habs b bs Hs)|lia].
      + exists (Some bs). split; [reflexivity|]. intros nm' _.
        unfold block_lookup. cbn [mbind option_bind id]. reflexivity. }
  clearbody d.
  pose proof (dir_put_ok d e inum nm Hw Hdok Hii He Hnn Hl Hbn) as (Hwp & _ & _).
  pose proof (proj1 (dir_wf_enc _ Hwp)) as Henc. split.
  - apply blocks_lookup_put; [by eapply lookup_lt_Some|exact Habs|].
    rewrite Henc. exact (dir_put_lookup d e inum nm Hw Hdok Hii He Hnn Hl Hbn Hpre).
  - intros nm' Hn1 Hn2 Hf. apply (blocks_lookup_keep _ _ old); [done| |done].
    rewrite <-Hlk by done. intros Hf'. rewrite Henc.
    exact (dir_put_lookup_other d e inum nm nm' Hw Hdok Hii He Hnn Hl Hbn Hn1 Hfr Hf').
Qed.

#[local] Transparent dots_dir dir_lookup.

Lemma dot_bytes :
  Forall is_byte (zstr "." ++ [0]) ∧ Forall is_byte (zstr ".." ++ [0]).
Proof. split; repeat constructor; done. Qed.

Lemma dots_lookup inum pinum :
  is_i32 inum → is_i32 pinum →
  blocks_lookup (alloc_data pinum inum MFS_DIRECTORY) (zstr ".") = inum ∧
  blocks_lookup (alloc_data pinum inum MFS_DIRECTORY) (zstr "..") = pinum.
Proof.
  intros Hi Hp. destruct fresh_dir_ok as [Hw _].
  destruct (dot_entries_spec inum pinum fresh_dir Hw Hi Hp) as (Hwd & Hs & Hin).
  change (dot_entries inum pinum fresh_dir) with (dots_dir inum pinum) in Hwd, Hs, Hin.
  pose proof (proj1 (dir_wf_enc _ Hwd)) as Henc.
  pose proof (ds_inums _ (dw_shape _ Hw)) as Hl.
  assert (∀ nm v j, (j < NDIRENT)%nat → slot_name (dots_dir inum pinum) j = Some nm →
    (∀ k, (k < j)%nat → slot_name (dots_dir inum pinum) k ≠ Some nm) →
    inums (dots_dir inum pinum) !! j = Some v →
    blocks_lookup (alloc_data pinum inum MFS_DIRECTORY) nm = v) as Hg.
  { intros nm v j Hj Hn Hk Hv. rewrite blocks_lookup_foldr. unfold alloc_data. rewrite foldr_cons.
    change (MFS_DIRECTORY =? MFS_DIRECTORY) with true. cbv iota.
    change (block_lookup (Some (enc_dir (dots_dir inum pinum))) nm) with
      (dir_lookup (dec_dir (enc_dir (dots_dir inum pinum))) nm).
    rewrite Henc. unfold dir_lookup.
    rewrite (proj2 (dir_find_Some (dots_dir inum pinum) nm NDIRENT 0 j)).
    - cbn [fmap option_fmap option_map default from_option id]. by apply idx_Some.
    - split_and!; [lia..|done|]. intros k Hkj. apply Hk. lia. }
  unfold NDIRENT in *. rewrite Hin in Hg. split.
  - apply (Hg _ _ 0%nat); [lia| |lia|].
    + rewrite Hs by lia. by rewrite decide_False, decide_True.
    + rewrite list_lookup_insert_ne, list_lookup_insert_eq by lia. done.
  - apply (Hg _ _ 1%nat); [lia| | |].
    + rewrite Hs by lia. by rewrite decide_True.
    + intros k Hk. rewrite Hs by lia. rewrite decide_False, decide_True by lia. done.
    + rewrite list_lookup_insert_eq by (rewrite length_insert; lia). done.
Qed.

(** C1: creating a name that the directory does not hold, in a file system
    with a free inode and room in the directory, succeeds; the invariant of
    the image and the checkpoint are kept, the new name then looks up to the
    lowest free inode number, every other entry of the directory still looks
    up to its inode, a new directory holds "." and "..", and no inode but the
    parent and the new one changes. *)
Theorem creat_then_lookup s pinum type p nm name inum :
  lfs_ok s → cr_ok s → abs s pinum = Some p → a_type p = MFS_DIRECTORY →
  cstr name = Some nm → Forall is_byte name → (length nm < NAMELEN)%nat →
  next_block s + 3 < 524288 → absent p nm → ftype_ok type = true →
  first_free (imap s) 0 = Some inum → creat_site (a_data p) 0 ≠ None →
  ∃ s', creat_server pinum type name s = Ok (0, s') ∧ lfs_ok s' ∧ cr_ok s' ∧
    (∃ o, lookup_server pinum name s' = Ok (inum, off o s')) ∧
    (∀ name' nm', cstr name' = Some nm' → Forall is_byte name' → nm' ≠ nm → nm' ≠ zstr "DNE" →
       blocks_lookup (a_data p) nm' ≠ -1 →
       ∃ o, lookup_server pinum name' s' = Ok (blocks_lookup (a_data p) nm', off o s')) ∧
    (type = MFS_DIRECTORY →
       (∃ o, lookup_server inum (zstr "." ++ [0]) s' = Ok (inum, off o s')) ∧
       ∃ o, lookup_server inum (zstr ".." ++ [0]) s' = Ok (pinum, off o s')) ∧
    ∀ j, j ≠ inum → j ≠ pinum → abs s' j = abs s j.
Proof.
  intros Hok Hcr Ha Ht Hc Hb Hl Hn Habs Hty Hf Hsite.
  pose proof (cstr_nonul _ _ Hc) as Hnn.
  assert (Forall is_byte nm) as Hbn.
  { apply cstr_split in Hc as [r ->]. by apply Forall_app in Hb as [? _]. }
  destruct (first_free_range _ _ Hf) as [Hi Hfree].
  assert (0 ≤ inum < MAXINODES) as Hir.
  { apply lookup_lt_Some in Hfree. rewrite (ok_imap s Hok) in Hfree. consts. lia. }
  destruct (abs_Some s pinum p Ha) as (pb & n & Hpb & _ & Hino & _).
  destruct (inode_blk_range s pinum pb Hok Hpb) as (Hpr & _).
  assert (is_i32 inum ∧ is_i32 pinum) as [Hii Hpi] by (unfold is_i32; consts; lia).
  assert (inum ≠ pinum) as Hne.
  { intros ->. unfold inode_blk in Hpb. rewrite decide_True, Hfree in Hpb by lia. done. }
  destruct (spec_creat (abs s) pinum type inum nm) as [σ'|] eqn:Hσ.
  2: { unfold spec_creat in Hσ. rewrite Ha in Hσ. cbn [mbind option_bind] in Hσ.
       by destruct (creat_site (a_data p) 0) as [[[? ?] ?]|]. }
  destruct (creat_server_creates s pinum type p nm name inum σ') as (s' & E & Hok' & Hcr' & _ & Habs');
    try done; [by apply absent_lookup|].
  destruct (spec_creat_lookup s pinum type p nm inum σ') as (p' & Hp' & Htp' & Hlk & Hoth); try done.
  exists s'. split; [exact E|]. split; [exact Hok'|]. split; [exact Hcr'|].
  rewrite <-Habs' in Hp'. split_and!.
  - rewrite <-Hlk. by apply run_lookup_server.
  - intros name' nm' Hc' Hb' H1 H2 H3. rewrite <-Hoth by done. by apply run_lookup_server.
  - intros ->.
    assert (abs s' inum = Some (ANode MFS_DIRECTORY BLOCKSIZE (alloc_data pinum inum MFS_DIRECTORY)))
      as Hnew.
    { rewrite Habs'. unfold spec_creat in Hσ. rewrite Ha in Hσ. cbn [mbind option_bind] in Hσ.
      destruct (creat_site (a_data p) 0) as [[[? ?] ?]|]; [|done]. injection Hσ as <-.
      by rewrite decide_True. }
    destruct (dots_lookup inum pinum Hii Hpi) as [Hd1 Hd2]. split.
    + destruct (run_lookup_server s' inum _ (zstr ".") (zstr "." ++ [0]) Hok' Hnew eq_refl)
        as [o Eo]; [done|by apply dot_bytes|]. exists o. cbn [a_data] in Eo. rewrite Hd1 in Eo. exact Eo.
    + destruct (run_lookup_server s' inum _ (zstr "..") (zstr ".." ++ [0]) Hok' Hnew eq_refl)
        as [o Eo]; [done|by apply dot_bytes|]. exists o. cbn [a_data] in Eo. rewrite Hd2 in Eo. exact Eo.
  - intros j Hj1 Hj2. rewrite Habs'. unfold spec_creat in Hσ. rewrite Ha in Hσ.
    cbn [mbind option_bind] in Hσ.
    destruct (creat_site (a_data p) 0) as [[[? ?] ?]|]; [|done]. injection Hσ as <-.
    by rewrite !decide_False.
Qed.
End theorems.
