(* ===== verification/LfsStart.v ===== *)
(** Formatting a fresh image and restarting from one: the two ways
    [start_server] brings the server up. *)

From S2P Require Import Prelude CString UnixFile Lfs LfsSpec LfsProofs LfsCreat LfsOps LfsTheorems.

#[local] Ltac consts := unfold MAXINODES, BLOCKSIZE, CRSIZE, INODE_BYTES, NDPTR in *.

Lemma pw_cont o bs s : 0 ≤ o → foff (fd s) = o → set_fd (fwrite bs (fd s)) s = pw o bs s.
Proof.
  intros Ho <-. unfold pw, flseek. rewrite (proj2 (Z.ltb_ge _ _)) by done.
  by destruct s as [m nb [d z f]].
Qed.

Lemma foff_pw o bs s : 0 ≤ o → foff (fd (pw o bs s)) = o + Z.of_nat (length bs).
Proof. intros. unfold pw, flseek. rewrite (proj2 (Z.ltb_ge _ _)) by done. done. Qed.

Lemma run_modify {S A} (f : S → S) (k : M S A) s : (modify f;; k) s = k (f s).
Proof. done. Qed.
Lemma run_gets {S A B} (f : S → A) (k : A → M S B) s : (gets f ≫= k) s = k (f s) s.
Proof. done. Qed.

Lemma run_lseek {A} o (k : M lfs A) s : (lseek o;; k) s = k (set_fd (flseek o (fd s)) s).
Proof. done. Qed.
Lemma run_write {A} bs (k : M lfs A) s : (write bs;; k) s = k (set_fd (fwrite bs (fd s)) s).
Proof. done. Qed.
Lemma run_bump {A} (k : M lfs A) s : (bump;; k) s = k (set_next (i32 (next_block s + 1)) s).
Proof. done. Qed.

Lemma run_imap_set {A} i v (k : M lfs A) s :
  0 ≤ i < Z.of_nat (length (imap s)) →
  (imap_set i v;; k) s = k (set_imap (set_idx (imap s) i v) s).
Proof. intros Hi. unfold imap_set, mbind, M_bind. by rewrite decide_True. Qed.

Section format.
Context `{Uninit}.

(** The root directory's block and inode. *)
Definition root_dir : directory :=
  blank_dir 2 (dot_entries 0 0 (junk_dir "start_server.base_block")).
Definition root_inode : inode :=
  mkInode BLOCKSIZE MFS_DIRECTORY 0 (CRSIZE :: replicate 13 (-1)) (1 :: replicate 13 0).

Definition fmt_pre (s : lfs) : lfs :=
  set_next 8 (pw (7 * BLOCKSIZE) (enc_inode root_inode)
    (set_imap (set_idx (replicate (Z.to_nat MAXINODES) (-1)) 0 7)
      (set_next 7 (pw (6 * BLOCKSIZE) (enc_dir root_dir)
        (pw (4 * MAXINODES) (le_bytes 4 CRSIZE)
          (pw 0 (enc_ints (replicate (Z.to_nat MAXINODES) (-1)))
            (set_imap (replicate (Z.to_nat MAXINODES) (-1)) (set_next CRSIZE s)))))))).
Definition fmt_state (s : lfs) : lfs := cr_write 0 7 (fmt_pre s).

Lemma root_dir_spec :
  dir_wf root_dir ∧ (∀ j, (j < NDIRENT)%nat → slot_name root_dir j =
    if decide (j = 1%nat) then Some (zstr "..") else
    if decide (j = 0%nat) then Some (zstr ".") else Some (zstr "DNE")) ∧
  inums root_dir !! 0%nat = Some 0 ∧ inums root_dir !! 1%nat = Some 0 ∧
  ∀ j, (2 ≤ j < NDIRENT)%nat → inums root_dir !! j = Some (-1).
Proof.
  destruct (dot_entries_spec 0 0 _ (junk_dir_wf "start_server.base_block")) as (Hw & Hs & Hi);
    [done..|].
  unfold root_dir. rewrite blank_dir_fold.
  set (d0 := dot_entries _ _ _) in *.
  destruct (blank_fold_spec (seq 2 (NDIRENT - 2)) d0 Hw) as (Hw' & Hn & Hj).
  { apply Forall_forall. intros i Hi'%list_elem_of_In%elem_of_seq. lia. }
  pose proof (ds_inums _ (dw_shape _ (junk_dir_wf "start_server.base_block"))) as Hl.
  unfold NDIRENT in *.
  assert (∀ j, (j ∈ seq 2 (128 - 2)) ↔ (2 ≤ j < 128)%nat) as Hseq.
  { intros j. rewrite elem_of_seq. lia. }
  split_and!; [exact Hw'| | | |].
  - intros j Hjr. rewrite Hn by done. case_decide as E; rewrite Hseq in E.
    + by rewrite !decide_False by lia.
    + rewrite Hs by done. case_decide; [done|]. case_decide; [done|lia].
  - rewrite Hj by lia. rewrite decide_False by (rewrite Hseq; lia). rewrite Hi.
    rewrite list_lookup_insert_ne, list_lookup_insert_eq by lia. done.
  - rewrite Hj by lia. rewrite decide_False by (rewrite Hseq; lia). rewrite Hi.
    rewrite list_lookup_insert_eq by (rewrite length_insert; lia). done.
  - intros j Hjr. rewrite Hj by lia. by rewrite decide_True by (rewrite Hseq; lia).
Qed.

Lemma root_dir_eq :
  blank_dir 2 (dot_entries 0 0 (junk_dir "start_server.base_block")) = root_dir.
Proof. exact eq_refl. Qed.

#[local] Opaque root_dir.

Lemma run_format_server m nb :
  format_server (mkLfs m nb empty_file) = Ok (tt, fmt_state (mkLfs m nb empty_file)).
Proof.
  set (s0 := mkLfs m nb empty_file).
  unfold format_server. cbv zeta. rewrite root_dir_eq.
  rewrite !run_modify. set (m0 := replicate (Z.to_nat MAXINODES) (-1)).
  assert (length m0 = Z.to_nat MAXINODES) as Hm0 by apply length_replicate.
  set (s1 := set_imap m0 (set_next CRSIZE s0)).
  rewrite run_lseek, run_gets, run_write.
  change (set_fd (fwrite _ (fd (set_fd _ s1))) (set_fd _ s1)) with (pw 0 (enc_ints m0) s1).
  rewrite run_gets. change (next_block (pw 0 (enc_ints m0) s1)) with CRSIZE.
  rewrite run_write.
  rewrite (pw_cont (4 * MAXINODES)) by
    (consts; rewrite ?foff_pw, ?length_enc_ints, ?Hm0 by lia; lia).
  rewrite run_write_block by (consts; lia).
  rewrite run_bump, run_gets. change (i32 (next_block _ + 1)) with 7.
  cbn [next_block set_next].
  rewrite run_imap_set by (cbn [imap set_next pw set_fd s1 set_imap]; rewrite Hm0; consts; lia).
  rewrite run_write_block by lia. rewrite run_bump.
  change (i32 (next_block _ + 1)) with 8.
  erewrite bind_Ok; [|apply (run_update_CR _ 0 7); [lia|]]; [reflexivity|].
  cbn [imap set_next set_imap pw set_fd s1]. apply list_lookup_insert_eq.
  rewrite Hm0. consts. lia.
Qed.

Section facts.
Context (s : lfs).
Hypothesis Hfd : fd s = empty_file.

Lemma root_inode_shape : inode_shape root_inode.
Proof. constructor; [done..|]. repeat constructor; done. Qed.

Lemma len_root : length (enc_dir root_dir) = Z.to_nat BLOCKSIZE ∧
  length (enc_inode root_inode) = Z.to_nat INODE_BYTES.
Proof.
  split; [apply dir_wf_enc, root_dir_spec|apply length_enc_inode, root_inode_shape].
Qed.

Lemma fmt_imap : imap (fmt_state s) = 7 :: replicate 4095 (-1).
Proof.
  change (set_idx (replicate (Z.to_nat MAXINODES) (-1)) 0 7 = 7 :: replicate 4095 (-1)).
  unfold set_idx. replace (Z.to_nat MAXINODES) with (S 4095) by (unfold MAXINODES; lia).
  rewrite replicate_S. reflexivity.
Qed.

Lemma fmt_inode_blk i : inode_blk (fmt_state s) i = if decide (i = 0) then Some 7 else None.
Proof.
  unfold inode_blk. rewrite fmt_imap. case_decide as Hi.
  - destruct (decide (i = 0)) as [->|Hne]; [done|].
    replace (Z.to_nat i) with (S (Z.to_nat (i - 1))) by lia.
    change ((7 :: replicate 4095 (-1)) !! S (Z.to_nat (i - 1))) with
      (replicate 4095 (-1) !! Z.to_nat (i - 1)).
    destruct (replicate 4095 (-1) !! Z.to_nat (i - 1)) eqn:E; [|done].
    apply lookup_replicate in E as [-> _]. done.
  - by rewrite decide_False by lia.
Qed.

Lemma fmt_inode_at : inode_at (fmt_state s) 7 = root_inode.
Proof.
  apply (inode_at_dec _ _ _ []); [apply root_inode_shape|]. unfold fmt_state, fmt_pre.
  rewrite cr_write_bytes by (consts; lia). cbn [set_next fd].
  rewrite pw_bytes_same by (rewrite ?(proj2 len_root); consts; lia).
  rewrite app_nil_r. apply take_ge. by rewrite (proj2 len_root).
Qed.

Lemma fmt_blk : blk (fmt_state s) 6 = enc_dir root_dir.
Proof.
  unfold blk, fmt_state, fmt_pre.
  rewrite cr_write_bytes by (consts; lia). cbn [set_next set_imap fd].
  rewrite pw_bytes_other by (rewrite ?(proj2 len_root); consts; lia). cbn [set_next set_imap fd].
  rewrite pw_bytes_same by (rewrite ?(proj1 len_root); consts; lia).
  apply take_ge. by rewrite (proj1 len_root).
Qed.

Lemma fmt_size : 7 * BLOCKSIZE + INODE_BYTES ≤ fsize (fd (fmt_state s)).
Proof.
  assert (7 * BLOCKSIZE + INODE_BYTES ≤ fsize (fd (fmt_pre s))) as Hp.
  { unfold fmt_pre. cbn [set_next fd]. rewrite pw_block_size, (proj2 len_root) by lia. consts. lia. }
  unfold fmt_state. rewrite cr_write_size; [done|consts; lia|consts; lia].
Qed.

Lemma fmt_inode_of i : inode_of (fmt_state s) i = if decide (i = 0) then Some root_inode else None.
Proof.
  unfold inode_of. rewrite fmt_inode_blk. case_decide; [|done]. simpl. by rewrite fmt_inode_at.
Qed.

Lemma fmt_slot sl b :
  slot_block (fmt_state s) sl = Some b → (sl = SInode 0 ∧ b = 7) ∨ (sl = SData 0 0 ∧ b = 6).
Proof.
  destruct sl as [i|i k]; cbn [slot_block].
  - rewrite fmt_inode_blk. case_decide; [|done]. intros [= <-]. subst. by left.
  - rewrite fmt_inode_of. case_decide; [|done]. subst. cbn [mbind option_bind root_inode dp_used dpointers].
    destruct k as [|k]; [intros [= <-]; by right|].
    change ((1 :: replicate 13 0) !! S k) with (replicate 13 0 !! k).
    destruct (replicate 13 0 !! k) eqn:E; [|done].
    apply lookup_replicate in E as [-> _]. done.
Qed.

Lemma fmt_ok : lfs_ok (fmt_state s).
Proof.
  pose proof fmt_size as Hsz. constructor.
  - rewrite fmt_imap. cbn [length]. rewrite length_replicate. consts. lia.
  - rewrite fmt_imap. apply Forall_cons; [done|]. by apply Forall_replicate.
  - change (next_block (fmt_state s)) with 8. consts. lia.
  - intros sl b Hb. change (next_block (fmt_state s)) with 8. consts.
    destruct (fmt_slot sl b Hb) as [[_ ->]|[_ ->]]; lia.
  - intros sl sl' b Hb Hb'.
    destruct (fmt_slot sl b Hb) as [[-> ->]|[-> ->]], (fmt_slot sl' _ Hb') as [[-> ?]|[-> ?]]; done.
  - intros sl b Hb. destruct (fmt_slot sl b Hb) as [[-> ->]|[-> ->]]; cbn [slot_bytes]; consts; lia.
  - intros i n Hn. rewrite fmt_inode_of in Hn. case_decide; [|done]. injection Hn as <-.
    constructor; [|by left|done]. cbn [dp_used root_inode].
    apply Forall_cons; [by right|]. apply Forall_replicate. by left.
  - intros i n k b Hn _ Hb. destruct (fmt_slot _ b Hb) as [[? _]|[_ ->]]; [done|].
    rewrite fmt_blk. destruct root_dir_spec as (Hw & Hs & _).
    rewrite (proj1 (dir_wf_enc _ Hw)). apply dir_wf_ok; [done|]. intros j Hj.
    rewrite Hs by done. repeat case_decide; by eexists.
Qed.

Lemma fmt_cr : cr_ok (fmt_state s).
Proof.
  pose proof fmt_size as Hsz.
  assert (bytes_at (fdata (fd (fmt_pre s))) 0 (4 * MAXINODES) =
    enc_ints (replicate (Z.to_nat MAXINODES) (-1))) as Hb.
  { unfold fmt_pre. cbn [set_next set_imap fd]. consts.
    rewrite !fdata_pw by lia. cbn [set_next set_imap fd]. rewrite !fdata_pw by lia.
    rewrite !bytes_at_put_other by lia.
    rewrite bytes_at_put_same; [done|rewrite length_enc_ints, length_replicate; lia]. }
  constructor; unfold fmt_state.
  - change (imap (cr_write _ _ _)) with (set_idx (replicate (Z.to_nat MAXINODES) (-1)) 0 7).
    unfold cr_write. consts. rewrite !fdata_pw by lia.
    rewrite bytes_at_put_other by (rewrite ?length_le_bytes; lia).
    rewrite bytes_at_splice by (rewrite ?length_le_bytes; lia). rewrite Hb.
    apply (length_cr_imap _ 0). rewrite length_replicate. lia.
  - change (next_block (cr_write _ _ _)) with 8. unfold cr_write. consts.
    rewrite !fdata_pw by lia. rewrite bytes_at_put_same by (by rewrite length_le_bytes). done.
  - fold (fmt_state s). consts. lia.
Qed.

Lemma fmt_abs i : abs (fmt_state s) i = if decide (i = 0) then
    Some (ANode MFS_DIRECTORY BLOCKSIZE (Some (enc_dir root_dir) :: replicate 13 None)) else None.
Proof.
  unfold abs. rewrite fmt_inode_of. case_decide; [|done].
  cbn [fmap option_fmap option_map]. apply (f_equal Some). unfold abs_inode.
  cbn [i_type i_size dp_used dpointers root_inode]. apply (f_equal (ANode _ _)).
  cbn [replicate zip_with Z.eqb Pos.eqb]. unfold CRSIZE. rewrite fmt_blk. reflexivity.
Qed.
End facts.
End format.

(** ** The two ways up *)

Section start.
Context `{Uninit}.

(** The root directory as the abstract file system shows it. *)
Definition root_node : anode :=
  ANode MFS_DIRECTORY BLOCKSIZE (Some (enc_dir root_dir) :: replicate 13 None).

Lemma root_dec : dec_dir (enc_dir root_dir) = root_dir.
Proof. apply dir_wf_enc, root_dir_spec. Qed.

Lemma root_block k bs : a_data root_node !! k = Some (Some bs) → bs = enc_dir root_dir.
Proof.
  cbn [a_data root_node]. destruct k as [|k]; [by intros [= <-]|].
  change ((Some (enc_dir root_dir) :: replicate 13 None) !! S k) with
    (replicate 13 (@None (list Z)) !! k).
  by intros [? _]%lookup_replicate.
Qed.

Lemma root_absent nm :
  nm ≠ zstr "." → nm ≠ zstr ".." → nm ≠ zstr "DNE" → absent root_node nm.
Proof.
  intros H1 H2 H3 k bs ->%root_block. rewrite root_dec. unfold dir_lookup.
  rewrite (proj2 (dir_find_None root_dir nm NDIRENT 0)); [done|].
  intros j Hj. rewrite (proj1 (proj2 root_dir_spec)) by lia. repeat case_decide; congruence.
Qed.

(** The names in the first two slots look up to the root. *)
Lemma root_lookup nm j :
  (j < 2)%nat → slot_name root_dir j = Some nm →
  (∀ k, (k < j)%nat → slot_name root_dir k ≠ Some nm) →
  blocks_lookup (a_data root_node) nm = 0.
Proof.
  intros Hj Hn Hk. destruct root_dir_spec as (_ & _ & H0 & H1 & _).
  cbn [a_data root_node]. rewrite blocks_lookup_foldr, foldr_cons.
  change (block_lookup (Some (enc_dir root_dir)) nm) with
    (dir_lookup (dec_dir (enc_dir root_dir)) nm). rewrite root_dec. unfold dir_lookup.
  rewrite (proj2 (dir_find_Some root_dir nm NDIRENT 0 j)).
  - cbn [fmap option_fmap option_map default from_option id]. apply idx_Some.
    by destruct j as [|[|j]]; [|..|lia].
  - unfold NDIRENT. split_and!; [lia..|done|]. intros k Hkj. apply Hk. lia.
Qed.

Lemma run_root_lookup s nm :
  lfs_ok s → abs s 0 = Some root_node → nonul nm → Forall is_byte (nm ++ [0]) →
  blocks_lookup (a_data root_node) nm = 0 →
  ∃ o, lookup_server 0 (nm ++ [0]) s = Ok (0, off o s).
Proof.
  intros Hok Ha Hn Hb Hl.
  destruct (run_lookup_server s 0 root_node nm (nm ++ [0]) Hok Ha eq_refl (cstr_app nm [] Hn) Hb)
    as [o E].
  exists o. by rewrite E, Hl.
Qed.

Definition fresh_server : lfs := fmt_state (mkLfs [] 0 empty_file).

Lemma fresh_server_facts :
  lfs_ok fresh_server ∧ cr_ok fresh_server ∧ abs fresh_server 0 = Some root_node ∧
  (∀ i, i ≠ 0 → abs fresh_server i = None) ∧ next_block fresh_server = 8 ∧
  imap fresh_server = 7 :: replicate 4095 (-1).
Proof.
  pose proof (fmt_abs (mkLfs [] 0 empty_file)) as Ha. unfold fresh_server.
  split; [apply fmt_ok|]. split; [by apply fmt_cr|].
  split; [rewrite Ha; by rewrite decide_True|].
  split; [intros i Hi; rewrite Ha; by rewrite decide_False|].
  split; [reflexivity|apply fmt_imap].
Qed.

(** Formatting a new image gives a server whose image satisfies the
    invariant and whose checkpoint is current, that holds the root directory
    and nothing else, and in which "." and ".." of the root are the root. *)
Theorem format_gives_root :
  ∃ s, start_server None true = Ok (Some s) ∧ lfs_ok s ∧ cr_ok s ∧
    (∀ i, i ≠ 0 → abs s i = None) ∧
    (∃ nd, abs s 0 = Some nd ∧ a_type nd = MFS_DIRECTORY ∧
       ∀ nm, nm ≠ zstr "." → nm ≠ zstr ".." → nm ≠ zstr "DNE" → absent nd nm) ∧
    (∃ o, lookup_server 0 (zstr "." ++ [0]) s = Ok (0, off o s)) ∧
    (∃ o, lookup_server 0 (zstr ".." ++ [0]) s = Ok (0, off o s)).
Proof.
  destruct fresh_server_facts as (Hok & Hcr & H0 & Hi & _).
  destruct root_dir_spec as (_ & Hs & _). unfold NDIRENT in Hs.
  exists fresh_server. split.
  { unfold start_server. by rewrite run_format_server. }
  split_and!; [done|done|done| | |].
  - exists root_node. split; [done|]. split; [done|]. apply root_absent.
  - apply run_root_lookup; [done|done|by repeat constructor|apply dot_bytes|].
    apply (root_lookup _ 0); [lia| |lia]. rewrite Hs by lia. by rewrite decide_False, decide_True.
  - apply run_root_lookup; [done|done|by repeat constructor|apply dot_bytes|].
    apply (root_lookup _ 1); [lia| |].
    + rewrite Hs by lia. by rewrite decide_True.
    + intros k Hk. rewrite Hs by lia. rewrite decide_False, decide_True by lia. done.
Qed.

(** C16: a server started on the image of a server whose checkpoint is current
    has that server's inode map and log head, so it shows the same files and
    directories; it runs on the same image. *)
Theorem restart_recovers s created :
  lfs_ok s → cr_ok s →
  start_server (Some (fd s)) created = Ok (Some (off (4 * MAXINODES + 4) s)) ∧
  ∀ j, abs (off (4 * MAXINODES + 4) s) j = abs s j.
Proof.
  intros Hok [Hi Hn Hs]. split; [|done]. unfold start_server, recover_server.
  rewrite run_lseek. destruct s as [m nb f]. cbn [fd imap next_block set_fd] in *.
  change (flseek 0 f) with (mkFile (fdata f) (fsize f) 0).
  assert (∀ k : list Z → M lfs unit, (read (replicate (Z.to_nat (4 * MAXINODES)) 0) (4 * MAXINODES) ≫= k)
    (mkLfs [] 0 (mkFile (fdata f) (fsize f) 0)) =
    k (enc_ints m) (mkLfs [] 0 (mkFile (fdata f) (fsize f) (4 * MAXINODES)))) as E1.
  { intros k. unfold read, mbind, M_bind. cbn [fd].
    rewrite fread_full by (cbn [foff fsize]; unfold MAXINODES in *; lia).
    cbn [foff fsize fdata]. rewrite Hi, overlay_full; [done|].
    pose proof (ok_imap _ Hok) as Hl. cbn [imap] in Hl.
    rewrite length_enc_ints, length_replicate, Hl. unfold MAXINODES. lia. }
  assert (∀ k : list Z → M lfs unit, ∀ m', (read (replicate 4 0) 4 ≫= k)
    (mkLfs m' 0 (mkFile (fdata f) (fsize f) (4 * MAXINODES))) =
    k (le_bytes 4 nb) (mkLfs m' 0 (mkFile (fdata f) (fsize f) (4 * MAXINODES + 4)))) as E2.
  { intros k m'. unfold read, mbind, M_bind. cbn [fd].
    rewrite fread_full by (cbn [foff fsize]; unfold MAXINODES in *; lia).
    cbn [foff fsize fdata]. rewrite Hn, overlay_full; [done|].
    by rewrite length_le_bytes. }
  rewrite E1, run_modify. unfold set_imap at 1. cbn [next_block fd]. rewrite E2.
  unfold modify, set_next. cbn [imap fd].
  pose proof (ok_next _ Hok) as Hnb. cbn [next_block] in Hnb.
  rewrite i32_le_bytes by (unfold is_i32, CRSIZE in *; lia).
  pose proof (dec_enc_ints m [] (Z.to_nat MAXINODES) (ok_ints _ Hok) (ok_imap _ Hok)) as Hd.
  rewrite app_nil_r in Hd. cbn [imap] in Hd. by rewrite Hd.
Qed.
End start.
