(* ===== verification/LfsUnlink.v ===== *)
(** [unlink_server]: what it does to an entry in the first block of the
    parent, and what it does to one in a later block. *)

From S2P Require Import Prelude CString UnixFile Lfs LfsSpec LfsProofs LfsCreat LfsOps LfsTheorems LfsStart.

#[local] Ltac consts := unfold MAXINODES, BLOCKSIZE, CRSIZE, INODE_BYTES, NDPTR in *.

Lemma run_need {S A B} (a : A) (k : A → M S B) s : (need (Some a) ≫= k) s = k a s.
Proof. done. Qed.

Section loop.
Context `{Uninit}.
Context (name nm : list Z) (pinode node : inode).
Hypothesis Hc : cstr name = Some nm.
Hypothesis Hb : Forall is_byte name.

Lemma slot_strcmp d j :
  dir_ok d → (j < NDIRENT)%nat →
  ∃ z, strcmp (drop (NAMELEN * j) (names d)) name = Some z ∧ (z = 0 ↔ slot_name d j = Some nm).
Proof.
  intros Hd Hj. destruct (do_names d Hd j Hj) as [t Ht].
  destruct (strcmp_strings (drop (NAMELEN * j) (names d)) name t nm) as (z & E & Hz).
  - by apply slot_name_drop.
  - done.
  - apply Forall_drop, (do_bytes d Hd).
  - done.
  - exists z. split; [done|]. rewrite Ht. naive_solver.
Qed.

(** Slots with other names are passed over. *)
Lemma unlink_loop_skip d s n j m :
  dir_ok d → (j + n + m ≤ NDIRENT)%nat → (∀ i, (j ≤ i < j + n)%nat → slot_name d i ≠ Some nm) →
  unlink_loop (n + m) j name pinode node d s = unlink_loop m (j + n) name pinode node d s.
Proof.
  intros Hd. revert j. induction n as [|n IH]; intros j Hj Hn; [by rewrite Nat.add_0_r|].
  cbn [Nat.add unlink_loop]. destruct (slot_strcmp d j Hd ltac:(lia)) as (z & -> & Hz).
  rewrite run_need. destruct (Z.eqb_spec z 0) as [E|E]; cbn [negb].
  - destruct (Hn j); [lia|]. by apply Hz.
  - rewrite IH; [f_equal; lia|lia|]. intros i Hi. apply Hn. lia.
Qed.
End loop.

Section unlink.
Context `{Uninit}.
Context (s : lfs) (pinum inum pb p0 : Z) (j : nat).
Let m := inode_at s pb.
Let d := dec_dir (blk s p0).

Definition unlink_dir : directory := dir_put d j (-1) (zstr "DNE").
Definition unlink_state : lfs :=
  cr_write inum (-1) (set_imap (set_idx (imap s) inum (-1)) (pw (p0 * BLOCKSIZE) (enc_dir unlink_dir) s)).

Hypothesis Hok : lfs_ok s.
Hypothesis Hpb : inode_blk s pinum = Some pb.
Hypothesis Hdir : i_type m = MFS_DIRECTORY.
Hypothesis Hp0 : slot_block s (SData pinum 0) = Some p0.
Hypothesis Hj : (j < NDIRENT)%nat.
Hypothesis Hinum : 0 ≤ inum < MAXINODES.
Hypothesis Hne : inum ≠ pinum.

Lemma unlink_facts :
  inode_of s pinum = Some m ∧ dir_wf d ∧ dir_ok d ∧ 0 ≤ p0 < 524288 ∧ CRSIZE ≤ p0 < next_block s ∧
  p0 * BLOCKSIZE + BLOCKSIZE ≤ fsize (fd s) ∧
  dpointers m !! 0%nat = Some p0.
Proof.
  assert (inode_of s pinum = Some m) as Hm by (unfold inode_of; by rewrite Hpb).
  pose proof (ok_dir s Hok pinum m 0 p0 Hm Hdir Hp0) as Hd.
  destruct (slot_facts s _ p0 Hok Hp0) as (H1 & H2 & H3).
  cbn [slot_bytes] in H3. split_and!; try done; try lia.
  - constructor; [apply blk_shape|apply (do_bytes _ Hd)].
  - destruct (inode_ptr s pinum m 0 Hok Hm ltac:(lia)) as (u & p & Eu & Ep & Hu & _).
    pose proof Hp0 as E. cbn [slot_block] in E. rewrite Hm in E. cbn [mbind option_bind] in E.
    rewrite Eu in E. cbn [mbind option_bind] in E. by destruct (u =? 0).
Qed.

Lemma unlink_dir_ok :
  dir_wf unlink_dir ∧ dir_ok unlink_dir ∧
  ∀ i, (i < NDIRENT)%nat → slot_name unlink_dir i =
    if decide (i = j) then Some (zstr "DNE") else slot_name d i.
Proof.
  destruct unlink_facts as (_ & Hw & Hd & _).
  apply dir_put_ok; [done|done|unfold is_i32; lia|done|by repeat constructor|unfold NAMELEN; simpl; lia|].
  repeat constructor; done.
Qed.

Lemma len_unlink : length (enc_dir unlink_dir) = Z.to_nat BLOCKSIZE.
Proof. apply dir_wf_enc, unlink_dir_ok. Qed.

Lemma unlink_bytes b k :
  CRSIZE ≤ b → b ≠ p0 → 0 ≤ k ≤ BLOCKSIZE →
  bytes_at (fdata (fd unlink_state)) (b * BLOCKSIZE) k = bytes_at (fdata (fd s)) (b * BLOCKSIZE) k.
Proof.
  intros. destruct unlink_facts as (_ & _ & _ & Hr & _). unfold unlink_state.
  rewrite cr_write_bytes by (consts; lia). cbn [set_imap fd].
  apply pw_bytes_other; rewrite ?len_unlink; consts; lia.
Qed.

Lemma unlink_blk : blk unlink_state p0 = enc_dir unlink_dir.
Proof.
  destruct unlink_facts as (_ & _ & _ & Hr & Hc & _). unfold blk, unlink_state.
  rewrite cr_write_bytes by (consts; lia). cbn [set_imap fd].
  rewrite pw_bytes_same by (rewrite ?len_unlink; consts; lia). apply take_ge. by rewrite len_unlink.
Qed.

Lemma unlink_size : fsize (fd s) ≤ fsize (fd unlink_state).
Proof.
  destruct unlink_facts as (_ & _ & _ & Hr & Hc & Hs & _). unfold unlink_state.
  rewrite cr_write_size; [|done|]; cbn [set_imap fd]; rewrite pw_block_size by lia; consts; lia.
Qed.

Lemma unlink_inode_blk i :
  inode_blk unlink_state i = if decide (i = inum) then None else inode_blk s i.
Proof.
  unfold inode_blk. change (imap unlink_state) with (set_idx (imap s) inum (-1)).
  unfold set_idx. case_decide as Hi.
  - destruct (decide (i = inum)) as [->|Hn].
    + rewrite list_lookup_insert_eq by (rewrite (ok_imap s Hok); consts; lia). done.
    + by rewrite list_lookup_insert_ne by lia.
  - by rewrite decide_False by lia.
Qed.

(** Every slot but the parent's first block keeps its bytes. *)
Lemma unlink_same sl : sl ≠ SData pinum 0 → same_bytes s unlink_state sl.
Proof.
  intros Hs b Hb. destruct (slot_facts s sl b Hok Hb) as (_ & Hr & _).
  apply unlink_bytes; [lia| |by destruct sl].
  intros ->. apply Hs. exact (ok_inj s Hok sl _ p0 Hb Hp0).
Qed.

Lemma unlink_inode_of : inode_of unlink_state pinum = Some m.
Proof.
  rewrite (inode_of_frame s); [apply unlink_facts| |by apply unlink_same].
  by rewrite unlink_inode_blk, decide_False.
Qed.

Lemma unlink_slot sl : owner sl ≠ inum → slot_block unlink_state sl = slot_block s sl.
Proof.
  intros Ho. apply (slot_frame s _ (owner sl)); [|by apply unlink_same|done].
  by rewrite unlink_inode_blk, decide_False.
Qed.

Lemma unlink_slot_gone sl : owner sl = inum → slot_block unlink_state sl = None.
Proof.
  assert (inode_blk unlink_state inum = None) as E by by rewrite unlink_inode_blk, decide_True.
  destruct sl as [i|i k]; cbn [owner slot_block]; intros ->; [done|].
  unfold inode_of. by rewrite E.
Qed.

Lemma unlink_ok : lfs_ok unlink_state.
Proof.
  destruct unlink_facts as (Hm & _ & _ & Hr & Hc & Hs & _). pose proof unlink_size as Hsz.
  apply (lfs_ok_preserve s unlink_state [pinum; inum]).
  - done.
  - intros i Hi. rewrite unlink_inode_blk, decide_False; [done|set_solver].
  - intros sl Hsl. apply unlink_same. intros ->. apply Hsl. cbn [owner]. set_solver.
  - change (imap unlink_state) with (set_idx (imap s) inum (-1)).
    rewrite set_idx_length. apply (ok_imap s Hok).
  - change (imap unlink_state) with (set_idx (imap s) inum (-1)).
    apply Forall_set_idx; [apply (ok_ints s Hok)|unfold is_i32; lia].
  - change (next_block unlink_state) with (next_block s). pose proof (ok_next s Hok). lia.
  - done.
  - intros sl b Hsl Hb. destruct (decide (owner sl = inum)) as [E|E].
    { by rewrite unlink_slot_gone in Hb. }
    rewrite unlink_slot in Hb by done. split; [by left|]. pose proof (ok_size s Hok sl b Hb). lia.
  - intros sl sl' b _ _ Hnew Hb _. destruct (decide (owner sl = inum)) as [E|E].
    { by rewrite unlink_slot_gone in Hb. }
    rewrite unlink_slot in Hb by done. pose proof (ok_range s Hok sl b Hb). lia.
  - intros i n Hin Hn. destruct (decide (i = inum)) as [->|E].
    { unfold inode_of in Hn. by rewrite unlink_inode_blk, decide_True in Hn. }
    assert (i = pinum) as -> by set_solver. rewrite unlink_inode_of in Hn.
    injection Hn as <-. exact (ok_inode s Hok pinum m Hm).
  - intros i n k b Hin Hn _ Hb. destruct (decide (i = inum)) as [->|E].
    { unfold inode_of in Hn. by rewrite unlink_inode_blk, decide_True in Hn. }
    assert (i = pinum) as -> by set_solver.
    rewrite unlink_slot in Hb by done. destruct (decide (b = p0)) as [->|Hbp].
    + rewrite unlink_blk. destruct unlink_dir_ok as (Hw & Hd & _).
      by rewrite (proj1 (dir_wf_enc _ Hw)).
    + unfold blk. pose proof (ok_range s Hok _ b Hb).
      rewrite unlink_bytes by (consts; lia). exact (ok_dir s Hok pinum m k b Hm Hdir Hb).
Qed.

Lemma unlink_cr : cr_ok s → cr_ok unlink_state.
Proof.
  intros Hcr. destruct unlink_facts as (_ & _ & _ & Hr & Hc & Hs & _). unfold unlink_state.
  apply (cr_ok_write _ s); [done|done|apply (ok_imap s Hok)|done| |]; cbn [set_imap fd].
  - rewrite fdata_pw by (consts; lia). apply bytes_at_put_other. consts. lia.
  - rewrite pw_block_size by lia. lia.
Qed.

Lemma unlink_abs i :
  abs unlink_state i = if decide (i = inum) then None else
    if decide (i = pinum) then
      Some (ANode MFS_DIRECTORY (i_size m)
        (<[0%nat:=Some (enc_dir unlink_dir)]> (a_data (abs_inode s m))))
    else abs s i.
Proof.
  case_decide as Hi.
  { unfold abs, inode_of. by rewrite unlink_inode_blk, decide_True. }
  case_decide as Hp; [subst i|].
  - unfold abs. rewrite unlink_inode_of. cbn [fmap option_fmap option_map]. apply (f_equal Some).
    unfold abs_inode at 1. rewrite Hdir. apply (f_equal (ANode _ _)).
    destruct unlink_facts as (Hm & _ & _ & Hr & Hc & Hs & Hd0).
    apply list_eq. intros k. rewrite lookup_zip_with.
    destruct (decide (k < 14)%nat) as [Hk|Hk].
    + destruct (inode_ptr s pinum m k Hok Hm Hk) as (u & p & Eu & Ep & Hu & Ea).
      rewrite Eu, Ep. cbn [mbind option_bind]. destruct (decide (k = 0)%nat) as [->|Hk0].
      * rewrite list_lookup_insert_eq by (unfold m; rewrite length_a_data; lia).
        rewrite Hd0 in Ep. injection Ep as <-. rewrite unlink_blk.
        pose proof (io_root m (ok_inode s Hok pinum m Hm) Hdir) as E. rewrite Eu in E. by injection E as ->.
      * rewrite list_lookup_insert_ne by done. rewrite Ea.
        destruct (Z.eqb_spec u 0) as [|Hu0]; [done|]. do 2 apply (f_equal Some).
        pose proof (slot_data s pinum m k p u Hm Eu Hu0 Ep) as Hsl. unfold blk.
        exact (unlink_same (SData pinum k) ltac:(congruence) p Hsl).
    + pose proof (dec_inode_shape (bytes_at (fdata (fd s)) (pb * BLOCKSIZE) INODE_BYTES)) as [Lp Lu _].
      fold (inode_at s pb) in Lp, Lu. fold m in Lp, Lu.
      rewrite !lookup_ge_None_2; [done|rewrite length_insert; unfold m; rewrite length_a_data; lia|lia|lia].
  - apply abs_frame; [by rewrite unlink_inode_blk, decide_False|by apply unlink_same|].
    intros k. apply unlink_same. congruence.
Qed.
End unlink.

Lemma dir_lookup_eq d nm :
  dir_lookup d nm = (λ j, idx (inums d) (Z.of_nat j)) <$> dir_find d nm NDIRENT 0.
Proof. reflexivity. Qed.
Lemma unlink_loop_S `{Uninit} n j name pinode node direct :
  unlink_loop (S n) j name pinode node direct =
  (c ← need (strcmp (drop (NAMELEN * j) (names direct)) name);
   if negb (c =? 0) then unlink_loop n (S j) name pinode node direct else
   let cleared := mkDir (<[j:=-1]> (inums direct)) (set_name j DNE (names direct)) in
   let clear :=
     seek_block (idx (dpointers pinode) 0);;
     write (enc_dir cleared);;
     unlink_loop n (S j) name pinode node cleared in
   if i_type node =? MFS_REGULAR_FILE then clear else
   tempDir ← lookup_block (idx (dpointers node) 0) (junk_dir "unlink_server.tempDir");
   if dir_busy tempDir then mret (Some (-1)) else clear).
Proof. reflexivity. Qed.
Lemma unlink_loop_0 `{Uninit} j name pinode node direct s :
  unlink_loop 0 j name pinode node direct s = Ok (None, s).
Proof. reflexivity. Qed.

#[local] Opaque lookup_block unlink_loop dir_lookup dec_dir dir_busy.

Section run.
Context `{Uninit}.

Lemma clear_eq d j :
  mkDir (<[j:=-1]> (inums d)) (set_name j DNE (names d)) = dir_put d j (-1) (zstr "DNE").
Proof. exact eq_refl. Qed.

(** [unlink_server] up to its loop. *)
Lemma run_unlink_prefix s pinum p nm name :
  lfs_ok s → abs s pinum = Some p → a_type p = MFS_DIRECTORY →
  cstr name = Some nm → Forall is_byte name →
  ∃ pb p0, inode_blk s pinum = Some pb ∧ p = abs_inode s (inode_at s pb) ∧
    slot_block s (SData pinum 0) = Some p0 ∧ idx (dpointers (inode_at s pb)) 0 = p0 ∧
    a_data p !! 0%nat = Some (Some (blk s p0)) ∧
    ∀ inum nb nd, blocks_lookup (a_data p) nm = inum → 0 ≤ inum → inode_blk s inum = Some nb →
      nd = inode_at s nb →
      ∃ o', unlink_server pinum name s =
      (o ← unlink_loop NDIRENT 0 name (inode_at s pb) nd (dec_dir (blk s p0));
       match o with
       | Some rc => mret rc
       | None => imap_set inum (-1);; update_CR inum;; mret 0
       end) (off o' s).
Proof.
  intros Hok Ha Ht Hc Hb.
  destruct (run_find_dir s pinum p (junk_inode "unlink_server.pinode") Hok Ha (junk_inode_shape _))
    as (pb & o1 & Hpb & Hp & E1).
  assert (i_type (inode_at s pb) = MFS_DIRECTORY) as Hdir by (by rewrite Hp in Ht).
  assert (inode_of s pinum = Some (inode_at s pb)) as Hm by (unfold inode_of; by rewrite Hpb).
  pose proof (io_root _ (ok_inode s Hok pinum _ Hm) Hdir) as Hu0.
  destruct (inode_ptr s pinum _ 0 Hok Hm ltac:(lia)) as (u & p0 & Eu & Ep & _ & Ea).
  rewrite Hu0 in Eu. injection Eu as <-. cbn [Z.eqb Pos.eqb] in Ea.
  assert (slot_block s (SData pinum 0) = Some p0) as Hsl by (by eapply slot_data).
  destruct (slot_facts s _ p0 Hok Hsl) as (Hr & _ & Hs). cbn [slot_bytes] in Hs.
  assert (idx (dpointers (inode_at s pb)) 0 = p0) as Hi0 by exact (idx_Some _ 0 _ Ep).
  exists pb, p0. split_and!; [done|done|done|done|by rewrite Hp|].
  intros inum nb nd Hlk Hi Hnb ->.
  destruct (run_lookup_server (off (p0 * BLOCKSIZE + BLOCKSIZE) s) pinum p nm name) as [o2 E2];
    [by apply lfs_ok_off|done..|].
  eexists. unfold unlink_server. rewrite (bind_Ok _ _ _ _ _ E1). cbn [Z.eqb negb].
  rewrite Hdir. change (negb (MFS_DIRECTORY =? MFS_DIRECTORY)) with false. cbv iota.
  rewrite Hi0. rewrite (bind_Ok _ _ _ _ _ (run_lookup_block (off o1 s) p0 _ Hr Hs (junk_dir_shape _))).
  change (off (p0 * BLOCKSIZE + BLOCKSIZE) (off o1 s)) with (off (p0 * BLOCKSIZE + BLOCKSIZE) s).
  rewrite (bind_Ok _ _ _ _ _ E2). rewrite Hlk, (proj2 (Z.ltb_ge inum 0)) by done.
  change (off o2 (off (p0 * BLOCKSIZE + BLOCKSIZE) s)) with (off o2 s).
  rewrite (bind_Ok _ _ _ _ _ (run_find_inode (off o2 s) inum nb _ (lfs_ok_off _ _ Hok) Hnb (junk_inode_shape _))).
  cbv beta iota. change (inode_at (off o2 s) nb) with (inode_at s nb).
  change (blk (off o1 s) p0) with (blk s p0). reflexivity.
Qed.

Lemma block0_lookup data bs nm v :
  data !! 0%nat = Some (Some bs) → dir_lookup (dec_dir bs) nm = Some v → blocks_lookup data nm = v.
Proof.
  destruct data as [|o data]; [done|]. intros [= ->] Hv. rewrite blocks_lookup_foldr, foldr_cons.
  change (block_lookup (Some bs) nm) with (dir_lookup (dec_dir bs) nm). by rewrite Hv.
Qed.

Lemma dir_lookup_at d j nm v :
  (j < NDIRENT)%nat → slot_name d j = Some nm → (∀ i, (i < j)%nat → slot_name d i ≠ Some nm) →
  inums d !! j = Some v → dir_lookup d nm = Some v.
Proof.
  intros Hj Hn Hu Hv. rewrite dir_lookup_eq.
  rewrite (proj2 (dir_find_Some d nm NDIRENT 0 j)).
  - cbn [fmap option_fmap option_map]. by rewrite (idx_Some _ _ _ Hv).
  - split_and!; [lia..|done|]. intros k Hk. apply Hu. lia.
Qed.

(** The loop when the only matching slot is [j]. *)
Lemma run_unlink_loop s name nm pinode node p0 d j :
  cstr name = Some nm → Forall is_byte name → dir_wf d → dir_ok d → nm ≠ zstr "DNE" →
  (j < NDIRENT)%nat → slot_name d j = Some nm →
  (∀ i, (i < NDIRENT)%nat → slot_name d i = Some nm → i = j) →
  idx (dpointers pinode) 0 = p0 → 0 ≤ p0 < 524288 →
  (i_type node = MFS_REGULAR_FILE →
     unlink_loop NDIRENT 0 name pinode node d s =
     Ok (None, pw (p0 * BLOCKSIZE) (enc_dir (dir_put d j (-1) (zstr "DNE"))) s)) ∧
  (∀ c0, i_type node ≠ MFS_REGULAR_FILE → idx (dpointers node) 0 = c0 → 0 ≤ c0 < 524288 →
     c0 * BLOCKSIZE + BLOCKSIZE ≤ fsize (fd s) →
     ∃ o, unlink_loop NDIRENT 0 name pinode node d s =
     if dir_busy (dec_dir (blk s c0)) then Ok (Some (-1), off o s) else
     Ok (None, pw (p0 * BLOCKSIZE) (enc_dir (dir_put d j (-1) (zstr "DNE"))) s)).
Proof.
  intros Hc Hb Hw Hok Hdne Hj Hn Hu Hi Hr.
  assert (∀ t, unlink_loop NDIRENT 0 name pinode node d t =
    unlink_loop (S (NDIRENT - S j)) j name pinode node d t) as Hpre.
  { intros t. pose proof (unlink_loop_skip name nm pinode node Hc Hb d t j 0 (S (NDIRENT - S j)) Hok) as E.
    replace (j + S (NDIRENT - S j))%nat with NDIRENT in E by lia. apply E; [lia|].
    intros i Hij Hni. specialize (Hu i ltac:(lia) Hni). lia. }
  assert (∀ t, (seek_block p0;; write (enc_dir (mkDir (<[j:=-1]> (inums d)) (set_name j DNE (names d))));;
      unlink_loop (NDIRENT - S j) (S j) name pinode node
        (mkDir (<[j:=-1]> (inums d)) (set_name j DNE (names d)))) t =
    Ok (None, pw (p0 * BLOCKSIZE) (enc_dir (dir_put d j (-1) (zstr "DNE"))) t)) as Hclear.
  { intros t. rewrite clear_eq, run_write_block by done.
    destruct (dir_put_ok d j (-1) (zstr "DNE")) as (Hw' & Hok' & Hs'); try done;
      [by repeat constructor|unfold NAMELEN; simpl; lia|repeat constructor; done|].
    set (t' := pw _ _ t).
    pose proof (unlink_loop_skip name nm pinode node Hc Hb (dir_put d j (-1) (zstr "DNE")) t'
      (NDIRENT - S j) (S j) 0 Hok') as E. rewrite !Nat.add_0_r in E. rewrite E; [apply unlink_loop_0|lia|].
    intros i Hij. rewrite Hs' by lia. rewrite decide_False by lia. intros Hni.
    specialize (Hu i ltac:(lia) Hni). lia. }
  destruct (slot_strcmp name nm Hc Hb d j Hok Hj) as (z & Ez & Hz).
  rewrite (proj2 Hz Hn) in Ez. split.
  - intros Ht. rewrite Hpre, unlink_loop_S, Ez, run_need. cbn [Z.eqb negb]. rewrite Hi, Ht.
    change (MFS_REGULAR_FILE =? MFS_REGULAR_FILE) with true. cbv iota zeta. apply Hclear.
  - intros c0 Ht Hc0 Hcr Hcs. rewrite Hpre, unlink_loop_S, Ez, run_need. cbn [Z.eqb negb]. rewrite Hi, Hc0.
    rewrite (proj2 (Z.eqb_neq _ _) Ht). cbv zeta.
    rewrite (bind_Ok _ _ _ _ _ (run_lookup_block s c0 _ Hcr Hcs (junk_dir_shape _))).
    destruct (dir_busy _); [by eexists|]. exists 0. rewrite Hclear.
    by rewrite pw_off by (consts; lia).
Qed.

(** What [abs_Some] gives for the removed inode's first block. *)
Lemma data_block s i nb k bs :
  lfs_ok s → inode_blk s i = Some nb → (k < 14)%nat →
  a_data (abs_inode s (inode_at s nb)) !! k = Some (Some bs) →
  ∃ q, idx (dpointers (inode_at s nb)) (Z.of_nat k) = q ∧ bs = blk s q ∧
    0 ≤ q < 524288 ∧ q * BLOCKSIZE + BLOCKSIZE ≤ fsize (fd s) ∧ slot_block s (SData i k) = Some q.
Proof.
  intros Hok Hb Hk Hd. assert (inode_of s i = Some (inode_at s nb)) as Hn by (unfold inode_of; by rewrite Hb).
  destruct (inode_ptr s i _ k Hok Hn Hk) as (u & q & Eu & Eq & _ & Ea). rewrite Hd in Ea.
  destruct (Z.eqb_spec u 0) as [|Hu0]; [done|]. injection Ea as ->.
  pose proof (slot_data s i _ k q u Hn Eu Hu0 Eq) as Hsl.
  destruct (slot_facts s _ q Hok Hsl) as (Hr & _ & Hs).
  exists q. split; [by apply idx_Some|]. split; [done|]. split; [exact Hr|]. split; [exact Hs|exact Hsl].
Qed.

Lemma run_unlink_tail s inum p0 j o :
  lfs_ok s → 0 ≤ inum < MAXINODES → 0 ≤ p0 →
  (imap_set inum (-1);; update_CR inum;; mret 0)
    (pw (p0 * BLOCKSIZE) (enc_dir (unlink_dir s p0 j)) (off o s)) =
  Ok (0, unlink_state s inum p0 j).
Proof.
  intros Hok Hi Hp. rewrite pw_off by (consts; lia).
  rewrite run_imap_set by (change (imap (pw _ _ s)) with (imap s); rewrite (ok_imap s Hok); consts; lia).
  erewrite bind_Ok; [|apply (run_update_CR _ inum (-1)); [lia|]]; [reflexivity|].
  change (imap (set_imap ?m _)) with m. unfold set_idx. apply list_lookup_insert_eq.
  change (imap (pw _ _ s)) with (imap s). rewrite (ok_imap s Hok). consts. lia.
Qed.

(** C15: unlinking a name that the parent's first block holds once, of a file
    or of a directory whose first block has no further entries, clears the
    entry and frees the inode: the invariant and the checkpoint are kept, the
    inode is gone, the name no longer looks up when no other block holds it,
    and no other inode changes. Entries of later blocks are outside: the code
    frees their inode and leaves the entry ([unlink_later_block_leaves_entry]
    of [LfsFaults.v]). *)
Theorem unlink_removes s pinum inum p nd nm name bs j :
  lfs_ok s → cr_ok s → abs s pinum = Some p → a_type p = MFS_DIRECTORY →
  cstr name = Some nm → Forall is_byte name → nm ≠ zstr "DNE" →
  a_data p !! 0%nat = Some (Some bs) → (j < NDIRENT)%nat →
  slot_name (dec_dir bs) j = Some nm →
  (∀ i, (i < NDIRENT)%nat → slot_name (dec_dir bs) i = Some nm → i = j) →
  inums (dec_dir bs) !! j = Some inum → inum ≠ pinum →
  abs s inum = Some nd →
  a_type nd = MFS_REGULAR_FILE ∨
    (∃ cb, a_data nd !! 0%nat = Some (Some cb) ∧ dir_busy (dec_dir cb) = false) →
  ∃ s', unlink_server pinum name s = Ok (0, s') ∧ lfs_ok s' ∧ cr_ok s' ∧
    abs s' inum = None ∧
    abs s' pinum = Some (ANode MFS_DIRECTORY (a_size p)
      (<[0%nat:=Some (enc_dir (dir_put (dec_dir bs) j (-1) (zstr "DNE")))]> (a_data p))) ∧
    (absent (ANode MFS_DIRECTORY 0 (drop 1 (a_data p))) nm →
       ∃ o, lookup_server pinum name s' = Ok (-1, off o s')) ∧
    ∀ i, i ≠ inum → i ≠ pinum → abs s' i = abs s i.
Proof.
  intros Hok Hcr Ha Ht Hc Hb Hdne Hbs Hj Hn Hu Hinum Hne Hnd Hcase.
  destruct (run_unlink_prefix s pinum p nm name) as (pb & p0 & Hpb & Hp & Hp0 & Hi0 & Hbs0 & Hrun);
    [done..|].
  rewrite Hbs in Hbs0. injection Hbs0 as ->.
  destruct (abs_Some s inum nd Hnd) as (nb & n & Hnb & -> & Hin & ->).
  destruct (inode_blk_range s inum nb Hok Hnb) as (Hir & _).
  assert (i_type (inode_at s pb) = MFS_DIRECTORY) as Hdir by (by rewrite Hp in Ht).
  destruct (unlink_facts s pinum pb p0 j Hok Hpb Hdir Hp0 Hj) as (Hm & Hw & Hdok & Hr & _).
  assert (blocks_lookup (a_data p) nm = inum) as Hlk.
  { apply (block0_lookup _ _ _ _ Hbs). apply (dir_lookup_at _ j); [done|done| |done].
    intros i Hij Hni. specialize (Hu i ltac:(lia) Hni). lia. }
  destruct (Hrun inum nb _ Hlk ltac:(lia) Hnb eq_refl) as [o Eo].
  pose proof (run_unlink_loop (off o s) name nm (inode_at s pb) (inode_at s nb) p0 _ j
    Hc Hb Hw Hdok Hdne Hj Hn Hu Hi0 Hr) as [Hreg Hdr].
  assert (unlink_server pinum name s = Ok (0, unlink_state s inum p0 j)) as E.
  { rewrite Eo. rewrite <-(run_unlink_tail s inum p0 j o Hok Hir ltac:(lia)).
    destruct (decide (i_type (inode_at s nb) = MFS_REGULAR_FILE)) as [Ety|Ety].
    - by rewrite (bind_Ok _ _ _ _ _ (Hreg Ety)).
    - destruct Hcase as [?|(cb & Hcb & Hbusy)]; [done|].
      destruct (data_block s inum nb 0 cb Hok Hnb ltac:(lia) Hcb) as (q & Eq & -> & Hqr & Hqs & _).
      destruct (Hdr q Ety Eq Hqr Hqs) as [o' Ed]. change (blk (off o s) q) with (blk s q) in Ed.
      rewrite Hbusy in Ed. by rewrite (bind_Ok _ _ _ _ _ Ed). }
  exists (unlink_state s inum p0 j). split; [exact E|].
  pose proof (unlink_ok s pinum inum pb p0 j Hok Hpb Hdir Hp0 Hj Hir Hne) as Hok'.
  pose proof (unlink_abs s pinum inum pb p0 j Hok Hpb Hdir Hp0 Hj Hir Hne) as Habs.
  rewrite <-Hp in Habs.
  assert (abs (unlink_state s inum p0 j) pinum = Some (ANode MFS_DIRECTORY (a_size p)
    (<[0%nat:=Some (enc_dir (unlink_dir s p0 j))]> (a_data p)))) as Hpa.
  { rewrite Habs, decide_False, decide_True by done. by rewrite Hp. }
  split; [exact Hok'|].
  split; [exact (unlink_cr s pinum inum pb p0 j Hok Hpb Hdir Hp0 Hj Hir Hcr)|].
  split; [by rewrite Habs, decide_True|]. split; [exact Hpa|]. split.
  - intros Habsn. destruct (run_lookup_server _ pinum _ nm name Hok' Hpa eq_refl Hc Hb) as [o' El].
    exists o'. rewrite El. cbn [a_data].
    assert (absent (ANode MFS_DIRECTORY 0
      (<[0%nat:=Some (enc_dir (unlink_dir s p0 j))]> (a_data p))) nm) as Hab.
    { intros k b' Hk. cbn [a_data] in Hk. destruct k as [|k].
      - destruct (a_data p) as [|x l]; [done|]. injection Hk as <-.
        destruct (unlink_dir_ok s pinum pb p0 j Hok Hpb Hdir Hp0 Hj) as (Hw' & _ & Hs').
        rewrite (proj1 (dir_wf_enc _ Hw')), dir_lookup_eq.
        rewrite (proj2 (dir_find_None (unlink_dir s p0 j) nm NDIRENT 0)); [done|].
        intros k Hk. rewrite Hs' by lia. case_decide; [congruence|]. intros Hni.
        by specialize (Hu k ltac:(lia) Hni).
      - apply (Habsn k). cbn [a_data]. rewrite lookup_drop.
        rewrite list_lookup_insert_ne in Hk by done. exact Hk. }
    pose proof (absent_lookup _ _ Hab) as Hl. cbn [a_data] in Hl. by rewrite Hl.
  - intros i Hi1 Hi2. by rewrite Habs, !decide_False.
Qed.

(** A directory that holds entries besides its first two is not removed:
    the call returns -1 and only the file offset moves. *)
Theorem unlink_busy_directory s pinum inum p nd nm name bs cb j :
  lfs_ok s → abs s pinum = Some p → a_type p = MFS_DIRECTORY →
  cstr name = Some nm → Forall is_byte name → nm ≠ zstr "DNE" →
  a_data p !! 0%nat = Some (Some bs) → (j < NDIRENT)%nat →
  slot_name (dec_dir bs) j = Some nm →
  (∀ i, (i < NDIRENT)%nat → slot_name (dec_dir bs) i = Some nm → i = j) →
  inums (dec_dir bs) !! j = Some inum →
  abs s inum = Some nd → a_type nd = MFS_DIRECTORY →
  a_data nd !! 0%nat = Some (Some cb) → dir_busy (dec_dir cb) = true →
  ∃ o, unlink_server pinum name s = Ok (-1, off o s).
Proof.
  intros Hok Ha Ht Hc Hb Hdne Hbs Hj Hn Hu Hinum Hnd Htn Hcb Hbusy.
  destruct (run_unlink_prefix s pinum p nm name) as (pb & p0 & Hpb & Hp & Hp0 & Hi0 & Hbs0 & Hrun);
    [done..|].
  rewrite Hbs in Hbs0. injection Hbs0 as ->.
  destruct (abs_Some s inum nd Hnd) as (nb & n & Hnb & -> & Hin & ->).
  destruct (inode_blk_range s inum nb Hok Hnb) as (Hir & _).
  assert (i_type (inode_at s pb) = MFS_DIRECTORY) as Hdir by (by rewrite Hp in Ht).
  destruct (unlink_facts s pinum pb p0 j Hok Hpb Hdir Hp0 Hj) as (Hm & Hw & Hdok & Hr & _).
  assert (blocks_lookup (a_data p) nm = inum) as Hlk.
  { apply (block0_lookup _ _ _ _ Hbs). apply (dir_lookup_at _ j); [done|done| |done].
    intros i Hij Hni. specialize (Hu i ltac:(lia) Hni). lia. }
  destruct (Hrun inum nb _ Hlk ltac:(lia) Hnb eq_refl) as [o Eo].
  pose proof (run_unlink_loop (off o s) name nm (inode_at s pb) (inode_at s nb) p0 _ j
    Hc Hb Hw Hdok Hdne Hj Hn Hu Hi0 Hr) as [_ Hdr].
  cbn [a_type abs_inode] in Htn.
  destruct (data_block s inum nb 0 cb Hok Hnb ltac:(lia) Hcb) as (q & Eq & -> & Hqr & Hqs & _).
  destruct (Hdr q ltac:(by rewrite Htn) Eq Hqr Hqs) as [o' Ed]. change (blk (off o s) q) with (blk s q) in Ed.
  rewrite Hbusy in Ed. exists o'. rewrite Eo. by rewrite (bind_Ok _ _ _ _ _ Ed).
Qed.
End run.
