(* ===== verification/LfsFaults.v ===== *)
(** Consequences of the refinement theorems that a client sees (a write reads
    back, [stat] reports it), and the calls on which the server departs from
    what its comments say. *)

From S2P Require Import Prelude CString UnixFile Lfs LfsSpec LfsProofs LfsCreat LfsOps LfsTheorems LfsStart LfsUnlink.

#[local] Ltac consts := unfold MAXINODES, BLOCKSIZE, CRSIZE, INODE_BYTES, NDPTR in *.
#[local] Opaque lookup_block unlink_loop dir_lookup dec_dir dir_busy fresh_dir dots_dir creat_entry build_dir_block.

Section faults.
Context `{Uninit}.

Lemma run_stat_server s inum nd m :
  lfs_ok s → abs s inum = Some nd →
  ∃ o, stat_server inum m s = Ok ((0, mkStat (a_type nd) (a_size nd)), off o s).
Proof.
  intros Hok Ha. destruct (abs_Some s inum nd Ha) as (e & n & He & -> & _ & ->).
  eexists. unfold stat_server.
  by rewrite (bind_Ok _ _ _ _ _ (run_find_inode s inum e _ Hok He (junk_inode_shape _))).
Qed.

Lemma spec_write_data nd block buf k :
  0 ≤ block → (Z.to_nat block < length (a_data nd))%nat →
  a_data (spec_write nd block buf) !! k =
  if decide (k = Z.to_nat block) then Some (Some buf) else a_data nd !! k.
Proof.
  intros Hb Hl. cbn [a_data spec_write]. case_decide; subst.
  - by apply list_lookup_insert_eq.
  - by apply list_lookup_insert_ne.
Qed.

(** C2: what [write_server] wrote is what [read_server] then returns for that
    block; the file's other blocks read as before, [stat_server] reports a
    size that covers the block, no other inode changes, and the invariant and
    the checkpoint are kept. *)
Theorem write_then_read s inum nd block buf old :
  lfs_ok s → cr_ok s → abs s inum = Some nd → a_type nd = MFS_REGULAR_FILE →
  0 ≤ block ≤ 13 → length buf = Z.to_nat BLOCKSIZE → length old = Z.to_nat BLOCKSIZE →
  next_block s + 1 < 524288 →
  ∃ s', write_server inum buf block s = Ok (0, s') ∧ lfs_ok s' ∧ cr_ok s' ∧
    (∃ o, read_server inum old block s' = Ok ((0, buf), off o s')) ∧
    (∀ b bs, 0 ≤ b ≤ 13 → b ≠ block → a_data nd !! Z.to_nat b = Some (Some bs) →
       ∃ o, read_server inum old b s' = Ok ((0, bs), off o s')) ∧
    (∀ m, ∃ o, stat_server inum m s' =
       Ok ((0, mkStat MFS_REGULAR_FILE (Z.max (a_size nd) ((block + 1) * BLOCKSIZE))), off o s')) ∧
    ∀ j, j ≠ inum → abs s' j = abs s j.
Proof.
  intros Hok Hcr Ha Ht Hb Hl Ho Hn.
  destruct (write_server_refines s inum nd block buf Hok Hcr Ha Ht Hb Hl Hn)
    as (s' & E & Hok' & Hcr' & _ & Habs).
  assert (abs s' inum = Some (spec_write nd block buf)) as Ha' by by rewrite Habs, decide_True.
  assert (length (a_data nd) = 14%nat) as Hlen.
  { destruct (abs_Some s inum nd Ha) as (e & n & _ & -> & _ & ->). apply length_a_data. }
  exists s'. split; [exact E|]. split; [exact Hok'|]. split; [exact Hcr'|]. split_and!.
  - apply (run_read_server s' inum (spec_write nd block buf)); try done.
    rewrite spec_write_data by lia. by rewrite decide_True.
  - intros b bs Hb' Hne Hd. apply (run_read_server s' inum (spec_write nd block buf)); try done.
    rewrite spec_write_data by lia. rewrite decide_False by lia. done.
  - intros m. destruct (run_stat_server s' inum _ m Hok' Ha') as [o Es]. exists o.
    rewrite Es. cbn [a_type a_size spec_write]. by rewrite Ht.
  - intros j Hj. by rewrite Habs, decide_False.
Qed.

(** [stat_server] on an inode number that is in range but free does not
    report the error its comment promises: it succeeds, with the bytes the
    file offset happened to be at. *)
Theorem stat_free_inode_succeeds s inum m :
  0 ≤ inum < MAXINODES → imap s !! Z.to_nat inum = Some (-1) →
  ∃ m' s', stat_server inum m s = Ok ((0, m'), s').
Proof.
  intros Hi Hf. unfold stat_server, find_inode.
  rewrite (proj2 (Z.ltb_ge inum 0)), Z.geb_leb, (proj2 (Z.leb_gt MAXINODES inum)) by lia. cbn [orb].
  unfold imap_get, seek_block, lseek, read, modify, mbind, M_bind, need.
  rewrite decide_True by lia. rewrite Hf. cbn [mret M_ret].
  destruct (fread INODE_BYTES _) as [bs f']. cbn. by do 2 eexists.
Qed.

(** [creat_server] with a type that is neither a file's nor a directory's
    returns -1 only after the parent's entry is on disk: the name then looks
    up to an inode number that is not allocated. *)
Theorem creat_bad_type_leaves_entry s pinum type p nm name inum :
  lfs_ok s → abs s pinum = Some p → a_type p = MFS_DIRECTORY →
  cstr name = Some nm → Forall is_byte name → (length nm < NAMELEN)%nat →
  next_block s + 3 < 524288 → absent p nm → ftype_ok type = false →
  first_free (imap s) 0 = Some inum → creat_site (a_data p) 0 ≠ None →
  ∃ s' o, creat_server pinum type name s = Ok (-1, s') ∧
    lookup_server pinum name s' = Ok (inum, off o s') ∧ abs s' inum = None.
Proof.
  intros Hok Ha Ht Hc Hb Hl Hn Habs Hty Hf Hsite.
  destruct (run_creat_server s pinum type p nm name) as (pb & o & Hpb & Hp & E); [done..|].
  rewrite (absent_lookup _ _ Habs), Hf in E. cbn [Z.eqb Pos.eqb negb] in E.
  destruct (creat_site (a_data p) 0) as [[[b fresh] e]|] eqn:Es; [|done].
  unfold creat_end in E. rewrite Hty in E. cbv zeta in E.
  destruct (first_free_range _ _ Hf) as [Hi Hfree].
  assert (i_type (inode_at s pb) = MFS_DIRECTORY) as Hdir by (by rewrite Hp in Ht).
  assert (inode_of s pinum = Some (inode_at s pb)) as Hino by (unfold inode_of; by rewrite Hpb).
  pose proof (cstr_nonul _ _ Hc) as Hnn.
  assert (Forall is_byte nm) as Hbn.
  { apply cstr_split in Hc as [r ->]. by apply Forall_app in Hb as [? _]. }
  destruct (creat_site_facts s pinum pb nm Hok Hpb Hl 14 0 b fresh e) as (Hb14 & He & Hst);
    [done|by rewrite drop_0, <-Hp|].
  assert (0 ≤ inum < MAXINODES) as Hir.
  { apply lookup_lt_Some in Hfree. rewrite (ok_imap s Hok) in Hfree. consts. lia. }
  assert (is_i32 inum) as Hii by (unfold is_i32; consts; lia).
  assert (inode_blk s inum = None) as Hnone.
  { unfold inode_blk. rewrite decide_True by lia. by rewrite Hfree. }
  assert (inum ≠ pinum) as Hne by (intros ->; congruence).
  pose proof (entry_ok s pinum inum pb b e fresh nm Hok Hpb Hdir (proj2 Hb14) Hst He
    Hnn Hl Hbn Hii ltac:(lia)) as Hokt.
  pose proof (entry_abs s pinum inum pb b e fresh nm Hok Hpb Hdir (proj2 Hb14) Hst He
    Hnn Hl Hbn Hii ltac:(lia)) as Hat.
  pose proof (entry_abs_other s pinum inum pb b e fresh nm Hok Hpb Hdir (proj2 Hb14) Hst He
    Hnn Hl Hbn Hii ltac:(lia) inum Hne) as Hat'.
  destruct (spec_creat (abs s) pinum type inum nm) as [σ'|] eqn:Hσ.
  2: { unfold spec_creat in Hσ. rewrite Ha in Hσ. cbn [mbind option_bind] in Hσ. by rewrite Es in Hσ. }
  destruct (spec_creat_lookup s pinum type p nm inum σ' Hok Ha Ht Habs Hnn Hl Hbn Hii Hne Hσ)
    as (p' & Hp' & Htp' & Hlk & _).
  unfold spec_creat in Hσ. rewrite Ha in Hσ. cbn [mbind option_bind] in Hσ. rewrite Es in Hσ.
  injection Hσ as <-.
  rewrite decide_False, decide_True in Hp' by done. injection Hp' as Hp'.
  assert (a_data p' = <[b:=Some (enc_dir (dir_put (entry_dir s pb b fresh) e inum nm))]>
    (a_data (abs_inode s (inode_at s pb)))) as Hdata.
  { rewrite <-Hp', <-Hp. cbn [a_data]. do 3 f_equal. unfold entry_dir, entry_blk.
    destruct fresh; [done|].
    destruct (inode_ptr s pinum _ b Hok Hino (proj2 Hb14)) as (u & q & Eu & Eq & _ & Ea).
    rewrite Hst in Eu. injection Eu as <-. rewrite (idx_Some _ _ _ Eq).
    rewrite <-Hp in Ea. by rewrite Ea. }
  destruct (run_lookup_server _ pinum _ nm name Hokt Hat eq_refl Hc Hb) as [o' El].
  cbn [a_data] in El. rewrite <-Hdata, Hlk in El.
  eexists _, o'. split; [exact E|]. split; [exact El|]. rewrite Hat'.
  unfold abs, inode_of. by rewrite Hnone.
Qed.

(** An entry in a later block than the first is found by the lookup but not
    by the loop: the inode is freed and the entry stays. *)
Theorem unlink_later_block_leaves_entry s pinum p nm name inum nd :
  lfs_ok s → abs s pinum = Some p → a_type p = MFS_DIRECTORY →
  cstr name = Some nm → Forall is_byte name →
  (∀ bs, a_data p !! 0%nat = Some (Some bs) →
     ∀ j, (j < NDIRENT)%nat → slot_name (dec_dir bs) j ≠ Some nm) →
  blocks_lookup (a_data p) nm = inum → abs s inum = Some nd → inum ≠ pinum →
  ∃ s' o, unlink_server pinum name s = Ok (0, s') ∧
    abs s' inum = None ∧ lookup_server pinum name s' = Ok (inum, off o s').
Proof.
  intros Hok Ha Ht Hc Hb Hno Hlk Hnd Hne.
  destruct (run_unlink_prefix s pinum p nm name) as (pb & p0 & Hpb & Hp & Hp0 & Hi0 & Hbs0 & Hrun);
    [done..|].
  destruct (abs_Some s inum nd Hnd) as (nb & n & Hnb & -> & Hin & ->).
  destruct (inode_blk_range s inum nb Hok Hnb) as (Hir & _).
  destruct (Hrun inum nb _ Hlk ltac:(lia) Hnb eq_refl) as [o Eo].
  assert (i_type (inode_at s pb) = MFS_DIRECTORY) as Hdir by (by rewrite Hp in Ht).
  destruct (unlink_facts s pinum pb p0 0 Hok Hpb Hdir Hp0 ltac:(unfold NDIRENT; lia))
    as (Hm & Hw & Hdok & Hr & _).
  pose proof (unlink_loop_skip name nm (inode_at s pb) (inode_at s nb) Hc Hb
    (dec_dir (blk s p0)) (off o s) NDIRENT 0 0 Hdok) as El.
  rewrite !Nat.add_0_r in El. rewrite unlink_loop_0 in El.
  set (s' := cr_write inum (-1) (set_imap (set_idx (imap s) inum (-1)) s)).
  assert (unlink_server pinum name s = Ok (0, s')) as E.
  { rewrite Eo. rewrite (bind_Ok _ _ _ _ _ (El ltac:(unfold NDIRENT; lia)
      ltac:(intros i Hi; apply (Hno _ Hbs0); lia))).
    rewrite run_imap_set by (change (imap (off o s)) with (imap s); rewrite (ok_imap s Hok); consts; lia).
    erewrite bind_Ok; [|apply (run_update_CR _ inum (-1)); [lia|]].
    - unfold mret, M_ret, s', cr_write. cbn [set_imap next_block off set_fd].
      change (imap (off o s)) with (imap s).
      rewrite <-(pw_off (inum * 4) _ o (set_imap _ s)) by lia. reflexivity.
    - change (imap (set_imap ?m _)) with m. unfold set_idx. apply list_lookup_insert_eq.
      change (imap (off o s)) with (imap s). rewrite (ok_imap s Hok). consts. lia. }
  assert (∀ i, inode_blk s' i = if decide (i = inum) then None else inode_blk s i) as Hblk.
  { intros i. unfold inode_blk. change (imap s') with (set_idx (imap s) inum (-1)).
    unfold set_idx. case_decide as Hi.
    - destruct (decide (i = inum)) as [->|Hn].
      + rewrite list_lookup_insert_eq by (rewrite (ok_imap s Hok); consts; lia). done.
      + by rewrite list_lookup_insert_ne by lia.
    - by rewrite decide_False by lia. }
  assert (∀ sl, same_bytes s s' sl) as Hsame.
  { intros sl b Hsl. destruct (slot_facts s sl b Hok Hsl) as (_ & Hrb & _). unfold s'.
    by rewrite cr_write_bytes by (consts; lia). }
  assert (inode_blk s' inum = None) as Hgone by by rewrite Hblk, decide_True.
  assert (∀ sl, owner sl = inum → slot_block s' sl = None) as Hsg.
  { intros [i|i k]; cbn [owner slot_block]; intros ->; [done|]. unfold inode_of. by rewrite Hgone. }
  assert (lfs_ok s') as Hok'.
  { apply (lfs_ok_preserve s s' [inum]); [done| |done| | | | | | | |].
    - intros i Hi. rewrite list_elem_of_singleton in Hi. by rewrite Hblk, decide_False.
    - change (imap s') with (set_idx (imap s) inum (-1)). rewrite set_idx_length. apply (ok_imap s Hok).
    - change (imap s') with (set_idx (imap s) inum (-1)).
      apply Forall_set_idx; [apply (ok_ints s Hok)|unfold is_i32; lia].
    - change (next_block s') with (next_block s). pose proof (ok_next s Hok). lia.
    - unfold s'. destruct (slot_facts s _ p0 Hok Hp0) as (_ & Hc0 & Hs0). cbn [slot_bytes] in Hs0.
      rewrite cr_write_size; [done|done|]. cbn [set_imap fd]. consts. lia.
    - intros sl b Hsl Hb'. apply list_elem_of_singleton in Hsl. by rewrite Hsg in Hb'.
    - intros sl sl' b Hsl _ _ Hb'. apply list_elem_of_singleton in Hsl. by rewrite Hsg in Hb'.
    - intros i n Hin' Hn. apply list_elem_of_singleton in Hin' as ->. unfold inode_of in Hn.
      by rewrite Hgone in Hn.
    - intros i n k b Hin' Hn. apply list_elem_of_singleton in Hin' as ->. unfold inode_of in Hn.
      by rewrite Hgone in Hn. }
  assert (abs s' pinum = Some p) as Hpa.
  { rewrite <-Ha. apply abs_frame; [by rewrite Hblk, decide_False|apply Hsame|intros; apply Hsame]. }
  destruct (run_lookup_server s' pinum p nm name Hok' Hpa Ht Hc Hb) as [o' Elk].
  exists s', o'. split; [exact E|]. split; [unfold abs, inode_of; by rewrite Hgone|].
  by rewrite Elk, Hlk.
Qed.
End faults.
