(* ===== verification/MfsProofs.v ===== *)
(** The protocol over a lossy network: a request that is sent again until an
    answer arrives has the effect of one execution, and the client gets its
    result. *)

From S2P Require Import Prelude CString UnixFile Lfs Mfs LfsSpec LfsProofs LfsCreat LfsOps LfsTheorems LfsStart LfsUnlink LfsFaults.

(** ** The retransmission loop *)

(** A reply that exists arrives in some round; [n] were produced before. *)
Fixpoint answered (rounds : list round) (n : nat) : bool :=
  match rounds with
  | [] => false
  | r :: rounds' =>
      let n' := if r_delivered r then S n else n in
      match r_reply r with
      | Some k => bool_decide (k < n')%nat || answered rounds' n'
      | None => answered rounds' n'
      end
  end.

Definition net_up (net : network) : Prop :=
  0 < n_sock net ∧ n_bind net ≠ -1 ∧ n_resolved net = true.

Section loop.
Context `{Uninit}.
Context (sent : MFS_Packet_t) (I J : nat → lfs → Prop) (Q : MFS_Packet_t → Prop).
Hypothesis Hstep : ∀ n s, I (S n) s ∨ J (S n) s →
  ∃ r s', listenOnServer sent s = Ok ((r, false), s') ∧ Q r ∧ J n s'.
Hypothesis HI : ∀ n s, I (S n) s → I n s.
Hypothesis HJ : ∀ n s, J (S n) s → J n s.

Lemma J_0 n s : J n s → J 0 s.
Proof. revert s. induction n as [|n IH]; intros s Hs; [done|]. by apply IH, HJ. Qed.

(** A round without its delivery: what arrives decides. *)
Lemma send_loop_reply rounds r n replies s :
  Forall Q replies → J n s ∨ replies = [] →
  (match send_loop rounds sent true replies s with
   | Ok (r, s') => Q r ∧ J 0 s' ∧ answered rounds (length replies) = true
   | Blocked => answered rounds (length replies) = false
   | _ => False
   end) →
  match
    (match r_reply r with
     | Some k =>
         match replies !! k with
         | Some response => mret response
         | None => send_loop rounds sent true replies
         end
     | None => send_loop rounds sent true replies
     end) s
  with
  | Ok (r', s') => Q r' ∧ J 0 s' ∧
      match r_reply r with
      | Some k => bool_decide (k < length replies)%nat || answered rounds (length replies)
      | None => answered rounds (length replies)
      end = true
  | Blocked =>
      match r_reply r with
      | Some k => bool_decide (k < length replies)%nat || answered rounds (length replies)
      | None => answered rounds (length replies)
      end = false
  | _ => False
  end.
Proof.
  intros HQ Hs IH. destruct (r_reply r) as [k|]; [|exact IH].
  destruct (replies !! k) as [response|] eqn:El.
  - cbn. pose proof (lookup_lt_Some _ _ _ El) as Hk. rewrite bool_decide_eq_true_2 by done.
    destruct Hs as [Hs| ->]; [|done].
    split_and!; [by eapply Forall_lookup_1|by eapply J_0|done].
  - apply lookup_ge_None in El. rewrite bool_decide_eq_false_2 by lia. exact IH.
Qed.

Lemma send_loop_spec rounds : ∀ replies s,
  Forall Q replies →
  (replies = [] ∧ I (length rounds) s ∨ J (length rounds) s) →
  match send_loop rounds sent true replies s with
  | Ok (r, s') => Q r ∧ J 0 s' ∧ answered rounds (length replies) = true
  | Blocked => answered rounds (length replies) = false
  | _ => False
  end.
Proof.
  induction rounds as [|r rounds IH]; intros replies s HQ Hs; [done|].
  cbn [send_loop length answered] in *. rewrite andb_true_r. destruct (r_delivered r) eqn:Ed.
  - destruct (Hstep (length rounds) s) as (rep & s' & E & Hr & Hs'); [tauto|].
    assert ((('(reply, stop) ← listenOnServer sent; mret (negb stop, replies ++ [reply])) :
      M lfs (bool * list MFS_Packet_t)) s = Ok ((true, replies ++ [rep]), s')) as E1.
    { by rewrite (bind_Ok _ _ _ _ _ E). }
    rewrite (bind_Ok _ _ _ _ _ E1). cbv beta iota.
    assert (Forall Q (replies ++ [rep])) as HQ'.
    { apply Forall_app. split; [done|]. by repeat constructor. }
    replace (S (length replies)) with (length (replies ++ [rep])) by (len; simpl; lia).
    apply (send_loop_reply rounds r (length rounds)); [done|by left|].
    apply IH; [done|by right].
  - rewrite bind_ret. cbv beta iota.
    apply (send_loop_reply rounds r (length rounds)); [done| |].
    + destruct Hs as [[-> _]|Hs]; [by right|left; by apply HJ].
    + apply IH; [done|]. destruct Hs as [[-> Hs]|Hs]; [left; split; [done|by apply HI]|right; by apply HJ].
Qed.

(** [sendPacket] once the socket is open. *)
Lemma sendPacket_spec net s :
  net_up net → I (length (n_rounds net)) s →
  match sendPacket net sent s with
  | Ok (r, s') => ∃ p, r = Some p ∧ Q p ∧ J 0 s' ∧ answered (n_rounds net) 0 = true
  | Blocked => answered (n_rounds net) 0 = false
  | _ => False
  end.
Proof.
  intros (Hs & Hb & Hr) HI0. unfold sendPacket, UDP_Open.
  rewrite (proj2 (Z.eqb_neq (n_sock net) (-1))) by lia.
  rewrite (proj2 (Z.eqb_neq (n_bind net) (-1))) by done. cbv zeta.
  rewrite (proj2 (Z.ltb_ge (n_sock net) 0)) by lia. rewrite Hr. cbn [UDP_FillSockAddr Z.ltb Z.compare].
  rewrite (proj2 (Z.eqb_neq (n_sock net) 0)) by lia.
  pose proof (send_loop_spec (n_rounds net) [] s (Forall_nil_2 Q) (or_introl (conj eq_refl HI0))) as Hl.
  unfold mbind, M_bind. destruct (send_loop _ _ _ _ s) as [[p s']| | | |]; try done.
  cbn. destruct Hl as (? & ? & ?). by exists p.
Qed.
End loop.

#[local] Opaque write_server creat_server lookup_server unlink_server read_server stat_server
  fresh_dir dots_dir dir_lookup dec_dir.

(** ** One execution of each request *)

Section serve.
Context `{Uninit}.

Lemma serve_write p s rc s' :
  pk_method p = WRITE → write_server (pk_inum p) (pk_buffer p) (pk_block p) s = Ok (rc, s') →
  ∃ r, listenOnServer p s = Ok ((r, false), s') ∧ pk_inum r = rc.
Proof.
  intros Hm E. eexists. split; [|shelve]. unfold listenOnServer. rewrite Hm. cbv zeta.
  change (WRITE =? LOOKUP) with false. change (WRITE =? STAT) with false.
  change (WRITE =? WRITE) with true. cbv iota.
  erewrite bind_Ok; [|by rewrite (bind_Ok _ _ _ _ _ E)]. reflexivity.
  Unshelve. reflexivity.
Qed.

Lemma serve_creat p s rc s' :
  pk_method p = CREAT → creat_server (pk_inum p) (pk_type p) (name_memory p) s = Ok (rc, s') →
  ∃ r, listenOnServer p s = Ok ((r, false), s') ∧ pk_inum r = rc.
Proof.
  intros Hm E. eexists. split; [|shelve]. unfold listenOnServer. rewrite Hm. cbv zeta.
  change (CREAT =? LOOKUP) with false. change (CREAT =? STAT) with false.
  change (CREAT =? WRITE) with false. change (CREAT =? READ) with false.
  change (CREAT =? CREAT) with true. cbv iota.
  erewrite bind_Ok; [|by rewrite (bind_Ok _ _ _ _ _ E)]. reflexivity.
  Unshelve. reflexivity.
Qed.

Lemma serve_lookup p s rc s' :
  pk_method p = LOOKUP → lookup_server (pk_inum p) (name_memory p) s = Ok (rc, s') →
  ∃ r, listenOnServer p s = Ok ((r, false), s') ∧ pk_inum r = rc.
Proof.
  intros Hm E. eexists. split; [|shelve]. unfold listenOnServer. rewrite Hm. cbv zeta.
  change (LOOKUP =? LOOKUP) with true. cbv iota.
  erewrite bind_Ok; [|by rewrite (bind_Ok _ _ _ _ _ E)]. reflexivity.
  Unshelve. reflexivity.
Qed.

(** The name field the client fills in. *)
Lemma sent_name name nm (j b : list Z) :
  cstr name = Some nm → (length nm ≤ 27)%nat → length j = 28%nat →
  strcpy j 0 name = Some (splice 0 (nm ++ [0]) j) ∧
  cstr (splice 0 (nm ++ [0]) j ++ b) = Some nm ∧
  (Forall is_byte j → Forall is_byte nm → Forall is_byte b →
   Forall is_byte (splice 0 (nm ++ [0]) j ++ b)).
Proof.
  intros Hc Hl Hj. split_and!.
  - apply strcpy_fits; [done|lia].
  - unfold splice. rewrite take_0. cbn [app]. rewrite take_ge by (len; simpl; lia).
    rewrite <-!app_assoc. cbn [app]. apply cstr_app. by eapply cstr_nonul.
  - intros F1 F2 F3. apply Forall_app. split; [|done]. apply Forall_splice; [|done].
    apply Forall_app. split; [done|]. by repeat constructor.
Qed.

Lemma run_length_check {S} name nm s :
  cstr name = Some nm →
  length_check (S:=S) (Some name) s = Ok (if (length nm <=? 27)%nat then 0 else -1, s).
Proof.
  intros Hc. unfold length_check. cbn [need]. rewrite bind_ret, (strlen_cstr _ _ Hc).
  cbn [need]. rewrite bind_ret. unfold mret, M_ret.
  destruct (Nat.leb_spec (length nm) 27); rewrite Z.gtb_ltb.
  - by rewrite (proj2 (Z.ltb_ge _ _)) by lia.
  - by rewrite (proj2 (Z.ltb_lt _ _)) by lia.
Qed.

Lemma name_memory_with n p : name_memory (with_name n p) = n ++ pk_buffer p.
Proof. reflexivity. Qed.
Lemma name_memory_method m p : name_memory (with_method m p) = name_memory p.
Proof. reflexivity. Qed.

(** ** What a client call does over the network *)

Lemma spec_write_twice nd block buf :
  0 ≤ block → spec_write (spec_write nd block buf) block buf = spec_write nd block buf.
Proof.
  intros Hb. unfold spec_write. cbn [a_type a_size a_data]. f_equal; [lia|].
  apply list_insert_insert_eq.
Qed.

(** C24: however often the network loses, delays or repeats messages, a
    [MFS_Write] that gets an answer has written the block exactly as one
    execution does and returns 0, and it gets an answer whenever a reply
    arrives; nothing else of the file system changes. *)
Theorem MFS_Write_applied_once c net s inum nd block buf :
  init_done c = true → net_up net →
  lfs_ok s → cr_ok s → abs s inum = Some nd → a_type nd = MFS_REGULAR_FILE →
  0 ≤ block ≤ 13 → length buf = Z.to_nat BLOCKSIZE →
  next_block s + Z.of_nat (length (n_rounds net)) < 524288 →
  match MFS_Write c net inum buf block s with
  | Ok (rc, s') => rc = 0 ∧ answered (n_rounds net) 0 = true ∧ lfs_ok s' ∧ cr_ok s' ∧
      ∀ j, abs s' j = if decide (j = inum) then Some (spec_write nd block buf) else abs s j
  | Blocked => answered (n_rounds net) 0 = false
  | _ => False
  end.
Proof.
  intros Hi Hnet Hok Hcr Ha Ht Hb Hl Hn. unfold MFS_Write. rewrite Hi. cbn [negb]. cbv zeta.
  set (p0 := with_inum _ _).
  assert (libc_memcpy (pk_buffer p0) buf (Z.to_nat 4096) = Some buf) as Hcpy.
  { unfold libc_memcpy. assert (length (pk_buffer p0) = Z.to_nat 4096) as Hlb.
    { unfold p0. cbn [pk_buffer with_inum with_method junk_packet]. by rewrite length_junk. }
    unfold BLOCKSIZE in Hl. rewrite decide_True by lia. f_equal. rewrite take_ge by lia.
    unfold splice. rewrite take_0, drop_ge by lia. rewrite take_ge by lia. cbn [app].
    apply app_nil_r. }
  rewrite Hcpy. cbn [need]. rewrite bind_ret.
  set (sent := with_block _ _).
  set (J := λ (n : nat) t, lfs_ok t ∧ cr_ok t ∧ next_block t + Z.of_nat n < 524288 ∧
    ∀ j, abs t j = if decide (j = inum) then Some (spec_write nd block buf) else abs s j).
  set (I := λ (n : nat) t, t = s ∧ next_block t + Z.of_nat n < 524288).
  assert (∀ n t, I (S n) t ∨ J (S n) t →
    ∃ r t', listenOnServer sent t = Ok ((r, false), t') ∧ pk_inum r = 0 ∧ J n t') as Hstep.
  { intros n t Ht'.
    assert (lfs_ok t ∧ cr_ok t ∧ next_block t + 1 + Z.of_nat n < 524288 ∧
      ∃ nd', abs t inum = Some nd' ∧ a_type nd' = MFS_REGULAR_FILE ∧
        spec_write nd' block buf = spec_write nd block buf ∧
        ∀ j, j ≠ inum → abs t j = abs s j) as (Hokt & Hcrt & Hnt & nd' & Hat & Htt & Hsp & Hoth).
    { destruct Ht' as [[-> Hb']|(H1 & H2 & H3 & H4)].
      - split_and!; [done|done|lia|]. exists nd.
        split; [exact Ha|]. split; [exact Ht|]. split; [reflexivity|]. intros j _. reflexivity.
      - split_and!; [done|done|lia|]. exists (spec_write nd block buf).
        split; [by rewrite H4, decide_True|]. split; [exact Ht|].
        split; [exact (spec_write_twice nd block buf (proj1 Hb))|].
        intros j Hj. by rewrite H4, decide_False. }
    destruct (write_server_refines t inum nd' block buf Hokt Hcrt Hat Htt Hb Hl ltac:(lia))
      as (t' & E & Hok' & Hcr' & Hn' & Habs').
    destruct (serve_write sent t 0 t' eq_refl E) as (r & Er & Hr).
    exists r, t'. split; [exact Er|]. split; [exact Hr|]. split_and!; [done|done|lia|].
    intros j. rewrite Habs'. case_decide as Hj; [by rewrite Hsp|exact (Hoth j Hj)]. }
  pose proof (sendPacket_spec sent I J (λ r, pk_inum r = 0) Hstep) as Hs.
  specialize (Hs ltac:(intros n t [-> ?]; split; [done|lia])
    ltac:(intros n t (?&?&?&?); split_and!; [done|done|lia|done]) net s Hnet (conj eq_refl Hn)).
  unfold mbind, M_bind. destruct (sendPacket net sent s) as [[r s']| | | |]; [|exact Hs..].
  destruct Hs as (p & -> & Hp & (H1 & H2 & _ & H4) & Hans).
  exact (conj Hp (conj Hans (conj H1 (conj H2 H4)))).
Qed.

(** A [MFS_Creat] of a fresh name that gets an answer returns 0 and has
    created exactly one entry and one inode, the lowest free one, however
    often the request was executed; a name over 27 bytes is refused without
    a packet being sent. *)
Theorem MFS_Creat_applied_once c net s pinum type p nm name inum σ' :
  init_done c = true → net_up net →
  lfs_ok s → cr_ok s → abs s pinum = Some p → a_type p = MFS_DIRECTORY →
  cstr name = Some nm → Forall is_byte name →
  next_block s + 6 < 524288 → absent p nm → ftype_ok type = true →
  first_free (imap s) 0 = Some inum → inum ≠ pinum →
  spec_creat (abs s) pinum type inum nm = Some σ' →
  match MFS_Creat c net pinum type (Some name) s with
  | Ok (rc, s') =>
      if (length nm <=? 27)%nat then
        rc = 0 ∧ answered (n_rounds net) 0 = true ∧ lfs_ok s' ∧ cr_ok s' ∧
        (∀ j, abs s' j = σ' j) ∧ ∃ o, lookup_server pinum name s' = Ok (inum, off o s')
      else rc = -1 ∧ s' = s
  | Blocked => answered (n_rounds net) 0 = false
  | _ => False
  end.
Proof.
  intros Hi Hnet Hok Hcr Ha Ht Hc Hb Hn Habs Hty Hf Hne Hσ. unfold MFS_Creat. rewrite Hi. cbn [negb].
  rewrite (bind_Ok _ _ _ _ _ (run_length_check name nm s Hc)).
  destruct (Nat.leb_spec (length nm) 27) as [Hl|Hl]; [|exact (conj eq_refl eq_refl)].
  cbn [Z.ltb Z.compare need]. rewrite bind_ret. cbv zeta. set (p0 := with_method _ _).
  pose proof (cstr_nonul _ _ Hc) as Hnn.
  assert (Forall is_byte nm) as Hbn.
  { apply cstr_split in Hc as [r ->]. by apply Forall_app in Hb as [? _]. }
  destruct (first_free_range _ _ Hf) as [Hi0 Hfree].
  assert (0 ≤ inum < MAXINODES) as Hir.
  { apply lookup_lt_Some in Hfree. rewrite (ok_imap s Hok) in Hfree. unfold MAXINODES in *. lia. }
  assert (is_i32 inum) as Hii by (unfold is_i32, MAXINODES in *; lia).
  assert (length nm < NAMELEN)%nat as Hln by (unfold NAMELEN; lia).
  destruct (sent_name name nm (pk_name p0) (pk_buffer p0) Hc Hl) as (Es & Ec & Eb).
  { apply length_junk. }
  specialize (Eb (junk_bytes _ _) Hbn (junk_bytes _ _)).
  rewrite Es. cbn [need]. rewrite bind_ret. rewrite <-name_memory_with in Ec, Eb. set (sent := with_name _ _) in *.
  assert (pk_method sent = CREAT ∧ pk_inum sent = pinum ∧ pk_type sent = type) as (Em & Epi & Ety) by done.
  clearbody sent. clear Es p0.
  destruct (spec_creat_lookup s pinum type p nm inum σ' Hok Ha Ht Habs Hnn Hln Hbn Hii Hne Hσ)
    as (p' & Hp' & Htp' & Hlk & _).
  set (J := λ (n : nat) t, lfs_ok t ∧ cr_ok t ∧ next_block t + 3 < 524288 ∧ ∀ j, abs t j = σ' j).
  set (I := λ (n : nat) t, t = s).
  assert (∀ n t, I (S n) t ∨ J (S n) t →
    ∃ r t', listenOnServer sent t = Ok ((r, false), t') ∧ pk_inum r = 0 ∧ J n t') as Hstep.
  { intros n t [->|(H1 & H2 & H3 & H4)].
    - destruct (creat_server_creates s pinum type p nm (name_memory sent) inum σ' Hok Hcr Ha Ht Ec Eb Hln
        ltac:(lia) (absent_lookup _ _ Habs) Hty Hf Hσ) as (t' & E & Hok' & Hcr' & Hnx & Habs').
      rewrite <-Epi, <-Ety in E.
      destruct (serve_creat sent s 0 t' Em E) as (r & Er & Hr).
      exists r, t'. split; [exact Er|]. split; [exact Hr|]. split; [exact Hok'|]. split; [exact Hcr'|].
      split; [lia|exact Habs'].
    - destruct (run_creat_server t pinum type p' nm (name_memory sent) H1) as (pb & o & _ & _ & E);
        [by rewrite H4|exact Htp'|exact Ec|exact Eb|exact Hln|exact H3|].
      rewrite Hlk, (proj2 (Z.eqb_neq inum (-1))) in E by lia. cbn [negb] in E.
      rewrite <-Epi, <-Ety in E.
      destruct (serve_creat sent t 0 _ Em E) as (r & Er & Hr).
      exists r, (off o t). split; [exact Er|]. split; [exact Hr|].
      split; [by apply lfs_ok_off|]. split; [by apply cr_ok_off|]. split; [exact H3|exact H4]. }
  pose proof (sendPacket_spec sent I J (λ r, pk_inum r = 0) Hstep (λ n t H, H) (λ n t H, H) net s Hnet
    eq_refl) as Hs.
  unfold mbind, M_bind. destruct (sendPacket net sent s) as [[r s']| | | |]; [|exact Hs..].
  destruct Hs as (q & -> & Hq & (H1 & H2 & H3 & H4) & Hans).
  assert (abs s' pinum = Some p') as Hpa by by rewrite H4.
  destruct (run_lookup_server s' pinum p' nm name H1 Hpa Htp' Hc Hb) as [o Eo]. rewrite Hlk in Eo.
  exact (conj Hq (conj Hans (conj H1 (conj H2 (conj H4 (ex_intro _ o Eo)))))).
Qed.

(** [MFS_Lookup] returns what the server's directory holds, whatever the
    network repeats, and does not change the file system. *)
Theorem MFS_Lookup_agrees c net s pinum p nm name :
  init_done c = true → net_up net →
  lfs_ok s → abs s pinum = Some p → a_type p = MFS_DIRECTORY →
  cstr name = Some nm → Forall is_byte name → (length nm ≤ 27)%nat →
  match MFS_Lookup c net pinum (Some name) s with
  | Ok (rc, s') => rc = blocks_lookup (a_data p) nm ∧ answered (n_rounds net) 0 = true ∧
      ∃ o, s' = off o s
  | Blocked => answered (n_rounds net) 0 = false
  | _ => False
  end.
Proof.
  intros Hi Hnet Hok Ha Ht Hc Hb Hl. unfold MFS_Lookup. rewrite Hi. cbn [negb].
  rewrite (bind_Ok _ _ _ _ _ (run_length_check name nm s Hc)).
  rewrite (proj2 (Nat.leb_le _ _) Hl). cbn [Z.ltb Z.compare need]. rewrite bind_ret. cbv zeta.
  set (p0 := with_inum _ _).
  assert (Forall is_byte nm) as Hbn.
  { apply cstr_split in Hc as [r ->]. by apply Forall_app in Hb as [? _]. }
  destruct (sent_name name nm (pk_name p0) (pk_buffer p0) Hc Hl) as (Es & Ec & Eb).
  { apply length_junk. }
  specialize (Eb (junk_bytes _ _) Hbn (junk_bytes _ _)).
  rewrite Es. cbn [need]. rewrite bind_ret. rewrite <-name_memory_with in Ec, Eb.
  rewrite <-(name_memory_method LOOKUP) in Ec, Eb. set (sent := with_method _ _) in *.
  assert (pk_method sent = LOOKUP ∧ pk_inum sent = pinum) as (Em & Epi) by done.
  clearbody sent. clear Es p0.
  set (J := λ (n : nat) t, ∃ o, t = off o s).
  assert (∀ n t, J (S n) t ∨ J (S n) t →
    ∃ r t', listenOnServer sent t = Ok ((r, false), t') ∧
      pk_inum r = blocks_lookup (a_data p) nm ∧ J n t') as Hstep.
  { intros n t Ht'. assert (∃ o, t = off o s) as [o ->] by (destruct Ht' as [H'|H']; exact H').
    destruct (run_lookup_server (off o s) pinum p nm (name_memory sent) (lfs_ok_off _ _ Hok) Ha Ht Ec Eb)
      as [o' E].
    rewrite <-Epi in E. destruct (serve_lookup sent _ _ _ Em E) as (r & Er & Hr).
    exists r, (off o' (off o s)). split; [exact Er|]. split; [exact Hr|]. exists o'. reflexivity. }
  pose proof (sendPacket_spec sent J J (λ r, pk_inum r = blocks_lookup (a_data p) nm) Hstep
    (λ n t H, H) (λ n t H, H) net s Hnet (ex_intro _ (foff (fd s)) (eq_sym (off_self s)))) as Hs.
  unfold mbind, M_bind. destruct (sendPacket net sent s) as [[r s']| | | |]; [|exact Hs..].
  destruct Hs as (q & -> & Hq & HJ0 & Hans). exact (conj Hq (conj Hans HJ0)).
Qed.
End serve.

(** [MFS_Init] reserves the size of a pointer for the host name instead
    of the name's length: a name of eight bytes or more is written past the
    end of the allocation, shorter ones are stored. *)
Theorem MFS_Init_overflow `{Uninit} h nm port c :
  cstr h = Some nm → 0 ≤ port →
  MFS_Init (Some h) port c =
  if decide (length nm < 8)%nat
  then Ok (0, mkClient true (nm ++ 0 :: drop (length nm + 1) (junk "MFS_Init.malloc" SIZEOF_PTR)) port)
  else Undef.
Proof.
  intros Hc Hp. unfold MFS_Init. rewrite (proj2 (Z.ltb_ge _ _)) by lia.
  unfold strcpy. rewrite Hc. cbn [mbind option_bind].
  assert (length (junk "MFS_Init.malloc" SIZEOF_PTR) = 8%nat) as Hl by apply length_junk.
  rewrite Hl. case_decide; case_decide; try lia; [|done].
  unfold need. rewrite bind_ret. unfold splice. rewrite take_0, Hl. cbn [app].
  rewrite take_ge by (len; simpl; lia). rewrite length_app, <-app_assoc. done.
Qed.
