(* ===== verification/LfsWitness.v ===== *)
(** The theorems about the file server at concrete inputs: a freshly
    formatted image and one with a file in its root. *)

From S2P Require Import Prelude CString UnixFile Lfs Mfs LfsSpec LfsProofs LfsCreat.
From S2P Require Import LfsOps LfsTheorems LfsStart LfsUnlink LfsFaults MfsProofs.

#[local] Opaque fresh_dir dots_dir dir_lookup dec_dir root_dir creat_server lookup_server
  unlink_server write_server read_server stat_server.

(** Uninitialised memory happens to hold zeroes. *)
#[local] Instance zeroes : Uninit := λ _ _, 0.

Lemma first_free_intro l k i :
  l !! k = Some (-1) → (∀ j, (j < k)%nat → l !! j ≠ Some (-1)) →
  first_free l i = Some (i + Z.of_nat k).
Proof.
  revert k i. induction l as [|x l IH]; intros k i Hk Hj; [done|]. cbn [first_free].
  destruct k as [|k].
  - injection Hk as ->. cbn. f_equal. lia.
  - destruct (Z.eqb_spec x (-1)) as [->|Hx]; [by destruct (Hj 0%nat); [lia|]|].
    rewrite (IH k); [f_equal; lia|done|]. intros j Hjk. apply (Hj (S j)). lia.
Qed.

Definition name_a : list Z := zstr "a".

Lemma name_a_facts :
  cstr (name_a ++ [0]) = Some name_a ∧ Forall is_byte (name_a ++ [0]) ∧ Forall is_byte name_a ∧
  (length name_a < NAMELEN)%nat ∧ nonul name_a ∧
  name_a ≠ zstr "." ∧ name_a ≠ zstr ".." ∧ name_a ≠ zstr "DNE".
Proof.
  split; [reflexivity|]. split; [repeat constructor; done|]. split; [repeat constructor; done|].
  split; [unfold NAMELEN; cbn; lia|]. split; [repeat constructor; done|]. done.
Qed.

Lemma root_site : creat_site (a_data root_node) 0 = Some (0%nat, false, 2%nat).
Proof.
  cbn [a_data root_node creat_site]. rewrite root_dec.
  destruct root_dir_spec as (_ & _ & H0 & H1 & H2).
  rewrite (first_free_intro _ 2 0); [done|apply H2; unfold NDIRENT; lia|].
  intros [|[|j]] Hj; [rewrite H0; done|rewrite H1; done|lia].
Qed.

Lemma fresh_free : first_free (imap fresh_server) 0 = Some 1.
Proof.
  destruct fresh_server_facts as (_ & _ & _ & _ & _ & ->).
  apply (first_free_intro _ 1 0); [done|]. intros [|j] Hj; [done|lia].
Qed.

Lemma root_absent_a : absent root_node name_a.
Proof. apply root_absent; apply name_a_facts. Qed.

Lemma creat_then_lookup_witness :
  ∃ s', creat_server 0 MFS_DIRECTORY (name_a ++ [0]) fresh_server = Ok (0, s') ∧ lfs_ok s'.
Proof.
  destruct fresh_server_facts as (Hok & Hcr & H0 & _ & Hn & _).
  destruct name_a_facts as (A1 & A2 & _ & A4 & _).
  destruct (creat_then_lookup fresh_server 0 MFS_DIRECTORY root_node name_a (name_a ++ [0]) 1
    Hok Hcr H0 eq_refl A1 A2 A4) as (s' & E & Hok' & _).
  - rewrite Hn. lia.
  - apply root_absent_a.
  - reflexivity.
  - apply fresh_free.
  - rewrite root_site. discriminate.
  - exists s'. split; [exact E|exact Hok'].
Defined.

Lemma restart_recovers_witness :
  lfs_ok fresh_server ∧
  start_server (Some (fd fresh_server)) false = Ok (Some (off (4 * MAXINODES + 4) fresh_server)).
Proof.
  destruct fresh_server_facts as (Hok & Hcr & _).
  split; [exact Hok|]. apply (restart_recovers fresh_server false Hok Hcr).
Defined.

Lemma stat_free_inode_succeeds_witness :
  ∃ m' s', stat_server 5 (mkStat 0 0) fresh_server = Ok ((0, m'), s').
Proof.
  apply (stat_free_inode_succeeds fresh_server 5 (mkStat 0 0)).
  - unfold MAXINODES. lia.
  - destruct fresh_server_facts as (_ & _ & _ & _ & _ & ->). reflexivity.
Defined.

Lemma creat_bad_type_leaves_entry_witness :
  ∃ s' o, creat_server 0 7 (name_a ++ [0]) fresh_server = Ok (-1, s') ∧
    lookup_server 0 (name_a ++ [0]) s' = Ok (1, off o s') ∧ abs s' 1 = None.
Proof.
  destruct fresh_server_facts as (Hok & Hcr & H0 & _ & Hn & _).
  destruct name_a_facts as (A1 & A2 & _ & A4 & _).
  apply (creat_bad_type_leaves_entry fresh_server 0 7 root_node name_a (name_a ++ [0]) 1
    Hok H0 eq_refl A1 A2 A4).
  - rewrite Hn. lia.
  - apply root_absent_a.
  - reflexivity.
  - apply fresh_free.
  - rewrite root_site. discriminate.
Defined.

(** ** An image with one file *)

#[local] Notation dir_with_a := (dir_put root_dir 2 1 name_a).

Lemma dir_with_a_spec :
  dec_dir (enc_dir dir_with_a) = dir_with_a ∧ inums dir_with_a !! 2%nat = Some 1 ∧
  slot_name dir_with_a 2 = Some name_a ∧
  ∀ i, (i < NDIRENT)%nat → slot_name dir_with_a i = Some name_a → i = 2%nat.
Proof.
  destruct root_dir_spec as (Hw & Hs & _). destruct name_a_facts as (_ & _ & A3 & A4 & A5 & A6 & A7 & A8).
  assert (dir_ok root_dir) as Hok.
  { apply dir_wf_ok; [exact Hw|]. intros j Hj. rewrite Hs by exact Hj. repeat case_decide; by eexists. }
  destruct (dir_put_ok root_dir 2 1 name_a Hw Hok) as (Hw' & _ & Hs');
    [unfold is_i32; lia|unfold NDIRENT; lia|exact A5|exact A4|exact A3|].
  split; [apply dir_wf_enc, Hw'|]. split.
  { unfold dir_put. cbn [inums]. apply list_lookup_insert_eq.
    rewrite (ds_inums _ (dw_shape _ Hw)). unfold NDIRENT. lia. }
  split.
  - rewrite Hs' by (unfold NDIRENT; lia). by rewrite decide_True.
  - intros i Hi. rewrite Hs' by exact Hi. case_decide; [done|]. rewrite Hs by exact Hi.
    repeat case_decide; congruence.
Qed.

#[local] Opaque enc_dir dir_put.

(** [spec_creat] when the entry goes into a block the directory has. *)
Lemma spec_creat_slot σ pinum type inum nm p b e bs d :
  σ pinum = Some p → creat_site (a_data p) 0 = Some (b, false, e) → a_data p !! b = Some (Some bs) →
  dec_dir bs = d →
  spec_creat σ pinum type inum nm = Some (λ j,
    if decide (j = inum) then
      Some (ANode type (if type =? MFS_DIRECTORY then BLOCKSIZE else 0) (alloc_data pinum inum type))
    else if decide (j = pinum) then
      Some (ANode MFS_DIRECTORY (a_size p)
        (<[b:=Some (enc_dir (dir_put d e inum nm))]> (a_data p)))
    else σ j).
Proof.
  intros Hp Hs Hb <-. unfold spec_creat. rewrite Hp. cbn [mbind option_bind]. rewrite Hs. cbn [mbind option_bind].
  rewrite Hb. reflexivity.
Qed.

Lemma one_file :
  ∃ s, lfs_ok s ∧ cr_ok s ∧ next_block s ≤ 11 ∧
    abs s 0 = Some (ANode MFS_DIRECTORY BLOCKSIZE (Some (enc_dir dir_with_a) :: replicate 13 None)) ∧
    abs s 1 = Some (ANode MFS_REGULAR_FILE 0 (replicate 14 None)).
Proof.
  destruct fresh_server_facts as (Hok & Hcr & H0 & _ & Hn & _).
  destruct name_a_facts as (A1 & A2 & _ & A4 & _).
  pose proof (spec_creat_slot (abs fresh_server) 0 MFS_REGULAR_FILE 1 name_a root_node 0 2
    (enc_dir root_dir) root_dir H0 root_site eq_refl root_dec) as Hσ.
  destruct (creat_server_creates fresh_server 0 MFS_REGULAR_FILE root_node name_a (name_a ++ [0]) 1 _
    Hok Hcr H0 eq_refl A1 A2 A4 ltac:(rewrite Hn; lia) (absent_lookup _ _ root_absent_a) eq_refl
    fresh_free Hσ) as (s' & _ & Hok' & Hcr' & Hn' & Habs).
  exists s'. split; [exact Hok'|]. split; [exact Hcr'|]. split; [rewrite Hn in Hn'; lia|]. split.
  - rewrite Habs. rewrite decide_False, decide_True by done. reflexivity.
  - rewrite Habs. by rewrite decide_True.
Qed.

Lemma write_then_read_witness :
  ∃ s s', lfs_ok s ∧ write_server 1 (replicate 4096 7) 3 s = Ok (0, s') ∧
    ∃ o, read_server 1 (replicate 4096 0) 3 s' = Ok ((0, replicate 4096 7), off o s').
Proof.
  destruct one_file as (s & Hok & Hcr & Hn & _ & H1).
  destruct (write_then_read s 1 _ 3 (replicate 4096 7) (replicate 4096 0) Hok Hcr H1 eq_refl)
    as (s' & E & _ & _ & Hr & _); [lia|by rewrite length_replicate|by rewrite length_replicate|lia|].
  exists s, s'. split; [exact Hok|]. split; [exact E|exact Hr].
Defined.

Lemma unlink_removes_witness :
  ∃ s s', lfs_ok s ∧ unlink_server 0 (name_a ++ [0]) s = Ok (0, s') ∧ abs s' 1 = None.
Proof.
  destruct one_file as (s & Hok & Hcr & Hn & H0 & H1).
  destruct name_a_facts as (A1 & A2 & _ & _ & _ & _ & _ & A8).
  destruct dir_with_a_spec as (D1 & D2 & D3 & D4).
  destruct (unlink_removes s 0 1 _ (ANode MFS_REGULAR_FILE 0 (replicate 14 None)) name_a (name_a ++ [0]) (enc_dir dir_with_a) 2
    Hok Hcr H0 eq_refl A1 A2 A8 eq_refl) as (s' & E & _ & _ & Hgone & _).
  - unfold NDIRENT. lia.
  - rewrite D1. exact D3.
  - rewrite D1. exact D4.
  - rewrite D1. exact D2.
  - lia.
  - exact H1.
  - left. reflexivity.
  - exists s, s'. split; [exact Hok|]. split; [exact E|exact Hgone].
Defined.

(** ** Over the network: the first reply is lost, the second arrives *)

Definition flaky : network := mkNet 3 0 true [mkRound true None; mkRound true (Some 0%nat)].
Definition ready : client := mkClient true (zstr "host") 10000.

Lemma flaky_up : net_up flaky.
Proof. split; [reflexivity|]. split; [discriminate|reflexivity]. Qed.

Lemma MFS_Write_applied_once_witness :
  ∃ s, lfs_ok s ∧ match MFS_Write ready flaky 1 (replicate 4096 7) 3 s with
    | Ok (rc, s') => rc = 0 | _ => False end.
Proof.
  destruct one_file as (s & Hok & Hcr & Hn & _ & H1). exists s. split; [exact Hok|].
  pose proof (MFS_Write_applied_once ready flaky s 1 _ 3 (replicate 4096 7) eq_refl flaky_up
    Hok Hcr H1 eq_refl ltac:(lia) ltac:(by rewrite length_replicate) ltac:(cbn; lia)) as Hw.
  destruct (MFS_Write ready flaky 1 (replicate 4096 7) 3 s) as [[rc s']|msg| | |];
    [exact (proj1 Hw)|exact Hw|discriminate Hw|exact Hw|exact Hw].
Defined.

Lemma MFS_Creat_applied_once_witness :
  match MFS_Creat ready flaky 0 MFS_REGULAR_FILE (Some (name_a ++ [0])) fresh_server with
  | Ok (rc, s') => rc = 0 | _ => False end.
Proof.
  destruct fresh_server_facts as (Hok & Hcr & H0 & _ & Hn & _).
  destruct name_a_facts as (A1 & A2 & _ & A4 & _).
  pose proof (spec_creat_slot (abs fresh_server) 0 MFS_REGULAR_FILE 1 name_a root_node 0 2
    (enc_dir root_dir) root_dir H0 root_site eq_refl root_dec) as Hσ.
  pose proof (MFS_Creat_applied_once ready flaky fresh_server 0 MFS_REGULAR_FILE root_node name_a
    (name_a ++ [0]) 1 _ eq_refl flaky_up Hok Hcr H0 eq_refl A1 A2 ltac:(rewrite Hn; lia)
    root_absent_a eq_refl fresh_free ltac:(lia) Hσ) as Hc.
  destruct (MFS_Creat ready flaky 0 MFS_REGULAR_FILE (Some (name_a ++ [0])) fresh_server)
    as [[rc s']|msg| | |]; [exact (proj1 Hc)|exact Hc|discriminate Hc|exact Hc|exact Hc].
Defined.

Lemma MFS_Lookup_agrees_witness :
  match MFS_Lookup ready flaky 0 (Some (name_a ++ [0])) fresh_server with
  | Ok (rc, s') => rc = -1 | _ => False end.
Proof.
  destruct fresh_server_facts as (Hok & Hcr & H0 & _ & Hn & _).
  destruct name_a_facts as (A1 & A2 & _ & A4 & _).
  pose proof (MFS_Lookup_agrees ready flaky fresh_server 0 root_node name_a (name_a ++ [0])
    eq_refl flaky_up Hok H0 eq_refl A1 A2 ltac:(cbn; lia)) as Hl.
  rewrite (absent_lookup _ _ root_absent_a) in Hl.
  destruct (MFS_Lookup ready flaky 0 (Some (name_a ++ [0])) fresh_server)
    as [[rc s']|msg| | |]; [exact (proj1 Hl)|exact Hl|discriminate Hl|exact Hl|exact Hl].
Defined.

Lemma MFS_Init_overflow_witness :
  MFS_Init (Some (zstr "localhost" ++ [0])) 10000 (mkClient false [] 0) = Undef.
Proof.
  rewrite (MFS_Init_overflow (zstr "localhost" ++ [0]) (zstr "localhost") 10000
    (mkClient false [] 0) eq_refl ltac:(lia)).
  reflexivity.
Defined.
