(* ===== verification/Pipe.v ===== *)
(** Pipes ([xv6/kernel/pipe.c]).

    The body of each call between [acquire] and the [release] or [sleep] that
    ends it runs under the pipe's lock, so it is one atomic step: a step either
    returns or goes to sleep, and a sleeping call is resumed where it stopped.
    The channels passed to [wakeup] are part of a step's result. *)

From S2P Require Import Prelude.

Definition PIPESIZE : Z := 512.

Record pipe := mkPipe {
  p_data : list Z;       (* char data[PIPESIZE] *)
  p_nread : Z;           (* uint *)
  p_nwrite : Z;          (* uint *)
  p_readopen : Z;
  p_writeopen : Z
}.

(** The channels [&p->nread] and [&p->nwrite]. *)
Inductive chan := ChNread | ChNwrite.

(** How a step of a call ends: with a return value, or asleep on a channel
    with [i] bytes transferred. *)
Inductive pres := PRet (rc : Z) | PSleep (c : chan) (i : Z).

(** The fields [pipealloc] sets on a fresh page. *)
Definition pipe_init (page : list Z) : pipe := mkPipe (take (Z.to_nat PIPESIZE) page) 0 0 1 1.

(** The new pipe, whom to wake, and whether the page is freed. *)
Definition pipeclose (p : pipe) (writable : Z) : pipe * chan * bool :=
  let '(p, c) :=
    if ctrue writable
    then (mkPipe (p_data p) (p_nread p) (p_nwrite p) (p_readopen p) 0, ChNread)
    else (mkPipe (p_data p) (p_nread p) (p_nwrite p) 0 (p_writeopen p), ChNwrite) in
  (p, c, (p_readopen p =? 0) && (p_writeopen p =? 0)).

(** [p->data[p->nwrite++ % PIPESIZE] = c] *)
Definition pipe_put (p : pipe) (c : Z) : pipe :=
  mkPipe (<[Z.to_nat (p_nwrite p `mod` PIPESIZE):=c]> (p_data p)) (p_nread p)
    (u32 (p_nwrite p + 1)) (p_readopen p) (p_writeopen p).
(** [p->data[p->nread++ % PIPESIZE]] *)
Definition pipe_get (p : pipe) : Z * pipe :=
  (default 0 (p_data p !! Z.to_nat (p_nread p `mod` PIPESIZE)),
   mkPipe (p_data p) (u32 (p_nread p + 1)) (p_nwrite p) (p_readopen p) (p_writeopen p)).

Definition pipe_full (p : pipe) : bool := p_nwrite p =? u32 (p_nread p + PIPESIZE).

(** [pipewrite] from byte [i] on, [addr] being the bytes from there: until it
    returns or sleeps. *)
Fixpoint pipewrite (p : pipe) (killed : bool) (addr : list Z) (i n : Z) : pipe * list chan * pres :=
  match addr with
  | [] => (p, [ChNread], PRet n)
  | c :: addr' =>
      if pipe_full p then
        if (p_readopen p =? 0) || killed then (p, [], PRet (-1))
        else (p, [ChNread], PSleep ChNwrite i)
      else pipewrite (pipe_put p c) killed addr' (i + 1) n
  end.

(** The copy loop of [piperead]: the bytes it gives out. *)
Fixpoint piperead_copy (p : pipe) (n : nat) : pipe * list Z :=
  match n with
  | O => (p, [])
  | S n' =>
      if p_nread p =? p_nwrite p then (p, [])
      else let '(c, p) := pipe_get p in
           let '(p, bs) := piperead_copy p n' in (p, c :: bs)
  end.

Definition piperead (p : pipe) (killed : bool) (n : Z) : pipe * list chan * list Z * pres :=
  if (p_nread p =? p_nwrite p) && ctrue (p_writeopen p) then
    if killed then (p, [], [], PRet (-1)) else (p, [], [], PSleep ChNread 0)
  else
    let '(p, bs) := piperead_copy p (Z.to_nat n) in
    (p, [ChNwrite], bs, PRet (Z.of_nat (length bs))).

(** ** The queue a pipe holds *)

Record pipe_ok (p : pipe) : Prop := {
  po_data : length (p_data p) = Z.to_nat PIPESIZE;
  po_nread : is_u32 (p_nread p);
  po_nwrite : is_u32 (p_nwrite p);
  po_room : u32 (p_nwrite p - p_nread p) ≤ PIPESIZE
}.

Definition pipe_count (p : pipe) : Z := u32 (p_nwrite p - p_nread p).
Definition pipe_contents (p : pipe) : list Z :=
  (λ k, default 0 (p_data p !! Z.to_nat ((p_nread p + k) `mod` PIPESIZE))) <$> seqZ 0 (pipe_count p).

Lemma pipe_count_range p : pipe_ok p → 0 ≤ pipe_count p ≤ PIPESIZE.
Proof.
  intros [_ _ _ Hr]. unfold pipe_count. pose proof (u32_range (p_nwrite p - p_nread p)).
  unfold is_u32 in *. lia.
Qed.

Lemma length_pipe_contents p : pipe_ok p → length (pipe_contents p) = Z.to_nat (pipe_count p).
Proof. intros. unfold pipe_contents. by rewrite length_fmap, length_seqZ. Qed.

(** The counters wrap at 2^32, a multiple of the buffer's size. *)
Lemma u32_mod_pipesize z : u32 z `mod` PIPESIZE = z `mod` PIPESIZE.
Proof.
  unfold u32, PIPESIZE. rewrite (Z.div_mod z 4294967296) at 2 by lia.
  replace (4294967296 * (z `div` 4294967296) + z `mod` 4294967296) with
    (z `mod` 4294967296 + (8388608 * (z `div` 4294967296)) * 512) by lia.
  by rewrite Z.mod_add by lia.
Qed.

Lemma u32_sub_mod a b : u32 (u32 a - b) = u32 (a - b).
Proof. unfold u32. by rewrite Zminus_mod_idemp_l. Qed.
Lemma u32_sub_mod_r a b : u32 (a - u32 b) = u32 (a - b).
Proof. unfold u32. by rewrite Zminus_mod_idemp_r. Qed.

Lemma pipe_full_count p : pipe_ok p → pipe_full p = (pipe_count p =? PIPESIZE).
Proof.
  intros [_ Hr Hw _]. unfold pipe_full, pipe_count, u32, is_u32, PIPESIZE in *.
  destruct (Z.eqb_spec (p_nwrite p) ((p_nread p + 512) `mod` 4294967296)) as [E|E];
    destruct (Z.eqb_spec ((p_nwrite p - p_nread p) `mod` 4294967296) 512) as [E'|E']; try done; exfalso.
  - apply E'. rewrite E, Zminus_mod_idemp_l. by replace (p_nread p + 512 - p_nread p) with 512 by lia.
  - apply E. rewrite <-E', Zplus_mod_idemp_r.
    replace (p_nread p + (p_nwrite p - p_nread p)) with (p_nwrite p) by lia. by rewrite Z.mod_small.
Qed.

Lemma pipe_empty_count p : pipe_ok p → (p_nread p =? p_nwrite p) = (pipe_count p =? 0).
Proof.
  intros [_ Hr Hw _]. unfold pipe_count, u32, is_u32 in *.
  destruct (Z.eqb_spec (p_nread p) (p_nwrite p)) as [E|E].
  - by rewrite E, Z.sub_diag.
  - destruct (Z.eqb_spec ((p_nwrite p - p_nread p) `mod` 4294967296) 0) as [E'|E']; [|done].
    apply Z.mod_divide in E' as [k Hk]; lia.
Qed.

Lemma pipe_put_spec p c :
  pipe_ok p → pipe_count p < PIPESIZE →
  pipe_ok (pipe_put p c) ∧ pipe_count (pipe_put p c) = pipe_count p + 1 ∧
  pipe_contents (pipe_put p c) = pipe_contents p ++ [c].
Proof.
  intros Hok Hc. pose proof (pipe_count_range p Hok) as Hr. pose proof Hok as [Hd Hnr Hnw Hroom].
  assert (pipe_count (pipe_put p c) = pipe_count p + 1) as Hcount.
  { unfold pipe_count. cbn [p_nwrite p_nread pipe_put]. rewrite u32_sub_mod.
    replace (p_nwrite p + 1 - p_nread p) with (p_nwrite p - p_nread p + 1) by lia.
    change (u32 (p_nwrite p - p_nread p + 1) = u32 (p_nwrite p - p_nread p) + 1).
    unfold pipe_count, u32, PIPESIZE in *. rewrite <-Zplus_mod_idemp_l. apply Z.mod_small. lia. }
  split_and!; [|done|].
  - constructor; cbn [p_data p_nread p_nwrite pipe_put]; [by rewrite length_insert|done|apply u32_range|].
    change (pipe_count (pipe_put p c) ≤ PIPESIZE). lia.
  - unfold pipe_contents. rewrite Hcount.
    rewrite seqZ_app by lia. rewrite fmap_app, Z.add_0_l.
    rewrite (seqZ_cons (pipe_count p)), (seqZ_nil (Z.succ (pipe_count p))) by lia. cbn [fmap list_fmap].
    assert ((p_nread p + pipe_count p) `mod` PIPESIZE = p_nwrite p `mod` PIPESIZE) as Hend.
    { unfold pipe_count. rewrite <-(u32_mod_pipesize (p_nread p + _)).
      f_equal. unfold u32, is_u32 in *. rewrite Zplus_mod_idemp_r.
      replace (p_nread p + (p_nwrite p - p_nread p)) with (p_nwrite p) by lia. by apply Z.mod_small. }
    assert (∀ z, Z.to_nat (z `mod` PIPESIZE) < length (p_data p))%nat as Hin.
    { intros z. rewrite Hd. unfold PIPESIZE. pose proof (Z.mod_pos_bound z 512). lia. }
    f_equal; cbn [p_nread p_data pipe_put].
    + apply list_fmap_ext. intros i k Hk. apply lookup_seqZ in Hk as [-> Hk]. rewrite Z.add_0_l.
      rewrite list_lookup_insert_ne; [done|]. intros E.
      apply Z2Nat.inj in E; [|apply Z.mod_pos_bound; done..].
      rewrite <-Hend in E. unfold PIPESIZE in *.
      pose proof (Z.div_mod (p_nread p + Z.of_nat i) 512). pose proof (Z.div_mod (p_nread p + pipe_count p) 512).
      lia.
    + rewrite Hend, list_lookup_insert_eq by apply Hin. done.
Qed.

Lemma pipe_get_spec p :
  pipe_ok p → 0 < pipe_count p →
  pipe_ok (pipe_get p).2 ∧ pipe_contents p = (pipe_get p).1 :: pipe_contents (pipe_get p).2.
Proof.
  intros Hok Hc. pose proof (pipe_count_range p Hok) as Hr. pose proof Hok as [Hd Hnr Hnw Hroom].
  assert (pipe_count (pipe_get p).2 = pipe_count p - 1) as Hcount.
  { unfold pipe_count. cbn [p_nwrite p_nread pipe_get snd]. rewrite u32_sub_mod_r.
    replace (p_nwrite p - (p_nread p + 1)) with (p_nwrite p - p_nread p - 1) by lia.
    unfold pipe_count, u32, PIPESIZE in *. rewrite <-Zminus_mod_idemp_l. apply Z.mod_small. lia. }
  split.
  - constructor; cbn [p_data p_nread p_nwrite pipe_get snd]; [done|apply u32_range|done|].
    change (pipe_count (pipe_get p).2 ≤ PIPESIZE). lia.
  - unfold pipe_contents. rewrite Hcount. rewrite (seqZ_cons 0 (pipe_count p)) by lia.
    cbn [fmap list_fmap]. rewrite Z.add_0_r. cbn [pipe_get fst]. f_equal.
    replace (Z.pred (pipe_count p)) with (pipe_count p - 1) by lia.
    change (Z.succ 0) with (1 + 0). rewrite <-(fmap_add_seqZ 1). cbn [p_nread p_data snd].
    rewrite <-list_fmap_compose. apply list_fmap_ext. intros i k _. unfold compose.
    assert ((p_nread p + (1 + k)) `mod` PIPESIZE = (u32 (p_nread p + 1) + k) `mod` PIPESIZE) as ->; [|done].
    rewrite <-(Zplus_mod_idemp_l (u32 _)), u32_mod_pipesize, Zplus_mod_idemp_l. f_equal. lia.
Qed.

(** ** What the calls do to the queue *)

(** A write appends to the queue as many of its bytes as there is room
    for. It returns [n] when all fit; otherwise it fails if the reader is gone
    or the process was killed, and else sleeps at the first byte that did not
    fit, with the queue full and the readers woken. *)
Theorem pipewrite_spec p killed addr i n :
  pipe_ok p →
  let k := Nat.min (length addr) (Z.to_nat (PIPESIZE - pipe_count p)) in
  let '(p', woken, res) := pipewrite p killed addr i n in
  pipe_ok p' ∧ pipe_contents p' = pipe_contents p ++ take k addr ∧
  p_readopen p' = p_readopen p ∧ p_writeopen p' = p_writeopen p ∧
  if decide (length addr ≤ Z.to_nat (PIPESIZE - pipe_count p))%nat
  then res = PRet n ∧ woken = [ChNread]
  else pipe_full p' = true ∧
    if (p_readopen p =? 0) || killed then res = PRet (-1)
    else res = PSleep ChNwrite (i + Z.of_nat k) ∧ woken = [ChNread].
Proof.
  revert p i. induction addr as [|c addr IH]; intros p i Hok; cbn [pipewrite length].
  - cbn. rewrite app_nil_r. rewrite decide_True by lia. done.
  - pose proof (pipe_count_range p Hok) as Hr. rewrite (pipe_full_count p Hok).
    destruct (Z.eqb_spec (pipe_count p) PIPESIZE) as [E|E].
    + rewrite E, Z.sub_diag. assert (pipe_full p = true) as Hf by by rewrite (pipe_full_count p Hok), E.
      destruct ((p_readopen p =? 0) || killed) eqn:Ek; rewrite decide_False by lia;
        cbn [Z.to_nat Nat.min take]; rewrite app_nil_r, ?Z.add_0_r; done.
    + destruct (pipe_put_spec p c Hok ltac:(lia)) as (Hok' & Hc' & Hcont).
      specialize (IH (pipe_put p c) (i + 1) Hok'). cbv zeta in IH.
      destruct (pipewrite (pipe_put p c) killed addr (i + 1) n) as [[p' w] res].
      rewrite Hc', Hcont in IH. cbn [p_readopen p_writeopen pipe_put] in IH.
      destruct IH as (H1 & H2 & H3 & H4 & H5).
      replace (Z.to_nat (PIPESIZE - (pipe_count p + 1))) with
        (pred (Z.to_nat (PIPESIZE - pipe_count p))) in * by lia.
      assert (Z.to_nat (PIPESIZE - pipe_count p) ≠ 0)%nat as Hnz by lia.
      destruct (Z.to_nat (PIPESIZE - pipe_count p)) as [|room]; [done|]. cbn [pred Nat.min take] in *.
      rewrite <-app_assoc in H2. split_and!; [done|done|done|done|].
      destruct (decide (length addr ≤ room)%nat) as [El|El].
      * by rewrite decide_True by lia.
      * rewrite decide_False by lia. destruct H5 as [Hf H5]. split; [done|].
        destruct (_ || _); [done|]. replace (i + Z.of_nat (S (Nat.min (length addr) room))) with
          (i + 1 + Z.of_nat (Nat.min (length addr) room)) by lia. done.
Qed.

Lemma piperead_copy_spec n : ∀ p,
  pipe_ok p →
  let '(p', bs) := piperead_copy p n in
  pipe_ok p' ∧ pipe_contents p = bs ++ pipe_contents p' ∧
  length bs = Nat.min n (Z.to_nat (pipe_count p)) ∧
  p_readopen p' = p_readopen p ∧ p_writeopen p' = p_writeopen p.
Proof.
  induction n as [|n IH]; intros p Hok; cbn [piperead_copy]; [done|].
  pose proof (pipe_count_range p Hok) as Hr. rewrite (pipe_empty_count p Hok).
  destruct (Z.eqb_spec (pipe_count p) 0) as [E|E].
  - split_and!; try done. rewrite E. done.
  - destruct (pipe_get_spec p Hok ltac:(lia)) as (Hok' & Hcont).
    destruct (pipe_get p) as [c q] eqn:Eg. cbn [fst snd] in *.
    specialize (IH q Hok'). destruct (piperead_copy q n) as [p' bs].
    destruct IH as (H1 & H2 & H3 & H4 & H5).
    assert (pipe_contents p = c :: bs ++ pipe_contents p') as Hc by by rewrite Hcont, H2.
    assert (Z.to_nat (pipe_count p) = S (Z.to_nat (pipe_count q))) as Hcnt.
    { rewrite <-!length_pipe_contents by done. by rewrite Hcont. }
    unfold pipe_get in Eg. injection Eg as _ <-. split_and!; [done|done| |done|done].
    cbn [length]. rewrite H3, Hcnt. lia.
Qed.

(** A read takes the oldest bytes of the queue, as many as it asks for or
    the queue holds, and wakes the writers; on an empty queue it sleeps while
    the writer is there, fails if the process was killed, and returns 0 once
    the writer is gone. *)
Theorem piperead_spec p killed n :
  pipe_ok p → 0 ≤ n →
  let '(p', woken, bs, res) := piperead p killed n in
  pipe_ok p' ∧ pipe_contents p = bs ++ pipe_contents p' ∧
  p_readopen p' = p_readopen p ∧ p_writeopen p' = p_writeopen p ∧
  if (pipe_count p =? 0) && ctrue (p_writeopen p)
  then bs = [] ∧ res = if killed then PRet (-1) else PSleep ChNread 0
  else Z.of_nat (length bs) = Z.min n (pipe_count p) ∧ woken = [ChNwrite] ∧
       res = PRet (Z.min n (pipe_count p)).
Proof.
  intros Hok Hn. unfold piperead. rewrite (pipe_empty_count p Hok).
  destruct ((pipe_count p =? 0) && ctrue (p_writeopen p)).
  - by destruct killed.
  - pose proof (piperead_copy_spec (Z.to_nat n) p Hok) as H.
    destruct (piperead_copy p (Z.to_nat n)) as [p' bs].
    destruct H as (H1 & H2 & H3 & H4 & H5). pose proof (pipe_count_range p Hok).
    assert (Z.of_nat (length bs) = Z.min n (pipe_count p)) as Hl by lia.
    split_and!; try done. by rewrite Hl.
Qed.

(** ** Every interleaving of calls is a queue *)

(** The pipe, the bytes stored so far and the bytes given out so far. *)
Record pstate := mkPs { ps_pipe : pipe; ps_in : list Z; ps_out : list Z }.

Inductive pipe_step : pstate → pstate → Prop :=
  | step_write p W R killed addr i n p' woken res :
      pipewrite p killed addr i n = (p', woken, res) →
      pipe_step (mkPs p W R)
        (mkPs p' (W ++ take (Z.to_nat (u32 (p_nwrite p' - p_nwrite p))) addr) R)
  | step_read p W R killed n p' woken bs res :
      0 ≤ n → piperead p killed n = (p', woken, bs, res) →
      pipe_step (mkPs p W R) (mkPs p' W (R ++ bs))
  | step_close p W R writable p' woken freed :
      pipeclose p writable = (p', woken, freed) →
      pipe_step (mkPs p W R) (mkPs p' W R).

Lemma pipewrite_nread p killed addr i n p' woken res :
  pipewrite p killed addr i n = (p', woken, res) → p_nread p' = p_nread p.
Proof.
  revert p i. induction addr as [|c addr IH]; intros p i; cbn [pipewrite]; [by intros [= <- _ _]|].
  destruct (pipe_full p); [destruct (_ || _); by intros [= <- _ _]|]. intros E. apply IH in E. done.
Qed.

Lemma pipe_init_ok page :
  (Z.to_nat PIPESIZE ≤ length page)%nat → pipe_ok (pipe_init page) ∧ pipe_contents (pipe_init page) = [].
Proof.
  intros Hl. split; [|done]. constructor; [|done..].
  cbn [p_data pipe_init]. rewrite length_take. lia.
Qed.

(** C17: along every sequence of writes, reads (complete, partial, failing or
    resumed after a sleep) and closes from a new pipe, the bytes given out
    followed by the bytes in the buffer are the bytes stored, in order: no byte
    is lost, duplicated or reordered, the buffer never holds more than 512
    bytes, and the 32-bit counters may wrap. *)
Theorem pipe_fifo page p W R :
  (Z.to_nat PIPESIZE ≤ length page)%nat →
  rtc pipe_step (mkPs (pipe_init page) [] []) (mkPs p W R) →
  W = R ++ pipe_contents p ∧ pipe_ok p.
Proof.
  intros Hl Hs.
  cut (∀ s, rtc pipe_step (mkPs (pipe_init page) [] []) s →
    ps_in s = ps_out s ++ pipe_contents (ps_pipe s) ∧ pipe_ok (ps_pipe s)).
  { intros H. exact (H _ Hs). }
  apply rtc_ind_r.
  { destruct (pipe_init_ok page Hl) as [Hok He]. cbn. by rewrite He. }
  intros s s' _ Hstep [HW Hok].
  destruct Hstep as [q W' R' killed addr i n p' woken res E|q W' R' killed n p' woken bs res Hn E|
    q W' R' writable p' woken freed E]; cbn [ps_in ps_out ps_pipe] in *.
  - pose proof (pipewrite_spec q killed addr i n Hok) as H. cbv zeta in H. rewrite E in H.
    destruct H as (Hok' & Hc & _). split; [|done].
    assert (u32 (p_nwrite p' - p_nwrite q) = pipe_count p' - pipe_count q) as Hk.
    { pose proof (pipe_count_range q Hok). pose proof (pipe_count_range p' Hok').
      assert (length (pipe_contents p') = length (pipe_contents q) +
        Nat.min (length addr) (Z.to_nat (PIPESIZE - pipe_count q)))%nat as Hlen.
      { rewrite Hc, length_app, length_take. lia. }
      rewrite !length_pipe_contents in Hlen by done.
      assert (0 ≤ pipe_count p' - pipe_count q) by lia.
      unfold pipe_count in *. rewrite (pipewrite_nread _ _ _ _ _ _ _ _ E) in *.
      rewrite <-(u32_small (u32 (p_nwrite p' - _) - _)) by (unfold is_u32, PIPESIZE in *; lia).
      rewrite u32_sub_mod, u32_sub_mod_r. f_equal. lia. }
    rewrite Hk, Hc, HW, app_assoc. f_equal.
    assert (length (pipe_contents p') = length (pipe_contents q) +
      length (take (Nat.min (length addr) (Z.to_nat (PIPESIZE - pipe_count q))) addr))%nat as Hlen.
    { by rewrite Hc, length_app. }
    rewrite !length_pipe_contents, length_take in Hlen by done.
    pose proof (pipe_count_range q Hok). pose proof (pipe_count_range p' Hok').
    replace (Z.to_nat (pipe_count p' - pipe_count q)) with
      (Nat.min (length addr) (Z.to_nat (PIPESIZE - pipe_count q))) by lia. done.
  - pose proof (piperead_spec q killed n Hok Hn) as H. rewrite E in H.
    destruct H as (Hok' & Hc & _). split; [|done]. by rewrite HW, Hc, app_assoc.
  - unfold pipeclose in E. destruct Hok as [H1 H2 H3 H4].
    destruct (ctrue writable); injection E as <- _ _; split; try done; by constructor.
Qed.

(** ** Concrete pipes *)

Definition blank_pipe : pipe := pipe_init (replicate 512 0).

Lemma blank_pipe_ok : pipe_ok blank_pipe.
Proof. apply pipe_init_ok. rewrite length_replicate. unfold PIPESIZE. lia. Qed.

Lemma pipewrite_spec_witness :
  ∃ p' w r, pipewrite blank_pipe false [104; 105] 0 2 = (p', w, r) ∧
    pipe_contents p' = [104; 105] ∧ r = PRet 2.
Proof.
  pose proof (pipewrite_spec blank_pipe false [104; 105] 0 2 blank_pipe_ok) as H.
  cbv zeta in H. destruct (pipewrite blank_pipe false [104; 105] 0 2) as [[p' w] r].
  exists p', w, r. destruct H as (_ & Hc & _ & _ & Hr). split; [reflexivity|].
  rewrite decide_True in Hr by (apply Nat.leb_le; vm_compute; reflexivity). split; [exact Hc|apply Hr].
Defined.

Lemma piperead_spec_witness :
  ∃ p' w bs, piperead blank_pipe false 5 = (p', w, bs, PSleep ChNread 0) ∧ bs = [].
Proof.
  pose proof (piperead_spec blank_pipe false 5 blank_pipe_ok ltac:(lia)) as H.
  destruct (piperead blank_pipe false 5) as [[[p' w] bs] r] eqn:E.
  destruct H as (_ & _ & _ & _ & Hb & Hr). exists p', w, bs.
  split; [by rewrite Hr|exact Hb].
Defined.

Lemma pipe_fifo_witness :
  ∃ p, rtc pipe_step (mkPs blank_pipe [] []) (mkPs p [7; 8; 9] [7; 8]) ∧
    [7; 8; 9] = [7; 8] ++ pipe_contents p.
Proof.
  set (p1 := (pipewrite blank_pipe false [7; 8; 9] 0 3).1.1).
  set (p2 := (piperead p1 false 2).1.1.1). exists p2.
  assert (rtc pipe_step (mkPs blank_pipe [] []) (mkPs p2 [7; 8; 9] [7; 8])) as Hs.
  { eapply rtc_l; [exact (step_write blank_pipe [] [] false [7; 8; 9] 0 3 p1 _ _ eq_refl)|].
    eapply rtc_l; [|apply rtc_refl].
    refine (step_read p1 [7; 8; 9] [] false 2 p2 _ [7; 8] _ _ _); [lia|vm_compute; reflexivity]. }
  split; [exact Hs|].
  apply (pipe_fifo (replicate 512 0) p2 [7; 8; 9] [7; 8]); [|exact Hs].
  rewrite length_replicate. unfold PIPESIZE. lia.
Defined.
