(* ===== verification/Kalloc.v ===== *)
(** The physical page allocator ([xv6/kernel/kalloc.c]): a free list threaded
    through the free pages themselves, over a byte-addressed memory. The lock
    makes each call one atomic step. *)

From S2P Require Import Prelude UnixFile.

Definition PGSIZE : Z := 4096.
Definition PHYSTOP : Z := 16777216.
Definition PGROUNDUP (sz : Z) : Z := Z.land (u32 (sz + PGSIZE - 1)) (u32 (Z.lnot (PGSIZE - 1))).

Record kmem_t := mkKmem { freelist : Z; kram : gmap Z Z }.

(** The 32-bit word at address [a]. *)
Definition word (m : gmap Z Z) (a : Z) : Z := le_val (bytes_at m a 4).

Section kalloc.
(** [end]: the first address after the kernel, from the linker. *)
Context (kend : Z).

Definition kfree (v : Z) : M kmem_t unit :=
  if negb (v `mod` PGSIZE =? 0) || (v <? kend) || (v >=? PHYSTOP) then panic "kfree" else
  (* memset(v, 1, PGSIZE) *)
  modify (λ k, mkKmem (freelist k) (put_bytes (kram k) v (replicate (Z.to_nat PGSIZE) 1)));;
  (* r->next = kmem.freelist; kmem.freelist = r *)
  modify (λ k, mkKmem (freelist k) (put_bytes (kram k) v (le_bytes 4 (freelist k))));;
  modify (λ k, mkKmem v (kram k)).

Definition kalloc : M kmem_t Z :=
  r ← gets freelist;
  when (ctrue r) (modify (λ k, mkKmem (word (kram k) r) (kram k)));;
  mret r.

Fixpoint kinit_loop (fuel : nat) (p : Z) : M kmem_t unit :=
  match fuel with
  | O => nofuel
  | S fuel' =>
      if p + PGSIZE <=? PHYSTOP then kfree p;; kinit_loop fuel' (p + PGSIZE) else mret tt
  end.
Definition kinit : M kmem_t unit :=
  kinit_loop (S (Z.to_nat (PHYSTOP `div` PGSIZE))) (PGROUNDUP kend).

(** ** The free list *)

Definition page (a : Z) : Prop := a `mod` PGSIZE = 0 ∧ kend ≤ a < PHYSTOP.

(** The list of pages the chain of [next] fields from [p] visits. *)
Fixpoint chain (m : gmap Z Z) (p : Z) (l : list Z) : Prop :=
  match l with
  | [] => p = 0
  | a :: l' => p = a ∧ chain m (word m a) l'
  end.

Record kmem_ok (k : kmem_t) (l : list Z) : Prop := {
  ko_chain : chain (kram k) (freelist k) l;
  ko_nodup : NoDup l;
  ko_pages : Forall page l
}.

(** A word that is written, and one away from a write. *)
Lemma word_put_same m a v : is_u32 v → word (put_bytes m a (le_bytes 4 v)) a = v.
Proof. intros. unfold word. rewrite bytes_at_put_same by (by rewrite length_le_bytes). rewrite le_val_le_bytes. by apply Z.mod_small. Qed.
Lemma word_put_other m o bs a : a + 4 ≤ o ∨ o + Z.of_nat (length bs) ≤ a → word (put_bytes m o bs) a = word m a.
Proof. intros. unfold word. by rewrite bytes_at_put_other. Qed.

Hypothesis Hend : 0 < kend.

Lemma page_apart a b : page a → page b → a ≠ b → a + PGSIZE ≤ b ∨ b + PGSIZE ≤ a.
Proof.
  unfold page, PGSIZE. intros [Ha _] [Hb _] Hne.
  apply Z.mod_divide in Ha as [i ->]; [|lia]. apply Z.mod_divide in Hb as [j ->]; [|lia]. nia.
Qed.

(** A write inside a page that is not on the list leaves the chain alone. *)
Lemma chain_frame m p l v o bs :
  Forall page l → page v → v ∉ l → v ≤ o → o + Z.of_nat (length bs) ≤ v + PGSIZE →
  chain m p l → chain (put_bytes m o bs) p l.
Proof.
  intros Hl Hv. revert p. induction Hl as [|a l Ha Hl IH]; intros p Hnin Ho Hb; [done|].
  intros [-> Hc]. split; [done|]. apply not_elem_of_cons in Hnin as [Hne Hnin].
  unfold word. rewrite bytes_at_put_other.
  - by apply IH.
  - assert (a ≠ v) as Hav by congruence.
    destruct (page_apart a v Ha Hv Hav); unfold PGSIZE in *; lia.
Qed.

Lemma chain_word m p a l : chain m p (a :: l) → p = a ∧ chain m (word m p) l.
Proof. by intros [-> ?]. Qed.

Lemma kfree_run k l v :
  kmem_ok k l → page v → v ∉ l →
  ∃ k', kfree v k = Ok (tt, k') ∧ kmem_ok k' (v :: l).
Proof.
  intros [Hc Hn Hp] Hv Hnin. pose proof Hv as [Hv1 Hv2]. unfold kfree.
  rewrite Hv1, (proj2 (Z.ltb_ge _ _)), Z.geb_leb, (proj2 (Z.leb_gt _ _)) by lia. cbn [Z.eqb negb orb].
  eexists. split; [reflexivity|].
  constructor; [|by constructor|by constructor]. cbn [freelist kram].
  assert (word (put_bytes (put_bytes (kram k) v (replicate (Z.to_nat PGSIZE) 1)) v
    (le_bytes 4 (freelist k))) v = freelist k) as Hw.
  { unfold word. rewrite bytes_at_put_same by (by rewrite length_le_bytes).
    apply u32_le_bytes. destruct l as [|a l]; [by rewrite Hc|]. destruct Hc as [-> _].
    apply Forall_cons_1 in Hp as [[_ ?] _]. unfold is_u32, PHYSTOP in *. lia. }
  split; [done|]. rewrite Hw.
  apply (chain_frame _ _ _ v); [done..|lia|rewrite length_le_bytes; unfold PGSIZE; lia|].
  apply (chain_frame _ _ _ v); [done..|lia|rewrite length_replicate; unfold PGSIZE; lia|done].
Qed.

Lemma kalloc_run k l :
  kmem_ok k l →
  ∃ k', kalloc k = Ok (hd 0 l, k') ∧ kmem_ok k' (tl l) ∧ kram k' = kram k.
Proof.
  intros [Hc Hn Hp]. unfold kalloc, gets, mbind, M_bind. destruct l as [|a l].
  - cbn in Hc. rewrite Hc. exists k. cbn. split; [done|]. split; [|done]. by constructor.
  - apply Forall_cons_1 in Hp as [[Ha1 Ha2] Hp]. apply chain_word in Hc as [-> Hc].
    unfold ctrue. rewrite (proj2 (Z.eqb_neq a 0)) by lia. cbn.
    eexists. split; [reflexivity|]. split; [|done]. apply NoDup_cons_1_2 in Hn. by constructor.
Qed.

(** ** Start-up *)

Definition pages_from (p : Z) (n : nat) : list Z := (λ i, p + PGSIZE * Z.of_nat i) <$> seq 0 n.

Lemma pages_from_S p n : pages_from p (S n) = p :: pages_from (p + PGSIZE) n.
Proof.
  unfold pages_from. cbn [seq fmap list_fmap]. f_equal; [lia|].
  rewrite <-seq_shift, <-list_fmap_compose. apply list_fmap_ext. intros i j _. unfold compose. lia.
Qed.

Lemma elem_of_pages_from p n a :
  a ∈ pages_from p n ↔ ∃ i, (i < n)%nat ∧ a = p + PGSIZE * Z.of_nat i.
Proof.
  unfold pages_from. rewrite list_elem_of_fmap. split; intros (i & H1 & H2).
  - apply elem_of_seq in H2. exists i. split; [lia|done].
  - exists i. split; [done|]. apply elem_of_seq. lia.
Qed.

Lemma kinit_loop_run n : ∀ fuel p k l,
  (n < fuel)%nat → page p ∨ n = O → p `mod` PGSIZE = 0 → kend ≤ p →
  (PHYSTOP - p) `div` PGSIZE = Z.of_nat n → kmem_ok k l →
  (∀ a, a ∈ l → a < p) →
  ∃ k', kinit_loop fuel p k = Ok (tt, k') ∧ kmem_ok k' (reverse (pages_from p n) ++ l).
Proof.
  induction n as [|n IH]; intros [|fuel] p k l Hf Hp Hm Hk Hn Hok Hl; try lia; cbn [kinit_loop].
  - rewrite (proj2 (Z.leb_gt _ _)).
    + by exists k.
    + unfold PGSIZE in *. pose proof (Z.div_mod (PHYSTOP - p) 4096). pose proof (Z.mod_pos_bound (PHYSTOP - p) 4096). lia.
  - destruct Hp as [Hp|]; [|done].
    assert (p + PGSIZE ≤ PHYSTOP) as Hle.
    { unfold PGSIZE in *. pose proof (Z.div_mod (PHYSTOP - p) 4096). pose proof (Z.mod_pos_bound (PHYSTOP - p) 4096). lia. }
    rewrite (proj2 (Z.leb_le _ _)) by done.
    destruct (kfree_run k l p Hok Hp) as (k1 & E1 & Hok1).
    { intros Hin. specialize (Hl p Hin). lia. }
    rewrite (bind_Ok _ _ _ _ _ E1).
    assert ((p + PGSIZE) `mod` PGSIZE = 0) as Hm'.
    { unfold PGSIZE in *. by rewrite <-Z.add_mod_idemp_r, Z.mod_same, Z.add_0_r by lia. }
    destruct (IH fuel (p + PGSIZE) k1 (p :: l)) as (k' & E' & Hok').
    + lia.
    + destruct n; [by right|left]. split; [done|]. split; [unfold PGSIZE; lia|].
      unfold PGSIZE in *. pose proof (Z.div_mod (PHYSTOP - p) 4096). pose proof (Z.mod_pos_bound (PHYSTOP - p) 4096). lia.
    + done.
    + unfold PGSIZE; lia.
    + replace (PHYSTOP - (p + PGSIZE)) with (PHYSTOP - p + (-1) * PGSIZE) by lia.
      rewrite Z.div_add by done. lia.
    + done.
    + intros a Ha. apply elem_of_cons in Ha as [->|Ha]; [unfold PGSIZE; lia|].
      specialize (Hl a Ha). unfold PGSIZE. lia.
    + exists k'. split; [done|]. rewrite pages_from_S, reverse_cons, <-app_assoc. exact Hok'.
Qed.

Lemma PGROUNDUP_spec z :
  0 ≤ z → z + PGSIZE < 4294967296 →
  PGROUNDUP z `mod` PGSIZE = 0 ∧ z ≤ PGROUNDUP z < z + PGSIZE.
Proof.
  intros H0 H1. unfold PGROUNDUP. rewrite u32_small by (unfold is_u32, PGSIZE in *; lia).
  change (u32 (Z.lnot (PGSIZE - 1))) with (Z.ldiff (Z.ones 32) (Z.ones 12)).
  assert (Z.land (z + PGSIZE - 1) (Z.ldiff (Z.ones 32) (Z.ones 12)) =
    (z + PGSIZE - 1) `div` PGSIZE * PGSIZE) as ->.
  { change PGSIZE with (2 ^ 12) at 3 4. rewrite <-Z.shiftl_mul_pow2, <-Z.shiftr_div_pow2 by lia.
    apply Z.bits_inj'. intros i Hi. rewrite Z.land_spec, Z.ldiff_spec, Z.shiftl_spec by lia.
    destruct (Z.ltb_spec i 12).
    - rewrite (Z.ones_spec_low 12) by lia. rewrite !andb_false_r.
      symmetry. apply Z.testbit_neg_r. lia.
    - rewrite (Z.ones_spec_high 12) by lia. rewrite Z.shiftr_spec by lia.
      replace (i - 12 + 12) with i by lia. rewrite andb_true_r.
      destruct (Z.ltb_spec i 32).
      + rewrite Z.ones_spec_low by lia. apply andb_true_r.
      + rewrite Z.ones_spec_high by lia. rewrite andb_false_r. symmetry.
        apply Z.bits_above_log2; [unfold PGSIZE in *; lia|].
        destruct (decide (z + PGSIZE - 1 = 0)) as [->|]; [cbn; lia|].
        apply Z.log2_lt_pow2; [unfold PGSIZE in *; lia|].
        apply Z.lt_le_trans with (2 ^ 32); [unfold PGSIZE in *; lia|].
        apply Z.pow_le_mono_r; lia. }
  split; [by apply Z.mod_mul|]. unfold PGSIZE.
  pose proof (Z.div_mod (z + 4096 - 1) 4096). pose proof (Z.mod_pos_bound (z + 4096 - 1) 4096). lia.
Qed.

(** Every whole page between the kernel's end and [PHYSTOP]. *)
Definition all_pages : list Z :=
  pages_from (PGROUNDUP kend) (Z.to_nat ((PHYSTOP - PGROUNDUP kend) `div` PGSIZE)).

Lemma kinit_run k :
  kend < PHYSTOP → freelist k = 0 →
  ∃ k', kinit k = Ok (tt, k') ∧ kmem_ok k' (reverse all_pages).
Proof.
  intros Hk Hf. destruct (PGROUNDUP_spec kend) as [Hm Hr]; [lia|unfold PGSIZE, PHYSTOP in *; lia|].
  unfold kinit, all_pages. set (p := PGROUNDUP kend) in *.
  assert (∃ q, p = q * 4096 ∧ 0 ≤ q ≤ 4096) as (q & Hq & Hqr).
  { unfold PGSIZE, PHYSTOP in *. pose proof (Z.div_mod p 4096). exists (p `div` 4096). lia. }
  assert ((PHYSTOP - p) `div` PGSIZE = 4096 - q) as Hdiv.
  { unfold PHYSTOP, PGSIZE. replace (16777216 - p) with ((4096 - q) * 4096) by lia.
    by apply Z.div_mul. }
  rewrite Hdiv. change (PHYSTOP `div` PGSIZE) with 4096.
  destruct (kinit_loop_run (Z.to_nat (4096 - q)) (S (Z.to_nat 4096)) p k []) as (k' & E & Hok).
  - lia.
  - destruct (decide (q = 4096)); [right; lia|left]. split; [done|]. unfold PHYSTOP. lia.
  - done.
  - lia.
  - lia.
  - constructor; [done|apply NoDup_nil_2|done].
  - intros a Ha. by apply elem_of_nil in Ha.
  - exists k'. rewrite app_nil_r in Hok. done.
Qed.

Lemma all_pages_elem a : kend < PHYSTOP → a ∈ all_pages ↔ page a.
Proof.
  intros Hk. destruct (PGROUNDUP_spec kend) as [Hm Hr]; [lia|unfold PGSIZE, PHYSTOP in *; lia|].
  unfold all_pages. set (p := PGROUNDUP kend) in *.
  assert (∃ q, p = q * 4096) as (q & Hq).
  { unfold PGSIZE in *. pose proof (Z.div_mod p 4096). exists (p `div` 4096). lia. }
  rewrite elem_of_pages_from. unfold page, PGSIZE, PHYSTOP in *. split.
  - intros (i & Hi & ->). split.
    + rewrite Hq. replace (q * 4096 + 4096 * Z.of_nat i) with ((q + Z.of_nat i) * 4096) by lia.
      by apply Z.mod_mul.
    + pose proof (Z.div_mod (16777216 - p) 4096). pose proof (Z.mod_pos_bound (16777216 - p) 4096). lia.
  - intros [Ha1 Ha2]. apply Z.mod_divide in Ha1 as [j ->]; [|done].
    exists (Z.to_nat (j - q)). split; [|lia].
    replace (16777216 - p) with ((4096 - q) * 4096) by lia. rewrite Z.div_mul by done. lia.
Qed.

(** ** Every sequence of calls *)

(** The allocator and the pages its clients hold. *)
Record kstate := mkKs { ks_mem : kmem_t; ks_used : list Z }.

Inductive kstep : kstate → kstate → Prop :=
  | kstep_alloc k used a k' :
      kalloc k = Ok (a, k') → a ≠ 0 → kstep (mkKs k used) (mkKs k' (a :: used))
  | kstep_fail k used k' : kalloc k = Ok (0, k') → kstep (mkKs k used) (mkKs k' used)
  | kstep_free k used used' a k' :
      used ≡ₚ a :: used' → kfree a k = Ok (tt, k') → kstep (mkKs k used) (mkKs k' used')
  | kstep_write k used a o bs :
      (* a client stores into a page it holds *)
      a ∈ used → a ≤ o → o + Z.of_nat (length bs) ≤ a + PGSIZE →
      kstep (mkKs k used) (mkKs (mkKmem (freelist k) (put_bytes (kram k) o bs)) used).

Definition kinv (s : kstate) : Prop :=
  ∃ l, kmem_ok (ks_mem s) l ∧ ks_used s ++ l ≡ₚ all_pages.

Lemma all_pages_nodup : kend < PHYSTOP → NoDup all_pages.
Proof.
  intros _. unfold all_pages, pages_from. apply NoDup_fmap_2; [|apply NoDup_seq].
  intros i j E. unfold PGSIZE in E. lia.
Qed.

Lemma kinv_step s s' : kend < PHYSTOP → kinv s → kstep s s' → kinv s'.
Proof.
  intros Hk (l & Hok & Hp) Hs. pose proof (all_pages_nodup Hk) as Hnd.
  assert (∀ a, a ∈ ks_used s ++ l → page a) as Hpg.
  { intros a. rewrite Hp. by apply all_pages_elem. }
  rewrite <-Hp in Hnd. apply list.NoDup_app in Hnd as (_ & Hdisj & _).
  destruct Hs as [k used a k' E Ha|k used k' E|k used used' a k' Hu E|k used a o bs Ha H1 H2];
    cbn [ks_mem ks_used] in *.
  - destruct (kalloc_run k l Hok) as (k1 & E1 & Hok1 & _). rewrite E1 in E. injection E as <- <-.
    destruct l as [|b l]; [done|]. exists l. split; [done|]. cbn [ks_used hd].
    rewrite <-Hp. cbn. apply Permutation_middle.
  - destruct (kalloc_run k l Hok) as (k1 & E1 & Hok1 & _). rewrite E1 in E. injection E as E ->.
    destruct l as [|b l]; [by exists []|]. cbn in E. subst.
    destruct Hok as [_ _ Hpl]. apply Forall_cons_1 in Hpl as [[_ ?] _]. lia.
  - assert (a ∈ used) as Hau by (rewrite Hu; by left).
    destruct (kfree_run k l a Hok) as (k1 & E1 & Hok1).
    { apply Hpg. apply elem_of_app. by left. }
    { by apply Hdisj. }
    rewrite E1 in E. injection E as <-. exists (a :: l). split; [done|]. cbn [ks_used].
    rewrite <-Hp, Hu. cbn. symmetry. apply Permutation_middle.
  - exists l. split; [|done]. destruct Hok as [Hc Hn Hpl]. constructor; [|done..].
    cbn [kram freelist]. apply (chain_frame _ _ _ a); try done.
    + apply Hpg. apply elem_of_app. by left.
    + by apply Hdisj.
Qed.

(** C36: from [kinit] on, through every sequence of allocations, frees of
    pages that were allocated and stores into allocated pages, the pages in
    use and the pages on the free list together are exactly the physical pages
    above the kernel, none of them twice: [kalloc] never hands out a page that
    is in use, no page is lost, and it fails only when all are in use. *)
Theorem kalloc_conserves_pages k0 k1 s :
  kend < PHYSTOP → freelist k0 = 0 → kinit k0 = Ok (tt, k1) →
  rtc kstep (mkKs k1 []) s →
  NoDup (ks_used s) ∧ (∀ a, a ∈ ks_used s → page a) ∧
  ∃ a k', kalloc (ks_mem s) = Ok (a, k') ∧
    if decide (a = 0) then ks_used s ≡ₚ all_pages else page a ∧ a ∉ ks_used s.
Proof.
  intros Hk Hf Hi Hs. destruct (kinit_run k0 Hk Hf) as (k' & E & Hok). rewrite E in Hi. injection Hi as ->.
  assert (kinv s) as (l & Hokl & Hp).
  { revert s Hs. apply rtc_ind_r.
    - exists (reverse all_pages). split; [done|]. cbn. apply reverse_Permutation.
    - intros s s' _ Hst Hinv. by eapply kinv_step. }
  pose proof (all_pages_nodup Hk) as Hnd. rewrite <-Hp in Hnd.
  pose proof Hnd as (Hn1 & Hdisj & _)%list.NoDup_app.
  split; [done|]. split.
  { intros a Ha. apply (all_pages_elem a Hk). rewrite <-Hp. apply elem_of_app. by left. }
  destruct (kalloc_run (ks_mem s) l Hokl) as (k2 & E2 & _ & _).
  exists (hd 0 l), k2. split; [done|]. destruct l as [|b l]; cbn [hd].
  - rewrite decide_True by done. by rewrite app_nil_r in Hp.
  - destruct Hokl as [_ _ Hpl]. apply Forall_cons_1 in Hpl as [Hpb _]. pose proof Hpb as [_ ?].
    rewrite decide_False by lia. split; [done|]. intros Hin. apply (Hdisj b Hin). by left.
Qed.
End kalloc.

(** A kernel that ends two pages below the top. *)
Lemma kalloc_conserves_pages_witness :
  ∃ k1 a k', kinit 16769024 (mkKmem 0 ∅) = Ok (tt, k1) ∧ kalloc k1 = Ok (a, k') ∧
    page 16769024 a.
Proof.
  destruct (kinit_run 16769024 ltac:(lia) (mkKmem 0 ∅)) as (k1 & E & Hok); [unfold PHYSTOP; lia|done|].
  destruct (kalloc_conserves_pages 16769024 ltac:(lia) (mkKmem 0 ∅) k1 (mkKs k1 []))
    as (_ & _ & a & k' & Ea & Ha); [unfold PHYSTOP; lia|reflexivity|exact E|apply rtc_refl|].
  exists k1, a, k'. split; [exact E|]. split; [exact Ea|]. revert Ha. case_decide.
  - cbn [ks_used]. intros Hn%Permutation_nil. exfalso. revert Hn. by vm_compute.
  - by intros [? _].
Defined.
