(* ===== verification/Spinlock.v ===== *)
(** Spin locks and the nesting of interrupt disabling
    ([xv6/kernel/spinlock.c]), first as sequential routines on one processor,
    then as the interleaved steps of all processors on one lock. *)

From S2P Require Import Prelude.

(** ** State *)

Record cpu_t := mkCpu {
  ncli : Z;          (* depth of pushcli nesting *)
  intena : bool;     (* were interrupts enabled before pushcli? *)
  iflag : bool       (* the IF bit of eflags *)
}.

(** The holder is a processor, or null. *)
Record spinlock := mkLock { locked : Z; lcpu : option nat }.

Definition initlock : spinlock := mkLock 0 None.

(** ** Interrupts *)

Definition cli (c : cpu_t) : cpu_t := mkCpu (ncli c) (intena c) false.
Definition sti (c : cpu_t) : cpu_t := mkCpu (ncli c) (intena c) true.

Definition pushcli : M cpu_t unit :=
  eflags ← gets iflag;
  modify cli;;
  n ← gets ncli;
  modify (λ c, mkCpu (n + 1) (intena c) (iflag c));;
  when (n =? 0) (modify (λ c, mkCpu (ncli c) eflags (iflag c))).

Definition popcli : M cpu_t unit :=
  f ← gets iflag;
  if (f : bool) then panic "popcli - interruptible" else
  modify (λ c, mkCpu (ncli c - 1) (intena c) (iflag c));;
  n ← gets ncli;
  if n <? 0 then panic "popcli" else
  i ← gets intena;
  when ((n =? 0) && i) (modify sti).

(** ** The lock, from processor [me] *)

Definition holding (me : nat) (lk : spinlock) : bool :=
  ctrue (locked lk) && bool_decide (lcpu lk = Some me).

Definition on_cpu {A} (m : M cpu_t A) : M (cpu_t * spinlock) A := λ s,
  match m s.1 with
  | Ok (a, c) => Ok (a, (c, s.2))
  | Panic e => Panic e | Blocked => Blocked | Undef => Undef | NoFuel => NoFuel
  end.

(** [acquire] alone on the machine: a lock somebody holds is spun on for ever. *)
Definition acquire (me : nat) : M (cpu_t * spinlock) unit :=
  on_cpu pushcli;;
  lk ← gets snd;
  if holding me lk then panic "acquire" else
  if negb (locked lk =? 0) then blocked else
  modify (λ s, (s.1, mkLock 1 (lcpu s.2)));;
  modify (λ s, (s.1, mkLock (locked s.2) (Some me))).

Definition release (me : nat) : M (cpu_t * spinlock) unit :=
  lk ← gets snd;
  if negb (holding me lk) then panic "release" else
  modify (λ s, (s.1, mkLock (locked s.2) None));;
  modify (λ s, (s.1, mkLock 0 (lcpu s.2)));;
  on_cpu popcli.

(** ** The call stack *)

(** [getcallerpcs]: the return addresses along the chain of saved frame
    pointers; [word] gives the word at an address. *)
Section backtrace.
Context (word : Z → option Z).
Definition chain_ends (ebp : Z) : bool := (ebp =? 0) || (ebp <? 1048576) || (ebp =? 4294967295).
Fixpoint pcs_loop (n : nat) (ebp : Z) : option (list Z) :=
  match n with
  | O => Some []
  | S n' =>
      if chain_ends ebp then Some (replicate n 0) else
      pc ← word (u32 (ebp + 4));
      ebp' ← word ebp;
      pcs ← pcs_loop n' ebp';
      Some (pc :: pcs)
  end.
Definition getcallerpcs (v : Z) : option (list Z) := pcs_loop 10 (u32 (v - 8)).

(** A chain of frames in memory, innermost first, that ends at [ebp0]. *)
Fixpoint frames_at (ebp : Z) (frames : list (Z * Z)) (ebp0 : Z) : Prop :=
  match frames with
  | [] => ebp = ebp0
  | (at_, pc) :: frames' =>
      ebp = at_ ∧ 1048576 ≤ at_ < 4294967291 ∧ word (at_ + 4) = Some pc ∧
      ∃ up, word at_ = Some up ∧ frames_at up frames' ebp0
  end.

Lemma pcs_loop_frames frames ebp0 : chain_ends ebp0 = true → ∀ n ebp,
  frames_at ebp frames ebp0 →
  pcs_loop n ebp = Some (take n (map snd frames ++ replicate n 0)).
Proof.
  intros He. induction frames as [|[at_ pc] frames IH]; intros n ebp Hf; cbn [frames_at] in Hf.
  - subst ebp. destruct n as [|n]; [done|]. cbn [pcs_loop map app]. rewrite He. by rewrite take_ge by (by rewrite length_replicate).
  - destruct Hf as (-> & Hr & Hpc & up & Hup & Hf). destruct n as [|n]; [done|]. cbn [pcs_loop].
    assert (chain_ends at_ = false) as ->.
    { unfold chain_ends. rewrite !orb_false_iff, !Z.eqb_neq, Z.ltb_ge. lia. }
    rewrite u32_small by (unfold is_u32; lia). rewrite Hpc, Hup. cbn [mbind option_bind].
    rewrite (IH n up Hf). cbn [mbind option_bind map app take snd]. do 2 f_equal.
    rewrite !take_app. f_equal. rewrite !take_replicate. f_equal. lia.
Qed.
End backtrace.

(** ** Nesting *)

(** [true] is a pushcli, [false] a popcli. *)
Fixpoint run_cli (ops : list bool) : M cpu_t unit :=
  match ops with
  | [] => mret tt
  | op :: ops' => (if op then pushcli else popcli);; run_cli ops'
  end.

(** Never more pops than pushes, and as many in the end; [d] are open. *)
Fixpoint balanced (ops : list bool) (d : Z) : bool :=
  match ops with
  | [] => d =? 0
  | true :: ops' => balanced ops' (d + 1)
  | false :: ops' => (1 <=? d) && balanced ops' (d - 1)
  end.

(** Interrupts are off while the nesting is not zero. *)
Definition cpu_ok (c : cpu_t) : Prop := 0 ≤ ncli c ∧ (0 < ncli c → iflag c = false).

Lemma run_pushcli c :
  pushcli c = Ok (tt, mkCpu (ncli c + 1) (if ncli c =? 0 then iflag c else intena c) false).
Proof.
  unfold pushcli, gets, modify, mbind, M_bind, when, mret, M_ret.
  change (ncli (cli c)) with (ncli c). by destruct (ncli c =? 0).
Qed.

Lemma run_popcli c :
  iflag c = false → 1 ≤ ncli c →
  popcli c = Ok (tt, mkCpu (ncli c - 1) (intena c) (intena c && (ncli c - 1 =? 0))).
Proof.
  intros Hf Hn. unfold popcli, gets, modify, mbind, M_bind, when, mret, M_ret. rewrite Hf.
  cbn [ncli intena]. rewrite (proj2 (Z.ltb_ge _ _)) by lia.
  rewrite andb_comm. destruct (intena c), (ncli c - 1 =? 0); cbn [andb]; try done.
  all: unfold sti; cbn [ncli intena iflag]; by rewrite ?Hf.
Qed.

Lemma run_cli_nested ops : ∀ c c0 d,
  cpu_ok c0 → 0 ≤ d → ncli c = ncli c0 + d → balanced ops d = true →
  iflag c = (if d =? 0 then iflag c0 else false) →
  (0 < ncli c → intena c = if ncli c0 =? 0 then iflag c0 else intena c0) →
  ∃ c', run_cli ops c = Ok (tt, c') ∧ ncli c' = ncli c0 ∧ iflag c' = iflag c0 ∧
    (0 < ncli c0 → intena c' = intena c0).
Proof.
  induction ops as [|op ops IH]; intros c c0 d [Hc0 Hc1] Hd Hn Hb Hf Hi; cbn [balanced] in Hb.
  - apply Z.eqb_eq in Hb as ->. exists c. rewrite Z.add_0_r in Hn. split_and!; [done|done|done|].
    intros Hp. rewrite Hi by lia. by rewrite (proj2 (Z.eqb_neq _ _)) by lia.
  - destruct op; cbn [run_cli].
    + rewrite (bind_Ok _ _ _ _ _ (run_pushcli c)).
      apply (IH _ c0 (d + 1)); cbn [ncli iflag intena]; try done; try lia.
      { by rewrite (proj2 (Z.eqb_neq _ _)) by lia. }
      intros _. destruct (Z.eqb_spec (ncli c) 0) as [E|E]; [|apply Hi; lia].
      assert (d = 0 ∧ ncli c0 = 0) as [-> ->] by lia. by rewrite Hf.
    + apply andb_true_iff in Hb as [Hd1%Z.leb_le Hb].
      rewrite (proj2 (Z.eqb_neq d 0)) in Hf by lia.
      rewrite (bind_Ok _ _ _ _ _ (run_popcli c Hf ltac:(lia))).
      specialize (Hi ltac:(lia)).
      apply (IH _ c0 (d - 1)); cbn [ncli iflag intena]; try done; try lia.
      destruct (Z.eqb_spec (ncli c - 1) 0) as [E|E].
      * assert (d = 1 ∧ ncli c0 = 0) as [-> E0] by lia. rewrite Hi, E0. by destruct (iflag c0).
      * rewrite andb_false_r. destruct (Z.eqb_spec (d - 1) 0); [|done]. by rewrite Hc1 by lia.
Qed.

(** A sequence of [pushcli] and [popcli] in which every pop has its push
    runs without a panic and leaves the nesting depth and the interrupt flag
    as they were: interrupts come back on exactly when they were on before
    the outermost push. *)
Theorem cli_nesting ops c :
  cpu_ok c → balanced ops 0 = true →
  ∃ c', run_cli ops c = Ok (tt, c') ∧ ncli c' = ncli c ∧ iflag c' = iflag c.
Proof.
  intros Hok Hb. destruct (run_cli_nested ops c c 0 Hok) as (c' & E & H1 & H2 & _); try done; [lia| |].
  - intros Hp. by rewrite (proj2 (Z.eqb_neq _ _)) by lia.
  - by exists c'.
Qed.

(** ** The lock among all processors *)

(** Where a processor is in [acquire] or [release]. *)
Inductive lpc :=
  | Outside                 (* does not use the lock *)
  | Spinning                (* past pushcli and the holding test, at the xchg *)
  | Got                     (* the xchg gave 0, lk->cpu not yet set *)
  | Inside                  (* in the critical section *)
  | Leaving.                (* lk->cpu cleared, before the xchg to 0 *)

Record lmach := mkMach { pcs : nat → lpc; lock : spinlock }.

Definition set_pc (f : nat → lpc) (i : nat) (p : lpc) : nat → lpc := λ j, if decide (j = i) then p else f j.

Inductive lstep : lmach → lmach → Prop :=
  | l_start f lk i : f i = Outside → holding i lk = false →
      lstep (mkMach f lk) (mkMach (set_pc f i Spinning) lk)
  | l_spin f lk i : f i = Spinning → locked lk ≠ 0 →
      lstep (mkMach f lk) (mkMach f (mkLock 1 (lcpu lk)))
  | l_xchg f lk i : f i = Spinning → locked lk = 0 →
      lstep (mkMach f lk) (mkMach (set_pc f i Got) (mkLock 1 (lcpu lk)))
  | l_own f lk i : f i = Got →
      lstep (mkMach f lk) (mkMach (set_pc f i Inside) (mkLock (locked lk) (Some i)))
  | l_clear f lk i : f i = Inside → holding i lk = true →
      lstep (mkMach f lk) (mkMach (set_pc f i Leaving) (mkLock (locked lk) None))
  | l_unlock f lk i : f i = Leaving →
      lstep (mkMach f lk) (mkMach (set_pc f i Outside) (mkLock 0 (lcpu lk))).

(** The processor has the lock word. *)
Definition owns (p : lpc) : Prop := p = Got ∨ p = Inside ∨ p = Leaving.

Record lock_inv (s : lmach) : Prop := {
  li_one : ∀ i j, owns (pcs s i) → owns (pcs s j) → i = j;
  li_word : (∃ i, owns (pcs s i)) ↔ locked (lock s) ≠ 0;
  li_cpu : ∀ i, lcpu (lock s) = Some i ↔ pcs s i = Inside
}.

Lemma set_pc_eq f i p : set_pc f i p i = p.
Proof. unfold set_pc. by rewrite decide_True. Qed.
Lemma set_pc_ne f i p j : j ≠ i → set_pc f i p j = f j.
Proof. intros. unfold set_pc. by rewrite decide_False. Qed.

(** A step of [i] that keeps whether it owns the word. *)
Lemma lock_inv_step s s' : lock_inv s → lstep s s' → lock_inv s'.
Proof.
  intros [H1 H2 H3] Hs.
  destruct Hs as [f lk i E _|f lk i E El|f lk i E El|f lk i E|f lk i E Eh|f lk i E];
    cbn [pcs lock locked lcpu] in *.
  - assert (∀ j, owns (set_pc f i Spinning j) ↔ owns (f j)) as Ho.
    { intros j. destruct (decide (j = i)) as [->|?]; [|by rewrite set_pc_ne].
      rewrite set_pc_eq, E. unfold owns. naive_solver. }
    constructor; cbn [pcs lock].
    + intros j k. rewrite !Ho. apply H1.
    + rewrite <-H2. by setoid_rewrite Ho.
    + intros j. rewrite H3. destruct (decide (j = i)) as [->|?]; [|by rewrite set_pc_ne].
      rewrite set_pc_eq, E. naive_solver.
  - constructor; cbn [pcs lock locked lcpu]; [done| |done].
    rewrite H2. naive_solver.
  - assert (∀ j, ¬ owns (f j)) as Hno.
    { intros j Hj. apply (proj1 H2); [by exists j|done]. }
    constructor; cbn [pcs lock locked lcpu].
    + intros j k Hj Hk. destruct (decide (j = i)) as [->|?]; [|rewrite set_pc_ne in Hj by done; by destruct (Hno j)].
      destruct (decide (k = i)) as [->|?]; [done|]. rewrite set_pc_ne in Hk by done. by destruct (Hno k).
    + split; [lia|]. intros _. exists i. rewrite set_pc_eq. by left.
    + intros j. rewrite H3. destruct (decide (j = i)) as [->|?]; [|by rewrite set_pc_ne].
      rewrite set_pc_eq, E. naive_solver.
  - assert (∀ j, owns (set_pc f i Inside j) ↔ owns (f j)) as Ho.
    { intros j. destruct (decide (j = i)) as [->|?]; [|by rewrite set_pc_ne].
      rewrite set_pc_eq, E. unfold owns. naive_solver. }
    constructor; cbn [pcs lock locked lcpu].
    + intros j k. rewrite !Ho. apply H1.
    + rewrite <-H2. by setoid_rewrite Ho.
    + intros j. destruct (decide (j = i)) as [->|?]; [by rewrite set_pc_eq|rewrite set_pc_ne by done].
      split; [congruence|]. intros Ej. destruct (H1 i j); [|..|done]; unfold owns; rewrite ?E, ?Ej; tauto.
  - assert (∀ j, owns (set_pc f i Leaving j) ↔ owns (f j)) as Ho.
    { intros j. destruct (decide (j = i)) as [->|?]; [|by rewrite set_pc_ne].
      rewrite set_pc_eq, E. unfold owns. naive_solver. }
    constructor; cbn [pcs lock locked lcpu].
    + intros j k. rewrite !Ho. apply H1.
    + rewrite <-H2. by setoid_rewrite Ho.
    + intros j. split; [done|]. destruct (decide (j = i)) as [->|?]; [by rewrite set_pc_eq|rewrite set_pc_ne by done].
      intros Ej. destruct (H1 i j); [|..|done]; unfold owns; rewrite ?E, ?Ej; tauto.
  - assert (∀ j, j ≠ i → ¬ owns (f j)) as Hno.
    { intros j Hne Hj. apply Hne, H1; [done|]. rewrite E. unfold owns. tauto. }
    constructor; cbn [pcs lock locked lcpu].
    + intros j k Hj Hk. destruct (decide (j = i)) as [->|?].
      * rewrite set_pc_eq in Hj. unfold owns in Hj. naive_solver.
      * rewrite set_pc_ne in Hj by done. by destruct (Hno j).
    + split; [|done]. intros [j Hj]. destruct (decide (j = i)) as [->|?].
      * rewrite set_pc_eq in Hj. unfold owns in Hj. naive_solver.
      * rewrite set_pc_ne in Hj by done. by destruct (Hno j).
    + intros j. rewrite H3. destruct (decide (j = i)) as [->|?]; [|by rewrite set_pc_ne].
      rewrite set_pc_eq, E. naive_solver.
Qed.

(** C37: in every interleaving of the processors' [acquire] and [release]
    steps on a lock, at most one processor is in its critical section, the
    lock's [cpu] field names exactly that one, and a processor that is in its
    critical section passes the [holding] test of [release]. *)
Theorem lock_mutual_exclusion s i j :
  rtc lstep (mkMach (λ _, Outside) initlock) s → pcs s i = Inside →
  (pcs s j = Inside → j = i) ∧ lcpu (lock s) = Some i ∧ holding i (lock s) = true.
Proof.
  intros Hs Hi.
  assert (lock_inv s) as [H1 H2 H3].
  { revert s Hs Hi. intros s Hs _. revert s Hs. apply rtc_ind_r.
    - constructor; cbn.
      + intros ? ? [?|[?|?]]; done.
      + split; [|done]. intros [? [?|[?|?]]]; done.
      + done.
    - intros s s' _ Hst Hinv. by eapply lock_inv_step. }
  split_and!.
  - intros Hj. apply H1; unfold owns; tauto.
  - by apply H3.
  - unfold holding. apply andb_true_iff. split.
    + unfold ctrue. apply negb_true_iff, Z.eqb_neq, H2. exists i. unfold owns. tauto.
    + apply bool_decide_eq_true. by apply H3.
Qed.

(** ** Concrete runs *)

Lemma cli_nesting_witness :
  ∃ c', run_cli [true; true; false; false] (mkCpu 0 false true) = Ok (tt, c') ∧
    ncli c' = 0 ∧ iflag c' = true.
Proof.
  apply (cli_nesting [true; true; false; false] (mkCpu 0 false true)); [|reflexivity].
  split; [reflexivity|]. cbn. lia.
Defined.

Lemma lock_mutual_exclusion_witness :
  ∃ s, rtc lstep (mkMach (λ _, Outside) initlock) s ∧ pcs s 0%nat = Inside ∧
    lcpu (lock s) = Some 0%nat.
Proof.
  set (s := mkMach (set_pc (set_pc (set_pc (λ _, Outside) 0 Spinning) 0 Got) 0 Inside)
    (mkLock 1 (Some 0%nat))).
  assert (rtc lstep (mkMach (λ _, Outside) initlock) s) as Hs.
  { eapply rtc_l; [exact (l_start (λ _, Outside) initlock 0 eq_refl eq_refl)|].
    eapply rtc_l; [exact (l_xchg _ initlock 0 eq_refl eq_refl)|].
    eapply rtc_l; [exact (l_own _ _ 0 eq_refl)|]. apply rtc_refl. }
  exists s. split; [exact Hs|]. split; [reflexivity|].
  apply (lock_mutual_exclusion s 0 0 Hs eq_refl).
Defined.
