(* ===== verification/Fs.v ===== *)
(** The file system of [xv6/kernel/fs.c]: block allocator, inodes with their
    cache and contents (the checksummed kind included), directories and path
    names, over the blocks that the buffer cache promises ([Bio.v] proves that
    [bio.c] keeps the promise).

    A buffer is named by its device and block; [bread] marks it busy and gives
    its data, and a routine that changes the data passes it to [bwrite]. Inode
    pointers are indices of the cache ([NINODE] and above is the null pointer).
    C strings are the bytes before their NUL, fixed arrays are their bytes. *)

From S2P Require Import Prelude CString.

(** ** On-disk format *)

Definition ROOTINO : Z := 1.
Definition ROOTDEV : Z := 1.
Definition BSIZE : Z := 512.
Definition NDIRECT : Z := 12.
Definition NINDIRECT : Z := BSIZE / 4.
Definition MAXFILE : Z := NDIRECT + NINDIRECT.
Definition IPB : Z := BSIZE / 64.
Definition IBLOCK (i : Z) : Z := i / IPB + 2.
Definition BPB : Z := BSIZE * 8.
Definition BBLOCK (b ninodes : Z) : Z := b / BPB + ninodes / IPB + 3.
Definition DIRSIZ : nat := 14.
Definition NINODE : nat := 50.
Definition NDEV : Z := 10.
Definition SHIFT3BYTES : Z := 24.

Definition T_DIR : Z := 1.
Definition T_FILE : Z := 2.
Definition T_DEV : Z := 3.
Definition T_CHECKED : Z := 4.

Record superblock := mkSb { sb_size : Z; sb_nblocks : Z; sb_ninodes : Z }.

(** The 32-bit word [k] of a block, and its update. *)
Definition wordk (data : list Z) (k : Z) : Z := le_val (slice (Z.to_nat (4 * k)) 4 data).
Definition set_wordk (data : list Z) (k v : Z) : list Z := splice (Z.to_nat (4 * k)) (le_bytes 4 v) data.

Definition dec_sb (data : list Z) : superblock := mkSb (wordk data 0) (wordk data 1) (wordk data 2).

Record dinode := mkDinode {
  d_type : Z; d_major : Z; d_minor : Z; d_nlink : Z; d_size : Z; d_addrs : list Z
}.
Definition half (bs : list Z) (o : nat) : Z := i16 (le_val (slice o 2 bs)).
Definition dec_dinode (bs : list Z) : dinode :=
  mkDinode (half bs 0) (half bs 2) (half bs 4) (half bs 6) (wordk bs 2)
    ((λ k, wordk bs (3 + Z.of_nat k)) <$> seq 0 (Z.to_nat (NDIRECT + 1))).
Definition enc_dinode (d : dinode) : list Z :=
  le_bytes 2 (d_type d) ++ le_bytes 2 (d_major d) ++ le_bytes 2 (d_minor d) ++
  le_bytes 2 (d_nlink d) ++ le_bytes 4 (d_size d) ++ mjoin (le_bytes 4 <$> d_addrs d).

Record dirent := mkDirent { de_inum : Z; de_name : list Z }.
Definition dec_dirent (bs : list Z) : dirent := mkDirent (le_val (slice 0 2 bs)) (slice 2 DIRSIZ bs).
Definition enc_dirent (d : dirent) : list Z := le_bytes 2 (de_inum d) ++ de_name d.

(** ** State *)

Record inode := mkInode {
  i_dev : Z; i_inum : Z; i_ref : Z; i_flags : Z;
  i_type : Z; i_major : Z; i_minor : Z; i_nlink : Z; i_size : Z; i_addrs : list Z
}.
Definition I_BUSY : Z := 1.
Definition I_VALID : Z := 2.

Definition set_ref (r : Z) (i : inode) : inode :=
  mkInode (i_dev i) (i_inum i) r (i_flags i) (i_type i) (i_major i) (i_minor i) (i_nlink i) (i_size i) (i_addrs i).
Definition set_flags (f : Z) (i : inode) : inode :=
  mkInode (i_dev i) (i_inum i) (i_ref i) f (i_type i) (i_major i) (i_minor i) (i_nlink i) (i_size i) (i_addrs i).
Definition set_type (t : Z) (i : inode) : inode :=
  mkInode (i_dev i) (i_inum i) (i_ref i) (i_flags i) t (i_major i) (i_minor i) (i_nlink i) (i_size i) (i_addrs i).
Definition set_devnums (ma mi : Z) (i : inode) : inode :=
  mkInode (i_dev i) (i_inum i) (i_ref i) (i_flags i) (i_type i) ma mi (i_nlink i) (i_size i) (i_addrs i).
Definition set_nlink (n : Z) (i : inode) : inode :=
  mkInode (i_dev i) (i_inum i) (i_ref i) (i_flags i) (i_type i) (i_major i) (i_minor i) n (i_size i) (i_addrs i).
Definition set_size (z : Z) (i : inode) : inode :=
  mkInode (i_dev i) (i_inum i) (i_ref i) (i_flags i) (i_type i) (i_major i) (i_minor i) (i_nlink i) z (i_addrs i).
Definition set_addrs (a : list Z) (i : inode) : inode :=
  mkInode (i_dev i) (i_inum i) (i_ref i) (i_flags i) (i_type i) (i_major i) (i_minor i) (i_nlink i) (i_size i) a.
Definition set_addr (k a : Z) (i : inode) : inode := set_addrs (<[Z.to_nat k := a]> (i_addrs i)) i.
Definition addr (i : inode) (k : Z) : Z := default 0 (i_addrs i !! Z.to_nat k).

Record fs := mkFs {
  blocks : gmap (Z * Z) (list Z);   (* the disks, by device and block number *)
  busy : gset (Z * Z);              (* the buffers handed out *)
  icache : list inode
}.

(** Before any [iget] the cache's inodes are all zeroes. *)
Definition no_inode : inode := mkInode 0 0 0 0 0 0 0 0 0 (replicate (Z.to_nat (NDIRECT + 1)) 0).
Definition iinit : list inode := replicate NINODE no_inode.

Definition bread (dev b : Z) : M fs (list Z) :=
  s ← get;
  if decide ((dev, b) ∈ busy s) then blocked else
  data ← need (blocks s !! (dev, b));
  put (mkFs (blocks s) ({[ (dev, b) ]} ∪ busy s) (icache s));;
  mret data.
Definition bwrite (dev b : Z) (data : list Z) : M fs unit :=
  s ← get;
  if decide ((dev, b) ∈ busy s) then put (mkFs (<[ (dev, b) := data ]> (blocks s)) (busy s) (icache s))
  else panic "bwrite".
Definition brelse (dev b : Z) : M fs unit :=
  s ← get;
  if decide ((dev, b) ∈ busy s) then put (mkFs (blocks s) (busy s ∖ {[ (dev, b) ]}) (icache s))
  else panic "brelse".

Definition inode_at (ip : nat) : M fs inode := s ← get; need (icache s !! ip).
Definition upd_inode (ip : nat) (f : inode → inode) : M fs unit :=
  modify (λ s, mkFs (blocks s) (busy s) (alter f ip (icache s))).

(** ** Blocks *)

Definition readsb (dev : Z) : M fs superblock :=
  data ← bread dev 1; brelse dev 1;; mret (dec_sb data).

Definition bzero (dev bno : Z) : M fs unit :=
  bread dev bno;; bwrite dev bno (replicate (Z.to_nat BSIZE) 0);; brelse dev bno.

(** Bit [bi] of a bitmap block. *)
Definition byte_of (data : list Z) (bi : Z) : Z := default 0 (data !! Z.to_nat (bi / 8)).
Definition mask_of (bi : Z) : Z := Z.shiftl 1 (bi mod 8).
Definition bit_free (data : list Z) (bi : Z) : bool := Z.land (byte_of data bi) (mask_of bi) =? 0.
Definition bit_set (data : list Z) (bi : Z) : list Z :=
  <[Z.to_nat (bi / 8) := u8 (Z.lor (byte_of data bi) (mask_of bi))]> data.
Definition bit_clear (data : list Z) (bi : Z) : list Z :=
  <[Z.to_nat (bi / 8) := u8 (Z.land (byte_of data bi) (Z.lnot (mask_of bi)))]> data.

(** The inner loop of [balloc]: the first clear bit from [bi] on. *)
Fixpoint find_free (n : nat) (data : list Z) (bi : Z) : option Z :=
  match n with
  | O => None
  | S n' => if bit_free data bi then Some bi else find_free n' data (bi + 1)
  end.

Fixpoint balloc_loop (fuel : nat) (dev : Z) (sb : superblock) (b : Z) : M fs Z :=
  match fuel with
  | O => nofuel
  | S fuel' =>
      if b <? sb_size sb then
        let bb := BBLOCK b (sb_ninodes sb) in
        data ← bread dev bb;
        match find_free (Z.to_nat BPB) data 0 with
        | Some bi => bwrite dev bb (bit_set data bi);; brelse dev bb;; mret (b + bi)
        | None => brelse dev bb;; balloc_loop fuel' dev sb (b + BPB)
        end
      else panic "balloc: out of blocks"
  end.
Definition balloc (dev : Z) : M fs Z :=
  sb ← readsb dev; balloc_loop (S (S (Z.to_nat (sb_size sb / BPB)))) dev sb 0.

Definition bfree (dev b : Z) : M fs unit :=
  bzero dev b;;
  sb ← readsb dev;
  let bb := BBLOCK b (sb_ninodes sb) in
  data ← bread dev bb;
  let bi := b mod BPB in
  if bit_free data bi then panic "freeing free block" else
  bwrite dev bb (bit_clear data bi);; brelse dev bb.

(** ** Inodes *)

(** The cache slot that [iget] returns: one that caches the inode already, or
    else the first free one. *)
Fixpoint iget_scan (l : list inode) (k : nat) (empty : option nat) (dev inum : Z) : nat + option nat :=
  match l with
  | [] => inr empty
  | ip :: l' =>
      if (0 <? i_ref ip) && (i_dev ip =? dev) && (i_inum ip =? inum) then inl k else
      iget_scan l' (S k)
        (match empty with None => if i_ref ip =? 0 then Some k else None | Some _ => empty end) dev inum
  end.
Definition iget (dev inum : Z) : M fs nat :=
  s ← get;
  match iget_scan (icache s) 0 None dev inum with
  | inl k => upd_inode k (λ ip, set_ref (i_ref ip + 1) ip);; mret k
  | inr None => panic "iget: no inodes"
  | inr (Some k) =>
      upd_inode k (λ ip, mkInode dev inum 1 0 (i_type ip) (i_major ip) (i_minor ip) (i_nlink ip)
        (i_size ip) (i_addrs ip));;
      mret k
  end.

Definition idup (ip : nat) : M fs nat := upd_inode ip (λ i, set_ref (i_ref i + 1) i);; mret ip.

(** The bytes of inode [inum] inside its block. *)
Definition dino_off (inum : Z) : nat := Z.to_nat (64 * (inum mod IPB)).

Fixpoint ialloc_loop (fuel : nat) (dev type : Z) (sb : superblock) (inum : Z) : M fs nat :=
  match fuel with
  | O => nofuel
  | S fuel' =>
      if inum <? sb_ninodes sb then
        let bb := IBLOCK inum in
        data ← bread dev bb;
        if half (slice (dino_off inum) 64 data) 0 =? 0 then
          bwrite dev bb (splice (dino_off inum) (le_bytes 2 type ++ replicate 62 0) data);;
          brelse dev bb;;
          iget dev inum
        else brelse dev bb;; ialloc_loop fuel' dev type sb (inum + 1)
      else panic "ialloc: no inodes"
  end.
Definition ialloc (dev type : Z) : M fs nat :=
  sb ← readsb dev; ialloc_loop (S (Z.to_nat (sb_ninodes sb))) dev type sb 1.

Definition iupdate (ip : nat) : M fs unit :=
  i ← inode_at ip;
  let bb := IBLOCK (i_inum i) in
  data ← bread (i_dev i) bb;
  bwrite (i_dev i) bb (splice (dino_off (i_inum i))
    (enc_dinode (mkDinode (i_type i) (i_major i) (i_minor i) (i_nlink i) (i_size i) (i_addrs i))) data);;
  brelse (i_dev i) bb.

Definition ilock (ip : nat) : M fs unit :=
  s ← get;
  match icache s !! ip with
  | None => panic "ilock"
  | Some i =>
      if i_ref i <? 1 then panic "ilock" else
      if ctrue (Z.land (i_flags i) I_BUSY) then blocked else
      upd_inode ip (λ i, set_flags (Z.lor (i_flags i) I_BUSY) i);;
      if ctrue (Z.land (i_flags i) I_VALID) then mret tt else
      let bb := IBLOCK (i_inum i) in
      data ← bread (i_dev i) bb;
      let d := dec_dinode (slice (dino_off (i_inum i)) 64 data) in
      upd_inode ip (λ i, mkInode (i_dev i) (i_inum i) (i_ref i) (i_flags i) (d_type d) (d_major d)
        (d_minor d) (d_nlink d) (d_size d) (d_addrs d));;
      brelse (i_dev i) bb;;
      upd_inode ip (λ i, set_flags (Z.lor (i_flags i) I_VALID) i);;
      if d_type d =? 0 then panic "ilock: no type" else mret tt
  end.

Definition iunlock (ip : nat) : M fs unit :=
  s ← get;
  match icache s !! ip with
  | None => panic "iunlock"
  | Some i =>
      if negb (ctrue (Z.land (i_flags i) I_BUSY)) || (i_ref i <? 1) then panic "iunlock" else
      upd_inode ip (λ i, set_flags (Z.land (i_flags i) (Z.lnot I_BUSY)) i)
  end.

(** ** Contents *)

Definition ADDRMASK : Z := 0xffffff.

(** The two cases of [bmap]: the mask takes the checksum off an address. *)
Definition bmap_with (mask : Z → Z) (ip : nat) (bn : Z) : M fs Z :=
  i ← inode_at ip;
  if bn <? NDIRECT then
    let a := mask (addr i bn) in
    if a =? 0 then a ← balloc (i_dev i); upd_inode ip (set_addr bn (mask a));; mret (mask a)
    else mret a
  else
  let bn := bn - NDIRECT in
  if bn <? NINDIRECT then
    ind ← (let a := mask (addr i NDIRECT) in
           if a =? 0 then a ← balloc (i_dev i); upd_inode ip (set_addr NDIRECT (mask a));; mret (mask a)
           else mret a);
    data ← bread (i_dev i) ind;
    r ← (let a := mask (wordk data bn) in
         if a =? 0 then
           a ← balloc (i_dev i); bwrite (i_dev i) ind (set_wordk data bn (mask a));; mret (mask a)
         else mret a);
    brelse (i_dev i) ind;;
    mret r
  else panic "bmap: out of range".
Definition bmap (ip : nat) (bn : Z) : M fs Z :=
  i ← inode_at ip;
  if i_type i =? T_CHECKED then bmap_with (λ a, Z.land a ADDRMASK) ip bn
  else bmap_with id ip bn.

(** [itrunc]'s two loops: over the direct addresses, and over the words of the
    indirect block, whose buffer is held meanwhile. *)
Fixpoint itrunc_direct (n : nat) (ip : nat) (k : Z) : M fs unit :=
  match n with
  | O => mret tt
  | S n' =>
      i ← inode_at ip;
      when (ctrue (addr i k)) (bfree (i_dev i) (addr i k);; upd_inode ip (set_addr k 0));;
      itrunc_direct n' ip (k + 1)
  end.
Fixpoint itrunc_indirect (n : nat) (dev : Z) (data : list Z) (j : Z) : M fs unit :=
  match n with
  | O => mret tt
  | S n' =>
      when (ctrue (wordk data j)) (bfree dev (wordk data j));;
      itrunc_indirect n' dev data (j + 1)
  end.
Definition itrunc (ip : nat) : M fs unit :=
  itrunc_direct (Z.to_nat NDIRECT) ip 0;;
  i ← inode_at ip;
  let a := addr i NDIRECT in
  when (ctrue a)
    (data ← bread (i_dev i) a;
     itrunc_indirect (Z.to_nat NINDIRECT) (i_dev i) data 0;;
     brelse (i_dev i) a;;
     bfree (i_dev i) a;;
     upd_inode ip (set_addr NDIRECT 0));;
  upd_inode ip (set_size 0);;
  iupdate ip.

Definition iput (ip : nat) : M fs unit :=
  i ← inode_at ip;
  when ((i_ref i =? 1) && ctrue (Z.land (i_flags i) I_VALID) && (i_nlink i =? 0))
    (if ctrue (Z.land (i_flags i) I_BUSY) then panic "iput busy" else
     upd_inode ip (λ i, set_flags (Z.lor (i_flags i) I_BUSY) i);;
     itrunc ip;;
     upd_inode ip (set_type 0);;
     iupdate ip;;
     upd_inode ip (set_flags 0));;
  upd_inode ip (λ i, set_ref (i_ref i - 1) i).

Definition iunlockput (ip : nat) : M fs unit := iunlock ip;; iput ip.

Record stat := mkStat {
  st_type : Z; st_dev : Z; st_ino : Z; st_nlink : Z; st_size : Z; st_checksum : Z
}.
(** The checksum kept in the top byte of an address. *)
Definition top_byte (a : Z) : Z := Z.shiftr (Z.land a 0xff000000) SHIFT3BYTES.
Definition stati (ip : nat) : M fs stat :=
  i ← inode_at ip;
  let direct := foldl (λ c k, Z.lxor c (top_byte (addr i (Z.of_nat k)))) 0 (seq 0 (Z.to_nat NDIRECT)) in
  data ← bread (i_dev i) (Z.land (addr i NDIRECT) ADDRMASK);
  (* no brelse *)
  mret (mkStat (i_type i) (i_dev i) (i_inum i) (i_nlink i) (i_size i)
    (u8 (foldl (λ c k, Z.lxor c (top_byte (wordk data (Z.of_nat k)))) direct (seq 0 64)))).

(** The XOR of the bytes of a block. *)
Definition checksum (data : list Z) : Z :=
  match data with [] => 0 | b :: data' => foldl Z.lxor b data' end.

(** The handlers of the devices: a read gives its result and the bytes stored
    at [dst]. *)
Class Devsw := {
  dev_read : Z → option (nat → Z → M fs (Z * list Z));
  dev_write : Z → option (nat → list Z → Z → M fs Z)
}.

Section contents.
Context `{Devsw}.

Fixpoint readi_loop (fuel : nat) (ip : nat) (off tot n : Z) (dst : list Z) : M fs (Z * list Z) :=
  match fuel with
  | O => nofuel
  | S fuel' =>
      if tot <? n then
        i ← inode_at ip;
        a ← bmap ip (off / BSIZE);
        data ← bread (i_dev i) a;
        let m := Z.min (n - tot) (BSIZE - off mod BSIZE) in
        let dst := dst ++ slice (Z.to_nat (off mod BSIZE)) (Z.to_nat m) data in
        brelse (i_dev i) a;;
        if i_type i =? T_CHECKED then
          a ← bmap ip (off / BSIZE);
          data ← bread (i_dev i) a;
          let ck := checksum data in
          brelse (i_dev i) a;;
          i ← inode_at ip;
          if off / BSIZE <? NDIRECT then
            if negb (top_byte (addr i (off / BSIZE)) =? ck) then mret (-1, dst)
            else readi_loop fuel' ip (off + m) (tot + m) n dst
          else
            let ind := Z.land (addr i NDIRECT) ADDRMASK in
            indir ← bread (i_dev i) ind;
            brelse (i_dev i) ind;;
            if negb (ck =? top_byte (wordk indir (off / BSIZE - NDIRECT))) then mret (-1, dst)
            else readi_loop fuel' ip (off + m) (tot + m) n dst
        else readi_loop fuel' ip (off + m) (tot + m) n dst
      else mret (i32 n, dst)
  end.
Definition readi (ip : nat) (off n : Z) : M fs (Z * list Z) :=
  i ← inode_at ip;
  if i_type i =? T_DEV then
    if (i_major i <? 0) || (i_major i >=? NDEV) then mret (-1, []) else
    match dev_read (i_major i) with None => mret (-1, []) | Some rd => rd ip (i32 n) end
  else
  if (i_size i <? off) || (u32 (off + n) <? off) then mret (-1, []) else
  let n := if i_size i <? u32 (off + n) then i_size i - off else n in
  readi_loop (3 + Z.to_nat (n / BSIZE)) ip off 0 n [].

Fixpoint writei_loop (fuel : nat) (ip : nat) (src : list Z) (off tot n : Z) : M fs Z :=
  match fuel with
  | O => nofuel
  | S fuel' =>
      if tot <? n then
        i ← inode_at ip;
        a ← bmap ip (off / BSIZE);
        data ← bread (i_dev i) a;
        let m := Z.min (n - tot) (BSIZE - off mod BSIZE) in
        if decide (Z.to_nat (tot + m) ≤ length src)%nat then
        bwrite (i_dev i) a
          (splice (Z.to_nat (off mod BSIZE)) (slice (Z.to_nat tot) (Z.to_nat m) src) data);;
        brelse (i_dev i) a;;
        when (i_type i =? T_CHECKED)
          (a ← bmap ip (off / BSIZE);
           data ← bread (i_dev i) a;
           let ck := checksum data in
           if off / BSIZE <? NDIRECT then
             upd_inode ip (λ i, set_addr (off / BSIZE)
               (Z.lor (Z.land (addr i (off / BSIZE)) ADDRMASK) (Z.shiftl ck SHIFT3BYTES)) i);;
             brelse (i_dev i) a
           else
             brelse (i_dev i) a;;
             i ← inode_at ip;
             let ind := Z.land (addr i NDIRECT) ADDRMASK in
             indir ← bread (i_dev i) ind;
             bwrite (i_dev i) ind (set_wordk indir (off / BSIZE - NDIRECT)
               (Z.lor (Z.land (wordk indir (off / BSIZE - NDIRECT)) ADDRMASK) (Z.shiftl ck SHIFT3BYTES)));;
             brelse (i_dev i) ind);;
        writei_loop fuel' ip src (off + m) (tot + m) n
        else undef
      else mret off
  end.
Definition writei (ip : nat) (src : list Z) (off n : Z) : M fs Z :=
  i ← inode_at ip;
  if i_type i =? T_DEV then
    if (i_major i <? 0) || (i_major i >=? NDEV) then mret (-1) else
    match dev_write (i_major i) with None => mret (-1) | Some wr => wr ip src (i32 n) end
  else
  if (i_size i <? off) || (u32 (off + n) <? off) then mret (-1) else
  let n := if MAXFILE * BSIZE <? u32 (off + n) then u32 (MAXFILE * BSIZE - off) else n in
  off ← writei_loop (3 + Z.to_nat (n / BSIZE)) ip src off 0 n;
  i ← inode_at ip;
  when ((0 <? n) && (i_size i <? off)) (upd_inode ip (set_size off));;
  iupdate ip;;
  mret (i32 n).

(** ** Directories *)

Definition namecmp (s t : list Z) : option Z := strncmp s t DIRSIZ.

(** The entries of one block of a directory: the byte offset and inode number
    of the first that has the name; [None] when a comparison runs off an array. *)
Fixpoint dirent_scan (n : nat) (data name : list Z) (k : Z) : option (option (Z * Z)) :=
  match n with
  | O => Some None
  | S n' =>
      let de := dec_dirent (slice (Z.to_nat k) 16 data) in
      if de_inum de =? 0 then dirent_scan n' data name (k + 16) else
      c ← namecmp name (de_name de);
      if c =? 0 then Some (Some (k, de_inum de)) else dirent_scan n' data name (k + 16)
  end.

Fixpoint dirlookup_loop (fuel : nat) (dp : nat) (name : list Z) (off : Z) : M fs (option (nat * Z)) :=
  match fuel with
  | O => nofuel
  | S fuel' =>
      i ← inode_at dp;
      if off <? i_size i then
        a ← bmap dp (off / BSIZE);
        data ← bread (i_dev i) a;
        r ← need (dirent_scan (Z.to_nat (BSIZE / 16)) data name 0);
        brelse (i_dev i) a;;
        match r with
        | Some (k, inum) => ip ← iget (i_dev i) inum; mret (Some (ip, off + k))
        | None => dirlookup_loop fuel' dp name (off + BSIZE)
        end
      else mret None
  end.
Definition dirlookup (dp : nat) (name : list Z) : M fs (option (nat * Z)) :=
  i ← inode_at dp;
  if negb (i_type i =? T_DIR) then panic "dirlookup not DIR" else
  dirlookup_loop (S (S (Z.to_nat (i_size i / BSIZE)))) dp name 0.

(** The offset of the first empty entry, or the directory's size. *)
Fixpoint dirlink_loop (fuel : nat) (dp : nat) (off : Z) : M fs Z :=
  match fuel with
  | O => nofuel
  | S fuel' =>
      i ← inode_at dp;
      if off <? i_size i then
        r ← readi dp off 16;
        if negb (r.1 =? 16) then panic "dirlink read" else
        if de_inum (dec_dirent r.2) =? 0 then mret off else dirlink_loop fuel' dp (off + 16)
      else mret off
  end.
Definition dirlink (dp : nat) (name : list Z) (inum : Z) : M fs Z :=
  r ← dirlookup dp name;
  match r with
  | Some (ip, _) => iput ip;; mret (-1)
  | None =>
      i ← inode_at dp;
      off ← dirlink_loop (S (S (Z.to_nat (i_size i / 16)))) dp 0;
      nm ← need (strncpy_bytes name DIRSIZ);
      w ← writei dp (enc_dirent (mkDirent inum nm)) off 16;
      if negb (w =? 16) then panic "dirlink" else mret 0
  end.

(** ** Paths *)

Definition SLASH : Z := 47.

Fixpoint skip_slashes (path : list Z) : list Z :=
  match path with
  | c :: path' => if c =? SLASH then skip_slashes path' else path
  | [] => []
  end.
Fixpoint take_elem (path : list Z) : list Z * list Z :=
  match path with
  | c :: path' =>
      if c =? SLASH then ([], path) else let (e, r) := take_elem path' in (c :: e, r)
  | [] => ([], [])
  end.
(** The rest of the path and the name buffer; [None] is the null pointer. *)
Definition skipelem (path name : list Z) : option (list Z * list Z) :=
  let path := skip_slashes path in
  match path with
  | [] => None
  | _ :: _ =>
      let (s, path) := take_elem path in
      let len := length s in
      let name := if decide (DIRSIZ ≤ len)%nat then splice 0 (take DIRSIZ s) name
                  else splice 0 (s ++ [0]) name in
      Some (skip_slashes path, name)
  end.

(** The inode, if any, and the name buffer; [cwd] is the process' directory. *)
Fixpoint namex_loop (fuel : nat) (ip : nat) (path : list Z) (parent : bool) (name : list Z) :
    M fs (option nat * list Z) :=
  match fuel with
  | O => nofuel
  | S fuel' =>
      match skipelem path name with
      | None =>
          if parent then iput ip;; mret (None, name) else mret (Some ip, name)
      | Some (path, name) =>
          ilock ip;;
          i ← inode_at ip;
          if negb (i_type i =? T_DIR) then iunlockput ip;; mret (None, name) else
          if parent && bool_decide (path = []) then iunlock ip;; mret (Some ip, name) else
          next ← dirlookup ip name;
          match next with
          | None => iunlockput ip;; mret (None, name)
          | Some (next, _) => iunlockput ip;; namex_loop fuel' next path parent name
          end
      end
  end.
Definition namex (cwd : nat) (path : list Z) (parent : bool) (name : list Z) : M fs (option nat * list Z) :=
  ip ← (match path with
        | c :: _ => if c =? SLASH then iget ROOTDEV ROOTINO else idup cwd
        | [] => idup cwd
        end);
  namex_loop (S (length path)) ip path parent name.

(** [junk]: what an uninitialised name array holds. *)
Definition namei (junk : list Z) (cwd : nat) (path : list Z) : M fs (option nat) :=
  r ← namex cwd path false junk; mret r.1.
Definition nameiparent (cwd : nat) (path name : list Z) : M fs (option nat * list Z) :=
  namex cwd path true name.
End contents.
