(* ===== verification/Bio.v ===== *)
(** The buffer cache of [xv6/kernel/bio.c]: ten buffers on a doubly linked
    ring, most recently used first, between the file system and the disk. It
    keeps the promise that [Fs.bread], [Fs.bwrite] and [Fs.brelse] state.
    A call is one atomic step; a process that would sleep is [Blocked]. *)

From S2P Require Import Prelude Fs.

(** ** Definitions *)

Definition NBUF : nat := 10.
Definition B_BUSY : Z := 1.
Definition B_VALID : Z := 2.
Definition B_DIRTY : Z := 4.

Record buf := mkBuf { b_flags : Z; b_dev : Z; b_sector : Z; b_data : list Z }.

(** Node [NBUF] of the ring is [bcache.head]. *)
Record bcache := mkBcache {
  bufs : list buf;
  next : gmap nat nat;
  prev : gmap nat nat;
  disk : gmap (Z * Z) (list Z)
}.
Definition head : nat := NBUF.

Definition has (f m : Z) : bool := ctrue (Z.land f m).

(** [b->next = head.next; b->prev = &head; head.next->prev = b; head.next = b;] *)
Definition push_front (b : nat) (c : bcache) : bcache :=
  let nx := <[b := next c !!! head]> (next c) in
  let pv := <[b := head]> (prev c) in
  let pv := <[nx !!! head := b]> pv in
  mkBcache (bufs c) (<[head := b]> nx) pv (disk c).

(** [b->next->prev = b->prev; b->prev->next = b->next;] *)
Definition unlink (b : nat) (c : bcache) : bcache :=
  let pv := <[next c !!! b := prev c !!! b]> (prev c) in
  mkBcache (bufs c) (<[pv !!! b := next c !!! b]> (next c)) pv (disk c).

Definition upd_buf (b : nat) (f : buf → buf) (c : bcache) : bcache :=
  mkBcache (alter f b (bufs c)) (next c) (prev c) (disk c).
Definition set_bflags (f : Z) (b : buf) : buf := mkBuf f (b_dev b) (b_sector b) (b_data b).
Definition set_data (d : list Z) (b : buf) : buf := mkBuf (b_flags b) (b_dev b) (b_sector b) d.

Definition binit (d : gmap (Z * Z) (list Z)) : bcache :=
  foldl (λ c b, push_front b
      (upd_buf b (λ x, mkBuf (b_flags x) (u32 (-1)) (b_sector x) (b_data x)) c))
    (mkBcache (replicate NBUF (mkBuf 0 0 0 (replicate 512 0))) {[head := head]} {[head := head]} d)
    (seq 0 NBUF).

(** A walk along one direction of the ring from node [b] to the first buffer
    that satisfies [p]; it ends at the head. *)
Fixpoint walk (fuel : nat) (c : bcache) (link : gmap nat nat) (p : buf → bool) (b : nat) : option (option nat) :=
  match fuel with
  | O => None
  | S fuel' =>
      if decide (b = head) then Some None else
      match bufs c !! b with
      | None => None
      | Some x => if p x then Some (Some b) else walk fuel' c link p (link !!! b)
      end
  end.

Definition cached (dev sector : Z) (x : buf) : bool := (b_dev x =? dev) && (b_sector x =? sector).
Definition idle (x : buf) : bool := negb (has (b_flags x) B_BUSY).

Definition bget (dev sector : Z) : M bcache nat :=
  c ← get;
  match walk (S NBUF) c (next c) (cached dev sector) (next c !!! head) with
  | None => nofuel
  | Some (Some b) =>
      x ← need (bufs c !! b);
      if has (b_flags x) B_BUSY then blocked else
      modify (upd_buf b (λ x, set_bflags (Z.lor (b_flags x) B_BUSY) x));; mret b
  | Some None =>
      match walk (S NBUF) c (prev c) idle (prev c !!! head) with
      | None => nofuel
      | Some (Some b) => modify (upd_buf b (λ x, mkBuf B_BUSY dev sector (b_data x)));; mret b
      | Some None => panic "bget: no buffers"
      end
  end.

Section bio.
(** Whether the machine has a second disk ([ide.c] finds out at start-up). *)
Context (havedisk1 : bool).

(** [iderw]: its checks, and the transfer its caller sleeps for. *)
Definition iderw (b : nat) : M bcache unit :=
  c ← get;
  x ← need (bufs c !! b);
  if negb (has (b_flags x) B_BUSY) then panic "iderw: buf not busy" else
  if Z.land (b_flags x) (Z.lor B_VALID B_DIRTY) =? B_VALID then panic "iderw: nothing to do" else
  if negb (b_dev x =? 0) && negb havedisk1 then panic "iderw: ide disk 1 not present" else
  let done f := Z.land (Z.lor f B_VALID) (Z.lnot B_DIRTY) in
  if has (b_flags x) B_DIRTY then
    put (mkBcache (alter (λ x, set_bflags (done (b_flags x)) x) b (bufs c)) (next c) (prev c)
      (<[(b_dev x, b_sector x) := b_data x]> (disk c)))
  else
    d ← need (disk c !! (b_dev x, b_sector x));
    modify (upd_buf b (λ x, mkBuf (done (b_flags x)) (b_dev x) (b_sector x) d)).

Definition bread (dev sector : Z) : M bcache nat :=
  b ← bget dev sector;
  c ← get;
  x ← need (bufs c !! b);
  when (negb (has (b_flags x) B_VALID)) (iderw b);;
  mret b.

Definition bwrite (b : nat) : M bcache unit :=
  c ← get;
  x ← need (bufs c !! b);
  if negb (has (b_flags x) B_BUSY) then panic "bwrite" else
  modify (upd_buf b (λ x, set_bflags (Z.lor (b_flags x) B_DIRTY) x));;
  iderw b.

Definition brelse (b : nat) : M bcache unit :=
  c ← get;
  x ← need (bufs c !! b);
  if negb (has (b_flags x) B_BUSY) then panic "brelse" else
  modify (unlink b);;
  modify (push_front b);;
  modify (upd_buf b (λ x, set_bflags (Z.land (b_flags x) (Z.lnot B_BUSY)) x)).

(** ** A client

    A client reads blocks, changes the data of the buffers it holds and writes
    them, and releases them, in any order; it sees the data its reads return. *)
Inductive call := CRead (dev sector : Z) | CWrite (dev sector : Z) (data : list Z) | CRelse (dev sector : Z).

(** Against the promise: the observations, and how the run ended. *)
Fixpoint run_spec (l : list call) (s : fs) : outcome (list (list Z)) :=
  match l with
  | [] => Ok []
  | CRead dev k :: l' =>
      match Fs.bread dev k s with
      | Ok (d, s') => match run_spec l' s' with Ok o => Ok (d :: o) | x => x end
      | Blocked => Blocked | Panic m => Panic m | Undef => Undef | NoFuel => NoFuel
      end
  | CWrite dev k d :: l' =>
      match Fs.bwrite dev k d s with
      | Ok (_, s') => run_spec l' s'
      | Blocked => Blocked | Panic m => Panic m | Undef => Undef | NoFuel => NoFuel
      end
  | CRelse dev k :: l' =>
      match Fs.brelse dev k s with
      | Ok (_, s') => run_spec l' s'
      | Blocked => Blocked | Panic m => Panic m | Undef => Undef | NoFuel => NoFuel
      end
  end.

(** Against the cache: [h] maps the blocks the client has read and not yet
    released to the buffers it got. It only uses those. *)
Fixpoint run_cache (l : list call) (h : gmap (Z * Z) nat) (c : bcache) : outcome (list (list Z)) :=
  match l with
  | [] => Ok []
  | CRead dev k :: l' =>
      match bread dev k c with
      | Ok (b, c') =>
          match run_cache l' (<[(dev, k) := b]> h) c' with
          | Ok o => Ok (from_option b_data [] (bufs c' !! b) :: o)
          | x => x
          end
      | Blocked => Blocked | Panic m => Panic m | Undef => Undef | NoFuel => NoFuel
      end
  | CWrite dev k d :: l' =>
      match h !! (dev, k) with
      | None => Panic "bwrite"
      | Some b =>
          match bwrite b (upd_buf b (set_data d) c) with
          | Ok (_, c') => run_cache l' h c'
          | Blocked => Blocked | Panic m => Panic m | Undef => Undef | NoFuel => NoFuel
          end
      end
  | CRelse dev k :: l' =>
      match h !! (dev, k) with
      | None => Panic "brelse"
      | Some b =>
          match brelse b c with
          | Ok (_, c') => run_cache l' (delete (dev, k) h) c'
          | Blocked => Blocked | Panic m => Panic m | Undef => Undef | NoFuel => NoFuel
          end
      end
  end.
End bio.

(** ** The ring *)

(** From [a] along the nodes of [l] to [z], in both directions. *)
Fixpoint links (nx pv : gmap nat nat) (a : nat) (l : list nat) (z : nat) : Prop :=
  match l with
  | [] => nx !! a = Some z ∧ pv !! z = Some a
  | b :: l' => nx !! a = Some b ∧ pv !! b = Some a ∧ links nx pv b l' z
  end.

#[export] Instance links_dec nx pv a l z : Decision (links nx pv a l z).
Proof. revert a. induction l as [|b l IH]; intros a; cbn; apply _. Defined.

Lemma links_app nx pv a l1 b l2 z :
  links nx pv a (l1 ++ b :: l2) z ↔ links nx pv a l1 b ∧ links nx pv b l2 z.
Proof. revert a. induction l1 as [|x l1 IH]; intros a; simpl; [tauto|]. rewrite IH. tauto. Qed.

Lemma links_reverse nx pv a l z : links nx pv a l z → links pv nx z (reverse l) a.
Proof.
  revert a. induction l as [|b l IH]; intros a; [simpl; tauto|].
  intros (H1 & H2 & H). rewrite reverse_cons, links_app. split; [by apply IH|]. done.
Qed.

Lemma links_first nx pv a l z : links nx pv a l z → nx !! a = Some (hd z l).
Proof. destruct l; simpl; tauto. Qed.

(** Updates away from the nodes a stretch reads. *)
Lemma links_next nx pv a l z b c : b ∉ a :: l → links nx pv a l z → links (<[b := c]> nx) pv a l z.
Proof.
  revert a. induction l as [|x l IH]; intros a Hb; simpl.
  - apply not_elem_of_cons in Hb as [Hb _]. by rewrite lookup_insert_ne.
  - apply not_elem_of_cons in Hb as [Hb Hl]. rewrite lookup_insert_ne by done.
    intros (? & ? & ?). split_and!; [done..|]. by apply IH.
Qed.
Lemma links_prev nx pv a l z b c : b ∉ l → b ≠ z → links nx pv a l z → links nx (<[b := c]> pv) a l z.
Proof.
  revert a. induction l as [|x l IH]; intros a Hb Hz; simpl.
  - by rewrite lookup_insert_ne.
  - apply not_elem_of_cons in Hb as [Hb Hl]. rewrite lookup_insert_ne by done.
    intros (? & ? & ?). split_and!; [done..|]. by apply IH.
Qed.

Definition ring (c : bcache) (l : list nat) : Prop :=
  links (next c) (prev c) head l head ∧ NoDup (head :: l).

Lemma lookup_total_Some (m : gmap nat nat) k v : m !! k = Some v → m !!! k = v.
Proof. intros H. unfold lookup_total, map_lookup_total. by rewrite H. Qed.

Lemma push_front_ring b c l : ring c l → b ∉ head :: l → ring (push_front b c) (b :: l).
Proof.
  intros [Hl Hd] [Hbh Hb]%not_elem_of_cons. pose proof Hd as [Hhl _]%list.NoDup_cons. split.
  2:{ apply list.NoDup_cons in Hd as [_ Hd]. rewrite !list.NoDup_cons, elem_of_cons. naive_solver. }
  pose proof (links_first _ _ _ _ _ Hl) as Hf. pose proof (lookup_total_Some _ _ _ Hf) as Hf'.
  unfold push_front. cbn [bufs next prev disk]. rewrite Hf', lookup_total_insert_ne, Hf' by done.
  cbn [links]. rewrite !lookup_insert_eq. split; [done|].
  destruct l as [|x l]; cbn [hd links] in *.
  - by rewrite !(lookup_insert_ne _ head b), !lookup_insert_eq by done.
  - apply not_elem_of_cons in Hb as [Hbx Hb]. apply not_elem_of_cons in Hhl as [Hhx Hhl].
    destruct Hl as (H1 & H2 & Hl).
    rewrite (lookup_insert_ne _ x b), lookup_insert_eq by done. split; [done|].
    rewrite (lookup_insert_ne _ head b), !lookup_insert_eq by done. split; [done|]. split; [done|].
    apply list.NoDup_cons in Hd as [_ Hd]. apply list.NoDup_cons in Hd as [Hxl Hd].
    apply links_next; [rewrite elem_of_cons; naive_solver|].
    apply links_next; [rewrite elem_of_cons; naive_solver|].
    apply links_prev; [done..|]. apply links_prev; [done..|]. done.
Qed.

Lemma unlink_ring b c l1 l2 : ring c (l1 ++ b :: l2) → ring (unlink b c) (l1 ++ l2).
Proof.
  intros [Hl Hd]. apply links_app in Hl as [H1 H2].
  apply list.NoDup_cons in Hd as [Hh Hd].
  rewrite elem_of_app, elem_of_cons in Hh.
  apply list.NoDup_app in Hd as (Hd1 & Hx & [Hb Hd2]%list.NoDup_cons). split.
  2:{ rewrite list.NoDup_cons, elem_of_app, list.NoDup_app. naive_solver (set_solver). }
  assert (b ∉ l1) as Hb1 by (intros ?; by eapply Hx; [|left]).
  pose proof (links_first _ _ _ _ _ H2) as Hn. pose proof (links_reverse _ _ _ _ _ H1) as H1r.
  pose proof (links_first _ _ _ _ _ H1r) as Hp.
  unfold unlink. cbn [next prev].
  rewrite (lookup_total_Some _ _ _ Hn), (lookup_total_Some _ _ _ Hp).
  assert (hd head l2 ≠ b) as Hnb by (destruct l2; cbn; set_solver).
  rewrite lookup_total_insert_ne, (lookup_total_Some _ _ _ Hp) by done.
  destruct l2 as [|y l2]; cbn [hd links] in *.
  - rewrite app_nil_r. destruct (reverse l1) as [|x r] eqn:E; cbn [hd] in *.
    + apply (f_equal reverse) in E. rewrite reverse_involutive in E. cbn in E. subst l1. cbn. by rewrite !lookup_insert_eq.
    + apply (f_equal reverse) in E. rewrite reverse_involutive, reverse_cons in E. subst l1.
      apply links_app in H1 as [H1 _]. apply links_app. cbn [links]. rewrite !lookup_insert_eq.
      split; [|done]. apply list.NoDup_app in Hd1 as (_ & Hx1 & _).
      apply links_next; [rewrite elem_of_cons; set_solver|]. apply links_prev; set_solver.
  - destruct H2 as (_ & _ & H2). rewrite links_app.
    destruct (reverse l1) as [|x r] eqn:E; cbn [hd] in *.
    + apply (f_equal reverse) in E. rewrite reverse_involutive in E. cbn in E. subst l1. cbn [links]. rewrite !lookup_insert_eq. split; [done|].
      apply links_next; [set_solver|]. apply list.NoDup_cons in Hd2 as [Hy _]. apply links_prev; set_solver.
    + apply (f_equal reverse) in E. rewrite reverse_involutive, reverse_cons in E. subst l1.
      apply links_app in H1 as [H1 _]. rewrite links_app. cbn [links]. rewrite !lookup_insert_eq.
      apply list.NoDup_cons in Hd2 as [Hy _]. apply list.NoDup_app in Hd1 as (_ & Hx1 & _).
      split_and!; [|done..|].
      * apply links_next; [rewrite elem_of_cons; set_solver|]. apply links_prev; set_solver.
      * apply links_next; [set_solver|]. apply links_prev; set_solver.
Qed.

(** A walk finds the first buffer of the stretch that satisfies [p]. *)
Lemma walk_run c p nx pv : ∀ l a fuel,
  links nx pv a l head → head ∉ l → Forall (λ b, is_Some (bufs c !! b)) l → (length l < fuel)%nat →
  (∃ b x, walk fuel c nx p (hd head l) = Some (Some b) ∧ b ∈ l ∧ bufs c !! b = Some x ∧ p x = true) ∨
  (walk fuel c nx p (hd head l) = Some None ∧ ∀ b x, b ∈ l → bufs c !! b = Some x → p x = false).
Proof.
  induction l as [|b l IH]; intros a [|fuel] Hl Hh HF Hfuel; cbn [length] in Hfuel; try lia; cbn [walk hd].
  - right. rewrite decide_True by done. split; [done|]. set_solver.
  - apply not_elem_of_cons in Hh as [Hbh Hh]. rewrite decide_False by done.
    apply Forall_cons_1 in HF as [[x Hx] HF]. rewrite Hx. destruct Hl as (_ & _ & Hl).
    destruct (p x) eqn:Ep; [left; exists b, x; set_solver|].
    rewrite (lookup_total_Some _ _ _ (links_first _ _ _ _ _ Hl)).
    destruct (IH b fuel) as [(b' & x' & H1 & H2 & H3)|[H1 H2]]; [done..|lia| |].
    + left. exists b', x'. set_solver.
    + right. split; [done|]. intros b' x' [->|Hb']%elem_of_cons ?; [congruence|eauto].
Qed.

(** ** The cache against its promise *)

Definition NODEV : Z := 4294967295.
Definition key (x : buf) : Z * Z := (b_dev x, b_sector x).

(** A buffer is unused, or holds what is on the disk. *)
Definition buf_ok (d : gmap (Z * Z) (list Z)) (x : buf) : Prop :=
  (b_flags x = 0 ∧ b_dev x = NODEV) ∨
  ((b_flags x = B_VALID ∨ b_flags x = Z.lor B_VALID B_BUSY) ∧ b_dev x ≠ NODEV ∧
   d !! key x = Some (b_data x)).

(** [h] names the buffers handed out; no block is cached twice. *)
Record bufs_ok (bs : list buf) (d : gmap (Z * Z) (list Z)) (h : gmap (Z * Z) nat) : Prop := {
  bo_len : length bs = NBUF;
  bo_buf : ∀ b x, bs !! b = Some x → buf_ok d x;
  bo_uniq : ∀ i j x y, bs !! i = Some x → bs !! j = Some y → key x = key y → b_dev x ≠ NODEV → i = j;
  bo_held : ∀ k b, h !! k = Some b ↔
    ∃ x, bs !! b = Some x ∧ b_flags x = Z.lor B_VALID B_BUSY ∧ key x = k
}.

Record sim (l : list nat) (h : gmap (Z * Z) nat) (c : bcache) (s : fs) : Prop := {
  sim_ring : ring c l;
  sim_nodes : ∀ b, b ∈ l ↔ (b < NBUF)%nat;
  sim_disk : disk c = blocks s;
  sim_busy : busy s = dom h;
  sim_bufs : bufs_ok (bufs c) (disk c) h
}.

Lemma buf_ok_busy d x : buf_ok d x → has (b_flags x) B_BUSY = bool_decide (b_flags x = Z.lor B_VALID B_BUSY).
Proof. intros [[-> _]|[[-> | ->] _]]; done. Qed.

Lemma bufs_ok_take bs d h b x y :
  bufs_ok bs d h → bs !! b = Some x → idle x = true →
  b_flags y = Z.lor B_VALID B_BUSY → b_dev y ≠ NODEV → d !! key y = Some (b_data y) →
  (∀ j z, bs !! j = Some z → key z = key y → j = b) →
  bufs_ok (<[b := y]> bs) d (<[key y := b]> h).
Proof.
  intros [Hl Hb Hu Hh] Hx Hi Hf Hd Hk Hn. pose proof (lookup_lt_Some _ _ _ Hx) as Hlt.
  assert (b_flags x ≠ Z.lor B_VALID B_BUSY) as Hxf.
  { intros E. unfold idle in Hi. rewrite (buf_ok_busy _ _ (Hb _ _ Hx)), E in Hi. done. }
  constructor.
  - by rewrite length_insert.
  - intros j z. destruct (decide (j = b)) as [->|Hj].
    + rewrite list_lookup_insert_eq by done. intros [= <-]. right. by split; [right|].
    + rewrite list_lookup_insert_ne by done. apply Hb.
  - intros i j z w. destruct (decide (i = b)) as [->|Hi'], (decide (j = b)) as [->|Hj'].
    + done.
    + rewrite list_lookup_insert_eq by done. rewrite list_lookup_insert_ne by done.
      intros [= <-] Hw E _. symmetry. by eapply Hn.
    + rewrite list_lookup_insert_eq by done. rewrite list_lookup_insert_ne by done.
      intros Hz [= <-] E _. by eapply Hn.
    + rewrite !list_lookup_insert_ne by done. apply Hu.
  - intros k j. destruct (decide (k = key y)) as [->|Hk'].
    + rewrite lookup_insert_eq. split.
      * intros [= <-]. exists y. by rewrite list_lookup_insert_eq.
      * intros (z & Hz & Hzf & E). destruct (decide (j = b)) as [->|Hj]; [done|].
        rewrite list_lookup_insert_ne in Hz by done. exfalso. apply Hj. by eapply Hn.
    + rewrite lookup_insert_ne by done. rewrite Hh. destruct (decide (j = b)) as [->|Hj].
      * rewrite list_lookup_insert_eq by done. split; [|naive_solver].
        intros (z & Hz & Hzf & E). congruence.
      * by rewrite list_lookup_insert_ne by done.
Qed.

(** A held buffer takes new data to the disk. *)
Lemma bufs_ok_write bs d h b x dat :
  bufs_ok bs d h → h !! key x = Some b → bs !! b = Some x →
  bufs_ok (<[b := set_data dat x]> bs) (<[key x := dat]> d) h.
Proof.
  intros [Hl Hb Hu Hh] Hhx Hx. pose proof (lookup_lt_Some _ _ _ Hx) as Hlt.
  apply Hh in Hhx as (x' & Hx' & Hf & _). rewrite Hx in Hx'. injection Hx' as <-.
  assert (b_dev x ≠ NODEV) as Hd by (destruct (Hb _ _ Hx) as [[E _]|(_ & ? & _)]; [by rewrite E in Hf|done]).
  assert (∀ j z, <[b := set_data dat x]> bs !! j = Some z → ∃ w, bs !! j = Some w ∧ key z = key w ∧
    b_flags z = b_flags w ∧ b_dev z = b_dev w ∧ (j ≠ b → w = z)) as Hold.
  { intros j z. destruct (decide (j = b)) as [->|Hj].
    - rewrite list_lookup_insert_eq by done. intros [= <-]. exists x. done.
    - rewrite list_lookup_insert_ne by done. eauto 10. }
  constructor.
  - by rewrite length_insert.
  - intros j z Hz. destruct (decide (j = b)) as [->|Hj].
    + rewrite list_lookup_insert_eq in Hz by done. injection Hz as <-. right. cbn.
      split; [by right|]. split; [done|]. apply lookup_insert_eq.
    + rewrite list_lookup_insert_ne in Hz by done. destruct (Hb _ _ Hz) as [?|(Hzf & Hzd & Hzk)]; [by left|].
      right. split_and!; [done..|]. rewrite lookup_insert_ne; [done|]. intros E. apply Hj. symmetry. by eapply Hu.
  - intros i j z w Hz Hw E Hnd. apply Hold in Hz as (z' & Hz' & Ez & _ & Edz & _).
    apply Hold in Hw as (w' & Hw' & Ew & _). apply (Hu i j z' w' Hz' Hw'); congruence.
  - intros k j. rewrite Hh. destruct (decide (j = b)) as [->|Hj].
    + rewrite list_lookup_insert_eq by done. rewrite Hx. split; intros (z & [= <-] & ?); eexists; eauto.
    + by rewrite list_lookup_insert_ne by done.
Qed.

Lemma bufs_ok_relse bs d h b x :
  bufs_ok bs d h → h !! key x = Some b → bs !! b = Some x →
  bufs_ok (<[b := set_bflags B_VALID x]> bs) d (delete (key x) h).
Proof.
  intros [Hl Hb Hu Hh] Hhx Hx. pose proof (lookup_lt_Some _ _ _ Hx) as Hlt.
  pose proof Hhx as (x' & Hx' & Hf & _)%Hh. rewrite Hx in Hx'. injection Hx' as <-.
  constructor.
  - by rewrite length_insert.
  - intros j z Hz. destruct (decide (j = b)) as [->|Hj].
    + rewrite list_lookup_insert_eq in Hz by done. injection Hz as <-.
      destruct (Hb _ _ Hx) as [[E _]|(_ & Hd & Hk)]; [by rewrite E in Hf|]. right. split; [by left|]. done.
    + rewrite list_lookup_insert_ne in Hz by done. by eapply Hb.
  - intros i j z w. destruct (decide (i = b)) as [->|Hi], (decide (j = b)) as [->|Hj];
      rewrite ?list_lookup_insert_eq, ?list_lookup_insert_ne by done; [done|..].
    + intros [= <-] Hw. apply (Hu b j x w Hx Hw).
    + intros Hz [= <-]. apply (Hu i b z x Hz Hx).
    + apply Hu.
  - intros k j. destruct (decide (k = key x)) as [->|Hk].
    + rewrite lookup_delete_eq. split; [done|]. intros (z & Hz & Hzf & E).
      destruct (decide (j = b)) as [->|Hj].
      * rewrite list_lookup_insert_eq in Hz by done. by injection Hz as <-.
      * rewrite list_lookup_insert_ne in Hz by done.
        assert (h !! key x = Some j) by (apply Hh; eauto). congruence.
    + rewrite lookup_delete_ne, Hh by done. destruct (decide (j = b)) as [->|Hj].
      * rewrite list_lookup_insert_eq, Hx by done. split; intros (z & [= <-] & Hzf & E); [done|by rewrite <-E in Hk].
      * by rewrite list_lookup_insert_ne.
Qed.

(** While fewer than [NBUF] buffers are out, one is idle. *)
Lemma bufs_ok_idle bs d h :
  bufs_ok bs d h → (size h < NBUF)%nat → ¬ (∀ b x, bs !! b = Some x → idle x = false).
Proof.
  intros [Hl Hb Hu Hh] Hs Hall. apply (Nat.lt_irrefl NBUF). eapply Nat.le_lt_trans; [|exact Hs].
  rewrite <-Hl, <-(length_fmap key bs), <-size_dom. unfold size, set_size. cbn.
  apply submseteq_length, NoDup_submseteq.
  - apply NoDup_alt. intros i j k Hi Hj.
    rewrite list_lookup_fmap in Hi, Hj. destruct (bs !! i) as [x|] eqn:Ei; [|done].
    destruct (bs !! j) as [y|] eqn:Ej; [|done]. cbn in *. apply (Hu i j x y Ei Ej); [congruence|].
    pose proof (Hall _ _ Ei) as Hbu. unfold idle in Hbu.
    destruct (Hb _ _ Ei) as [[E _]|(_ & ? & _)]; [|done]. by rewrite E in Hbu.
  - intros k Hk. apply list_elem_of_fmap in Hk as (x & -> & (b & Hx)%list_elem_of_lookup).
    apply elem_of_elements, elem_of_dom. exists b. apply Hh. exists x. split_and!; [done| |done].
    pose proof (Hall _ _ Hx) as Hbu. unfold idle in Hbu. rewrite (buf_ok_busy _ _ (Hb _ _ Hx)) in Hbu.
    apply negb_false_iff, bool_decide_eq_true in Hbu. done.
Qed.

Section refinement.
Context (havedisk1 : bool).

Definition dev_ok (dev : Z) : Prop := dev ≠ NODEV ∧ (dev = 0 ∨ havedisk1 = true).

Lemma ring_bufs l h c s : sim l h c s → head ∉ l ∧ Forall (λ b, is_Some (bufs c !! b)) l ∧ length l = NBUF.
Proof.
  intros [[_ Hr] Hn _ _ [Hl _ _ _]]. apply list.NoDup_cons in Hr as [Hh Hnd]. split; [done|]. split.
  - apply list.Forall_forall. intros b Hb. apply lookup_lt_is_Some_2. rewrite Hl. by apply Hn.
  - rewrite <-(length_seq NBUF 0). apply Permutation_length, NoDup_Permutation; [done|apply NoDup_seq|].
    intros b. rewrite Hn, elem_of_seq. lia.
Qed.

Lemma walk_next_run l h c s p : sim l h c s →
  (∃ b x, walk (S NBUF) c (next c) p (next c !!! head) = Some (Some b) ∧ bufs c !! b = Some x ∧ p x = true) ∨
  (walk (S NBUF) c (next c) p (next c !!! head) = Some None ∧ ∀ b x, bufs c !! b = Some x → p x = false).
Proof.
  intros Hs. destruct (ring_bufs _ _ _ _ Hs) as (Hh & HF & Hl). destruct Hs as [[Hr _] Hn _ _ [Hlen _ _ _]].
  rewrite (lookup_total_Some _ _ _ (links_first _ _ _ _ _ Hr)).
  destruct (walk_run c p _ _ _ _ (S NBUF) Hr Hh HF) as [(b & x & ? & _ & ?)|[? H]]; [lia|left; eauto|].
  right. split; [done|]. intros b x Hx. apply (H b x); [|done]. apply Hn. apply lookup_lt_Some in Hx. lia.
Qed.

Lemma walk_prev_run l h c s p : sim l h c s →
  (∃ b x, walk (S NBUF) c (prev c) p (prev c !!! head) = Some (Some b) ∧ bufs c !! b = Some x ∧ p x = true) ∨
  (walk (S NBUF) c (prev c) p (prev c !!! head) = Some None ∧ ∀ b x, bufs c !! b = Some x → p x = false).
Proof.
  intros Hs. destruct (ring_bufs _ _ _ _ Hs) as (Hh & HF & Hl). destruct Hs as [[Hr _] Hn _ _ [Hlen _ _ _]].
  apply links_reverse in Hr. rewrite (lookup_total_Some _ _ _ (links_first _ _ _ _ _ Hr)).
  destruct (walk_run c p _ _ (reverse l) head (S NBUF) Hr) as [(b & x & ? & _ & ?)|[? H]].
  - by rewrite elem_of_reverse.
  - by apply Forall_reverse.
  - rewrite length_reverse. lia.
  - left. eauto.
  - right. split; [done|]. intros b x Hx. apply (H b x); [|done]. rewrite elem_of_reverse.
    apply Hn. apply lookup_lt_Some in Hx. lia.
Qed.

(** Taking buffer [b] for a block keeps the simulation. *)
Lemma sim_take l h c s b x y :
  sim l h c s → bufs c !! b = Some x → idle x = true →
  b_flags y = Z.lor B_VALID B_BUSY → b_dev y ≠ NODEV → disk c !! key y = Some (b_data y) →
  (∀ j z, bufs c !! j = Some z → key z = key y → j = b) →
  sim l (<[key y := b]> h) (mkBcache (<[b := y]> (bufs c)) (next c) (prev c) (disk c))
    (mkFs (blocks s) ({[ key y ]} ∪ busy s) (icache s)).
Proof.
  intros [Hr Hn Hd Hb Ho] Hx Hi Hf Hdev Hk Hu. constructor; [done..| |].
  - cbn. by rewrite dom_insert_L, Hb.
  - by eapply bufs_ok_take.
Qed.

Lemma cached_spec dev sector x : cached dev sector x = true ↔ key x = (dev, sector).
Proof. unfold cached, key. rewrite andb_true_iff, !Z.eqb_eq. split; [by intros [-> ->]|by intros [= -> ->]]. Qed.

Definition with_buf (b : nat) (y : buf) (c : bcache) : bcache :=
  mkBcache (<[b := y]> (bufs c)) (next c) (prev c) (disk c).

Lemma bget_hit l h c s dev k b x :
  sim l h c s → dev ≠ NODEV → bufs c !! b = Some x → key x = (dev, k) →
  bget dev k c = if has (b_flags x) B_BUSY then Blocked
                 else Ok (b, with_buf b (set_bflags (Z.lor (b_flags x) B_BUSY) x) c).
Proof.
  intros Hs Hdev Hx Hk. unfold bget, get, modify, need, mret, M_ret, mbind, M_bind.
  destruct (walk_next_run _ _ _ _ (cached dev k) Hs) as [(b' & x' & -> & Hx' & Hc)|[_ Hmiss]].
  - apply cached_spec in Hc. assert (b' = b) as ->.
    { apply (bo_uniq _ _ _ (sim_bufs _ _ _ _ Hs) b' b x' x Hx' Hx); [congruence|]. by injection Hc as ->. }
    rewrite Hx. destruct (has (b_flags x) B_BUSY); [done|].
    unfold upd_buf. by rewrite (list_alter_insert _ _ _ _ Hx).
  - apply cached_spec in Hk. by rewrite (Hmiss _ _ Hx) in Hk.
Qed.

Lemma bget_miss l h c s dev k :
  sim l h c s → (size h < NBUF)%nat → (∀ b x, bufs c !! b = Some x → key x ≠ (dev, k)) →
  ∃ b x, bufs c !! b = Some x ∧ idle x = true ∧
    bget dev k c = Ok (b, with_buf b (mkBuf B_BUSY dev k (b_data x)) c).
Proof.
  intros Hs Hsize Hno. unfold bget, get, modify, need, mret, M_ret, mbind, M_bind.
  destruct (walk_next_run _ _ _ _ (cached dev k) Hs) as [(b' & x' & _ & Hx' & Hc)|[-> _]].
  { apply cached_spec in Hc. by apply Hno in Hx'. }
  destruct (walk_prev_run _ _ _ _ idle Hs) as [(b & x & -> & Hx & Hi)|[_ Hall]].
  - exists b, x. split_and!; [done..|]. unfold upd_buf. by rewrite (list_alter_insert _ _ _ _ Hx).
  - by destruct (bufs_ok_idle _ _ _ (sim_bufs _ _ _ _ Hs) Hsize).
Qed.

Lemma iderw_read c b dev k dat :
  dev_ok dev → bufs c !! b = Some (mkBuf B_BUSY dev k dat) →
  iderw havedisk1 b c = match disk c !! (dev, k) with
                        | Some d => Ok (tt, with_buf b (mkBuf (Z.lor B_VALID B_BUSY) dev k d) c)
                        | None => Undef
                        end.
Proof.
  intros [_ Hd] Hx. unfold iderw, get, need, modify, mret, M_ret, mbind, M_bind. rewrite Hx.
  cbn [b_flags b_dev b_sector]. change (has B_BUSY B_BUSY) with true. change (has B_BUSY B_DIRTY) with false.
  change (Z.land B_BUSY _ =? B_VALID) with false. cbn [negb].
  replace (negb (dev =? 0) && negb havedisk1) with false.
  2:{ destruct Hd as [-> | ->]; [done|]. by destruct (dev =? 0). }
  destruct (disk c !! (dev, k)) as [d|]; [|done]. unfold upd_buf. cbn [bufs next prev disk]. by rewrite (list_alter_insert _ _ _ _ Hx).
Qed.

Lemma bread_get c dev k b x c1 :
  bget dev k c = Ok (b, c1) → bufs c1 !! b = Some x →
  bread havedisk1 dev k c =
    if has (b_flags x) B_VALID then Ok (b, c1)
    else match iderw havedisk1 b c1 with
         | Ok (_, c2) => Ok (b, c2)
         | Panic m => Panic m | Blocked => Blocked | Undef => Undef | NoFuel => NoFuel
         end.
Proof.
  intros Hg Hx. unfold bread, get, need, when, mret, M_ret, mbind, M_bind. rewrite Hg, Hx.
  by destruct (has (b_flags x) B_VALID).
Qed.

Lemma bread_sim l h c s dev k :
  sim l h c s → dev_ok dev → (size h < NBUF)%nat →
  match Fs.bread dev k s with
  | Ok (d, s') => ∃ b c', bread havedisk1 dev k c = Ok (b, c') ∧
      sim l (<[(dev, k) := b]> h) c' s' ∧ b_data <$> (bufs c' !! b) = Some d
  | Blocked => bread havedisk1 dev k c = Blocked
  | Undef => bread havedisk1 dev k c = Undef
  | _ => False
  end.
Proof.
  intros Hs Hd Hsize. pose proof Hs as [Hr Hn Hdk Hb Ho]. pose proof Hd as [Hdev _].
  unfold Fs.bread, get, mbind, M_bind. rewrite Hb.
  destruct (walk_next_run _ _ _ _ (cached dev k) Hs) as [(b & x & _ & Hx & Hc)|[_ Hmiss]].
  - apply cached_spec in Hc. pose proof (bget_hit _ _ _ _ _ _ _ _ Hs Hdev Hx Hc) as Hg.
    rewrite (buf_ok_busy _ _ (bo_buf _ _ _ Ho _ _ Hx)) in Hg.
    destruct (bo_buf _ _ _ Ho _ _ Hx) as [[_ E]|(Hf & _ & Hk)].
    { exfalso. apply Hdev. rewrite <-E. by injection Hc. }
    rewrite Hc in Hk. destruct (decide ((dev, k) ∈ dom h)) as [Hbusy|Hbusy].
    + apply elem_of_dom in Hbusy as [b' Hb']. pose proof Hb' as (x' & Hx' & Hf' & Hk')%(bo_held _ _ _ Ho).
      assert (b = b') as <- by (apply (bo_uniq _ _ _ Ho b b' x x' Hx Hx'); [congruence|by injection Hc as ->]).
      rewrite bool_decide_eq_true_2 in Hg by congruence. unfold bread, mbind, M_bind. by rewrite Hg.
    + assert (b_flags x = B_VALID) as Hfx.
      { destruct Hf as [?|Hf]; [done|]. exfalso. apply Hbusy, elem_of_dom. exists b. apply (bo_held _ _ _ Ho). eauto. }
      rewrite Hfx, bool_decide_eq_false_2 in Hg by done. rewrite <-Hdk, Hk. cbn.
      rewrite (bread_get c dev k b (set_bflags (Z.lor B_VALID B_BUSY) x) _ Hg)
        by (cbn; apply list_lookup_insert_eq; by eapply lookup_lt_Some).
      eexists _, _. split; [reflexivity|].
      split; [|cbn; by rewrite list_lookup_insert_eq by (by eapply lookup_lt_Some)].
      pose proof (sim_take l h c s b x (set_bflags (Z.lor B_VALID B_BUSY) x) Hs Hx) as Ht.
      change (key (set_bflags (Z.lor B_VALID B_BUSY) x)) with (key x) in Ht. rewrite Hc, <-Hdk, Hb in Ht.
      apply Ht; [|done| |done|].
      * unfold idle. by rewrite Hfx.
      * by injection Hc as <-.
      * intros j z Hz E. apply (bo_uniq _ _ _ Ho j b z x Hz Hx); [congruence|]. by injection E as ->.
  - rewrite decide_False.
    2:{ intros [b' Hb']%elem_of_dom. apply (bo_held _ _ _ Ho) in Hb' as (x' & Hx' & _ & Hk').
        apply cached_spec in Hk'. by rewrite (Hmiss _ _ Hx') in Hk'. }
    assert (∀ b x, bufs c !! b = Some x → key x ≠ (dev, k)) as Hno.
    { intros b x Hx E%cached_spec. by rewrite (Hmiss _ _ Hx) in E. }
    destruct (bget_miss _ _ _ _ dev k Hs Hsize Hno) as (b & x & Hx & Hi & Hg).
    set (c1 := with_buf b _ c) in *.
    assert (bufs c1 !! b = Some (mkBuf B_BUSY dev k (b_data x))) as Hx1
      by (cbn; apply list_lookup_insert_eq; by eapply lookup_lt_Some).
    rewrite (bread_get c dev k b _ _ Hg Hx1), (iderw_read _ _ _ _ _ Hd Hx1). cbn.
    rewrite <-Hdk. destruct (disk c !! (dev, k)) as [d|] eqn:Hk; [|done]. cbn.
    eexists _, _. split; [reflexivity|]. unfold with_buf. cbn. rewrite list_insert_insert_eq.
    split; [|cbn; by rewrite list_lookup_insert_eq by (by eapply lookup_lt_Some)].
    rewrite <-Hb. pose proof (sim_take l h c s b x (mkBuf 3 dev k d) Hs Hx Hi eq_refl Hdev Hk) as Ht.
    rewrite <-Hdk in Ht. apply Ht. intros j z Hz E. by apply Hno in Hz.
Qed.

Lemma bwrite_sim l h c s dev k b d :
  sim l h c s → dev_ok dev → h !! (dev, k) = Some b →
  ∃ c' s', Fs.bwrite dev k d s = Ok (tt, s') ∧ bwrite havedisk1 b (upd_buf b (set_data d) c) = Ok (tt, c') ∧
    sim l h c' s'.
Proof.
  intros Hs [Hdev Hd1] Hh. pose proof Hs as [Hr Hn Hdk Hb Ho].
  pose proof Hh as (x & Hx & Hf & Hk)%(bo_held _ _ _ Ho). pose proof (lookup_lt_Some _ _ _ Hx) as Hlt.
  unfold Fs.bwrite, bwrite, iderw, modify, need, get, put, mret, M_ret, mbind, M_bind, upd_buf. cbn [bufs].
  rewrite Hb, decide_True by (by apply elem_of_dom).
  rewrite (list_alter_insert _ _ _ _ Hx), list_lookup_insert_eq by done.
  cbn [b_flags set_data bufs next prev disk]. rewrite Hf. change (has (Z.lor B_VALID B_BUSY) B_BUSY) with true.
  cbn [negb bufs next prev disk]. rewrite (list_alter_insert _ b _ (set_data d x)) by (by rewrite list_lookup_insert_eq).
  rewrite list_insert_insert_eq, list_lookup_insert_eq by done. cbn [b_flags b_dev b_sector b_data set_data set_bflags].
  rewrite Hf. change (has (Z.lor (Z.lor B_VALID B_BUSY) B_DIRTY) B_BUSY) with true.
  change (has (Z.lor (Z.lor B_VALID B_BUSY) B_DIRTY) B_DIRTY) with true.
  change (Z.land (Z.lor (Z.lor B_VALID B_BUSY) B_DIRTY) _ =? B_VALID) with false. cbn [negb].
  replace (negb (b_dev x =? 0) && negb havedisk1) with false.
  2:{ unfold key in Hk. injection Hk as -> _. destruct Hd1 as [-> | ->]; [done|]. by destruct (dev =? 0). }
  rewrite (list_alter_insert _ b _ (set_bflags (Z.lor (Z.lor B_VALID B_BUSY) B_DIRTY) (set_data d x)))
    by (by rewrite list_lookup_insert_eq).
  rewrite list_insert_insert_eq. cbn.
  eexists _, _. split; [reflexivity|]. split; [reflexivity|].
  rewrite <-Hk in Hh. pose proof (bufs_ok_write _ _ _ _ _ d Ho Hh Hx) as Hw.
  unfold set_bflags, set_data in *. cbn in *. rewrite Hf in Hw. unfold key in Hk. injection Hk as <- <-.
  constructor; [done|done|cbn; by rewrite Hdk|done|done].
Qed.

Lemma brelse_sim l h c s dev k b :
  sim l h c s → h !! (dev, k) = Some b →
  ∃ c' s' l', Fs.brelse dev k s = Ok (tt, s') ∧ brelse b c = Ok (tt, c') ∧ sim l' (delete (dev, k) h) c' s'.
Proof.
  intros Hs Hh. pose proof Hs as [Hr Hn Hdk Hb Ho].
  pose proof Hh as (x & Hx & Hf & Hk)%(bo_held _ _ _ Ho). pose proof (lookup_lt_Some _ _ _ Hx) as Hlt.
  unfold Fs.brelse, brelse, modify, need, get, put, mret, M_ret, mbind, M_bind, upd_buf.
  rewrite Hb, decide_True by (by apply elem_of_dom). rewrite Hx, Hf.
  change (has (Z.lor B_VALID B_BUSY) B_BUSY) with true. cbn [negb].
  assert (b ∈ l) as Hbl by (apply Hn; by rewrite <-(bo_len _ _ _ Ho)).
  apply list_elem_of_split in Hbl as (l1 & l2 & ->).
  eexists _, _, (b :: l1 ++ l2). split; [reflexivity|]. split; [reflexivity|].
  assert (ring (push_front b (unlink b c)) (b :: l1 ++ l2)) as Hring.
  { apply push_front_ring; [by apply unlink_ring|]. destruct Hr as [_ Hnd]. rewrite !list.NoDup_cons in Hnd.
    rewrite elem_of_app, elem_of_cons in Hnd. rewrite elem_of_cons, elem_of_app.
    destruct Hnd as (Hh1 & Hnd). apply list.NoDup_app in Hnd as (_ & Hd1 & [Hd2 _]%list.NoDup_cons).
    intros [->|[?|?]]; [naive_solver| |done]. by apply (Hd1 b); [|left]. }
  constructor.
  - exact Hring.
  - intros j. rewrite <-Hn, elem_of_cons, !elem_of_app, elem_of_cons. tauto.
  - done.
  - cbn. by rewrite dom_delete_L.
  - rewrite <-Hk in Hh. pose proof (bufs_ok_relse _ _ _ _ _ Ho Hh Hx) as Hw. rewrite Hk in Hw.
    cbn [bufs push_front unlink disk]. by rewrite (list_alter_insert _ _ _ _ Hx), Hf.
Qed.

Lemma binit_sim d ic : sim (reverse (seq 0 NBUF)) ∅ (binit d) (mkFs d ∅ ic).
Proof.
  constructor; [| |done|done|constructor].
  - split; [apply (bool_decide_unpack _); vm_compute; exact I|]. rewrite <-(bool_decide_spec (NoDup _)). by vm_compute.
  - intros b. rewrite elem_of_reverse, elem_of_seq. lia.
  - done.
  - intros b x Hx. left. apply list_elem_of_lookup_2 in Hx.
    repeat (apply elem_of_cons in Hx as [->|Hx]; [done|]). by apply elem_of_nil in Hx.
  - intros i j x y Hx _ _ Hd. destruct Hd. apply list_elem_of_lookup_2 in Hx.
    repeat (apply elem_of_cons in Hx as [->|Hx]; [done|]). by apply elem_of_nil in Hx.
  - intros k b. rewrite lookup_empty. split; [done|]. intros (x & Hx & Hf & _). apply list_elem_of_lookup_2 in Hx.
    repeat (apply elem_of_cons in Hx as [->|Hx]; [done|]). by apply elem_of_nil in Hx.
Qed.

(** What a client must respect: real devices, and at most [NBUF] buffers held
    at a time. *)
Fixpoint fits (l : list call) (held : gset (Z * Z)) : Prop :=
  match l with
  | [] => True
  | CRead dev k :: l' => dev_ok dev ∧ (size held < NBUF)%nat ∧ fits l' ({[ (dev, k) ]} ∪ held)
  | CWrite dev k _ :: l' => dev_ok dev ∧ fits l' held
  | CRelse dev k :: l' => fits l' (held ∖ {[ (dev, k) ]})
  end.

Lemma run_sim l : ∀ r h c s, sim r h c s → fits l (dom h) → run_cache havedisk1 l h c = run_spec l s.
Proof.
  induction l as [|[dev k|dev k d|dev k] l IH]; intros r h c s Hs Hfit; [done|..]; cbn [run_cache run_spec].
  - destruct Hfit as (Hd & Hsz & Hfit). rewrite size_dom in Hsz.
    pose proof (bread_sim _ _ _ _ dev k Hs Hd Hsz) as H. destruct (Fs.bread dev k s) as [[d s']| | | |]; try done.
    + destruct H as (b & c' & -> & Hs' & Hb). rewrite (IH _ _ _ _ Hs') by (by rewrite dom_insert_L).
      destruct (bufs c' !! b) as [x|]; [|done]. injection Hb as <-. done.
    + by rewrite H.
    + by rewrite H.
  - destruct Hfit as [Hd Hfit]. destruct (h !! (dev, k)) as [b|] eqn:Hh.
    + destruct (bwrite_sim _ _ _ _ dev k b d Hs Hd Hh) as (c' & s' & -> & -> & Hs'). by apply (IH _ _ _ _ Hs').
    + unfold Fs.bwrite, get, mbind, M_bind. rewrite (sim_busy _ _ _ _ Hs), decide_False; [done|].
      by apply not_elem_of_dom.
  - cbn in Hfit. destruct (h !! (dev, k)) as [b|] eqn:Hh.
    + destruct (brelse_sim _ _ _ _ dev k b Hs Hh) as (c' & s' & l' & -> & -> & Hs').
      apply (IH _ _ _ _ Hs'). by rewrite dom_delete_L.
    + unfold Fs.brelse, get, mbind, M_bind. rewrite (sim_busy _ _ _ _ Hs), decide_False; [done|].
      by apply not_elem_of_dom.
Qed.

(** C3: [bio.c] keeps its promise: over a freshly initialised cache, a client
    that holds at most [NBUF] buffers at a time reads, writes and releases
    blocks with exactly the results of direct access to the disk with a set
    of busy blocks - the data of each read, and the same end: success, the
    wait for a block that is held, or the panic of a block not held. *)
Theorem bcache_refines_disk l d :
  fits l ∅ → run_cache havedisk1 l ∅ (binit d) = run_spec l (mkFs d ∅ []).
Proof. intros H. apply (run_sim l _ _ _ _ (binit_sim d [])). by rewrite dom_empty_L. Qed.
End refinement.

(** Twelve reads recycle the ten buffers; a block written comes back. *)
Definition demo_disk : gmap (Z * Z) (list Z) :=
  list_to_map ((λ k, ((1, Z.of_nat k), [Z.of_nat k])) <$> seq 0 13).
Definition demo_client : list call :=
  [CRead 1 3; CWrite 1 3 [7]; CRelse 1 3] ++
  mjoin ((λ k, [CRead 1 (Z.of_nat k); CRelse 1 (Z.of_nat k)]) <$> seq 4 9) ++
  [CRead 1 1; CRelse 1 1; CRead 1 3; CRead 1 3].

Lemma bcache_refines_disk_witness :
  fits true demo_client ∅ ∧ run_cache true demo_client ∅ (binit demo_disk) = Blocked.
Proof.
  assert (fits true demo_client ∅) as H.
  { unfold demo_client. cbn [mjoin list_join seq fmap list_fmap app fits].
    repeat match goal with |- _ ∧ _ => split end;
      first [exact I | apply Nat.ltb_lt; vm_compute; reflexivity | by split; [|right]]. }
  split; [exact H|]. rewrite (bcache_refines_disk true demo_client demo_disk H). vm_compute. reflexivity.
Defined.
