(* ===== verification/Ide.v ===== *)
(** The disk driver ([xv6/kernel/ide.c]): a queue of buffers, the first of
    which the disk controller is working on. [iderw] is the part up to its
    sleep; [ideintr] is the interrupt that ends a request. The controller is
    hardware: [Ata] states what the driver relies on. *)

From S2P Require Import Prelude Bio.

(** ** The controller

    Its ports; [finish] is the controller's own work on a command, up to the
    interrupt. What a client may rely on is told by four predicates over the
    controller and the contents of the drives: it is idle, it works on a
    command, it has done one (with data to fetch after a read), or a read has
    failed. *)

Inductive ata_cmd := AtaRead (drive lba : Z) | AtaWrite (drive lba : Z) (data : list Z).

Class Ata (D : Type) := {
  inb : Z → D → Z * D;
  outb : Z → Z → D → D;
  insl : D → list Z * D;
  outsl : list Z → D → D;
  finish : D → D;
  ata_idle : D → gmap (Z * Z) (list Z) → Prop;
  ata_busy : D → ata_cmd → gmap (Z * Z) (list Z) → Prop;
  ata_done : D → option (list Z) → gmap (Z * Z) (list Z) → Prop;
  ata_failed : D → gmap (Z * Z) (list Z) → Prop
}.

(** ** Definitions *)

Definition IDE_BSY : Z := 0x80.
Definition IDE_DRDY : Z := 0x40.
Definition IDE_DF : Z := 0x20.
Definition IDE_ERR : Z := 0x01.
Definition IDE_CMD_READ : Z := 0x20.
Definition IDE_CMD_WRITE : Z := 0x30.

(** The buffers, their [qnext] fields, and the driver's variables. [woken]
    collects the channels [wakeup] was called on. *)
Record ide (D : Type) := mkIde {
  ibufs : list buf;
  qnext : gmap nat (option nat);
  idequeue : option nat;
  havedisk1 : bool;
  ctl : D;
  woken : list nat
}.
Arguments mkIde {D} _ _ _ _ _ _.
Arguments ibufs {D} _.
Arguments qnext {D} _.
Arguments idequeue {D} _.
Arguments havedisk1 {D} _.
Arguments ctl {D} _.
Arguments woken {D} _.

Section ide.
Context {D : Type} `{Ata D}.
(** How often the status port is read before the disk gets ready, at most. *)
Context (POLLS : nat).

Definition set_ctl (d : D) (s : ide D) : ide D :=
  mkIde (ibufs s) (qnext s) (idequeue s) (havedisk1 s) d (woken s).
Definition set_queue (q : option nat) (s : ide D) : ide D :=
  mkIde (ibufs s) (qnext s) q (havedisk1 s) (ctl s) (woken s).
Definition set_qnext (b : nat) (q : option nat) (s : ide D) : ide D :=
  mkIde (ibufs s) (<[b := q]> (qnext s)) (idequeue s) (havedisk1 s) (ctl s) (woken s).
Definition set_buf (b : nat) (x : buf) (s : ide D) : ide D :=
  mkIde (<[b := x]> (ibufs s)) (qnext s) (idequeue s) (havedisk1 s) (ctl s) (woken s).

(** The polling loop: the status it ends with. *)
Fixpoint idewait_loop (fuel : nat) (d : D) : option (Z * D) :=
  match fuel with
  | O => None
  | S fuel' =>
      let '(r, d) := inb 0x1f7 d in
      if Z.land r (Z.lor IDE_BSY IDE_DRDY) =? IDE_DRDY then Some (r, d) else idewait_loop fuel' d
  end.
Definition idewait (checkerr : bool) : M (ide D) Z :=
  s ← get;
  match idewait_loop POLLS (ctl s) with
  | None => nofuel
  | Some (r, d) =>
      put (set_ctl d s);;
      mret (if checkerr && ctrue (Z.land r (Z.lor IDE_DF IDE_ERR)) then -1 else 0)
  end.

(** The registers a request is written to, in order, before its command. *)
Definition ata_regs (dev sector : Z) : list (Z * Z) :=
  [(0x3f6, 0); (0x1f2, 1);
   (0x1f3, Z.land sector 0xff);
   (0x1f4, Z.land (Z.shiftr sector 8) 0xff);
   (0x1f5, Z.land (Z.shiftr sector 16) 0xff);
   (0x1f6, Z.lor (Z.lor 0xe0 (Z.shiftl (Z.land dev 1) 4)) (Z.land (Z.shiftr sector 24) 0x0f))].
Definition outbs (l : list (Z * Z)) (d : D) : D := foldl (λ d p, outb p.1 p.2 d) d l.

Definition idestart (b : option nat) : M (ide D) unit :=
  match b with
  | None => panic "idestart"
  | Some b =>
      _ ← idewait false;
      s ← get;
      x ← need (ibufs s !! b);
      let d := outbs (ata_regs (b_dev x) (b_sector x)) (ctl s) in
      if has (b_flags x) B_DIRTY
      then put (set_ctl (outsl (b_data x) (outb 0x1f7 IDE_CMD_WRITE d)) s)
      else put (set_ctl (outb 0x1f7 IDE_CMD_READ d) s)
  end.

(** [ideinit]: the polls that look for a second disk. *)
Fixpoint find_disk1 (n : nat) (d : D) : bool * D :=
  match n with
  | O => (false, d)
  | S n' => let '(r, d) := inb 0x1f7 d in if ctrue r then (true, d) else find_disk1 n' d
  end.
Definition ideinit : M (ide D) unit :=
  _ ← idewait false;
  s ← get;
  let '(found, d) := find_disk1 1000 (outb 0x1f6 (Z.lor 0xe0 (Z.shiftl 1 4)) (ctl s)) in
  put (mkIde (ibufs s) (qnext s) (idequeue s) (if found then true else havedisk1 s)
    (outb 0x1f6 (Z.lor 0xe0 (Z.shiftl 0 4)) d) (woken s)).

Definition ideintr : M (ide D) unit :=
  s ← get;
  match idequeue s with
  | None => mret tt
  | Some b =>
      q ← need (qnext s !! b);
      put (set_queue q s);;
      x ← need (ibufs s !! b);
      r ← (if negb (has (b_flags x) B_DIRTY) then idewait true else mret (-1));
      s ← get;
      (if r >=? 0 then
        let '(data, d) := insl (ctl s) in
        put (set_ctl d (set_buf b (mkBuf (b_flags x) (b_dev x) (b_sector x) data) s))
       else mret tt);;
      s ← get;
      x ← need (ibufs s !! b);
      let s := set_buf b (set_bflags (Z.land (Z.lor (b_flags x) B_VALID) (Z.lnot B_DIRTY)) x) s in
      put (mkIde (ibufs s) (qnext s) (idequeue s) (havedisk1 s) (ctl s) (woken s ++ [b]));;
      match q with Some _ => idestart q | None => mret tt end
  end.

(** [for(pp=&idequeue; *pp; pp=&( *pp)->qnext)]: the buffer whose [qnext] the
    loop ends at. *)
Fixpoint last_queued (fuel : nat) (qn : gmap nat (option nat)) (b : nat) : option nat :=
  match fuel with
  | O => None
  | S fuel' =>
      match qn !! b with
      | None => None
      | Some None => Some b
      | Some (Some b') => last_queued fuel' qn b'
      end
  end.

(** [iderw], up to its sleep. *)
Definition iderw_start (b : nat) : M (ide D) unit :=
  s ← get;
  x ← need (ibufs s !! b);
  if negb (has (b_flags x) B_BUSY) then panic "iderw: buf not busy" else
  if Z.land (b_flags x) (Z.lor B_VALID B_DIRTY) =? B_VALID then panic "iderw: nothing to do" else
  if negb (b_dev x =? 0) && negb (havedisk1 s) then panic "iderw: ide disk 1 not present" else
  modify (set_qnext b None);;
  s ← get;
  match idequeue s with
  | None => put (set_queue (Some b) s)
  | Some b0 =>
      match last_queued (S (length (ibufs s))) (qnext s) b0 with
      | None => nofuel
      | Some z => put (set_qnext z (Some b) s)
      end
  end;;
  s ← get;
  if decide (idequeue s = Some b) then idestart (Some b) else mret tt.

(** The condition of [iderw]'s wait: it sleeps while this is false. *)
Definition request_done (s : ide D) (b : nat) : bool :=
  match ibufs s !! b with
  | Some x => Z.land (b_flags x) (Z.lor B_VALID B_DIRTY) =? B_VALID
  | None => false
  end.

(** ** The driver and its users

    The owner of a buffer changes it, or hands it to the driver; the
    controller finishes what it is working on and interrupts. *)
Inductive ide_event := Own (b : nat) (x : buf) | Rw (b : nat) | Intr.

Definition ide_step (e : ide_event) : M (ide D) unit :=
  match e with
  | Own b x => modify (set_buf b x)
  | Rw b => iderw_start b
  | Intr => modify (λ s, match idequeue s with Some _ => set_ctl (finish (ctl s)) s | None => s end);; ideintr
  end.
Fixpoint ide_run (es : list ide_event) : M (ide D) unit :=
  match es with
  | [] => mret tt
  | e :: es' => ide_step e;; ide_run es'
  end.
End ide.
