(* ===== verification/IdeProofs.v ===== *)
(** The disk driver keeps the promise that the buffer cache uses: requests are
    served one after the other, in the order they were made, each as the one
    step [Bio.iderw]; and what it makes of a failed read. *)

From S2P Require Import Prelude Bio Ide.

(** ** What the controller promises *)

Class AtaLaws (D : Type) `{Ata D} (POLLS : nat) := {
  ata_done_idle d m : ata_done d None m → ata_idle d m;
  ata_idle_poll d m : ata_idle d m → ∃ r d', idewait_loop POLLS d = Some (r, d') ∧ ata_idle d' m;
  ata_done_poll d data m : ata_done d (Some data) m →
    ∃ r d', idewait_loop POLLS d = Some (r, d') ∧ Z.land r (Z.lor IDE_DF IDE_ERR) = 0 ∧ ata_done d' (Some data) m;
  ata_failed_poll d m : ata_failed d m →
    ∃ r d', idewait_loop POLLS d = Some (r, d') ∧ Z.land r (Z.lor IDE_DF IDE_ERR) ≠ 0 ∧ ata_idle d' m;
  ata_fetch d data m : ata_done d (Some data) m → ∃ d', insl d = (data, d') ∧ ata_idle d' m;
  ata_read d m drive a b c e : ata_idle d m → 0 ≤ drive < 2 → is_byte a → is_byte b → is_byte c → 0 ≤ e < 16 →
    ata_busy (outb 0x1f7 IDE_CMD_READ (outbs [(0x3f6, 0); (0x1f2, 1); (0x1f3, a); (0x1f4, b); (0x1f5, c);
      (0x1f6, Z.lor (Z.lor 0xe0 (Z.shiftl drive 4)) e)] d))
      (AtaRead drive (a + 2 ^ 8 * b + 2 ^ 16 * c + 2 ^ 24 * e)) m;
  ata_write d m drive a b c e data : ata_idle d m → 0 ≤ drive < 2 → is_byte a → is_byte b → is_byte c → 0 ≤ e < 16 →
    length data = 512%nat →
    ata_busy (outsl data (outb 0x1f7 IDE_CMD_WRITE (outbs [(0x3f6, 0); (0x1f2, 1); (0x1f3, a); (0x1f4, b); (0x1f5, c);
      (0x1f6, Z.lor (Z.lor 0xe0 (Z.shiftl drive 4)) e)] d)))
      (AtaWrite drive (a + 2 ^ 8 * b + 2 ^ 16 * c + 2 ^ 24 * e) data) m;
  ata_finish_read d drive lba m data : ata_busy d (AtaRead drive lba) m → m !! (drive, lba) = Some data →
    ata_done (finish d) (Some data) m;
  ata_finish_write d drive lba data m : ata_busy d (AtaWrite drive lba data) m →
    ata_done (finish d) None (<[(drive, lba) := data]> m)
}.

(** ** The promise *)

(** A request the driver can take: what [iderw] checks, a sector within the 28
    bits of the registers, and a block to write or a sector to read. *)
Definition ready_req (hd : bool) (c : bcache) (x : buf) : Prop :=
  has (b_flags x) B_BUSY = true ∧ (Z.land (b_flags x) (Z.lor B_VALID B_DIRTY) =? B_VALID) = false ∧
  (b_dev x = 0 ∨ b_dev x = 1 ∧ hd = true) ∧ 0 ≤ b_sector x < 2 ^ 28 ∧
  (if has (b_flags x) B_DIRTY then length (b_data x) = 512%nat else is_Some (disk c !! (b_dev x, b_sector x))).
#[export] Instance ready_req_dec hd c x : Decision (ready_req hd c x).
Proof. unfold ready_req. destruct (has (b_flags x) B_DIRTY); apply _. Defined.

(** The buffers and the disk of a cache, and the requests that wait: an
    interrupt is [Bio.iderw] of the first. *)
Definition spec_step (hd : bool) (e : ide_event) (a : bcache * list nat) : option (bcache * list nat) :=
  let '(c, l) := a in
  match e with
  | Own b x => if decide (b ∈ l) then None else Some (mkBcache (<[b := x]> (bufs c)) (next c) (prev c) (disk c), l)
  | Rw b =>
      if decide (b ∈ l) then None else
      x ← bufs c !! b;
      if decide (ready_req hd c x) then Some (c, l ++ [b]) else None
  | Intr =>
      match l with
      | [] => Some (c, [])
      | b :: l' => match Bio.iderw hd b c with Ok (_, c') => Some (c', l') | _ => None end
      end
  end.
Fixpoint spec_run (hd : bool) (es : list ide_event) (a : bcache * list nat) : option (bcache * list nat) :=
  match es with
  | [] => Some a
  | e :: es' => spec_step hd e a ≫= spec_run hd es'
  end.

(** ** The queue *)

Fixpoint chain (qn : gmap nat (option nat)) (l : list nat) : Prop :=
  match l with
  | [] => True
  | b :: l' => qn !! b = Some (hd_error l') ∧ chain qn l'
  end.

Lemma chain_other qn l b q : b ∉ l → chain qn l → chain (<[b := q]> qn) l.
Proof.
  induction l as [|x l IH]; intros Hb; cbn; [done|]. apply not_elem_of_cons in Hb as [Hx Hb].
  rewrite lookup_insert_ne by done. intros [? ?]. split; [done|]. by apply IH.
Qed.

Lemma last_queued_chain qn l z : ∀ b fuel, chain qn (l ++ [z]) → hd_error (l ++ [z]) = Some b → (length l < fuel)%nat →
  last_queued fuel qn b = Some z.
Proof.
  induction l as [|x l IH]; intros b [|fuel] Hc Hb Hf; cbn [length] in Hf; try lia; cbn in Hb; simplify_eq;
    destruct Hc as [Hq Hc]; cbn [last_queued]; rewrite Hq; cbn [hd_error]; [done|].
  destruct (hd_error (l ++ [z])) as [b'|] eqn:E; [|by destruct l]. by apply IH; [..|lia].
Qed.

Lemma chain_snoc qn l z b : NoDup (l ++ [z]) → b ∉ l ++ [z] → qn !! b = Some None → chain qn (l ++ [z]) →
  chain (<[z := Some b]> qn) ((l ++ [z]) ++ [b]).
Proof.
  induction l as [|x l IH]; cbn [app chain]; intros Hn Hb Hq.
  - intros _. rewrite lookup_insert_eq, lookup_insert_ne by (intros ->; apply Hb; by left). by cbn.
  - intros [Hx Hc]. apply list.NoDup_cons in Hn as [Hxl Hn]. apply not_elem_of_cons in Hb as [Hbx Hb].
    rewrite lookup_insert_ne by (intros ->; apply Hxl, elem_of_app; right; by left).
    split; [|by apply IH]. rewrite Hx. by destruct l.
Qed.

(** ** The registers *)

Lemma sector_registers k : 0 ≤ k < 2 ^ 28 →
  Z.land k 0xff + 2 ^ 8 * Z.land (Z.shiftr k 8) 0xff + 2 ^ 16 * Z.land (Z.shiftr k 16) 0xff +
    2 ^ 24 * Z.land (Z.shiftr k 24) 0x0f = k.
Proof.
  intros Hk. change 0xff with (Z.ones 8). change 0x0f with (Z.ones 4). rewrite !Z.land_ones, !Z.shiftr_div_pow2 by lia.
  pose proof (Z.div_mod k (2 ^ 8)). pose proof (Z.div_mod (k / 2 ^ 8) (2 ^ 8)).
  pose proof (Z.div_mod (k / 2 ^ 16) (2 ^ 8)).
  rewrite (Z.mod_small (k / 2 ^ 24)) by (split; [apply Z.div_pos; lia|apply Z.div_lt_upper_bound; lia]).
  replace (k / 2 ^ 16) with (k / 2 ^ 8 / 2 ^ 8) in * by (rewrite Z.div_div by lia; done).
  replace (k / 2 ^ 24) with (k / 2 ^ 8 / 2 ^ 8 / 2 ^ 8) by (rewrite !Z.div_div by lia; done). lia.
Qed.
Lemma land_byte k : is_byte (Z.land k 0xff).
Proof. change 0xff with (Z.ones 8). rewrite Z.land_ones by lia. apply Z.mod_pos_bound. lia. Qed.
Lemma land_nibble k : 0 ≤ Z.land k 0x0f < 16.
Proof. change 0x0f with (Z.ones 4). rewrite Z.land_ones by lia. apply Z.mod_pos_bound. lia. Qed.

(** ** The driver against the promise *)

#[local] Arguments idestart : simpl never.
#[local] Arguments idewait : simpl never.
#[local] Arguments last_queued : simpl never.
Ltac run := cbv [mbind M_bind mret M_ret get put modify need]; cbn.

Section sim.
Context {D : Type} `{HA : Ata D} (POLLS : nat) {HL : AtaLaws D POLLS} (hd : bool).

Definition cmd_of (x : buf) : ata_cmd :=
  if has (b_flags x) B_DIRTY then AtaWrite (b_dev x) (b_sector x) (b_data x) else AtaRead (b_dev x) (b_sector x).
Definition waiting (c : bcache) (b : nat) : Prop := ∃ x, bufs c !! b = Some x ∧ ready_req hd c x.
(** The controller works on the first request. *)
Definition working (d : D) (c : bcache) (l : list nat) : Prop :=
  match l with
  | [] => ata_idle d (disk c)
  | b :: _ => ∃ x, bufs c !! b = Some x ∧ ata_busy d (cmd_of x) (disk c)
  end.

Record sim (s : ide D) (c : bcache) (l : list nat) : Prop := {
  sm_bufs : ibufs s = bufs c;
  sm_disk1 : havedisk1 s = hd;
  sm_head : idequeue s = hd_error l;
  sm_chain : chain (qnext s) l;
  sm_nodup : NoDup l;
  sm_wait : Forall (waiting c) l;
  sm_work : working (ctl s) c l
}.

Lemma waiting_short c l : Forall (waiting c) l → NoDup l → (length l ≤ length (bufs c))%nat.
Proof.
  intros Hw Hn. rewrite <-(length_seq (length (bufs c)) 0). apply submseteq_length, NoDup_submseteq; [done|].
  intros b Hb. rewrite list.Forall_forall in Hw. destruct (Hw b Hb) as (x & Hx & _).
  apply elem_of_seq. apply lookup_lt_Some in Hx. lia.
Qed.

Lemma idewait_at ce s r d : idewait_loop POLLS (ctl s) = Some (r, d) →
  idewait POLLS ce s = Ok (if ce && ctrue (Z.land r (Z.lor IDE_DF IDE_ERR)) then -1 else 0, set_ctl d s).
Proof. intros E. unfold idewait. rewrite (bind_Ok _ _ _ s s) by done. by rewrite E. Qed.

(** [idestart] on an idle controller. *)
Lemma idestart_busy s b x c : ata_idle (ctl s) (disk c) → ibufs s !! b = Some x → ready_req hd c x →
  ∃ d, idestart POLLS (Some b) s = Ok (tt, set_ctl d s) ∧ ata_busy d (cmd_of x) (disk c).
Proof.
  intros Hi Hx (Hb & Hn & Hdev & Hk & Hd). destruct (ata_idle_poll (ctl s) (disk c) Hi) as (r & d0 & E & Hi0).
  unfold idestart. step (idewait_at false s r d0 E). run. rewrite Hx. run.
  assert (Z.land (b_dev x) 1 = b_dev x) as Edev by (by destruct Hdev as [->|[-> _]]).
  unfold ata_regs, cmd_of. rewrite Edev. destruct (has (b_flags x) B_DIRTY).
  - eexists. split; [done|].
    pose proof (ata_write d0 (disk c) (b_dev x) (Z.land (b_sector x) 0xff) (Z.land (Z.shiftr (b_sector x) 8) 0xff)
      (Z.land (Z.shiftr (b_sector x) 16) 0xff) (Z.land (Z.shiftr (b_sector x) 24) 0x0f) (b_data x)) as W.
    rewrite sector_registers in W by done. apply W; auto using land_byte, land_nibble. lia.
  - eexists. split; [done|].
    pose proof (ata_read d0 (disk c) (b_dev x) (Z.land (b_sector x) 0xff) (Z.land (Z.shiftr (b_sector x) 8) 0xff)
      (Z.land (Z.shiftr (b_sector x) 16) 0xff) (Z.land (Z.shiftr (b_sector x) 24) 0x0f)) as W.
    rewrite sector_registers in W by done. apply W; auto using land_byte, land_nibble. lia.
Qed.

Lemma sim_own s c l b x : sim s c l → b ∉ l →
  sim (set_buf b x s) (mkBcache (<[b := x]> (bufs c)) (next c) (prev c) (disk c)) l.
Proof.
  intros [Hbufs Hd Hh Hc Hn Hw Hk] Hb. split; cbn; try done; [by rewrite Hbufs|..].
  - apply list.Forall_forall. intros b' Hb'. rewrite list.Forall_forall in Hw. destruct (Hw b' Hb') as (x' & Hx' & Hr).
    exists x'. cbn. by rewrite list_lookup_insert_ne by (intros ->; done).
  - destruct l as [|b0 l]; [done|]. destruct Hk as (x0 & Hx0 & Hbusy). exists x0. cbn.
    rewrite list_lookup_insert_ne by (intros ->; apply Hb; by left). done.
Qed.
(** The checks of [iderw]. *)
Lemma iderw_checks s c b x : ibufs s = bufs c → havedisk1 s = hd → bufs c !! b = Some x → ready_req hd c x →
  iderw_start POLLS b s =
    (s ← get;
     match idequeue s with
     | None => put (set_queue (Some b) s)
     | Some b0 =>
         match last_queued (S (length (ibufs s))) (qnext s) b0 with
         | None => nofuel
         | Some z => put (set_qnext z (Some b) s)
         end
     end;;
     s ← get;
     if decide (idequeue s = Some b) then idestart POLLS (Some b) else mret tt) (set_qnext b None s).
Proof.
  intros Hbufs Hd1 Hx (Hb & Hn & Hdev & Hk & Hd). unfold iderw_start. rewrite (bind_Ok get _ s s s) by done. rewrite Hbufs, Hx. cbn [need]. rewrite bind_ret, Hb, Hn. cbn [negb].
  replace (negb (b_dev x =? 0) && negb (havedisk1 s)) with false by (destruct Hdev as [->|[-> ->]]; [done|by rewrite Hd1]).
  done.
Qed.

Lemma sim_rw s c l b x : sim s c l → b ∉ l → bufs c !! b = Some x → ready_req hd c x →
  ∃ s', iderw_start POLLS b s = Ok (tt, s') ∧ sim s' c (l ++ [b]) ∧ woken s' = woken s.
Proof.
  intros [Hbufs Hd Hh Hc Hn Hw Hk] Hb Hx Hr. rewrite (iderw_checks s c b x) by done.
  assert (waiting c b) as Hwb by (by exists x). run. rewrite Hh.
  destruct l as [|b0 l]; cbn [hd_error].
  - run. rewrite decide_True by done.
    destruct (idestart_busy (set_queue (Some b) (set_qnext b None s)) b x c) as (d & E & Hbusy);
      [done|cbn; by rewrite Hbufs|done|].
    rewrite E. eexists. split; [done|]. split; [|done].
    split; cbn; try done; [by rewrite lookup_insert_eq|constructor; [set_solver|constructor]|by constructor|by exists x].
  - destruct (exists_last (l := b0 :: l) ltac:(done)) as (l0 & z & E0). rewrite E0 in *.
    assert (hd_error (l0 ++ [z]) = Some b0) as Eh by (by rewrite <-E0).
    pose proof (waiting_short c _ Hw Hn) as Hlen. rewrite length_app in Hlen. cbn [length] in Hlen.
    assert (chain (<[b := None]> (qnext s)) (l0 ++ [z])) as Hc' by (by apply chain_other).
    run. rewrite Hbufs, (last_queued_chain _ l0 z b0 _ Hc' Eh) by lia. run. rewrite Hh, Eh.
    rewrite decide_False by (intros [= ->]; apply Hb; rewrite <-E0; by left).
    eexists. split; [done|]. split; [|done]. split; cbn; try done.
    + rewrite Hh, Eh. by destruct l0; cbn in *.
    + apply chain_snoc; try done. by rewrite lookup_insert_eq.
    + apply list.NoDup_app. split_and!; [done|set_solver|apply NoDup_singleton].
    + apply list.Forall_app. split; [done|by constructor].
    + by destruct l0; cbn in *.
Qed.

Lemma flags_done f : Z.land (Z.land (Z.lor f B_VALID) (Z.lnot B_DIRTY)) (Z.lor B_VALID B_DIRTY) = B_VALID.
Proof.
  rewrite <-Z.land_assoc. change (Z.land (Z.lnot B_DIRTY) (Z.lor B_VALID B_DIRTY)) with B_VALID.
  apply Z.bits_inj'. intros n Hn. rewrite Z.land_spec, Z.lor_spec. by destruct (Z.testbit f n), (Z.testbit B_VALID n).
Qed.

(** The buffer and the disk once a request is served. *)
Definition served_buf (data : list Z) (x : buf) : buf :=
  mkBuf (Z.land (Z.lor (b_flags x) B_VALID) (Z.lnot B_DIRTY)) (b_dev x) (b_sector x) data.
Definition served (b : nat) (data : list Z) (x : buf) (c : bcache) : bcache :=
  mkBcache (<[b := served_buf data x]> (bufs c)) (next c) (prev c)
    (if has (b_flags x) B_DIRTY then <[(b_dev x, b_sector x) := data]> (disk c) else disk c).
(** What the request moves. *)
Definition payload (c : bcache) (x : buf) (data : list Z) : Prop :=
  if has (b_flags x) B_DIRTY then data = b_data x else disk c !! (b_dev x, b_sector x) = Some data.

Lemma bio_iderw c b x data : bufs c !! b = Some x → ready_req hd c x → payload c x data →
  Bio.iderw hd b c = Ok (tt, served b data x c).
Proof.
  intros Hx (Hb & Hn & Hdev & Hk & Hd) Hp. unfold Bio.iderw. rewrite (bind_Ok get _ c c c) by done. rewrite Hx. cbn [need].
  rewrite bind_ret, Hb, Hn. cbn [negb].
  replace (negb (b_dev x =? 0) && negb hd) with false by (by destruct Hdev as [->|[-> ->]]).
  unfold payload, served, upd_buf in *. destruct (has (b_flags x) B_DIRTY).
  - subst data. unfold put. by erewrite list_alter_insert by done.
  - rewrite Hp. cbn [need]. rewrite bind_ret. unfold modify. by erewrite list_alter_insert by done.
Qed.

Lemma waiting_served c b data x b' : b' ≠ b → waiting c b' → waiting (served b data x c) b'.
Proof.
  intros Hne (x' & Hx' & Hb & Hn & Hdev & Hk & Hd). exists x'. cbn. rewrite list_lookup_insert_ne by done.
  split; [done|]. do 4 (split; [done|]). cbn. destruct (has (b_flags x') B_DIRTY); [done|].
  destruct (has (b_flags x) B_DIRTY); [|done]. apply lookup_insert_is_Some'. by right.
Qed.

(** The controller finishes the first request: the driver's part up to the next
    request. *)
Lemma finish_first s c b l x : sim s c (b :: l) → bufs c !! b = Some x → ready_req hd c x →
  ∃ data d, payload c x data ∧ ata_idle d (disk (served b data x c)) ∧
    ide_step POLLS Intr s =
      match hd_error l with Some _ => idestart POLLS (hd_error l) | None => mret tt end
        (mkIde (bufs (served b data x c)) (qnext s) (hd_error l) (havedisk1 s) d (woken s ++ [b])).
Proof.
  intros [Hbufs Hd1 Hh [Hq Hc] Hn Hw (x0 & Hx0 & Hk)] Hx (Hb & _ & _ & _ & Hd). assert (x0 = x) as -> by congruence.
  unfold ide_step, ideintr. cbn [hd_error] in Hh. unfold payload, served, served_buf, cmd_of in *.
  run. rewrite Hh. run. rewrite Hh. cbn. rewrite Hq. run. rewrite Hbufs, Hx. run.
  destruct (has (b_flags x) B_DIRTY) eqn:Ed; run.
  - apply ata_finish_write in Hk. exists (b_data x), (finish (ctl s)). split_and!; [done|by apply ata_done_idle|].
    rewrite Hbufs, Hx. run. done.
  - destruct Hd as [data Hdata]. eapply ata_finish_read in Hk; [|done].
    destruct (ata_done_poll _ _ _ Hk) as (r & d1 & E & Er & Hk1). destruct (ata_fetch _ _ _ Hk1) as (d2 & Ei & Hi).
    exists data, d2. split_and!; [done..|].
    rewrite (idewait_at true _ r d1) by done. rewrite Er. run. rewrite Ei. run.
    rewrite list_lookup_insert_eq by (rewrite Hbufs; by eapply lookup_lt_Some). run. by rewrite list_insert_insert_eq, Hbufs.
Qed.

Lemma sim_intr s c b l : sim s c (b :: l) →
  ∃ s' c', Bio.iderw hd b c = Ok (tt, c') ∧ ide_step POLLS Intr s = Ok (tt, s') ∧ sim s' c' l ∧
    woken s' = woken s ++ [b] ∧ request_done s' b = true ∧ (∀ b', b' ≠ b → ibufs s' !! b' = ibufs s !! b').
Proof.
  intros Hs. destruct (Forall_cons_1 _ _ _ (sm_wait _ _ _ Hs)) as [(x & Hx & Hr) Hw].
  destruct (finish_first s c b l x Hs Hx Hr) as (data & d & Hp & Hi & E). rewrite E.
  assert (Forall (waiting (served b data x c)) l) as Hw'.
  { apply list.Forall_forall. intros b' Hb'. apply waiting_served; [|by eapply list.Forall_forall in Hw].
    pose proof (sm_nodup _ _ _ Hs) as Hn. apply list.NoDup_cons in Hn as [Hn _]. by intros ->. }
  assert (∀ s' : ide D, ibufs s' = bufs (served b data x c) → request_done s' b = true) as Hdone.
  { intros s' Hb. unfold request_done. rewrite Hb. cbn. rewrite list_lookup_insert_eq by (by eapply lookup_lt_Some).
    cbn [b_flags served_buf]. rewrite flags_done. done. }
  destruct Hs as [Hbufs Hd1 Hh [Hq Hc] Hn _ _]. apply list.NoDup_cons in Hn as [_ Hn].
  assert (∀ s' : ide D, ibufs s' = bufs (served b data x c) → ∀ b', b' ≠ b → ibufs s' !! b' = ibufs s !! b') as Hsame.
  { intros s' -> b' Hb'. cbn. by rewrite Hbufs, list_lookup_insert_ne. }
  destruct l as [|b' l]; cbn [hd_error].
  - eexists _, _. split; [by apply bio_iderw|]. split; [done|]. split; [by split|]. split; [done|]. split; [by apply Hdone|by apply Hsame].
  - destruct (Forall_cons_1 _ _ _ Hw') as [(x' & Hx' & Hr') _].
    destruct (idestart_busy (mkIde (bufs (served b data x c)) (qnext s) (Some b') (havedisk1 s) d (woken s ++ [b]))
      b' x' (served b data x c)) as (d' & E' & Hbusy); [done..|]. rewrite E'.
    eexists _, _. split; [by apply bio_iderw|]. split; [done|].
    split; [split; try done; by exists x'|]. split; [done|]. split; [by apply Hdone|by apply Hsame].
Qed.

Lemma sim_step e s c l c' l' : sim s c l → spec_step hd e (c, l) = Some (c', l') →
  ∃ s', ide_step POLLS e s = Ok (tt, s') ∧ sim s' c' l'.
Proof.
  intros Hs E. destruct e as [b x|b|]; cbn in E.
  - destruct (decide (b ∈ l)); simplify_eq. eexists. split; [done|]. by apply sim_own.
  - destruct (decide (b ∈ l)); [done|]. destruct (bufs c !! b) as [x|] eqn:Hx; cbn in E; [|done].
    destruct (decide (ready_req hd c x)); simplify_eq. destruct (sim_rw s c' l b x) as (s' & E' & Hs' & _); eauto.
  - destruct l as [|b l].
    + simplify_eq. exists s. split; [|done]. destruct Hs as [_ _ Hh _ _ _ _]. unfold ide_step, ideintr.
      run. rewrite Hh. run. by rewrite Hh.
    + destruct (sim_intr s c b l Hs) as (s' & c1 & Eb & Es & Hs' & _). rewrite Eb in E. simplify_eq. eauto.
Qed.

Lemma sim_run es : ∀ s c l c' l', sim s c l → spec_run hd es (c, l) = Some (c', l') →
  ∃ s', ide_run POLLS es s = Ok (tt, s') ∧ sim s' c' l'.
Proof.
  induction es as [|e es IH]; intros s c l c' l' Hs E; cbn [spec_run ide_run] in *; [simplify_eq; by exists s|].
  destruct (spec_step hd e (c, l)) as [[c1 l1]|] eqn:E1; [|done]. cbn in E.
  destruct (sim_step e s c l c1 l1 Hs E1) as (s1 & Es & Hs1). rewrite (bind_Ok _ _ _ _ _ Es). eauto.
Qed.

(** Interrupts empty the queue, first in first out, and the requests are done. *)
Lemma sim_drain l : ∀ s c, sim s c l →
  ∃ s' c', ide_run POLLS (replicate (length l) Intr) s = Ok (tt, s') ∧
    spec_run hd (replicate (length l) Intr) (c, l) = Some (c', []) ∧ sim s' c' [] ∧
    woken s' = woken s ++ l ∧ (∀ b, b ∈ l → request_done s' b = true) ∧ (∀ b, b ∉ l → ibufs s' !! b = ibufs s !! b).
Proof.
  induction l as [|b l IH]; intros s c Hs; cbn [length replicate ide_run spec_run].
  { exists s, c. rewrite app_nil_r. split_and!; try done. intros b Hb. set_solver. }
  destruct (sim_intr s c b l Hs) as (s1 & c1 & Eb & Es & Hs1 & Hwk & Hdone & Hsame).
  destruct (IH s1 c1 Hs1) as (s2 & c2 & Er & Ep & Hs2 & Hwk2 & Hdone2 & Hsame2). exists s2, c2.
  rewrite (bind_Ok _ _ _ _ _ Es). cbn [spec_step]. rewrite Eb. cbn. split_and!; try done.
  - by rewrite Hwk2, Hwk, <-app_assoc.
  - pose proof (sm_nodup _ _ _ Hs) as Hn. apply list.NoDup_cons in Hn as [Hn _].
    intros b' [->|Hb']%elem_of_cons; [|by apply Hdone2]. unfold request_done. by rewrite Hsame2.
  - intros b' [Hb' Hl]%not_elem_of_cons. by rewrite Hsame2, Hsame.
Qed.

Lemma sim_waiting s c l b : sim s c l → b ∈ l → request_done s b = false.
Proof.
  intros Hs Hb. pose proof (sm_wait _ _ _ Hs) as Hw. rewrite list.Forall_forall in Hw.
  destruct (Hw b Hb) as (x & Hx & _ & Hn & _). unfold request_done. by rewrite (sm_bufs _ _ _ Hs), Hx.
Qed.
End sim.

(** ** Properties *)

(** C8: The driver serves requests one at a time and in order: on a controller
    that keeps its promise, whatever buffers are changed and handed over
    between the interrupts, it does what [Bio.iderw] of one request after the
    other does, nobody's wait ends early, and once as many interrupts have come
    as requests are waiting, all are done, their callers are woken in the order
    of the requests, and the controller is idle. *)
Theorem ide_serves_in_order {D : Type} `{HA : Ata D} POLLS {HL : AtaLaws D POLLS} es c0 d0 hd c l :
  ata_idle d0 (disk c0) → spec_run hd es (c0, []) = Some (c, l) →
  ∃ s s' c',
    ide_run POLLS es (mkIde (bufs c0) ∅ None hd d0 []) = Ok (tt, s) ∧ ibufs s = bufs c ∧
    (∀ b, b ∈ l → request_done s b = false) ∧
    ide_run POLLS (replicate (length l) Intr) s = Ok (tt, s') ∧
    spec_run hd (replicate (length l) Intr) (c, l) = Some (c', []) ∧
    ibufs s' = bufs c' ∧ ata_idle (ctl s') (disk c') ∧ woken s' = woken s ++ l ∧
    (∀ b, b ∈ l → request_done s' b = true).
Proof.
  intros Hi E. destruct (sim_run POLLS hd es (mkIde (bufs c0) ∅ None hd d0 []) c0 [] c l) as (s & Es & Hs); [|done|].
  { split; try done; constructor. }
  destruct (sim_drain POLLS hd l s c Hs) as (s' & c' & Er & Ep & Hs' & Hw & Hd & _). exists s, s', c'.
  split_and!; try done; [apply (sm_bufs _ _ _ _ Hs)|..|apply (sm_bufs _ _ _ _ Hs')|apply (sm_work _ _ _ _ Hs')].
  intros b. by apply (sim_waiting hd s c l).
Qed.

(** A failed read is not noticed: when the controller reports an error the
    interrupt leaves the buffer's contents as they were, marks them valid and
    ends the caller's wait as after a success. *)
Theorem failed_read_marked_valid {D : Type} `{HA : Ata D} POLLS {HL : AtaLaws D POLLS} s b x m :
  idequeue s = Some b → qnext s !! b = Some None → ibufs s !! b = Some x → has (b_flags x) B_DIRTY = false →
  ata_failed (ctl s) m →
  ∃ s', ideintr POLLS s = Ok (tt, s') ∧ ibufs s' !! b = Some (served_buf (b_data x) x) ∧
    request_done s' b = true ∧ woken s' = woken s ++ [b].
Proof.
  intros Hh Hq Hx Hd Hf. destruct (ata_failed_poll _ _ Hf) as (r & d & E & Er & _).
  unfold ideintr. run. rewrite Hh. run. rewrite Hq. run. rewrite Hx. run. rewrite Hd. cbn.
  rewrite (idewait_at POLLS true _ r d) by done. unfold ctrue. rewrite (proj2 (Z.eqb_neq _ _) Er). run. rewrite Hx. run.
  eexists. split; [done|]. unfold request_done. cbn. rewrite list_lookup_insert_eq by (by eapply lookup_lt_Some).
  split_and!; try done. cbn [b_flags set_bflags]. by rewrite flags_done.
Qed.

(** ** A controller that keeps the promise *)

Record pio := mkPio { regs : gmap Z Z; pend : option ata_cmd; sectbuf : list Z; err : bool; drives : gmap (Z * Z) (list Z) }.
Definition reg (d : pio) (p : Z) : Z := default 0 (regs d !! p).
Definition pio_lba (d : pio) : Z :=
  reg d 0x1f3 + 2 ^ 8 * reg d 0x1f4 + 2 ^ 16 * reg d 0x1f5 + 2 ^ 24 * Z.land (reg d 0x1f6) 0x0f.
Definition pio_drive (d : pio) : Z := Z.land (Z.shiftr (reg d 0x1f6) 4) 1.
Definition pio_command (v : Z) (d : pio) : option ata_cmd :=
  if v =? IDE_CMD_READ then Some (AtaRead (pio_drive d) (pio_lba d))
  else if v =? IDE_CMD_WRITE then Some (AtaWrite (pio_drive d) (pio_lba d) []) else None.

#[export] Instance pio_ata : Ata pio := {
  inb p d := (if err d then Z.lor IDE_DRDY IDE_ERR else IDE_DRDY, d);
  outb p v d :=
    if p =? 0x1f7 then mkPio (regs d) (pio_command v d) (sectbuf d) (err d) (drives d)
    else mkPio (<[p := v]> (regs d)) (pend d) (sectbuf d) (err d) (drives d);
  insl d := (sectbuf d, d);
  outsl data d :=
    match pend d with
    | Some (AtaWrite k lba _) => mkPio (regs d) (Some (AtaWrite k lba data)) (sectbuf d) (err d) (drives d)
    | _ => d
    end;
  finish d :=
    match pend d with
    | Some (AtaRead k lba) => mkPio (regs d) None (default [] (drives d !! (k, lba))) false (drives d)
    | Some (AtaWrite k lba data) => mkPio (regs d) None (sectbuf d) false (<[(k, lba) := data]> (drives d))
    | None => d
    end;
  ata_idle d m := pend d = None ∧ drives d = m;
  ata_busy d cmd m := pend d = Some cmd ∧ drives d = m;
  ata_done d data m := pend d = None ∧ drives d = m ∧ err d = false ∧
    match data with Some l => sectbuf d = l | None => True end;
  ata_failed d m := pend d = None ∧ drives d = m ∧ err d = true
}.

(** What the drive register says: its number and the top bits of the sector. *)
Lemma drive_register drive e : 0 ≤ drive < 2 → 0 ≤ e < 16 →
  Z.land (Z.shiftr (Z.lor (Z.lor 0xe0 (Z.shiftl drive 4)) e) 4) 1 = drive ∧
  Z.land (Z.lor (Z.lor 0xe0 (Z.shiftl drive 4)) e) 0x0f = e.
Proof.
  intros Hd He. assert (drive ∈ seqZ 0 2) as Hd' by (apply elem_of_seqZ; lia).
  assert (e ∈ seqZ 0 16) as He' by (apply elem_of_seqZ; lia). clear Hd He.
  revert e He'. apply list.Forall_forall. revert drive Hd'. apply list.Forall_forall.
  vm_compute. repeat constructor.
Qed.

Lemma pio_commanded d drive a b c e : 0 ≤ drive < 2 → 0 ≤ e < 16 →
  let d' := outbs [(0x3f6, 0); (0x1f2, 1); (0x1f3, a); (0x1f4, b); (0x1f5, c);
    (0x1f6, Z.lor (Z.lor 0xe0 (Z.shiftl drive 4)) e)] d in
  pio_drive d' = drive ∧ pio_lba d' = a + 2 ^ 8 * b + 2 ^ 16 * c + 2 ^ 24 * e ∧ drives d' = drives d.
Proof.
  intros Hd He d'. destruct (drive_register drive e Hd He) as [E1 E2].
  assert (reg d' 0x1f3 = a ∧ reg d' 0x1f4 = b ∧ reg d' 0x1f5 = c ∧
    reg d' 0x1f6 = Z.lor (Z.lor 0xe0 (Z.shiftl drive 4)) e) as (R3 & R4 & R5 & R6).
  { unfold reg, d'. cbn [outbs foldl outb pio_ata regs fst snd Z.eqb Pos.eqb].
    split_and!; repeat (rewrite lookup_insert_eq || rewrite lookup_insert_ne by done); done. }
  unfold pio_drive, pio_lba. by rewrite R3, R4, R5, R6, E1, E2.
Qed.

#[export] Instance pio_laws POLLS : AtaLaws pio (S POLLS).
Proof.
  assert (∀ d : pio, idewait_loop (S POLLS) d = Some (if err d then Z.lor IDE_DRDY IDE_ERR else IDE_DRDY, d)) as Hw.
  { intros d. cbn. by destruct (err d). }
  split; cbn -[idewait_loop outbs].
  - by intros d m (? & ? & _).
  - intros d m Hi. rewrite Hw. by eexists _, _.
  - intros d data m Hd. rewrite Hw. destruct Hd as (? & ? & He & ?). rewrite He. by eexists _, _.
  - intros d m (? & ? & He). rewrite Hw, He. by eexists _, _.
  - intros d data m (? & ? & ? & ->). by eexists.
  - intros d m drive a b c e [_ Hm] Hd _ _ _ He. destruct (pio_commanded d drive a b c e Hd He) as (E1 & E2 & E3).
    unfold pio_command. cbn [Z.eqb Pos.eqb IDE_CMD_READ]. by rewrite E1, E2, E3.
  - intros d m drive a b c e data [_ Hm] Hd _ _ _ He _. destruct (pio_commanded d drive a b c e Hd He) as (E1 & E2 & E3).
    unfold pio_command. cbn [Z.eqb Pos.eqb IDE_CMD_READ IDE_CMD_WRITE pend drives]. by rewrite E1, E2, E3.
  - intros d drive lba m data [E <-] Hm. rewrite E, Hm. done.
  - intros d drive lba data m [E <-]. rewrite E. done.
Qed.
Definition pio_init (m : gmap (Z * Z) (list Z)) : pio := mkPio ∅ None [] false m.

(** Buffer 0 is read from sector 7, buffer 1 is written to sector 7 and read
    again into buffer 2; the requests for buffers 1 and 2 wait. *)
Lemma ide_serves_in_order_witness :
  let m : gmap (Z * Z) (list Z) := {[ (0, 7) := replicate 512 1 ]} in
  let c0 := mkBcache [mkBuf 1 0 7 []; mkBuf 7 0 7 (replicate 512 2); mkBuf 1 0 7 []] ∅ ∅ m in
  let es := [Rw 0; Rw 1; Rw 2; Intr] in
  ∃ c l, spec_run false es (c0, []) = Some (c, l) ∧
  ∃ s s' c',
    ide_run 1 es (mkIde (bufs c0) ∅ None false (pio_init m) []) = Ok (tt, s) ∧ ibufs s = bufs c ∧
    (∀ b, b ∈ l → request_done s b = false) ∧
    ide_run 1 (replicate (length l) Intr) s = Ok (tt, s') ∧
    spec_run false (replicate (length l) Intr) (c, l) = Some (c', []) ∧
    ibufs s' = bufs c' ∧ ata_idle (ctl s') (disk c') ∧ woken s' = woken s ++ l ∧
    (∀ b, b ∈ l → request_done s' b = true).
Proof.
  intros m c0 es. assert (∃ c l, spec_run false es (c0, []) = Some (c, l)) as (c & l & E).
  { destruct (spec_run false es (c0, [])) as [[c l]|] eqn:E; [by exists c, l|]. vm_compute in E. discriminate E. }
  exists c, l. split; [exact E|]. apply (ide_serves_in_order 1 es c0 (pio_init m) false c l); [done|exact E].
Defined.

Lemma failed_read_marked_valid_witness :
  let s := mkIde [mkBuf 1 0 7 [9; 9]] {[0%nat := None]} (Some 0%nat) false (mkPio ∅ None [] true ∅) [] in
  ∃ s', ideintr 1 s = Ok (tt, s') ∧ ibufs s' !! 0%nat = Some (mkBuf 3 0 7 [9; 9]) ∧
    request_done s' 0 = true ∧ woken s' = [0%nat].
Proof.
  intros s. apply (failed_read_marked_valid 1 s 0 (mkBuf 1 0 7 [9; 9]) ∅); done.
Defined.
