(* ===== verification/FsFile.v ===== *)
(** File contents in [xv6/kernel/fs.c]: which block holds which part of a file,
    reads of plain and of checksummed files, and the checksum. *)

From S2P Require Import Prelude CString Fs.

(** ** One buffer at a time *)

Definition set_blocks (f : gmap (Z * Z) (list Z) → gmap (Z * Z) (list Z)) (s : fs) : fs :=
  mkFs (f (blocks s)) (busy s) (icache s).
Definition hold (k : Z * Z) (s : fs) : fs := mkFs (blocks s) ({[ k ]} ∪ busy s) (icache s).

Lemma hold_release k s : k ∉ busy s → mkFs (blocks s) (busy (hold k s) ∖ {[ k ]}) (icache s) = s.
Proof. intros H. destruct s as [b u i]. cbn in *. f_equal. set_solver. Qed.

Lemma bread_run dev b d s :
  (dev, b) ∉ busy s → blocks s !! (dev, b) = Some d → bread dev b s = Ok (d, hold (dev, b) s).
Proof.
  intros Hb Hd. unfold bread, get, mbind, M_bind. rewrite decide_False by done.
  unfold need. rewrite Hd. done.
Qed.

Lemma ret_inv {S A} (a b : A) (s s' : S) : (mret a : M S A) s = Ok (b, s') → a = b ∧ s = s'.
Proof. by intros [= <- <-]. Qed.

Lemma bread_inv dev b d s s' :
  bread dev b s = Ok (d, s') → (dev, b) ∉ busy s ∧ blocks s !! (dev, b) = Some d ∧ s' = hold (dev, b) s.
Proof.
  unfold bread, get, need, put, mbind, M_bind. destruct (decide _); [done|].
  destruct (blocks s !! _); [|done]. by intros [= <- <-].
Qed.

Lemma brelse_run dev b s : (dev, b) ∉ busy s → brelse dev b (hold (dev, b) s) = Ok (tt, s).
Proof.
  intros Hb. unfold brelse, get, mbind, M_bind. rewrite decide_True by (cbn; set_solver).
  unfold put. pose proof (hold_release _ _ Hb) as E. cbn in *. by rewrite E.
Qed.

Lemma bwrite_run dev b d s :
  bwrite dev b d (hold (dev, b) s) = Ok (tt, hold (dev, b) (set_blocks <[ (dev, b) := d ]> s)).
Proof. unfold bwrite, get, mbind, M_bind. by rewrite decide_True by (cbn; set_solver). Qed.

Lemma inode_at_run ip i s : icache s !! ip = Some i → inode_at ip s = Ok (i, s).
Proof. intros H. unfold inode_at, get, need, mbind, M_bind. by rewrite H. Qed.

(** ** Where the parts of a file are *)

(** The address part of a block pointer of the inode. *)
Definition amask (i : inode) (a : Z) : Z := if i_type i =? T_CHECKED then Z.land a ADDRMASK else a.

(** The block pointer of file block [bn], checksum included. *)
Definition pointer (s : fs) (i : inode) (bn : Z) : option Z :=
  if bn <? NDIRECT then Some (addr i bn) else
  if bn - NDIRECT <? NINDIRECT then
    if amask i (addr i NDIRECT) =? 0 then None else
    (λ d, wordk d (bn - NDIRECT)) <$> (blocks s !! (i_dev i, amask i (addr i NDIRECT)))
  else None.

(** File block [bn] of the inode [ip] is at block [a], and the buffers this
    takes are free. *)
Record mapped (s : fs) (ip : nat) (i : inode) (bn a : Z) : Prop := {
  mp_inode : icache s !! ip = Some i;
  mp_bn : 0 ≤ bn;
  mp_ptr : ∃ p, pointer s i bn = Some p ∧ amask i p = a;
  mp_nonzero : a ≠ 0;
  mp_free : (i_dev i, a) ∉ busy s;
  mp_ind_free : NDIRECT ≤ bn → (i_dev i, amask i (addr i NDIRECT)) ∉ busy s
}.

Lemma bmap_run s ip i bn a : mapped s ip i bn a → bmap ip bn s = Ok (a, s).
Proof.
  intros [Hi Hbn (p & Hp & Ha) Hnz _ Hf]. unfold bmap. step (inode_at_run _ _ _ Hi).
  assert (∀ mask, (∀ x, mask x = amask i x) → bmap_with mask ip bn s = Ok (a, s)) as Hm.
  { intros mask Hmask. unfold bmap_with. step (inode_at_run _ _ _ Hi). unfold pointer in Hp. rewrite !Hmask.
    destruct (Z.ltb_spec bn NDIRECT).
    { injection Hp as <-. rewrite Ha, (proj2 (Z.eqb_neq _ _)) by done. done. }
    destruct (bn - NDIRECT <? NINDIRECT); [|done].
    destruct (amask i (addr i NDIRECT) =? 0); [done|]. rewrite bind_ret.
    destruct (blocks s !! _) as [d|] eqn:Hd; [|done]. injection Hp as <-.
    step (bread_run _ _ _ _ (Hf H) Hd). rewrite Hmask, Ha, (proj2 (Z.eqb_neq _ _)), bind_ret by done.
    by step (brelse_run _ _ _ (Hf H)). }
  unfold amask in Hm. destruct (i_type i =? T_CHECKED); by apply Hm.
Qed.

(** ** The checksum *)

Lemma foldl_lxor l : ∀ a, foldl Z.lxor a l = Z.lxor a (foldl Z.lxor 0 l).
Proof.
  induction l as [|b l IH]; intros a; cbn [foldl]; [by rewrite Z.lxor_0_r|].
  rewrite IH, (IH (Z.lxor 0 b)), Z.lxor_0_l. by rewrite Z.lxor_assoc.
Qed.

Lemma checksum_xor l : checksum l = foldl Z.lxor 0 l.
Proof. destruct l; [done|]. cbn. by rewrite Z.lxor_0_l. Qed.

Lemma xor_byte a b : is_byte a → is_byte b → is_byte (Z.lxor a b).
Proof.
  unfold is_byte. intros Ha Hb. split; [apply Z.lxor_nonneg; lia|].
  assert (Z.lxor a b = Z.lxor a b mod 2 ^ 8) as ->.
  { rewrite <-Z.land_ones by lia. apply Z.bits_inj'. intros k Hk. rewrite Z.land_spec, Z.lxor_spec.
    destruct (decide (k < 8)).
    - by rewrite Z.ones_spec_low, andb_true_r by lia.
    - rewrite Z.ones_spec_high, andb_false_r by lia.
      rewrite <-(Z.mod_small a (2 ^ 8)), <-(Z.mod_small b (2 ^ 8)), !Z.mod_pow2_bits_high by lia. done. }
  apply Z.mod_pos_bound. lia.
Qed.

Lemma checksum_byte l : Forall is_byte l → is_byte (checksum l).
Proof.
  rewrite checksum_xor. induction 1 as [|b l Hb _ IH]; [unfold is_byte; cbn; lia|].
  cbn. rewrite Z.lxor_0_l, foldl_lxor. by apply xor_byte.
Qed.

(** One byte changed is one checksum changed. *)
Lemma checksum_insert l j b v : l !! j = Some b → checksum (<[j := v]> l) = Z.lxor (checksum l) (Z.lxor b v).
Proof.
  rewrite !checksum_xor. revert j. induction l as [|c l IH]; intros [|j] H; cbn in *; try done; rewrite !Z.lxor_0_l.
  - injection H as ->. rewrite (foldl_lxor _ b), (foldl_lxor _ v). rewrite (Z.lxor_comm b), Z.lxor_assoc.
    rewrite <-(Z.lxor_assoc b b), Z.lxor_nilpotent, Z.lxor_0_l. apply Z.lxor_comm.
  - rewrite (foldl_lxor _ c), IH by done. rewrite (foldl_lxor _ c). by rewrite !Z.lxor_assoc.
Qed.

Lemma checksum_changes l j b v : l !! j = Some b → b ≠ v → checksum (<[j := v]> l) ≠ checksum l.
Proof.
  intros H Hne. rewrite (checksum_insert _ _ _ _ H). intros E. apply Hne.
  apply Z.lxor_eq. rewrite <-(Z.lxor_0_l (Z.lxor b v)), <-(Z.lxor_nilpotent (checksum l)), Z.lxor_assoc, E.
  done.
Qed.

(** A pointer carries its block's checksum in its top byte. *)
Lemma top_byte_tag a c : is_byte c → top_byte (Z.lor (Z.land a ADDRMASK) (Z.shiftl c SHIFT3BYTES)) = c.
Proof.
  intros Hc. unfold top_byte, is_byte in *. apply Z.bits_inj'. intros k Hk.
  rewrite Z.shiftr_spec, Z.land_spec, Z.lor_spec, Z.land_spec, Z.shiftl_spec by (unfold SHIFT3BYTES; lia).
  change ADDRMASK with (Z.ones 24). change 0xff000000 with (Z.shiftl (Z.ones 8) 24).
  rewrite (Z.ones_spec_high 24), andb_false_r, orb_false_l by (unfold SHIFT3BYTES; lia).
  rewrite Z.shiftl_spec by (unfold SHIFT3BYTES; lia).
  replace (k + SHIFT3BYTES - SHIFT3BYTES) with k by lia. replace (k + SHIFT3BYTES - 24) with k by (unfold SHIFT3BYTES; lia).
  destruct (decide (k < 8)).
  - by rewrite Z.ones_spec_low, andb_true_r by lia.
  - rewrite <-(Z.mod_small c (2 ^ 8)), Z.mod_pow2_bits_high by lia. done.
Qed.

Lemma amask_tag a c : is_byte c →
  Z.land (Z.lor (Z.land a ADDRMASK) (Z.shiftl c SHIFT3BYTES)) ADDRMASK = Z.land a ADDRMASK.
Proof.
  intros Hc. apply Z.bits_inj'. intros k Hk. rewrite !Z.land_spec, Z.lor_spec, Z.land_spec, Z.shiftl_spec by lia.
  change ADDRMASK with (Z.ones 24). destruct (decide (k < 24)).
  - rewrite Z.ones_spec_low by lia. rewrite (Z.testbit_neg_r c) by (unfold SHIFT3BYTES; lia).
    by rewrite !andb_true_r, orb_false_r.
  - rewrite Z.ones_spec_high by lia. by rewrite !andb_false_r.
Qed.

(** ** Reads *)

Section reads.
Context `{Devsw}.

(** One turn of [readi]'s loop. *)
Lemma readi_loop_step fuel ip i off tot n dst s a p d :
  mapped s ip i (off / BSIZE) a → pointer s i (off / BSIZE) = Some p →
  blocks s !! (i_dev i, a) = Some d → tot < n →
  let m := Z.min (n - tot) (BSIZE - off mod BSIZE) in
  let dst' := dst ++ slice (Z.to_nat (off mod BSIZE)) (Z.to_nat m) d in
  readi_loop (S fuel) ip off tot n dst s =
    if (i_type i =? T_CHECKED) && negb (top_byte p =? checksum d) then Ok ((-1, dst'), s)
    else readi_loop fuel ip (off + m) (tot + m) n dst' s.
Proof.
  intros Hm Hp Hd Hlt m dst'. pose proof Hm as [Hi Hbn (p' & Hp' & Ha) Hnz Hf Hind].
  cbn [readi_loop]. rewrite (proj2 (Z.ltb_lt _ _)) by done. step (inode_at_run _ _ _ Hi).
  step (bmap_run _ _ _ _ _ Hm). step (bread_run _ _ _ _ Hf Hd). step (brelse_run _ _ _ Hf).
  destruct (i_type i =? T_CHECKED) eqn:Ht; [|done]. cbn [andb].
  step (bmap_run _ _ _ _ _ Hm). step (bread_run _ _ _ _ Hf Hd). step (brelse_run _ _ _ Hf).
  step (inode_at_run _ _ _ Hi). unfold pointer in Hp. unfold amask in Hind, Hp. rewrite Ht in Hind, Hp.
  destruct (Z.ltb_spec (off / BSIZE) NDIRECT).
  { injection Hp as <-. by destruct (top_byte _ =? checksum d). }
  destruct (_ <? NINDIRECT); [|done]. destruct (_ =? 0); [done|].
  destruct (blocks s !! (i_dev i, Z.land (addr i NDIRECT) ADDRMASK)) as [x|] eqn:Hx; [|done]. injection Hp as <-.
  step (bread_run _ _ _ _ (Hind H0) Hx). step (brelse_run _ _ _ (Hind H0)).
  rewrite (Z.eqb_sym (checksum d)). by destruct (top_byte _ =? checksum d).
Qed.

(** The size checks of [readi] for a file that is not a device. *)
Lemma readi_run ip i off n s :
  icache s !! ip = Some i → i_type i ≠ T_DEV → 0 ≤ off ≤ i_size i → 0 ≤ n → off + n < 4294967296 →
  readi ip off n s =
    let n := Z.min n (i_size i - off) in readi_loop (3 + Z.to_nat (n / BSIZE)) ip off 0 n [] s.
Proof.
  intros Hi Ht Hoff Hn Hov. unfold readi. step (inode_at_run _ _ _ Hi).
  rewrite (proj2 (Z.eqb_neq _ _)) by done. rewrite u32_small by (unfold is_u32; lia).
  rewrite (proj2 (Z.ltb_ge (i_size i) off)), (proj2 (Z.ltb_ge (off + n) off)) by lia. cbn [orb].
  destruct (Z.ltb_spec (i_size i) (off + n)); cbn zeta.
  - by rewrite Z.min_r by lia.
  - by rewrite Z.min_l by lia.
Qed.

(** What a file's contents are: block [k] is mapped, its data is [data k], and
    its checksum is the one of its pointer, when the file is of that kind. *)
Definition block_good (s : fs) (ip : nat) (i : inode) (data : Z → list Z) (k : Z) : Prop :=
  ∃ a p, mapped s ip i k a ∧ pointer s i k = Some p ∧ blocks s !! (i_dev i, a) = Some (data k) ∧
    Z.of_nat (length (data k)) = BSIZE ∧ (i_type i = T_CHECKED → top_byte p = checksum (data k)).

(** The [n] bytes from byte [off] of the blocks. *)
Definition content (data : Z → list Z) (off n : Z) : list Z :=
  (λ o, default 0 (data (o / BSIZE) !! Z.to_nat (o mod BSIZE))) <$> seqZ off n.

Lemma slice_content data off m :
  0 ≤ off → 0 ≤ m → off mod BSIZE + m ≤ BSIZE → Z.of_nat (length (data (off / BSIZE))) = BSIZE →
  slice (Z.to_nat (off mod BSIZE)) (Z.to_nat m) (data (off / BSIZE)) = content data off m.
Proof.
  intros Ho Hm Hb Hl. pose proof (Z.mod_pos_bound off BSIZE eq_refl) as Hmod.
  apply list_eq. intros j. rewrite lookup_slice. unfold content. rewrite list_lookup_fmap.
  case_decide as Hj; [|by rewrite lookup_seqZ_ge by lia].
  rewrite lookup_seqZ_lt by lia. cbn.
  assert ((off + Z.of_nat j) / BSIZE = off / BSIZE ∧ (off + Z.of_nat j) mod BSIZE = off mod BSIZE + Z.of_nat j) as [-> ->].
  { pose proof (Z.div_mod off BSIZE ltac:(done)).
    assert (off + Z.of_nat j = BSIZE * (off / BSIZE) + (off mod BSIZE + Z.of_nat j)) as E by lia.
    split; symmetry.
    - apply (Z.div_unique_pos _ _ _ (off mod BSIZE + Z.of_nat j)); lia.
    - apply (Z.mod_unique_pos _ _ (off / BSIZE)); lia. }
  rewrite Z2Nat.inj_add, Nat2Z.id by lia.
  destruct (lookup_lt_is_Some_2 (data (off / BSIZE)) (Z.to_nat (off mod BSIZE) + j)%nat) as [x ->]; [lia|done].
Qed.

Lemma content_app data off m n : 0 ≤ m → 0 ≤ n → content data off m ++ content data (off + m) n = content data off (m + n).
Proof. intros. unfold content. by rewrite <-fmap_app, <-seqZ_app by lia. Qed.

Lemma div_next off m : 0 ≤ off → 0 < m → off mod 512 + m = 512 → (off + m) / 512 = off / 512 + 1 ∧ (off + m) mod 512 = 0.
Proof.
  intros Ho Hm E. pose proof (Z.div_mod off 512 ltac:(done)).
  replace (off + m) with ((off / 512 + 1) * 512) by lia. by rewrite Z.div_mul, Z.mod_mul.
Qed.

Lemma readi_loop_good ip i s data : ∀ fuel off tot n dst,
  0 ≤ off → 0 ≤ tot ≤ n → (0 < fuel)%nat → (tot < n → (off mod 512 + (n - tot) - 1) / 512 + 1 < Z.of_nat fuel) →
  (∀ k, off / 512 ≤ k ≤ (off + (n - tot) - 1) / 512 → block_good s ip i data k) →
  readi_loop fuel ip off tot n dst s = Ok ((i32 n, dst ++ content data off (n - tot)), s).
Proof.
  induction fuel as [|fuel IH]; intros off tot n dst Ho Htot Hf0 Hfuel Hgood; [lia|].
  destruct (decide (tot = n)) as [->|Hne].
  { cbn [readi_loop]. rewrite Z.ltb_irrefl. unfold content. rewrite Z.sub_diag. cbn. by rewrite app_nil_r. }
  specialize (Hfuel ltac:(lia)).
  pose proof (Z.mod_pos_bound off 512 eq_refl) as Hmod. pose proof (Z.div_mod off 512 ltac:(done)) as Hdiv.
  destruct (Hgood (off / 512)) as (a & p & Hm & Hp & Hd & Hl & Hck).
  { split; [lia|]. apply Z.div_le_mono; lia. }
  rewrite (readi_loop_step _ _ _ _ _ _ _ _ _ _ _ Hm Hp Hd) by lia. unfold BSIZE.
  set (m := Z.min (n - tot) (512 - off mod 512)).
  assert ((i_type i =? T_CHECKED) && negb (top_byte p =? checksum (data (off / 512))) = false) as ->.
  { destruct (Z.eqb_spec (i_type i) T_CHECKED); [|done]. rewrite Hck by done. by rewrite Z.eqb_refl. }
  assert (0 < m) by (unfold m; lia).
  pose proof (Z.div_pos (off mod 512 + (n - tot) - 1) 512 ltac:(lia) ltac:(lia)).
  rewrite IH; [|lia|unfold m; lia|lia| |].
  - change 512 with BSIZE. rewrite slice_content by (unfold m, BSIZE in *; lia).
    rewrite <-app_assoc, content_app by (unfold m; lia). by replace (m + (n - (tot + m))) with (n - tot) by lia.
  - intros Hmore. destruct (div_next off m) as [_ Hz]; [lia..|unfold m in *; lia|].
    rewrite Hz. replace (off mod 512 + (n - tot) - 1) with (0 + (n - (tot + m)) - 1 + 1 * 512) in Hfuel by (unfold m in *; lia).
    rewrite Z.div_add in Hfuel by lia. lia.
  - intros k Hk. apply Hgood. split.
    + etrans; [|apply Hk]. apply Z.div_le_mono; lia.
    + replace (off + m + (n - (tot + m)) - 1) with (off + (n - tot) - 1) in Hk by lia. apply Hk.
Qed.
End reads.

Section contents_theorems.
Context `{Devsw}.

Lemma readi_loop_all ip i s data off m : 0 ≤ off → 0 ≤ m →
  (∀ k, 0 ≤ k → k * BSIZE < off + m → block_good s ip i data k) →
  readi_loop (3 + Z.to_nat (m / BSIZE)) ip off 0 m [] s = Ok ((i32 m, content data off m), s).
Proof.
  intros Hoff Hm Hgood. rewrite (readi_loop_good ip i s data) by
    first [ lia | intros Hm'; pose proof (Z.mod_pos_bound off 512 eq_refl);
      pose proof (Z.div_mod m 512 ltac:(done)); pose proof (Z.mod_pos_bound m 512 eq_refl);
      pose proof (Z.div_lt_upper_bound (off mod 512 + (m - 0) - 1) 512 (m / 512 + 2)); unfold BSIZE; lia
    | intros k [Hk1 Hk2]; pose proof (Z.div_pos off 512); apply Hgood; [lia|];
      unfold BSIZE; assert (k * 512 ≤ off + (m - 0) - 1)
        by (etrans; [apply Z.mul_le_mono_nonneg_r; [lia|exact Hk2]|];
            rewrite Z.mul_comm; apply Z.mul_div_le; lia); lia ].
  by rewrite Z.sub_0_r.
Qed.

(** C30: [readi] of a locked file or directory whose blocks below the size are
    mapped (and, for a checksummed file, match the checksums in their
    pointers) returns exactly the bytes from [off] on, cut at the end of the
    file, over direct and indirect blocks, and leaves the whole state as it
    was; past the end of the file it is an error. *)
Theorem readi_reads ip i s data off n :
  icache s !! ip = Some i → i_type i ≠ T_DEV →
  (∀ k, 0 ≤ k → k * BSIZE < i_size i → block_good s ip i data k) →
  is_u32 (i_size i) → 0 ≤ off → 0 ≤ n → is_u32 (off + n) →
  readi ip off n s =
    if i_size i <? off then Ok ((-1, []), s)
    else let n := Z.min n (i_size i - off) in Ok ((i32 n, content data off n), s).
Proof.
  intros Hi Ht Hgood [Hs0 Hs1] Hoff Hn [_ Hov]. destruct (Z.ltb_spec (i_size i) off) as [Hlt|Hge].
  { unfold readi. step (inode_at_run _ _ _ Hi). rewrite (proj2 (Z.eqb_neq _ _)) by done.
    by rewrite (proj2 (Z.ltb_lt _ _)). }
  rewrite (readi_run _ _ _ _ _ Hi) by (done || lia). cbn zeta.
  set (m := Z.min n (i_size i - off)). apply (readi_loop_all ip i s data off m); [lia|unfold m; lia|].
  intros k Hk Hkm. apply Hgood; [done|unfold m in *; lia].
Qed.

(** C25: A checksummed file notices damage: when one byte of one of its blocks,
    direct or indirect, differs on the disk from the data its pointer's
    checksum was computed for, every read that starts in that block returns
    -1. *)
Theorem checked_corruption_detected ip i s data off n a j b v :
  icache s !! ip = Some i → i_type i = T_CHECKED →
  block_good s ip i data (off / BSIZE) → mapped s ip i (off / BSIZE) a →
  (NDIRECT ≤ off / BSIZE → amask i (addr i NDIRECT) ≠ a) →
  data (off / BSIZE) !! j = Some b → v ≠ b →
  is_u32 (i_size i) → 0 ≤ off < i_size i → 0 < n → is_u32 (off + n) →
  let bad := set_blocks <[ (i_dev i, a) := <[j := v]> (data (off / BSIZE)) ]> s in
  ∃ dst, readi ip off n bad = Ok ((-1, dst), bad).
Proof.
  intros Hi Ht (a' & p & Hm' & Hp & Hd & Hl & Hck) Hm Hind Hj Hv Hs Hoff Hn [_ Hov] bad.
  assert (a' = a) as -> by (pose proof (bmap_run _ _ _ _ _ Hm); pose proof (bmap_run _ _ _ _ _ Hm'); congruence).
  assert (pointer bad i (off / BSIZE) = Some p) as Hp'.
  { unfold pointer in *. destruct (Z.ltb_spec (off / BSIZE) NDIRECT); [done|].
    destruct (off / BSIZE - NDIRECT <? NINDIRECT); [|done]. destruct (_ =? 0); [done|].
    cbn [bad set_blocks blocks]. rewrite lookup_insert_ne; [done|]. intros [= E]. by apply Hind. }
  assert (mapped bad ip i (off / BSIZE) a) as Hmb.
  { destruct Hm as [? ? (q & Hq & Hqa) ? ? ?]. rewrite Hp in Hq. injection Hq as <-. by constructor; [..|exists p| | |]. }
  rewrite (readi_run ip i) by (done || lia || (by rewrite Ht)). cbn zeta.
  set (m := Z.min n _). change (3 + Z.to_nat (m / BSIZE))%nat with (S (2 + Z.to_nat (m / BSIZE))).
  erewrite (readi_loop_step _ _ _ _ _ _ _ _ _ _ _ Hmb Hp'); cbn zeta.
  - rewrite (Hck Ht), Ht. rewrite (proj2 (Z.eqb_neq (checksum (data _)) _)); [by eexists|].
    intros E. by apply (checksum_changes _ _ b v Hj).
  - apply lookup_insert_eq.
  - unfold m. lia.
Qed.

(** [stati] never releases the buffer it reads: once it has returned, a
    second [stati] of the same file waits for ever, and so does any other
    [stati] that needs the same block - for all files without an indirect
    block that is block 0 of the disk. *)
Theorem stati_leaks_buffer ip i s st s' ip2 i2 :
  icache s !! ip = Some i → icache s !! ip2 = Some i2 →
  stati ip s = Ok (st, s') → i_dev i2 = i_dev i →
  Z.land (addr i2 NDIRECT) ADDRMASK = Z.land (addr i NDIRECT) ADDRMASK →
  stati ip2 s' = Blocked.
Proof.
  intros Hi Hi2 Hst Hd Ha. unfold stati in Hst. rewrite (bind_Ok _ _ _ _ _ (inode_at_run _ _ _ Hi)) in Hst.
  minv Hst. apply ret_inv in Hst as [_ <-]. apply bread_inv in E as (_ & _ & ->).
  unfold stati. rewrite (bind_Ok _ _ _ _ _ (inode_at_run _ _ (hold _ s) Hi2)).
  unfold mbind at 1, M_bind at 1, bread, get, mbind, M_bind. rewrite decide_True; [done|].
  rewrite Hd, Ha. cbn [hold busy]. set_solver.
Qed.
End contents_theorems.

(** ** A file of five bytes in block 50, checksummed *)

#[local] Instance no_devices : Devsw := {| dev_read _ := None; dev_write _ := None |}.
Definition hello_block : list Z := [104; 101; 108; 108; 111] ++ replicate 507 0.
Definition hello_inode : inode :=
  mkInode 1 7 1 3 T_CHECKED 0 0 1 5
    (Z.lor 50 (Z.shiftl (checksum hello_block) SHIFT3BYTES) :: replicate 12 0).
Definition hello_fs : fs :=
  mkFs {[ (1, 50) := hello_block; (1, 0) := replicate 512 0 ]} ∅ [hello_inode].

Lemma hello_good k : 0 ≤ k → k * BSIZE < i_size hello_inode →
  block_good hello_fs 0 hello_inode (λ _, hello_block) k ∧ mapped hello_fs 0 hello_inode k 50.
Proof.
  unfold BSIZE. intros Hk H. assert (k = 0) as -> by (cbn in H; lia).
  assert (mapped hello_fs 0 hello_inode 0 50) as Hm.
  { constructor; [done|lia| |done| |done].
    - eexists. split; [reflexivity|]. by vm_compute.
    - by vm_compute. }
  split; [|done]. exists 50, (addr hello_inode 0).
  split; [exact Hm|]. split; [by vm_compute|]. split; [by vm_compute|]. split; [by vm_compute|]. intros _. by vm_compute.
Qed.

Lemma readi_reads_witness : readi 0 1 100 hello_fs = Ok ((4, [101; 108; 108; 111]), hello_fs).
Proof.
  rewrite (readi_reads 0 hello_inode hello_fs (λ _, hello_block) 1 100 eq_refl).
  - by vm_compute.
  - done.
  - intros k Hk Hs. apply (hello_good k Hk Hs).
  - by split.
  - done.
  - done.
  - by split.
Defined.

Lemma checked_corruption_detected_witness :
  ∃ dst, readi 0 0 5 (set_blocks <[ (1, 50) := <[511%nat := 1]> hello_block ]> hello_fs) =
    Ok ((-1, dst), set_blocks <[ (1, 50) := <[511%nat := 1]> hello_block ]> hello_fs).
Proof.
  apply (checked_corruption_detected 0 hello_inode hello_fs (λ _, hello_block) 0 5 50 511 0 1); try done.
  - apply (hello_good 0); done.
  - apply (hello_good 0); done.
Defined.

Lemma stati_leaks_buffer_witness : ∃ st s', stati 0 hello_fs = Ok (st, s') ∧ stati 0 s' = Blocked.
Proof.
  destruct (stati 0 hello_fs) as [[st s']| | | |] eqn:E; [|by vm_compute in E..].
  exists st, s'. split; [done|].
  exact (stati_leaks_buffer 0 hello_inode hello_fs st s' 0 hello_inode eq_refl eq_refl E eq_refl eq_refl).
Defined.
