(* ===== verification/Mkfs.v ===== *)
(** The program that writes the first disk image ([xv6/tools/mkfs.c]): a super
    block, inodes, a bitmap and files appended one after the other. The image
    is the sectors written so far; [exit(1)] and a failed assertion are panics. *)

From S2P Require Import Prelude CString Fs.

(** ** Definitions *)

Definition nblocks : Z := 995.
Definition ninodes : Z := 200.
Definition size : Z := 1024.

Record mkstate := mkMk {
  img : gmap Z (list Z);
  freeblock : Z;
  usedblocks : Z;
  bitblocks : Z;
  freeinode : Z
}.

(** The bytes of a host integer in the order of the disk, as a host integer: the
    host is little-endian too. *)
Definition xshort (x : Z) : Z := le_val [u8 x; u8 (x / 2 ^ 8)].
Definition xint (x : Z) : Z := le_val [u8 x; u8 (x / 2 ^ 8); u8 (x / 2 ^ 16); u8 (x / 2 ^ 24)].

Definition wsect (sec : Z) (buf : list Z) : M mkstate unit :=
  modify (λ s, mkMk (<[sec := buf]> (img s)) (freeblock s) (usedblocks s) (bitblocks s) (freeinode s)).
(** A read of a sector that was never written ends at the end of the file. *)
Definition rsect (sec : Z) : M mkstate (list Z) :=
  s ← get;
  match img s !! sec with Some d => mret d | None => panic "read" end.

Definition zeroes : list Z := replicate 512 0.

Fixpoint wzeroes (n : nat) (i : Z) : M mkstate unit :=
  match n with
  | O => mret tt
  | S n' => wsect i zeroes;; wzeroes n' (i + 1)
  end.

Definition enc_sb (sb : superblock) : list Z := le_bytes 4 (sb_size sb) ++ le_bytes 4 (sb_nblocks sb) ++ le_bytes 4 (sb_ninodes sb).

Definition mkfs (nblocks ninodes size : Z) : M mkstate unit :=
  let sb := mkSb (xint size) (xint nblocks) (xint ninodes) in
  let bits := size / (512 * 8) + 1 in
  let used := ninodes / IPB + 3 + bits in
  modify (λ s, mkMk (img s) used used bits (freeinode s));;
  if negb (nblocks + used =? size) then panic "assert" else
  wzeroes (Z.to_nat (nblocks + used)) 0;;
  wsect 1 (splice 0 (enc_sb sb) zeroes).

Definition i2b (inum : Z) : Z := inum / IPB + 2.

Definition winode (inum : Z) (ip : dinode) : M mkstate unit :=
  buf ← rsect (i2b inum);
  wsect (i2b inum) (splice (dino_off inum) (enc_dinode ip) buf).
Definition rinode (inum : Z) : M mkstate dinode :=
  buf ← rsect (i2b inum); mret (dec_dinode (slice (dino_off inum) 64 buf)).

Definition ialloc (type : Z) : M mkstate Z :=
  s ← get;
  let inum := freeinode s in
  put (mkMk (img s) (freeblock s) (usedblocks s) (bitblocks s) (u32 (freeinode s + 1)));;
  winode inum (mkDinode (i16 (xshort type)) 0 0 (i16 (xshort 1)) (xint 0) (replicate 13 0));;
  mret inum.

(** [xint(freeblock++)], [usedblocks++] *)
Definition take_block : M mkstate Z :=
  s ← get;
  put (mkMk (img s) (u32 (freeblock s + 1)) (u32 (usedblocks s + 1)) (bitblocks s) (freeinode s));;
  mret (xint (freeblock s)).

(** The block of file block [fbn], allocated when there is none yet. *)
Definition map_block (din : dinode) (fbn : Z) : M mkstate (dinode * Z) :=
  let set k a := mkDinode (d_type din) (d_major din) (d_minor din) (d_nlink din) (d_size din) (<[Z.to_nat k := a]> (d_addrs din)) in
  let get_addr k := default 0 (d_addrs din !! Z.to_nat k) in
  if fbn <? NDIRECT then
    if xint (get_addr fbn) =? 0 then a ← take_block; mret (set fbn a, xint a)
    else mret (din, xint (get_addr fbn))
  else
    '(din, ind) ← (if xint (get_addr NDIRECT) =? 0 then a ← take_block; mret (set NDIRECT a, xint a)
                   else mret (din, xint (get_addr NDIRECT)));
    indirect ← rsect ind;
    let w := wordk indirect (fbn - NDIRECT) in
    if w =? 0 then a ← take_block; wsect ind (set_wordk indirect (fbn - NDIRECT) a);; mret (din, xint a)
    else mret (din, xint w).

Fixpoint iappend_loop (fuel : nat) (din : dinode) (off : Z) (p : list Z) : M mkstate (dinode * Z) :=
  match fuel with
  | O => nofuel
  | S fuel' =>
      match p with
      | [] => mret (din, off)
      | _ =>
          let fbn := off / 512 in
          if negb (fbn <? MAXFILE) then panic "assert" else
          '(din, x) ← map_block din fbn;
          let n1 := Z.min (Z.of_nat (length p)) ((fbn + 1) * 512 - off) in
          buf ← rsect x;
          wsect x (splice (Z.to_nat (off - fbn * 512)) (take (Z.to_nat n1) p) buf);;
          iappend_loop fuel' din (off + n1) (drop (Z.to_nat n1) p)
      end
  end.

Definition set_dsize (n : Z) (d : dinode) : dinode :=
  mkDinode (d_type d) (d_major d) (d_minor d) (d_nlink d) n (d_addrs d).

(** A round of the loop fills a block, but for the first and the last. *)
Definition iappend (inum : Z) (p : list Z) : M mkstate unit :=
  din ← rinode inum;
  '(din, off) ← iappend_loop (3 + length p / 512) din (xint (d_size din)) p;
  winode inum (set_dsize (xint off) din).

(** The bits that [balloc] sets, one by one. *)
Fixpoint set_bits (n : nat) (i : Z) (buf : list Z) : list Z :=
  match n with
  | O => buf
  | S n' => set_bits n' (i + 1) (<[Z.to_nat (i / 8) := u8 (Z.lor (default 0 (buf !! Z.to_nat (i / 8))) (Z.shiftl 1 (i mod 8)))]> buf)
  end.
Definition balloc (used : Z) : M mkstate unit :=
  if negb (used <? 512 * 8) then panic "assert" else
  wsect (ninodes / IPB + 3) (set_bits (Z.to_nat used) 0 zeroes).

(** *** The host's directory tree

    What [readdir] lists, names with their NUL: a file gives the chunks that its
    reads return; an entry that cannot be opened ends the program. *)
Inductive hnode := HFile (chunks : list (list Z)) | HDir (entries : list (list Z * hnode)) | HUnreadable.

Definition strcpy_name (name : list Z) : list Z := splice 0 (name ++ [0]) (replicate DIRSIZ 0).

(** [iappend(dir, &de, sizeof(de))] *)
Definition append_entry (dir inum : Z) (name : list Z) : M mkstate unit :=
  iappend dir (enc_dirent (mkDirent (xshort inum) name)).

Fixpoint append_chunks (inum : Z) (chunks : list (list Z)) : M mkstate unit :=
  match chunks with
  | [] => mret tt
  | c :: cs => iappend inum c;; append_chunks inum cs
  end.

(** [off = ((off/BSIZE) + 1) * BSIZE] *)
Definition fix_size (inum : Z) : M mkstate unit :=
  din ← rinode inum;
  winode inum (set_dsize (xint ((xint (d_size din) / BSIZE + 1) * BSIZE)) din).

Definition DOT : Z := 46.
(** [strcmp(entry->d_name, ".") == 0 || strcmp(entry->d_name, "..") == 0] *)
Definition is_dots (name : list Z) : option bool :=
  c ← strcmp name [DOT; 0]; c' ← strcmp name [DOT; DOT; 0]; Some ((c =? 0) || (c' =? 0)).

(** The result is 0, or -1 when the host fails. *)
Fixpoint add_dir (cur : hnode) (cur_inode parent_inode : Z) : M mkstate Z :=
  append_entry cur_inode cur_inode (strcpy_name [DOT]);;
  append_entry cur_inode parent_inode (strcpy_name [DOT; DOT]);;
  match cur with
  | HDir entries =>
      (fix add_entries (l : list (list Z * hnode)) : M mkstate Z :=
         match l with
         | [] => fix_size cur_inode;; mret 0
         | (name, child) :: l' =>
             dots ← need (is_dots name);
             if (dots : bool) then add_entries l' else
             let link child_inode :=
               nm ← need (strncpy_bytes name DIRSIZ);
               append_entry cur_inode child_inode nm;; add_entries l' in
             match child with
             | HUnreadable => mret (-1)
             | HDir _ =>
                 child_inode ← ialloc T_DIR;
                 r ← add_dir child child_inode cur_inode;
                 if negb (r =? 0) then mret r else link child_inode
             | HFile chunks =>
                 child_inode ← ialloc T_FILE;
                 append_chunks child_inode chunks;; link child_inode
             end
         end) entries
  | _ => mret 0
  end.

Definition mk_init : mkstate := mkMk ∅ 0 0 0 1.

Definition main (root_dir : hnode) : M mkstate unit :=
  mkfs nblocks ninodes size;;
  root_inode ← ialloc T_DIR;
  if negb (root_inode =? ROOTINO) then panic "assert" else
  r ← add_dir root_dir root_inode root_inode;
  if negb (r =? 0) then panic "exit" else
  s ← get;
  balloc (usedblocks s).
