(* ===== verification/MkfsProofs.v ===== *)
(** The image that [mkfs] writes: files hold what was appended to them and
    share no block, the bitmap marks the blocks in use, and the kernel reads
    what was written. *)

From S2P Require Import Prelude CString Fs FsFile Mkfs.

(** ** Disk integers and inodes *)

Lemma xint_id x : is_u32 x → xint x = x.
Proof.
  intros H. rewrite <-(u32_le_bytes x H) at 2. unfold xint. f_equal. unfold le_bytes, u8.
  rewrite !Z.div_div by lia. done.
Qed.

Record dino_ok (d : dinode) : Prop := {
  do_type : -32768 ≤ d_type d < 32768;
  do_major : -32768 ≤ d_major d < 32768;
  do_minor : -32768 ≤ d_minor d < 32768;
  do_nlink : -32768 ≤ d_nlink d < 32768;
  do_size : is_u32 (d_size d);
  do_addrs : length (d_addrs d) = 13%nat;
  do_words : Forall is_u32 (d_addrs d)
}.

Lemma slice_mid {A} (a b c : list A) i n : i = length a → n = length b → slice i n (a ++ b ++ c) = b.
Proof. intros -> ->. unfold slice. rewrite drop_app_length. by rewrite take_app_length. Qed.

Lemma words_cons x l : mjoin (le_bytes 4 <$> x :: l) = le_bytes 4 x ++ mjoin (le_bytes 4 <$> l).
Proof. done. Qed.
Lemma length_words l : length (mjoin (le_bytes 4 <$> l)) = (4 * length l)%nat.
Proof. induction l as [|x l IH]; [done|]. rewrite words_cons, length_app, length_le_bytes, IH. cbn [length]. lia. Qed.

Lemma length_enc_dinode d : length (d_addrs d) = 13%nat → length (enc_dinode d) = 64%nat.
Proof. intros H. unfold enc_dinode. rewrite !length_app, !length_le_bytes, length_words, H. done. Qed.

Lemma slice_words l k x : l !! k = Some x → slice (4 * k) 4 (mjoin (le_bytes 4 <$> l)) = le_bytes 4 x.
Proof.
  intros Hk. pose proof (lookup_lt_Some _ _ _ Hk). rewrite <-(take_drop_middle l k x Hk) at 1.
  rewrite fmap_app, join_app, words_cons. apply slice_mid; [|by rewrite length_le_bytes].
  rewrite length_words, length_take. lia.
Qed.

Lemma half_at a b z : length a = b → -32768 ≤ z < 32768 → ∀ c, half (a ++ le_bytes 2 z ++ c) b = z.
Proof.
  intros Ha Hz c. unfold half. rewrite (slice_mid a (le_bytes 2 z) c) by (done || by rewrite length_le_bytes).
  rewrite le_val_le_bytes. change (256 ^ Z.of_nat 2) with 65536. rewrite i16_mod. by apply i16_small.
Qed.

Lemma dec_enc_dinode d : dino_ok d → dec_dinode (enc_dinode d) = d.
Proof.
  intros [Ht Hma Hmi Hn Hs Hl Hw]. destruct d as [t ma mi n sz l]. cbn [d_type d_major d_minor d_nlink d_size d_addrs] in *.
  unfold dec_dinode, enc_dinode. cbn [d_type d_major d_minor d_nlink d_size d_addrs]. f_equal.
  - by apply (half_at []).
  - by apply (half_at (le_bytes 2 t)).
  - pose proof (half_at (le_bytes 2 t ++ le_bytes 2 ma) 4 mi eq_refl Hmi) as E. setoid_rewrite <-app_assoc in E. apply E.
  - pose proof (λ c, half_at (le_bytes 2 t ++ le_bytes 2 ma ++ le_bytes 2 mi) 6 n eq_refl Hn c) as E. setoid_rewrite <-app_assoc in E. setoid_rewrite <-app_assoc in E. apply E.
  - unfold wordk. pose proof (slice_mid (le_bytes 2 t ++ le_bytes 2 ma ++ le_bytes 2 mi ++ le_bytes 2 n) (le_bytes 4 sz)
      (mjoin (le_bytes 4 <$> l)) 8 4 eq_refl eq_refl) as E. rewrite <-!app_assoc in E. change (Z.to_nat (4 * 2)) with 8%nat.
    rewrite E. by apply u32_le_bytes.
  - change (Z.to_nat (NDIRECT + 1)) with 13%nat. apply list_eq. intros k. rewrite list_lookup_fmap. destruct (decide (k < 13)%nat) as [Hk|Hk].
    + rewrite lookup_seq_lt by lia. cbn [fmap option_fmap option_map]. destruct (lookup_lt_is_Some_2 l k) as [x Hx]; [lia|].
      rewrite Hx. f_equal. unfold wordk. replace (Z.to_nat (4 * (3 + Z.of_nat (0 + k)))) with (12 + 4 * k)%nat by lia.
      set (pre := le_bytes 2 t ++ le_bytes 2 ma ++ le_bytes 2 mi ++ le_bytes 2 n ++ le_bytes 4 sz).
      replace (le_bytes 2 t ++ _) with (pre ++ mjoin (le_bytes 4 <$> l)) by (unfold pre; by rewrite <-!app_assoc).
      assert (length pre = 12%nat) as Hpre by done.
      assert (slice (12 + 4 * k) 4 (pre ++ mjoin (le_bytes 4 <$> l)) = slice (4 * k) 4 (mjoin (le_bytes 4 <$> l))) as ->.
      { unfold slice. by rewrite <-drop_drop, <-Hpre, drop_app_length. }
      rewrite (slice_words l k x Hx). apply u32_le_bytes. by eapply (proj1 (list.Forall_forall _ _)); [exact Hw|eapply list_elem_of_lookup_2].
    + rewrite !lookup_ge_None_2 by (rewrite ?length_seq; lia). done.
Qed.

(** ** Sectors *)

Lemma bind_modify {S A} (f : S → S) (m : unit → M S A) s : (modify f ≫= m) s = m tt (f s).
Proof. done. Qed.
Definition set_img (m : gmap Z (list Z)) (s : mkstate) : mkstate :=
  mkMk m (freeblock s) (usedblocks s) (bitblocks s) (freeinode s).
Lemma rsect_Ok s sec d : img s !! sec = Some d → rsect sec s = Ok (d, s).
Proof. intros E. unfold rsect. rewrite (bind_Ok get _ s s s) by done. by rewrite E. Qed.
Lemma wsect_Ok s sec d : wsect sec d s = Ok (tt, set_img (<[sec := d]> (img s)) s).
Proof. done. Qed.

(** The inode in its block. *)
Definition dinode_in (m : gmap Z (list Z)) (inum : Z) : option dinode :=
  (λ buf, dec_dinode (slice (dino_off inum) 64 buf)) <$> m !! i2b inum.

Lemma dino_off_lt inum : (dino_off inum + 64 ≤ 512)%nat.
Proof. unfold dino_off. pose proof (Z.mod_pos_bound inum IPB). unfold IPB, BSIZE in *. change (512 / 64) with 8 in *. lia. Qed.
Lemma dino_off_apart i j : i2b i = i2b j → i ≠ j → (dino_off i + 64 ≤ dino_off j ∨ dino_off j + 64 ≤ dino_off i)%nat.
Proof.
  unfold i2b, dino_off, IPB, BSIZE. change (512 / 64) with 8. intros E Hne.
  pose proof (Z.div_mod i 8). pose proof (Z.div_mod j 8). pose proof (Z.mod_pos_bound i 8). pose proof (Z.mod_pos_bound j 8). lia.
Qed.

Lemma rinode_Ok s inum d : dinode_in (img s) inum = Some d → rinode inum s = Ok (d, s).
Proof.
  unfold dinode_in, rinode. destruct (img s !! i2b inum) as [buf|] eqn:E; [|done]. cbn. intros [= <-].
  by rewrite (bind_Ok _ _ _ _ _ (rsect_Ok s _ _ E)).
Qed.

Lemma winode_Ok s inum d buf : img s !! i2b inum = Some buf → length buf = 512%nat → dino_ok d →
  ∃ buf', winode inum d s = Ok (tt, set_img (<[i2b inum := buf']> (img s)) s) ∧ length buf' = 512%nat ∧
    (∀ j, dinode_in (<[i2b inum := buf']> (img s)) j = if decide (j = inum) then Some d else dinode_in (img s) j).
Proof.
  intros E Hl Hd. pose proof (dino_off_lt inum) as Ho. pose proof (length_enc_dinode d (do_addrs d Hd)) as He.
  exists (splice (dino_off inum) (enc_dinode d) buf). unfold winode. step (rsect_Ok s _ _ E). rewrite wsect_Ok.
  split; [done|]. split; [rewrite length_splice; lia|]. intros j. unfold dinode_in. case_decide as Hj.
  - subst j. rewrite lookup_insert_eq. cbn. f_equal.
    rewrite <-He. rewrite slice_splice_same by lia. by apply dec_enc_dinode.
  - destruct (decide (i2b j = i2b inum)) as [Eb|Hb]; [|by rewrite lookup_insert_ne].
    rewrite Eb, lookup_insert_eq, E. cbn. do 2 f_equal. apply slice_splice_other; [lia|].
    pose proof (dino_off_apart j inum Eb Hj). lia.
Qed.

(** ** Words of a block *)

Lemma wordk_set_same data k v : 0 ≤ k → (4 * Z.to_nat k + 4 ≤ length data)%nat → is_u32 v → wordk (set_wordk data k v) k = v.
Proof.
  intros Hk Hl Hv. unfold wordk, set_wordk. rewrite <-(length_le_bytes 4 v) at 1.
  rewrite slice_splice_same by (rewrite length_le_bytes; lia). by apply u32_le_bytes.
Qed.
Lemma wordk_set_other data k j v : 0 ≤ k → 0 ≤ j → k ≠ j → (4 * Z.to_nat k + 4 ≤ length data)%nat →
  wordk (set_wordk data k v) j = wordk data j.
Proof.
  intros. unfold wordk, set_wordk. f_equal. apply slice_splice_other; rewrite length_le_bytes; lia.
Qed.
Lemma wordk_zeroes k : 0 ≤ k < 128 → wordk zeroes k = 0.
Proof.
  intros Hk. unfold wordk. replace (slice (Z.to_nat (4 * k)) 4 zeroes) with (replicate 4 0); [done|].
  apply list_eq. intros i. rewrite lookup_slice. unfold zeroes. case_decide.
  - by rewrite !lookup_replicate_2 by lia.
  - by rewrite lookup_ge_None_2 by (rewrite length_replicate; lia).
Qed.
Lemma length_set_wordk data k v : (4 * Z.to_nat k + 4 ≤ length data)%nat → length (set_wordk data k v) = length data.
Proof. intros. unfold set_wordk. apply length_splice. lia. Qed.

(** ** Whose a block is

    [own] says of a block which inode it belongs to, and which block of the file
    it is; -1 is the indirect block. *)

Abbreviation owners := (gmap Z (Z * Z)).
Definition DATA0 : Z := 29.

Definition addr_of (d : dinode) (k : Z) : Z := default 0 (d_addrs d !! Z.to_nat k).
Definition ptr (m : gmap Z (list Z)) (d : dinode) (k : Z) : Z :=
  if k <? NDIRECT then addr_of d k
  else if addr_of d NDIRECT =? 0 then 0 else wordk (default [] (m !! addr_of d NDIRECT)) (k - NDIRECT).

Record inode_ok (m : gmap Z (list Z)) (own : owners) (inum : Z) (d : dinode) (nb : Z) (c : list Z) : Prop := {
  io_dino : dino_ok d;
  io_nb : 0 ≤ nb ≤ MAXFILE;
  io_len : Z.of_nat (length c) ≤ nb * 512;
  io_mapped k : 0 ≤ k < nb → own !! ptr m d k = Some (inum, k);
  io_unmapped k : nb ≤ k < MAXFILE → ptr m d k = 0;
  io_ind : if NDIRECT <? nb then own !! addr_of d NDIRECT = Some (inum, -1) else addr_of d NDIRECT = 0;
  io_content o : 0 ≤ o < nb * 512 →
    (m !! ptr m d (o / 512) ≫= λ buf : list Z, buf !! Z.to_nat (o mod 512)) = Some (default 0 (c !! Z.to_nat o))
}.

Record state_ok (s : mkstate) (own : owners) : Prop := {
  so_img b : 0 ≤ b < size → ∃ buf, img s !! b = Some buf ∧ length buf = 512%nat;
  so_fresh b : freeblock s ≤ b < size → img s !! b = Some zeroes;
  so_own b x : own !! b = Some x → DATA0 ≤ b < freeblock s;
  so_free : DATA0 ≤ freeblock s ≤ size;
  so_used : usedblocks s = freeblock s
}.

(** What a change to inode [inum] leaves of the rest. *)
Record grows (inum : Z) (s : mkstate) (own : owners) (s' : mkstate) (own' : owners) : Prop := {
  gr_ok : state_ok s' own';
  gr_own : own ⊆ own';
  gr_frame b x : own !! b = Some x → x.1 ≠ inum → img s' !! b = img s !! b;
  gr_low b : b < DATA0 → img s' !! b = img s !! b;
  gr_inodes : freeinode s' = freeinode s
}.

Lemma grows_refl inum s own : state_ok s own → grows inum s own s own.
Proof. by split. Qed.
Lemma grows_trans inum s own s1 own1 s2 own2 : grows inum s own s1 own1 → grows inum s1 own1 s2 own2 → grows inum s own s2 own2.
Proof.
  intros [? Ho1 Hf1 Hl1 Hi1] [? Ho2 Hf2 Hl2 Hi2]. split; [done|by etrans|..].
  - intros b x Hx Hne. rewrite (Hf2 b x), (Hf1 b x); try done. by eapply lookup_weaken.
  - intros b Hb. by rewrite Hl2, Hl1.
  - by rewrite Hi2.
Qed.

Lemma inode_frame m m' own own' j d nb c : inode_ok m own j d nb c → own ⊆ own' →
  (∀ b x, own !! b = Some x → x.1 = j → m' !! b = m !! b) → inode_ok m' own' j d nb c.
Proof.
  intros [Hd Hnb Hl Hm Hu Hi Hc] Hsub Hb.
  assert (∀ k, ptr m' d k = ptr m d k) as Hp.
  { intros k. unfold ptr. destruct (k <? NDIRECT); [done|]. destruct (Z.eqb_spec (addr_of d NDIRECT) 0) as [|Hnz]; [done|].
    destruct (NDIRECT <? nb); [|done]. by rewrite (Hb _ _ Hi eq_refl). }
  split; try done.
  - intros k Hk. rewrite Hp. eapply lookup_weaken; [by apply Hm|done].
  - intros k Hk. rewrite Hp. by apply Hu.
  - destruct (NDIRECT <? nb); [|done]. by eapply lookup_weaken.
  - intros o Ho. rewrite Hp, <-Hc by done. pose proof (Z.div_lt_upper_bound o 512 nb).
    by rewrite (Hb _ _ (Hm (o / 512) ltac:(split; [apply Z.div_pos; lia|lia])) eq_refl).
Qed.

(** Owned blocks are data blocks, so no pointer in use is null. *)
Lemma own_small s own b x : state_ok s own → own !! b = Some x → is_u32 b ∧ b ≠ 0 ∧ 0 ≤ b < size ∧ DATA0 ≤ b < freeblock s.
Proof. intros Hs Hx. pose proof (so_own _ _ Hs b x Hx). pose proof (so_free _ _ Hs). unfold is_u32, DATA0, size in *. lia. Qed.

(** ** A block of the file is found or allocated *)

Definition bump (s : mkstate) : mkstate :=
  mkMk (img s) (freeblock s + 1) (usedblocks s + 1) (bitblocks s) (freeinode s).
Lemma take_block_Ok s own : state_ok s own → take_block s = Ok (freeblock s, bump s).
Proof.
  intros Hs. pose proof (so_free _ _ Hs). pose proof (so_used _ _ Hs). unfold DATA0, size in *.
  unfold take_block. rewrite (bind_Ok get _ s s s) by done.
  rewrite !u32_small, xint_id by (unfold is_u32; lia). done.
Qed.

Definition set_daddr (k a : Z) (d : dinode) : dinode :=
  mkDinode (d_type d) (d_major d) (d_minor d) (d_nlink d) (d_size d) (<[Z.to_nat k := a]> (d_addrs d)).
Lemma addr_of_set k a d : 0 ≤ k < 13 → length (d_addrs d) = 13%nat → addr_of (set_daddr k a d) k = a.
Proof. intros Hk Hl. unfold addr_of. cbn. by rewrite list_lookup_insert_eq by lia. Qed.
Lemma addr_of_set_ne k j a d : 0 ≤ k → 0 ≤ j → k ≠ j → addr_of (set_daddr k a d) j = addr_of d j.
Proof. intros. unfold addr_of. cbn. by rewrite list_lookup_insert_ne by lia. Qed.
Lemma dino_ok_set k a d : dino_ok d → is_u32 a → dino_ok (set_daddr k a d).
Proof. intros [? ? ? ? ? Hl Hw] Ha. split; cbn; try done; [by rewrite length_insert|by apply Forall_insert]. Qed.

(** A dinode that differs in its addresses only. *)
Definition same_meta (d d' : dinode) : Prop :=
  d_type d' = d_type d ∧ d_major d' = d_major d ∧ d_minor d' = d_minor d ∧ d_nlink d' = d_nlink d ∧ d_size d' = d_size d.

Ltac mconsts := change NDIRECT with 12 in *; change MAXFILE with 140 in *; change size with 1024 in *; change DATA0 with 29 in *.

Lemma same_meta_trans d d1 d2 : same_meta d d1 → same_meta d1 d2 → same_meta d d2.
Proof. unfold same_meta. intuition congruence. Qed.

Section map_block.
Context (s : mkstate) (own : owners) (inum : Z) (d : dinode) (nb : Z) (c : list Z).
Context (Hs : state_ok s own) (Hd : inode_ok (img s) own inum d nb c).

Lemma map_old k : 0 ≤ k < nb → map_block d k s = Ok ((d, ptr (img s) d k), s).
Proof.
  intros Hk. destruct Hd as [_ Hnb _ Hm _ Hi _]. destruct (own_small _ _ _ _ Hs (Hm k Hk)) as (Hu & Hnz & _).
  pose proof (Hm k Hk) as Hmk. unfold map_block. unfold ptr in Hu, Hnz, Hmk |- *. fold (addr_of d k) (addr_of d NDIRECT).
  destruct (Z.ltb_spec k NDIRECT) as [Hlt|Hge].
  - rewrite xint_id by done. by rewrite (proj2 (Z.eqb_neq _ _)).
  - rewrite (proj2 (Z.ltb_lt NDIRECT nb)) in Hi by (mconsts; lia).
    destruct (own_small _ _ _ _ Hs Hi) as (Hiu & Hinz & Hib & _). rewrite (xint_id (addr_of d NDIRECT)) by done.
    rewrite (proj2 (Z.eqb_neq (addr_of d NDIRECT) 0)) in * by done. rewrite bind_ret.
    destruct (so_img _ _ Hs _ Hib) as (buf & Hbuf & _). step (rsect_Ok s _ _ Hbuf). rewrite Hbuf in *. cbn [default from_option id] in *.
    rewrite (proj2 (Z.eqb_neq _ _)) by done. by rewrite xint_id.
Qed.

(** What an allocation gives. *)
Definition mapped_new (extra : Z) : Prop := ∃ d' s' own',
  map_block d nb s = Ok ((d', ptr (img s') d' nb), s') ∧ inode_ok (img s') own' inum d' (nb + 1) c ∧
  grows inum s own s' own' ∧ freeblock s' = freeblock s + extra ∧ same_meta d d'.

Lemma fresh_unowned b : freeblock s ≤ b → own !! b = None.
Proof. intros Hb. destruct (own !! b) as [x|] eqn:E; [|done]. pose proof (so_own _ _ Hs b x E). lia. Qed.

(** The contents with one more block, of zeroes. *)
Lemma content_grows m' d' new : (∀ k, 0 ≤ k < nb → ptr m' d' k = ptr (img s) d k ∧ m' !! ptr m' d' k = img s !! ptr (img s) d k) →
  ptr m' d' nb = new → m' !! new = Some zeroes → ∀ o, 0 ≤ o < (nb + 1) * 512 →
  (m' !! ptr m' d' (o / 512) ≫= λ buf : list Z, buf !! Z.to_nat (o mod 512)) = Some (default 0 (c !! Z.to_nat o)).
Proof.
  intros Hold Hnew Hz o Ho. pose proof (Z.mod_pos_bound o 512 eq_refl). pose proof (Z.div_mod o 512 ltac:(done)).
  assert (0 ≤ o / 512) by (apply Z.div_pos; lia). destruct (decide (o / 512 < nb)) as [Hlt|Hge].
  - destruct (Hold (o / 512)) as [_ ->]; [lia|]. apply (io_content _ _ _ _ _ _ Hd). lia.
  - assert (o / 512 = nb) as -> by lia. rewrite Hnew, Hz. cbn [mbind option_bind]. unfold zeroes. rewrite lookup_replicate_2 by lia.
    pose proof (io_len _ _ _ _ _ _ Hd). by rewrite lookup_ge_None_2 by lia.
Qed.

(** The new block alone. *)
Lemma grows_bump x : x.1 = inum → freeblock s < size → grows inum s own (bump s) (<[freeblock s := x]> own).
Proof.
  intros Hx Hlt. pose proof (so_free _ _ Hs). split; cbn; try done.
  - split; cbn.
    + apply (so_img _ _ Hs).
    + intros b Hb. apply (so_fresh _ _ Hs). lia.
    + intros b y [[<- <-]|[? Hy]]%lookup_insert_Some; [lia|]. pose proof (so_own _ _ Hs b y Hy). lia.
    + lia.
    + by rewrite (so_used _ _ Hs).
  - by apply insert_subseteq, fresh_unowned.
Qed.

Lemma map_new_direct : nb < NDIRECT → freeblock s < size → mapped_new 1.
Proof.
  intros Hlt Hfb. destruct Hd as [Hdi Hnb Hl Hm Hu Hi Hc]. pose proof (so_free _ _ Hs).
  rewrite (proj2 (Z.ltb_ge NDIRECT nb)) in Hi by lia. mconsts.
  exists (set_daddr nb (freeblock s) d), (bump s), (<[freeblock s := (inum, nb)]> own).
  assert (∀ k, 0 ≤ k → k ≠ nb → ptr (img s) (set_daddr nb (freeblock s) d) k = ptr (img s) d k) as Hp.
  { intros k Hk Hne. unfold ptr. mconsts. rewrite !(addr_of_set_ne nb) by lia. done. }
  assert (ptr (img s) (set_daddr nb (freeblock s) d) nb = freeblock s) as Hpn.
  { unfold ptr. mconsts. rewrite (proj2 (Z.ltb_lt nb 12)) by lia. apply addr_of_set; [lia|apply Hdi]. }
  split; [|split; [|split; [by apply grows_bump|done]]].
  - unfold map_block. mconsts. rewrite (proj2 (Z.ltb_lt nb 12)) by lia. fold (addr_of d nb).
    assert (addr_of d nb = 0) as -> by (specialize (Hu nb ltac:(lia)); unfold ptr in Hu; mconsts; by rewrite (proj2 (Z.ltb_lt nb 12)) in Hu by lia).
    change (xint 0 =? 0) with true. cbn iota. step (take_block_Ok s own Hs). rewrite xint_id by (unfold is_u32; lia).
    cbn [img bump]. by rewrite Hpn.
  - split; mconsts; try done.
    + by apply dino_ok_set; [|unfold is_u32; lia].
    + lia.
    + lia.
    + intros k Hk. cbn [img bump]. destruct (decide (k = nb)) as [->|Hne]; [rewrite Hpn; by rewrite lookup_insert_eq|].
      rewrite Hp by lia. rewrite lookup_insert_ne; [by apply Hm; lia|]. pose proof (so_own _ _ Hs _ _ (Hm k ltac:(lia))). lia.
    + intros k Hk. cbn [img bump]. rewrite Hp by lia. apply Hu. mconsts; lia.
    + rewrite (proj2 (Z.ltb_ge 12 (nb + 1))) by lia. by rewrite addr_of_set_ne by lia.
    + apply (content_grows _ _ (freeblock s)); cbn [img bump]; [|done|apply (so_fresh _ _ Hs); mconsts; lia].
      intros k Hk. rewrite Hp by lia. done.
Qed.

Lemma map_new_indirect : NDIRECT < nb < MAXFILE → freeblock s < size → mapped_new 1.
Proof.
  intros Hr Hfb. pose proof Hd as [Hdi Hnb Hl Hm Hu Hi Hc]. pose proof (so_free _ _ Hs) as Hfree.
  rewrite (proj2 (Z.ltb_lt NDIRECT nb)) in Hi by lia. destruct (own_small _ _ _ _ Hs Hi) as (Hiu & Hinz & Hib & Hio).
  destruct (so_img _ _ Hs _ Hib) as (buf & Hbuf & Hlen). set (a := addr_of d NDIRECT) in *.
  set (m' := <[a := set_wordk buf (nb - NDIRECT) (freeblock s)]> (img s)).
  assert (length (set_wordk buf (nb - NDIRECT) (freeblock s)) = 512%nat) as Hlen'.
  { rewrite length_set_wordk; [done|]. mconsts; lia. }
  assert (∀ k, k < NDIRECT → ptr m' d k = ptr (img s) d k) as Hpd by (intros k Hk; unfold ptr; by rewrite (proj2 (Z.ltb_lt k _))).
  assert (∀ k, NDIRECT ≤ k → ptr m' d k = if decide (k = nb) then freeblock s else ptr (img s) d k) as Hpi.
  { intros k Hk. unfold ptr. rewrite (proj2 (Z.ltb_ge k _)) by done. fold a. rewrite (proj2 (Z.eqb_neq a 0)) by done.
    unfold m'. rewrite lookup_insert_eq, Hbuf. cbn [default from_option id]. case_decide as Ek; [subst k; apply wordk_set_same|apply wordk_set_other];
      unfold is_u32; mconsts; lia. }
  assert (∀ k, k ≠ nb → ptr m' d k = ptr (img s) d k) as Hp.
  { intros k Hne. destruct (decide (k < NDIRECT)); [by apply Hpd|]. rewrite Hpi by lia. by rewrite decide_False. }
  assert (ptr m' d nb = freeblock s) as Hpn by (rewrite Hpi by lia; by rewrite decide_True).
  pose proof (Hu nb ltac:(lia)) as Hz. unfold ptr in Hz. rewrite (proj2 (Z.ltb_ge nb _)) in Hz by lia. fold a in Hz.
  rewrite (proj2 (Z.eqb_neq a 0)), Hbuf in Hz by done. cbn [default from_option id] in Hz.
  exists d, (set_img m' (bump s)), (<[freeblock s := (inum, nb)]> own). split; [|split; [|split; [|by split_and!]]].
  - unfold map_block. rewrite (proj2 (Z.ltb_ge nb _)) by lia. fold (addr_of d NDIRECT). fold a. rewrite xint_id by done.
    rewrite (proj2 (Z.eqb_neq a 0)) by done. rewrite bind_ret. step (rsect_Ok s _ _ Hbuf). rewrite Hz. cbn [Z.eqb].
    step (take_block_Ok s own Hs). step (wsect_Ok (bump s) a (set_wordk buf (nb - NDIRECT) (freeblock s))).
    rewrite xint_id by (unfold is_u32; mconsts; lia). cbn [img set_img]. by rewrite Hpn.
  - split; try done; [lia|lia|..]; cbn [img set_img].
    + intros k Hk. destruct (decide (k = nb)) as [->|Hne]; [rewrite Hpn; by rewrite lookup_insert_eq|].
      rewrite Hp by done. rewrite lookup_insert_ne; [by apply Hm; lia|]. pose proof (so_own _ _ Hs _ _ (Hm k ltac:(lia))). lia.
    + intros k Hk. rewrite Hp by lia. apply Hu. lia.
    + rewrite (proj2 (Z.ltb_lt NDIRECT (nb + 1))) by lia. fold a. rewrite lookup_insert_ne by lia. done.
    + apply (content_grows _ _ (freeblock s)); [|done|].
      * intros k Hk. rewrite Hp by lia. split; [done|]. unfold m'. rewrite lookup_insert_ne; [done|].
        intros E. pose proof (Hm _ Hk) as Hmo. rewrite <-E, Hi in Hmo. injection Hmo. lia.
      * unfold m'. rewrite lookup_insert_ne by lia. apply (so_fresh _ _ Hs). lia.
  - destruct (grows_bump (inum, nb) eq_refl Hfb) as [[G1 G2 G3 G4 G5] Gown Gf Gl Gi]. split; cbn [img set_img freeinode bump] in *; try done.
    + split; cbn [img set_img freeblock usedblocks bump] in *; try done.
      * intros b Hb. unfold m'. destruct (decide (b = a)) as [->|Hne]; [rewrite lookup_insert_eq; eauto|rewrite lookup_insert_ne by done; by apply G1].
      * intros b Hb. unfold m'. rewrite lookup_insert_ne by lia. by apply G2.
    + intros b x Hx Hne. unfold m'. rewrite lookup_insert_ne; [done|]. intros <-. rewrite Hi in Hx. by injection Hx as <-.
    + intros b Hb. unfold m'. rewrite lookup_insert_ne by lia. done.
Qed.

(** The thirteenth block comes with the indirect block. *)
Section first_indirect.
Context (Hn : nb = NDIRECT) (Hroom : freeblock s + 1 < size).
Let ind := freeblock s.
Let new := freeblock s + 1.
Let blk := set_wordk zeroes 0 new.
Let m' := <[ind := blk]> (img s).
Let d' := set_daddr NDIRECT ind d.
Let own' := <[new := (inum, NDIRECT)]> (<[ind := (inum, -1)]> own).
Let s' := set_img m' (bump (bump s)).

Lemma length_zeroes : length zeroes = 512%nat.
Proof. apply length_replicate. Qed.

Lemma first_ptrs : (∀ k, 0 ≤ k < NDIRECT → ptr m' d' k = ptr (img s) d k) ∧ ptr m' d' NDIRECT = new ∧
  (∀ k, NDIRECT < k < MAXFILE → ptr m' d' k = 0) ∧ addr_of d' NDIRECT = ind.
Proof.
  destruct Hd as [Hdi _ _ _ _ _ _]. pose proof (so_free _ _ Hs). mconsts.
  assert (addr_of d' 12 = ind) as Ea by (apply addr_of_set; [lia|apply Hdi]).
  assert (∀ k, 12 ≤ k → ptr m' d' k = wordk blk (k - 12)) as Hp.
  { intros k Hk. unfold ptr. mconsts. rewrite (proj2 (Z.ltb_ge k 12)), Ea by done. rewrite (proj2 (Z.eqb_neq ind 0)) by (unfold ind; lia).
    unfold m'. by rewrite lookup_insert_eq. }
  split_and!; [intros k Hk|rewrite Hp by lia|intros k Hk; rewrite Hp by lia|done].
  - unfold ptr. mconsts. rewrite (proj2 (Z.ltb_lt k 12)) by lia. apply addr_of_set_ne; lia.
  - apply wordk_set_same; [lia|rewrite length_zeroes; lia|unfold is_u32, new; lia].
  - unfold blk. rewrite wordk_set_other by (rewrite ?length_zeroes; lia). apply wordk_zeroes. lia.
Qed.

Lemma first_grows : grows inum s own s' own'.
Proof.
  destruct Hs as [G1 G2 G3 G4 G5]. mconsts. assert (own !! ind = None ∧ own !! new = None) as [Hi0 Hn0].
  { unfold ind, new. split; apply fresh_unowned; lia. }
  split; unfold s'; cbn [img set_img bump freeinode].
  - split; cbn [img set_img freeblock usedblocks bump]; mconsts.
    + intros b Hb. unfold m'. destruct (decide (b = ind)) as [->|Hne]; [rewrite lookup_insert_eq; by eexists|].
      rewrite lookup_insert_ne by done. by apply G1.
    + intros b Hb. unfold m'. rewrite lookup_insert_ne by (unfold ind; lia). apply G2. lia.
    + intros b x Hx. unfold own' in Hx.
      apply lookup_insert_Some in Hx as [[<- _]|[_ [[<- _]|[_ Hx]]%lookup_insert_Some]]; [unfold new; lia|unfold ind; lia|].
      specialize (G3 b x Hx). lia.
    + lia.
    + rewrite G5. lia.
  - unfold own'. trans (<[ind := (inum, -1)]> own); [by apply insert_subseteq|]. apply insert_subseteq. rewrite lookup_insert_ne; [done|]. unfold ind, new. lia.
  - intros b x Hx _. unfold m'. rewrite lookup_insert_ne; [done|]. intros <-. congruence.
  - intros b Hb. unfold m'. rewrite lookup_insert_ne; [done|]. unfold ind. mconsts. lia.
  - done.
Qed.

Lemma map_new_first : mapped_new 2.
Proof.
  destruct first_ptrs as (Hp1 & Hp2 & Hp3 & Ha). pose proof first_grows as Hg. pose proof Hd as [Hdi Hnb Hl Hm Hu Hi Hc].
  pose proof (so_free _ _ Hs) as Hfree. pose proof (gr_own _ _ _ _ _ Hg) as Hsub.
  pose proof (content_grows m' d' new) as Hcg. rewrite Hn in *.
  exists d', s', own'. split; [|split; [|split; [done|split; [unfold s'; cbn; lia|done]]]].
  - rewrite Hn. unfold map_block. rewrite Z.ltb_irrefl. fold (addr_of d NDIRECT). rewrite Z.ltb_irrefl in Hi. rewrite Hi. change (xint 0 =? 0) with true. cbn iota.
    rewrite bind_assoc. step (take_block_Ok s own Hs). rewrite bind_ret.
    rewrite (xint_id (freeblock s)) by (unfold is_u32; mconsts; lia).
    assert (img (bump s) !! freeblock s = Some zeroes) as Hz by (apply (so_fresh _ _ Hs); lia). step (rsect_Ok (bump s) _ _ Hz).
    change (wordk zeroes (NDIRECT - NDIRECT) =? 0) with true. cbn iota.
    assert (state_ok (bump s) (<[ind := (inum, -1)]> own)) as Hs1 by (apply (gr_ok _ _ _ _ _ (grows_bump (inum, -1) eq_refl ltac:(lia)))).
    step (take_block_Ok (bump s) _ Hs1). step (wsect_Ok (bump (bump s)) (freeblock s) (set_wordk zeroes (NDIRECT - NDIRECT) (freeblock (bump s)))).
    rewrite xint_id by (unfold is_u32; cbn; mconsts; lia). change (ptr (img s') d' NDIRECT) with (ptr m' d' NDIRECT). by rewrite Hp2.
  - rewrite Hn. split; unfold s'; cbn [img set_img]; try done.
    + apply dino_ok_set; [done|]. unfold is_u32, ind. mconsts. lia.
    + lia.
    + intros k Hk. destruct (decide (k = NDIRECT)) as [->|Hne]; [rewrite Hp2; unfold own'; by rewrite lookup_insert_eq|].
      rewrite Hp1 by lia. eapply lookup_weaken; [apply Hm; lia|done].
    + intros k Hk. apply Hp3. lia.
    + change (NDIRECT <? NDIRECT + 1) with true. cbn iota. rewrite Ha. unfold own'. rewrite lookup_insert_ne by (unfold ind, new; lia).
      by rewrite lookup_insert_eq.
    + apply Hcg.
      * intros k Hk. rewrite Hp1 by lia. split; [done|]. unfold m'. rewrite lookup_insert_ne; [done|].
        pose proof (so_own _ _ Hs _ _ (Hm _ Hk)). unfold ind. lia.
      * done.
      * unfold m', ind, new. rewrite lookup_insert_ne by lia. apply (so_fresh _ _ Hs). lia.
Qed.
End first_indirect.

(** Blocks a file of [n] bytes needs, and blocks it takes with its indirect one. *)
Definition nblk (n : Z) : Z := (n + 511) / 512.
Definition cost (n : Z) : Z := nblk n + (if NDIRECT <? nblk n then 1 else 0).

Lemma map_new : nb < MAXFILE → freeblock s + (if nb =? NDIRECT then 2 else 1) ≤ size → mapped_new (if nb =? NDIRECT then 2 else 1).
Proof.
  intros Hmax Hroom. pose proof (io_nb _ _ _ _ _ _ Hd). destruct (Z.eqb_spec nb NDIRECT) as [E|Hne].
  - apply map_new_first; [done|lia].
  - destruct (decide (nb < NDIRECT)); [apply map_new_direct|apply map_new_indirect]; lia.
Qed.
End map_block.

(** ** Data is written *)

(** Bytes go to the end of the contents, inside the last block. *)
Lemma write_data m own inum d nb c buf ch : inode_ok m own inum d nb c →
  let o := Z.of_nat (length c) in let x := ptr m d (o / 512) in
  0 ≤ o < nb * 512 → m !! x = Some buf → length buf = 512%nat → o mod 512 + Z.of_nat (length ch) ≤ 512 →
  inode_ok (<[x := splice (Z.to_nat (o mod 512)) ch buf]> m) own inum d nb (c ++ ch).
Proof.
  intros [Hd Hnb Hl Hm Hu Hi Hc] o x Ho Hx Hb Hch. pose proof (Z.mod_pos_bound o 512 eq_refl) as Hmod. pose proof (Z.div_mod o 512 ltac:(done)) as Hdiv.
  assert (0 ≤ o / 512 < nb) as Hbn by (split; [apply Z.div_pos; lia|apply Z.div_lt_upper_bound; lia]).
  assert (∀ k, ptr (<[x := splice (Z.to_nat (o mod 512)) ch buf]> m) d k = ptr m d k) as Hp.
  { intros k. unfold ptr. destruct (k <? NDIRECT); [done|]. destruct (Z.eqb_spec (addr_of d NDIRECT) 0); [done|].
    rewrite lookup_insert_ne; [done|]. intros E. destruct (NDIRECT <? nb); [|done].
    pose proof (Hm _ Hbn) as Hmx. fold x in Hmx. rewrite E, Hi in Hmx. injection Hmx. lia. }
  split; try done.
  - rewrite length_app. pose proof (Z.div_mod (nb * 512) 512). unfold o in *. nia.
  - intros k Hk. rewrite Hp. by apply Hm.
  - intros k Hk. rewrite Hp. by apply Hu.
  - intros i Hi'. rewrite Hp. pose proof (Z.mod_pos_bound i 512 eq_refl) as Himod. pose proof (Z.div_mod i 512 ltac:(done)) as Hidiv.
    assert (0 ≤ i / 512 < nb) as Hin by (split; [apply Z.div_pos; lia|apply Z.div_lt_upper_bound; lia]).
    destruct (decide (i / 512 = o / 512)) as [E|Hne].
    + pose proof (Hc i Hi') as Hci. rewrite E in *. fold x in Hci |- *. rewrite Hx in Hci. cbn in Hci. rewrite lookup_insert_eq. cbn.
      destruct (decide (i < o)) as [Hlt|Hge]; [|destruct (decide (i < o + Z.of_nat (length ch))) as [Hlt|Hge']].
      * rewrite lookup_splice_out by lia. rewrite lookup_app_l by (unfold o in *; lia). done.
      * rewrite lookup_splice_in by lia. rewrite lookup_app_r by (unfold o in *; lia).
        replace (Z.to_nat (i mod 512) - Z.to_nat (o mod 512))%nat with (Z.to_nat i - length c)%nat by (unfold o in *; lia).
        destruct (lookup_lt_is_Some_2 ch (Z.to_nat i - length c)%nat) as [v ->]; [unfold o in *; lia|done].
      * rewrite lookup_splice_out by lia. rewrite Hci. do 2 f_equal. rewrite !lookup_ge_None_2; [done|..]; rewrite ?length_app; unfold o in *; lia.
    + rewrite lookup_insert_ne.
      * rewrite Hc by done. do 2 f_equal. destruct (decide (i < o)); [by rewrite lookup_app_l by (unfold o in *; lia)|].
        rewrite !lookup_ge_None_2; [done|rewrite length_app|]; unfold o in *; [|lia].
        assert (o / 512 < i / 512); [|unfold o in *; lia]. pose proof (Z.div_le_mono o i 512). unfold o in *. lia.
      * intros E. pose proof (Hm _ Hin) as H1. pose proof (Hm _ Hbn) as H2. fold x in H2. rewrite <-E, H2 in H1. by injection H1.
Qed.

Lemma nblk_mono a b : a ≤ b → nblk a ≤ nblk b.
Proof. intros. unfold nblk. apply Z.div_le_mono; lia. Qed.
Lemma cost_mono a b : a ≤ b → cost a ≤ cost b.
Proof. intros H%nblk_mono. unfold cost. destruct (Z.ltb_spec NDIRECT (nblk a)), (Z.ltb_spec NDIRECT (nblk b)); lia. Qed.

(** One write of [iappend]'s loop: [n1] bytes at offset [off]. *)
Lemma nblk_step off n1 : 0 ≤ off → 0 < n1 → off mod 512 + n1 ≤ 512 →
  nblk (off + n1) = off / 512 + 1 ∧ (nblk off = off / 512 + 1 ∧ off mod 512 ≠ 0 ∨ nblk off = off / 512 ∧ off mod 512 = 0).
Proof.
  intros Ho H1 Hb. unfold nblk. pose proof (Z.mod_pos_bound off 512 eq_refl). pose proof (Z.div_mod off 512 ltac:(done)).
  split; [symmetry; apply (Z.div_unique_pos _ _ _ (off mod 512 + n1 - 1)); lia|].
  destruct (decide (off mod 512 = 0)) as [E|Hne]; [right|left]; (split; [|done]); symmetry.
  - apply (Z.div_unique_pos _ _ _ 511); lia.
  - apply (Z.div_unique_pos _ _ _ (off mod 512 - 1)); lia.
Qed.

Lemma write_grows s own inum x k d' : state_ok s own → own !! x = Some (inum, k) → length d' = 512%nat →
  grows inum s own (set_img (<[x := d']> (img s)) s) own.
Proof.
  intros Hs Hx Hl. destruct Hs as [G1 G2 G3 G4 G5]. pose proof (G3 _ _ Hx). split; cbn; try done.
  - split; cbn; try done.
    + intros b Hb. destruct (decide (b = x)) as [->|Hne]; [rewrite lookup_insert_eq; eauto|rewrite lookup_insert_ne by done; by apply G1].
    + intros b Hb. rewrite lookup_insert_ne by lia. by apply G2.
  - intros b y Hy Hne. rewrite lookup_insert_ne; [done|]. intros <-. rewrite Hx in Hy. by injection Hy as <-.
  - intros b Hb. rewrite lookup_insert_ne by lia. done.
Qed.

Lemma map_any s own inum d c off : state_ok s own → inode_ok (img s) own inum d (nblk off) c → 0 ≤ off → off < MAXFILE * 512 →
  freeblock s + (cost (512 * (off / 512) + 512) - cost off) ≤ size →
  ∃ d' s' own', map_block d (off / 512) s = Ok ((d', ptr (img s') d' (off / 512)), s') ∧
    inode_ok (img s') own' inum d' (off / 512 + 1) c ∧ grows inum s own s' own' ∧
    freeblock s' = freeblock s + (cost (512 * (off / 512) + 512) - cost off) ∧ same_meta d d'.
Proof.
  intros Hs Hd Ho Hlt Hroom. pose proof (Z.mod_pos_bound off 512 eq_refl). pose proof (Z.div_mod off 512 ltac:(done)).
  destruct (nblk_step off (512 - off mod 512) Ho) as [Hn Hc]; [lia|lia|].
  replace (off + (512 - off mod 512)) with (512 * (off / 512) + 512) in Hn by lia.
  assert (0 ≤ off / 512 < 140) by (split; [apply Z.div_pos; lia|apply Z.div_lt_upper_bound; mconsts; lia]).
  destruct Hc as [[E _]|[E _]].
  - exists d, s, own. rewrite E in Hd. assert (cost (512 * (off / 512) + 512) - cost off = 0) as -> by (unfold cost; rewrite Hn, E; lia).
    split; [apply (map_old s own inum d _ c Hs Hd); lia|]. split; [done|]. split; [by apply grows_refl|]. split; [lia|done].
  - assert (cost (512 * (off / 512) + 512) - cost off = if off / 512 =? NDIRECT then 2 else 1) as Ec.
    { unfold cost. rewrite Hn, E. mconsts. destruct (Z.eqb_spec (off / 512) 12) as [->|?]; [done|].
      destruct (Z.ltb_spec 12 (off / 512 + 1)), (Z.ltb_spec 12 (off / 512)); lia. }
    rewrite Ec in *. rewrite E in Hd. by apply (map_new s own inum d (off / 512) c); [..|mconsts; lia|].
Qed.

Lemma iappend_loop_ok : ∀ fuel s own inum d c p, state_ok s own →
  let off := Z.of_nat (length c) in let n := Z.of_nat (length p) in
  inode_ok (img s) own inum d (nblk off) c → off + n ≤ MAXFILE * 512 → freeblock s + (cost (off + n) - cost off) ≤ size →
  (0 < fuel)%nat → (p ≠ [] → (off mod 512 + n - 1) / 512 + 2 ≤ Z.of_nat fuel) →
  ∃ d' s' own', iappend_loop fuel d off p s = Ok ((d', off + n), s') ∧ grows inum s own s' own' ∧
    inode_ok (img s') own' inum d' (nblk (off + n)) (c ++ p) ∧ freeblock s' = freeblock s + (cost (off + n) - cost off) ∧ same_meta d d'.
Proof.
  induction fuel as [|fuel IH]; intros s own inum d c p Hs off n Hd Hmax Hroom Hf0 Hf; [lia|].
  destruct p as [|b p]; [|clear Hf0].
  { exists d, s, own. cbn [iappend_loop length n] in *. rewrite app_nil_r, Z.add_0_r, Z.sub_diag, Z.add_0_r.
    split; [done|]. split; [by apply grows_refl|done]. }
  specialize (Hf ltac:(done)). cbn [iappend_loop]. pose proof (Z.mod_pos_bound off 512 eq_refl) as Hmod. pose proof (Z.div_mod off 512 ltac:(done)) as Hdiv.
  assert (1 ≤ n) as Hn by (unfold n; cbn; lia). assert (0 ≤ off) as Ho by (unfold off; lia).
  rewrite (proj2 (Z.ltb_lt (off / 512) MAXFILE)) by (apply Z.div_lt_upper_bound; lia). cbn [negb].
  set (n1 := Z.min n ((off / 512 + 1) * 512 - off)). assert (1 ≤ n1 ≤ n ∧ off mod 512 + n1 ≤ 512) as [Hn1 Hn1b] by (unfold n1; lia).
  destruct (nblk_step off n1 Ho ltac:(lia) Hn1b) as [Hnb _].
  assert (cost (512 * (off / 512) + 512) = cost (off + n1)) as Hcost.
  { unfold cost. replace (nblk (512 * (off / 512) + 512)) with (nblk (off + n1)); [done|].
    rewrite Hnb. destruct (nblk_step off (512 - off mod 512) Ho) as [E _]; [lia|lia|].
    by replace (off + (512 - off mod 512)) with (512 * (off / 512) + 512) in E by lia. }
  pose proof (cost_mono (off + n1) (off + n) ltac:(lia)) as Hcm.
  destruct (map_any s own inum d c off Hs Hd Ho) as (d1 & s1 & own1 & E1 & Hd1 & Hg1 & Hf1 & Hm1); [lia|lia|].
  step E1. clear E1. set (x := ptr (img s1) d1 (off / 512)) in *. pose proof (gr_ok _ _ _ _ _ Hg1) as Hs1.
  assert (own1 !! x = Some (inum, off / 512)) as Hox by (apply (io_mapped _ _ _ _ _ _ Hd1); lia).
  destruct (own_small _ _ _ _ Hs1 Hox) as (_ & _ & Hxb & _). destruct (so_img _ _ Hs1 _ Hxb) as (buf & Hbuf & Hlb).
  step (rsect_Ok s1 x buf Hbuf). clear Hxb. set (ch := take (Z.to_nat n1) (b :: p)).
  assert (length ch = Z.to_nat n1) as Hch by (unfold ch; rewrite length_take; unfold n in *; lia).
  replace (off - off / 512 * 512) with (off mod 512) by lia.
  pose proof (write_data (img s1) own1 inum d1 (off / 512 + 1) c buf ch Hd1) as Hw. cbv zeta in Hw. fold off x in Hw.
  specialize (Hw ltac:(lia) Hbuf Hlb ltac:(lia)). rewrite <-Hnb in Hw.
  step (wsect_Ok s1 x (splice (Z.to_nat (off mod 512)) ch buf)).
  pose proof (write_grows s1 own1 inum x _ (splice (Z.to_nat (off mod 512)) ch buf) Hs1 Hox ltac:(rewrite length_splice; lia)) as Hg2.
  set (s2 := set_img _ s1) in *. pose proof (gr_ok _ _ _ _ _ Hg2) as Hs2.
  assert (Z.of_nat (length (c ++ ch)) = off + n1) as Hl2 by (rewrite length_app; unfold off; lia).
  assert (Z.of_nat (length (drop (Z.to_nat n1) (b :: p))) = n - n1) as Hl3 by (rewrite length_drop; unfold n; lia).
  specialize (IH s2 own1 inum d1 (c ++ ch) (drop (Z.to_nat n1) (b :: p)) Hs2). cbv zeta in IH. rewrite Hl2, Hl3 in IH.
  replace (off + n1 + (n - n1)) with (off + n) in IH by lia.
  destruct (IH Hw) as (d3 & s3 & own3 & E3 & Hg3 & Hd3 & Hf3 & Hm3).
  - lia.
  - cbn. lia.
  - pose proof (Z.div_pos (off mod 512 + n - 1) 512). lia.
  - intros Hne. assert (n1 < n) as Hlt by (destruct (decide (n1 < n)); [done|]; destruct Hne; apply drop_ge; unfold n in *; lia).
    assert (n1 = 512 - off mod 512) as En1 by (unfold n1 in *; lia).
    replace ((off + n1) mod 512) with 0 by (replace (off + n1) with ((off / 512 + 1) * 512) by lia; by rewrite Z.mod_mul).
    replace (off mod 512 + n - 1) with (0 + (n - n1) - 1 + 1 * 512) in Hf by lia. rewrite Z.div_add in Hf by lia. lia.
  - exists d3, s3, own3. fold n. fold n1. rewrite E3. split; [done|]. split; [by eapply grows_trans; [exact Hg1|eapply grows_trans]|].
    split; [|split].
    + unfold ch in Hd3. by rewrite <-app_assoc, take_drop in Hd3.
    + cbn in Hf3. lia.
    + by eapply same_meta_trans.
Qed.
