(* ===== verification/MkfsImage.v ===== *)
(** The whole image: what [mkfs] makes before the first file, what each of its
    calls does to the files of the image, the bitmap, and the kernel's view of
    the result ([Fs.ilock] and [Fs.readi] on the blocks that were written). *)

From S2P Require Import Prelude CString Fs FsFile Mkfs MkfsProofs.

(** ** The files of an image *)

(** The type and the bytes of an inode. *)
Abbreviation files := (gmap Z (Z * list Z)).

Definition super_block : list Z := splice 0 (enc_sb (mkSb size nblocks ninodes)) zeroes.

Record image_ok (s : mkstate) (own : owners) (fl : files) : Prop := {
  im_state : state_ok s own;
  im_sb : img s !! 1 = Some super_block;
  im_next : 1 ≤ freeinode s ≤ ninodes;
  im_files inum t c : fl !! inum = Some (t, c) → 1 ≤ inum < freeinode s ∧ ∃ d,
    dinode_in (img s) inum = Some d ∧ d_type d = t ∧ d_size d = Z.of_nat (length c) ∧
    inode_ok (img s) own inum d (nblk (Z.of_nat (length c))) c
}.

Lemma i2b_low inum : 1 ≤ inum < ninodes → 2 ≤ i2b inum < DATA0.
Proof.
  intros H. unfold i2b, ninodes, DATA0, IPB, BSIZE in *. change (512 / 64) with 8.
  pose proof (Z.div_pos inum 8). pose proof (Z.div_lt_upper_bound inum 8 25). lia.
Qed.

(** A write below the data blocks. *)
Lemma low_state s own b d : state_ok s own → 0 ≤ b < DATA0 → length d = 512%nat → state_ok (set_img (<[b := d]> (img s)) s) own.
Proof.
  intros [G1 G2 G3 G4 G5] Hb Hd. split; cbn; try done.
  - intros k Hk. destruct (decide (k = b)) as [->|?]; [rewrite lookup_insert_eq; eauto|rewrite lookup_insert_ne by done; by apply G1].
  - intros k Hk. rewrite lookup_insert_ne by lia. by apply G2.
Qed.
Lemma low_inode s own b d j e nb c : state_ok s own → b < DATA0 → inode_ok (img s) own j e nb c →
  inode_ok (<[b := d]> (img s)) own j e nb c.
Proof.
  intros Hs Hb Hi. eapply inode_frame; [exact Hi|done|]. intros k x Hx _. pose proof (so_own _ _ Hs k x Hx).
  by rewrite lookup_insert_ne by lia.
Qed.

Lemma inode_resize m own j d nb c z : inode_ok m own j d nb c → is_u32 z → inode_ok m own j (set_dsize z d) nb c.
Proof. intros [[? ? ? ? ? ? ?] ? ? ? ? ? ?] Hz. split; try done. Qed.

(** The inode of a file is written back. *)
Lemma winode_image s own fl inum t c d : image_ok s own fl → 1 ≤ inum < freeinode s →
  inode_ok (img s) own inum d (nblk (Z.of_nat (length c))) c → d_type d = t → d_size d = Z.of_nat (length c) →
  ∃ s', winode inum d s = Ok (tt, s') ∧ image_ok s' own (<[inum := (t, c)]> fl) ∧
    freeblock s' = freeblock s ∧ freeinode s' = freeinode s.
Proof.
  intros [Hs Hsb Hn Hf] Hin Hd Ht Hz. pose proof (i2b_low inum ltac:(lia)) as Hlow.
  destruct (so_img _ _ Hs (i2b inum)) as (buf & Hb & Hl); [unfold DATA0, size in *; lia|].
  destruct (winode_Ok s inum d buf Hb Hl (io_dino _ _ _ _ _ _ Hd)) as (buf' & E & Hl' & Hdi).
  eexists. split; [exact E|]. split; [|done]. split; cbn [freeinode set_img img].
  - by apply low_state; [|lia|].
  - by rewrite lookup_insert_ne by lia.
  - done.
  - intros j t' c'. destruct (decide (j = inum)) as [->|Hne].
    + rewrite lookup_insert_eq. intros [= <- <-]. split; [done|]. exists d. rewrite Hdi, decide_True by done.
      split_and!; try done. by apply (low_inode s); [|lia|].
    + rewrite lookup_insert_ne by done. intros Hj. destruct (Hf j t' c' Hj) as (Hr & dj & Ej & ? & ? & Hij).
      split; [done|]. exists dj. rewrite Hdi, decide_False by done. split_and!; try done. by apply (low_inode s); [|lia|].
Qed.

(** What a file leaves alone. *)
Lemma grows_image inum s own s' own' fl t c : image_ok s own fl → fl !! inum = Some (t, c) → grows inum s own s' own' →
  image_ok s' own' (delete inum fl).
Proof.
  intros [Hs Hsb Hn Hf] Hi [Gs Go Gf Gl Gi]. split; [done|by rewrite Gl|by rewrite Gi|].
  intros j t' c' [Hne Hj]%lookup_delete_Some. destruct (Hf j t' c' Hj) as (Hr & d & E & ? & ? & Hd).
  split; [by rewrite Gi|]. exists d. unfold dinode_in in *. rewrite Gl by (pose proof (i2b_low j ltac:(lia)); lia).
  split_and!; try done. eapply inode_frame; [exact Hd|done|]. intros b x Hx Hxj. apply (Gf b x Hx). congruence.
Qed.

Lemma iappend_ok s own fl inum t c p : image_ok s own fl → fl !! inum = Some (t, c) →
  let n := Z.of_nat (length c) in let m := Z.of_nat (length p) in
  n + m ≤ MAXFILE * 512 → freeblock s + (cost (n + m) - cost n) ≤ size →
  ∃ s' own', iappend inum p s = Ok (tt, s') ∧ image_ok s' own' (<[inum := (t, c ++ p)]> fl) ∧
    freeblock s' = freeblock s + (cost (n + m) - cost n) ∧ freeinode s' = freeinode s.
Proof.
  intros Him Hi n m Hmax Hroom. pose proof (im_files _ _ _ Him inum t c Hi) as (Hr & d & Ed & Ht & Hz & Hd).
  pose proof (io_dino _ _ _ _ _ _ Hd) as Hdi. unfold iappend. step (rinode_Ok s inum d Ed). rewrite xint_id by (apply Hdi). rewrite Hz.
  pose proof (Z.mod_pos_bound n 512 eq_refl) as Hmod.
  destruct (iappend_loop_ok (3 + length p / 512) s own inum d c p (im_state _ _ _ Him) Hd Hmax Hroom) as (d1 & s1 & own1 & E1 & Hg & Hd1 & Hf1 & Hm1).
  { lia. }
  { intros _. rewrite Nat2Z.inj_add, Nat2Z.inj_div. fold n m. change (Z.of_nat 512) with 512. change (Z.of_nat 3) with 3.
    pose proof (Z.div_mod m 512 ltac:(done)). pose proof (Z.mod_pos_bound m 512 eq_refl).
    pose proof (Z.div_lt_upper_bound (n mod 512 + m - 1) 512 (m / 512 + 2)). lia. }
  step E1. fold n m. rewrite xint_id by (unfold is_u32; mconsts; lia).
  assert (Z.of_nat (length (c ++ p)) = n + m) as Hl by (rewrite length_app; lia).
  destruct (winode_image s1 own1 (delete inum fl) inum t (c ++ p) (set_dsize (n + m) d1)) as (s2 & E2 & Him2 & Hf2 & Hi2).
  - eapply grows_image; eauto.
  - by rewrite (gr_inodes _ _ _ _ _ Hg).
  - apply inode_resize; [by rewrite Hl|]. unfold is_u32; mconsts; lia.
  - cbn. destruct Hm1 as (-> & _). done.
  - done.
  - exists s2, own1. rewrite E2. split; [done|]. rewrite insert_delete_eq in Him2. split; [done|]. rewrite Hf2, Hi2. split; [done|].
    apply (gr_inodes _ _ _ _ _ Hg).
Qed.

Lemma ialloc_ok s own fl t : image_ok s own fl → freeinode s < ninodes → 0 ≤ t < 32768 →
  ∃ s', ialloc t s = Ok (freeinode s, s') ∧ image_ok s' own (<[freeinode s := (t, [])]> fl) ∧
    freeblock s' = freeblock s ∧ freeinode s' = freeinode s + 1.
Proof.
  intros [Hs Hsb Hn Hf] Hlt Ht. unfold ialloc. rewrite (bind_Ok get _ s s s) by done. rewrite u32_small by (unfold is_u32, ninodes in *; lia).
  assert (∀ x, 0 ≤ x < 32768 → i16 (xshort x) = x) as Hx.
  { intros x Hx. unfold xshort, u8, le_val. rewrite (Z.mod_small (x / 2 ^ 8)) by (split; [apply Z.div_pos; lia|apply Z.div_lt_upper_bound; lia]).
    pose proof (Z.div_mod x 256 ltac:(done)). change (2 ^ 8) with 256. rewrite i16_small; lia. }
  rewrite (Hx t), (Hx 1) by lia. change (xint 0) with 0.
  set (s1 := mkMk (img s) (freeblock s) (usedblocks s) (bitblocks s) (freeinode s + 1)). set (d := mkDinode t 0 0 1 0 (replicate 13 0)).
  assert (image_ok s1 own fl) as Him1.
  { destruct Hs as [G1 G2 G3 G4 G5]. split; [by split|done|cbn; lia|]. intros j t' c' Hj. destruct (Hf j t' c' Hj) as (? & ?).
    split; [cbn; lia|done]. }
  assert (∀ k, addr_of d k = 0) as Ha.
  { intros k. unfold addr_of. cbn [d_addrs d]. destruct (replicate 13 0 !! Z.to_nat k) as [x|] eqn:E; [|done].
    by apply lookup_replicate in E as [-> _]. }
  assert (inode_ok (img s1) own (freeinode s) d 0 []) as Hd.
  { split; try done.
    - split; cbn [d d_type d_major d_minor d_nlink d_size d_addrs]; try lia; try done. apply Forall_replicate. unfold is_u32. lia.
    - intros k Hk. lia.
    - intros k Hk. unfold ptr. rewrite !Ha. by destruct (k <? NDIRECT).
    - intros o Ho. lia. }
  rewrite (bind_Ok (put s1) _ s tt s1) by done.
  destruct (winode_image s1 own fl (freeinode s) t [] d Him1) as (s2 & E & Him2 & Hf2 & Hi2); [cbn; lia|done..|].
  step E. exists s2. split; [done|]. split; [done|]. rewrite Hf2, Hi2. done.
Qed.

(** [fix_size] fills the last block of a directory up with zeroes. *)
Lemma fix_size_ok s own fl inum t c : image_ok s own fl → fl !! inum = Some (t, c) → Z.of_nat (length c) mod 512 ≠ 0 →
  ∃ s', fix_size inum s = Ok (tt, s') ∧
    image_ok s' own (<[inum := (t, c ++ replicate (512 - length c mod 512) 0)]> fl) ∧
    freeblock s' = freeblock s ∧ freeinode s' = freeinode s.
Proof.
  intros Him Hi Hne. set (n := Z.of_nat (length c)) in *. pose proof (im_files _ _ _ Him inum t c Hi) as (Hr & d & Ed & Ht & Hz & Hd).
  fold n in Hz, Hd. pose proof (io_nb _ _ _ _ _ _ Hd) as Hnb. pose proof (io_len _ _ _ _ _ _ Hd) as Hlen. fold n in Hlen.
  pose proof (Z.mod_pos_bound n 512 eq_refl) as Hmod. pose proof (Z.div_mod n 512 ltac:(done)) as Hdiv.
  assert (Z.of_nat (length c mod 512) = n mod 512) as Hm by (unfold n; by rewrite Nat2Z.inj_mod).
  assert (Z.of_nat (length (c ++ replicate (512 - length c mod 512) 0)) = (n / 512 + 1) * 512) as Hl.
  { rewrite length_app, length_replicate. lia. }
  assert (nblk n = n / 512 + 1) as Hn by (destruct (nblk_step n (512 - n mod 512)) as [_ [[? _]|[_ ?]]]; lia).
  assert (nblk ((n / 512 + 1) * 512) = n / 512 + 1) as Hn'.
  { unfold nblk. symmetry. apply (Z.div_unique_pos _ _ _ 511); lia. }
  unfold fix_size. step (rinode_Ok s inum d Ed). rewrite Hz. pose proof (do_size d (io_dino _ _ _ _ _ _ Hd)) as Hu. rewrite Hz in Hu.
  unfold BSIZE. rewrite Hn in *. rewrite (xint_id n), xint_id by (try done; unfold is_u32; mconsts; lia).
  destruct (winode_image s own fl inum t (c ++ replicate (512 - length c mod 512) 0) (set_dsize ((n / 512 + 1) * 512) d) Him Hr)
    as (s' & E & Him' & Hf' & Hi'); [|done|exact (eq_sym Hl)|by exists s'].
  rewrite Hl, Hn'. apply inode_resize; [|unfold is_u32; mconsts; lia]. destruct Hd as [H1 H2 H3 H4 H5 H6 H7]. split; try done; [by rewrite Hl|].
  intros o Ho. rewrite (H7 o Ho). f_equal. destruct (decide (o < n)); [by rewrite lookup_app_l by (unfold n in *; lia)|].
  rewrite lookup_app_r, lookup_replicate_2, lookup_ge_None_2 by (unfold n in *; lia). done.
Qed.

(** When the entries fill their blocks exactly, the size goes past them. *)
Lemma fix_size_overshoots s own fl inum t c : image_ok s own fl → fl !! inum = Some (t, c) →
  Z.of_nat (length c) mod 512 = 0 → Z.of_nat (length c) < MAXFILE * 512 →
  ∃ s' d, fix_size inum s = Ok (tt, s') ∧ dinode_in (img s') inum = Some d ∧ d_size d = Z.of_nat (length c) + 512 ∧
    ptr (img s') d (Z.of_nat (length c) / 512) = 0.
Proof.
  intros Him Hi Hz Hlt. set (n := Z.of_nat (length c)) in *. pose proof (im_files _ _ _ Him inum t c Hi) as (Hr & d & Ed & Ht & Hsz & Hd).
  fold n in Hsz, Hd. pose proof (Z.div_mod n 512 ltac:(done)) as Hdiv. pose proof (im_next _ _ _ Him) as Hnext.
  assert (nblk n = n / 512) as Hn by (destruct (nblk_step n 1) as [_ [[_ ?]|[? _]]]; lia).
  unfold fix_size. step (rinode_Ok s inum d Ed). rewrite Hsz. unfold BSIZE.
  rewrite (xint_id n), xint_id by (unfold is_u32; mconsts; unfold n in *; lia).
  replace ((n / 512 + 1) * 512) with (n + 512) by lia. pose proof (i2b_low inum ltac:(lia)) as Hlow.
  destruct (so_img _ _ (im_state _ _ _ Him) (i2b inum)) as (buf & Hb & Hl); [unfold DATA0, size in *; lia|].
  assert (inode_ok (img s) own inum (set_dsize (n + 512) d) (nblk n) c) as Hd' by (apply inode_resize; [done|unfold is_u32; mconsts; unfold n in *; lia]).
  destruct (winode_Ok s inum (set_dsize (n + 512) d) buf Hb Hl (io_dino _ _ _ _ _ _ Hd')) as (buf' & E & _ & Hdi).
  eexists _, (set_dsize (n + 512) d). split; [exact E|]. cbn [img set_img]. rewrite Hdi, decide_True by done. split_and!; try done.
  pose proof (low_inode s own (i2b inum) buf' inum _ _ _ (im_state _ _ _ Him) ltac:(lia) Hd') as Hd''.
  apply (io_unmapped _ _ _ _ _ _ Hd''). rewrite Hn. split; [lia|]. apply Z.div_lt_upper_bound; lia.
Qed.

(** ** The empty image *)

Lemma wzeroes_img n : ∀ i s, 0 ≤ i → ∃ m, wzeroes n i s = Ok (tt, set_img m s) ∧
  ∀ b, m !! b = if decide (i ≤ b < i + Z.of_nat n) then Some zeroes else img s !! b.
Proof.
  induction n as [|n IH]; intros i s Hi; cbn [wzeroes].
  - exists (img s). split; [by destruct s|]. intros b. by rewrite decide_False by lia.
  - step (wsect_Ok s i zeroes). destruct (IH (i + 1) (set_img (<[i := zeroes]> (img s)) s) ltac:(lia)) as (m & E & Hm).
    exists m. split; [exact E|]. intros b. rewrite Hm. cbn [img set_img]. destruct (decide (b = i)) as [->|Hne].
    + rewrite decide_False by lia. rewrite decide_True by lia. by rewrite lookup_insert_eq.
    + rewrite lookup_insert_ne by done. repeat case_decide; try done; lia.
Qed.

Lemma mkfs_ok : ∃ s, mkfs nblocks ninodes size mk_init = Ok (tt, s) ∧ image_ok s ∅ ∅ ∧ freeblock s = DATA0 ∧ freeinode s = 1.
Proof.
  unfold mkfs. rewrite bind_modify. change (ninodes / IPB + 3 + (size / (512 * 8) + 1)) with 29.
  change (negb (nblocks + 29 =? size)) with false. cbv iota. set (s0 := mkMk _ _ _ _ _).
  destruct (wzeroes_img (Z.to_nat (nblocks + 29)) 0 s0 ltac:(lia)) as (m & E & Hm). step E. rewrite wsect_Ok.
  change (0 + Z.of_nat (Z.to_nat (nblocks + 29))) with 1024 in Hm.
  eexists. split; [done|]. split; [|done]. split; cbn [set_img img freeinode].
  - split; cbn [set_img img freeblock usedblocks]; mconsts; try done.
    + intros b Hb. destruct (decide (b = 1)) as [->|?].
      * rewrite lookup_insert_eq. eexists. split; [done|]. rewrite length_splice; rewrite length_zeroes; lia.
      * rewrite lookup_insert_ne, Hm, decide_True by lia. eexists. split; [done|]. apply length_zeroes.
    + intros b Hb. rewrite lookup_insert_ne by (cbn in *; lia). rewrite Hm, decide_True by (cbn in *; lia). done.
  - by rewrite lookup_insert_eq.
  - unfold ninodes. cbn. lia.
  - intros inum t c Hc. by rewrite lookup_empty in Hc.
Qed.
