(* ===== verification/MkfsTree.v ===== *)
(** A whole run of [mkfs]: what the image holds for a host directory tree, given
    by an abstract disk whose files are byte strings, the bitmap, and the
    kernel's reads of the files. *)

From S2P Require Import Prelude CString Fs FsFile Mkfs MkfsProofs MkfsImage.

(** ** Definitions *)

(** A disk that knows of blocks only how many are left. *)
Record vol := mkVol { v_files : files; v_next : Z; v_free : Z }.

Definition v_alloc (t : Z) (v : vol) : option (Z * vol) :=
  if v_next v <? ninodes then Some (v_next v, mkVol (<[v_next v := (t, [])]> (v_files v)) (v_next v + 1) (v_free v)) else None.

(** The bytes are appended, when the file may grow so far and the disk has the blocks. *)
Definition v_append (inum : Z) (p : list Z) (v : vol) : option vol :=
  '(t, c) ← v_files v !! inum;
  let n := Z.of_nat (length c) in let n' := n + Z.of_nat (length p) in
  if (n' <=? MAXFILE * 512) && (v_free v + (cost n' - cost n) <=? size)
  then Some (mkVol (<[inum := (t, c ++ p)]> (v_files v)) (v_next v) (v_free v + (cost n' - cost n))) else None.

(** The last block is filled up with zeroes; a directory that fills its blocks
    exactly is left out ([fix_size_overshoots]). *)
Definition v_fix (inum : Z) (v : vol) : option vol :=
  '(t, c) ← v_files v !! inum;
  if (length c mod 512 =? 0)%nat then None
  else Some (mkVol (<[inum := (t, c ++ replicate (512 - length c mod 512) 0)]> (v_files v)) (v_next v) (v_free v)).

Fixpoint v_chunks (inum : Z) (chunks : list (list Z)) (v : vol) : option vol :=
  match chunks with [] => Some v | c :: cs => v' ← v_append inum c v; v_chunks inum cs v' end.

Definition v_entry (dir inum : Z) (name : list Z) : vol → option vol :=
  v_append dir (enc_dirent (mkDirent (inum mod 2 ^ 16) name)).

(** A directory is its two dot entries and one entry per child, in the order of
    the host, each after the child's own subtree. *)
Fixpoint v_add_dir (cur : hnode) (dir parent : Z) (v : vol) : option vol :=
  v ← v_entry dir dir (strcpy_name [DOT]) v;
  v ← v_entry dir parent (strcpy_name [DOT; DOT]) v;
  match cur with
  | HDir entries =>
      (fix v_entries (l : list (list Z * hnode)) (v : vol) : option vol :=
         match l with
         | [] => v_fix dir v
         | (name, child) :: l' =>
             dots ← is_dots name;
             if (dots : bool) then v_entries l' v else
             nm ← strncpy_bytes name DIRSIZ;
             '(i, v) ← (match child with
                        | HUnreadable => None
                        | HDir _ => '(i, v) ← v_alloc T_DIR v; v ← v_add_dir child i dir v; Some (i, v)
                        | HFile chunks => '(i, v) ← v_alloc T_FILE v; v ← v_chunks i chunks v; Some (i, v)
                        end);
             v ← v_entry dir i nm v;
             v_entries l' v
         end) entries v
  | _ => Some v
  end.

Definition v_main (root_dir : hnode) : option vol :=
  '(root_inode, v) ← v_alloc T_DIR (mkVol ∅ 1 DATA0);
  v_add_dir root_dir root_inode root_inode v.

(** ** The image implements the abstract disk *)

Definition holds (v : vol) (s : mkstate) : Prop :=
  (∃ own, image_ok s own (v_files v) ∧ freeinode s = v_next v ∧ freeblock s = v_free v) ∧
  map_Forall (λ _ f, f.1 = T_DIR ∨ f.1 = T_FILE) (v_files v).

Lemma ialloc_sim v s t i v' : holds v s → t = T_DIR ∨ t = T_FILE → v_alloc t v = Some (i, v') → ∃ s', ialloc t s = Ok (i, s') ∧ holds v' s'.
Proof.
  intros [(own & Him & Hn & Hf) HT] Ht. unfold v_alloc. destruct (Z.ltb_spec (v_next v) ninodes) as [Hlt|]; [|done]. intros [= <- <-].
  destruct (ialloc_ok s own (v_files v) t Him) as (s' & E & Him' & Hf' & Hn'); [lia|unfold T_DIR, T_FILE in *; lia|]. rewrite Hn in *.
  exists s'. split; [done|]. split; [exists own; cbn; split; [done|lia]|]. by apply map_Forall_insert_2.
Qed.

Lemma iappend_sim v s inum p v' : holds v s → v_append inum p v = Some v' → ∃ s', iappend inum p s = Ok (tt, s') ∧ holds v' s'.
Proof.
  intros [(own & Him & Hn & Hf) HT]. unfold v_append. destruct (v_files v !! inum) as [[t c]|] eqn:Ei; cbn -[MAXFILE cost size]; [|done].
  destruct (Z.leb_spec (Z.of_nat (length c) + Z.of_nat (length p)) (MAXFILE * 512)) as [Hm|]; cbn [andb]; [|done].
  case_match eqn:Hs; [|done]. apply Z.leb_le in Hs. intros [= <-].
  destruct (iappend_ok s own (v_files v) inum t c p Him Ei Hm) as (s' & own' & E & Him' & Hf' & Hn'); [by rewrite Hf|].
  exists s'. split; [done|]. unfold holds. cbn [v_files v_next v_free]. split; [exists own'; split; [done|]; by rewrite Hn', Hf', Hn, Hf|].
  apply map_Forall_insert_2; [|done]. apply (HT _ _ Ei).
Qed.

Lemma fix_size_sim v s inum v' : holds v s → v_fix inum v = Some v' → ∃ s', fix_size inum s = Ok (tt, s') ∧ holds v' s'.
Proof.
  intros [(own & Him & Hn & Hf) HT]. unfold v_fix. destruct (v_files v !! inum) as [[t c]|] eqn:Ei; cbn [mbind option_bind]; [|done].
  destruct (Nat.eqb_spec (length c mod 512) 0) as [|Hne]; [done|]. intros [= <-].
  destruct (fix_size_ok s own (v_files v) inum t c Him Ei) as (s' & E & Him' & Hf' & Hn').
  { intros E. apply Hne, Nat2Z.inj. by rewrite Nat2Z.inj_mod. }
  exists s'. split; [done|]. unfold holds. cbn [v_files v_next v_free]. split; [exists own; split_and!; [done|congruence..]|].
  apply map_Forall_insert_2; [|done]. apply (HT _ _ Ei).
Qed.

Lemma chunks_sim inum chunks : ∀ v s v', holds v s → v_chunks inum chunks v = Some v' →
  ∃ s', append_chunks inum chunks s = Ok (tt, s') ∧ holds v' s'.
Proof.
  induction chunks as [|c cs IH]; intros v s v' Hv; cbn [v_chunks append_chunks]; [intros [= <-]; by exists s|].
  intros (v1 & E1 & E)%bind_Some. destruct (iappend_sim v s inum c v1 Hv E1) as (s1 & R1 & Hv1). step R1. eauto.
Qed.

Lemma xshort_mod x : xshort x = x mod 2 ^ 16.
Proof.
  unfold xshort, u8, le_val. change (2 ^ 8) with 256. change (2 ^ 16) with (256 * 256).
  rewrite Z.rem_mul_r by lia. lia.
Qed.

Lemma entry_sim v s dir inum name v' : holds v s → v_entry dir inum name v = Some v' →
  ∃ s', append_entry dir inum name s = Ok (tt, s') ∧ holds v' s'.
Proof. unfold v_entry, append_entry. rewrite xshort_mod. apply iappend_sim. Qed.

(** Induction over a host tree. *)
Section hnode_induction.
Context (P : hnode → Prop) (Pf : ∀ chunks, P (HFile chunks)) (Pu : P HUnreadable)
  (Pd : ∀ l, Forall (λ e, P e.2) l → P (HDir l)).
Fixpoint hnode_tree_ind (h : hnode) : P h :=
  match h with
  | HFile chunks => Pf chunks
  | HUnreadable => Pu
  | HDir l => Pd l ((fix go l : Forall (λ e, P e.2) l :=
      match l with [] => list.Forall_nil_2 _ | e :: l' => list.Forall_cons_2 _ _ _ (hnode_tree_ind e.2) (go l') end) l)
  end.
End hnode_induction.

Lemma add_dir_sim cur : ∀ dir parent v s v', holds v s → v_add_dir cur dir parent v = Some v' →
  ∃ s', add_dir cur dir parent s = Ok (0, s') ∧ holds v' s'.
Proof.
  induction cur as [chunks| |l IH] using hnode_tree_ind; intros dir parent v s v' Hv; cbn [v_add_dir add_dir];
    intros (v1 & E1 & (v2 & E2 & E)%bind_Some)%bind_Some;
    destruct (entry_sim _ _ _ _ _ _ Hv E1) as (s1 & R1 & Hv1); step R1;
    destruct (entry_sim _ _ _ _ _ _ Hv1 E2) as (s2 & R2 & Hv2); step R2.
  - injection E as <-. by exists s2.
  - injection E as <-. by exists s2.
  - clear Hv Hv1 R1 R2 E1 E2 v v1 s s1. revert v2 s2 E Hv2.
    induction IH as [|[name child] l Hc _ IHl]; intros v s E Hv.
    { destruct (fix_size_sim _ _ _ _ Hv E) as (s' & R & Hv'). step R. by exists s'. }
    apply bind_Some in E as (dots & -> & E). cbn [need]. rewrite bind_ret. destruct dots; [by apply (IHl v)|].
    apply bind_Some in E as (nm & Enm & ([i v1] & Ech & (v2 & E2 & E)%bind_Some)%bind_Some).
    rewrite Enm. cbn in Hc. destruct child as [chunks|l'|]; [| |done]; apply bind_Some in Ech as ([i' v3] & Ea & Ech);
      (eapply ialloc_sim in Ea as (s1 & R1 & Hv1); [|exact Hv|tauto]); step R1.
    + apply bind_Some in Ech as (v4 & Ec & [= -> ->]). destruct (chunks_sim _ _ _ _ _ Hv1 Ec) as (s3 & R3 & Hv3). step R3.
      cbn [need]. rewrite bind_ret. destruct (entry_sim _ _ _ _ _ _ Hv3 E2) as (s4 & R4 & Hv4). step R4. by apply (IHl v2).
    + apply bind_Some in Ech as (v4 & Ec & [= -> ->]). destruct (Hc _ _ _ _ _ Hv1 Ec) as (s3 & R3 & Hv3). step R3.
      cbn [Z.eqb negb need]. rewrite bind_ret. destruct (entry_sim _ _ _ _ _ _ Hv3 E2) as (s4 & R4 & Hv4). step R4. by apply (IHl v2).
Qed.

(** ** The bitmap *)

Lemma bit_free_testbit data bi : bit_free data bi = negb (Z.testbit (byte_of data bi) (bi mod 8)).
Proof.
  pose proof (Z.mod_pos_bound bi 8 eq_refl) as Hm. unfold bit_free, mask_of. rewrite Z.shiftl_1_l.
  destruct (Z.testbit (byte_of data bi) (bi mod 8)) eqn:E; cbn [negb].
  - apply Z.eqb_neq. intros E0. assert (Z.testbit (Z.land (byte_of data bi) (2 ^ (bi mod 8))) (bi mod 8) = true) as H.
    { by rewrite Z.land_spec, E, Z.pow2_bits_eqb, Z.eqb_refl by lia. }
    by rewrite E0, Z.testbit_0_l in H.
  - apply Z.eqb_eq, Z.bits_inj'. intros k Hk. rewrite Z.land_spec, Z.pow2_bits_eqb, Z.testbit_0_l by lia.
    destruct (Z.eqb_spec (bi mod 8) k) as [<-|]; [by rewrite E|apply andb_false_r].
Qed.

Lemma bit_free_set data b j : 0 ≤ b → 0 ≤ j → b < 8 * Z.of_nat (length data) →
  bit_free (bit_set data b) j = if decide (j = b) then false else bit_free data j.
Proof.
  intros Hb Hj Hl. rewrite !bit_free_testbit. pose proof (Z.div_lt_upper_bound b 8 (Z.of_nat (length data))).
  pose proof (Z.div_pos b 8). pose proof (Z.div_pos j 8). pose proof (Z.mod_pos_bound j 8 eq_refl). pose proof (Z.mod_pos_bound b 8 eq_refl).
  pose proof (Z.div_mod j 8). pose proof (Z.div_mod b 8).
  unfold bit_set, byte_of at 1. destruct (decide (j / 8 = b / 8)) as [E|Hne].
  - rewrite E, list_lookup_insert_eq by lia. cbn [default from_option id]. unfold u8, mask_of. change 256 with (2 ^ 8).
    rewrite Z.mod_pow2_bits_low, Z.lor_spec, Z.shiftl_1_l, Z.pow2_bits_eqb by lia.
    assert (byte_of data j = byte_of data b) as -> by (unfold byte_of; by rewrite E).
    case_decide as Hd; [subst; by rewrite Z.eqb_refl, orb_true_r|]. rewrite (proj2 (Z.eqb_neq _ _)) by lia. by rewrite orb_false_r.
  - rewrite list_lookup_insert_ne by lia. rewrite decide_False by congruence. done.
Qed.

Lemma set_bits_free n : ∀ i buf j, 0 ≤ i → 0 ≤ j → i + Z.of_nat n ≤ 8 * Z.of_nat (length buf) →
  length (set_bits n i buf) = length buf ∧
  bit_free (set_bits n i buf) j = if decide (i ≤ j < i + Z.of_nat n) then false else bit_free buf j.
Proof.
  induction n as [|n IH]; intros i buf j Hi Hj Hl; cbn [set_bits]; [by rewrite decide_False by lia|].
  fold (byte_of buf i) (mask_of i) (bit_set buf i). assert (length (bit_set buf i) = length buf) as E by apply length_insert.
  destruct (IH (i + 1) (bit_set buf i) j) as [El Ef]; [lia..|]. split; [by rewrite El|]. rewrite Ef, bit_free_set by lia.
  repeat case_decide; try done; lia.
Qed.

Lemma balloc_ok s own fl : image_ok s own fl → ∃ s' bm, balloc (usedblocks s) s = Ok (tt, s') ∧ image_ok s' own fl ∧
  freeinode s' = freeinode s ∧ freeblock s' = freeblock s ∧ img s' !! BBLOCK 0 ninodes = Some bm ∧ length bm = 512%nat ∧
  (∀ b, 0 ≤ b → bit_free bm b = (freeblock s <=? b)).
Proof.
  intros [Hs Hsb Hn Hf]. pose proof (so_free _ _ Hs) as Hr. pose proof (so_used _ _ Hs) as Hu. unfold balloc. rewrite Hu.
  rewrite (proj2 (Z.ltb_lt (freeblock s) _)) by (mconsts; lia). cbn [negb]. rewrite wsect_Ok.
  set (bm := set_bits _ _ _). change (ninodes / IPB + 3) with 28.
  assert (∀ j, 0 ≤ j → length bm = 512%nat ∧ bit_free bm j = (freeblock s <=? j)) as Hbm.
  { intros j Hj. destruct (set_bits_free (Z.to_nat (freeblock s)) 0 zeroes j) as [El Ef]; [lia|lia|rewrite length_zeroes; mconsts; lia|].
    split; [unfold bm; by rewrite El, length_zeroes|]. unfold bm. rewrite Ef. destruct (Z.leb_spec (freeblock s) j).
    - rewrite decide_False by lia. rewrite bit_free_testbit. unfold byte_of.
      replace (default 0 (zeroes !! Z.to_nat (j / 8))) with 0; [by rewrite Z.testbit_0_l|].
      destruct (zeroes !! _) as [x|] eqn:E; [|done]. unfold zeroes in E. apply lookup_replicate in E as [-> _]. done.
    - by rewrite decide_True by (mconsts; lia). }
  eexists _, bm. split; [done|]. split_and!; try done.
  - split; cbn [img set_img freeinode]; [apply low_state; [done|mconsts; lia|apply (Hbm 0 ltac:(lia))]|by rewrite lookup_insert_ne|done|].
    intros j t c Hj. destruct (Hf j t c Hj) as (Hjr & d & Ed & ? & ? & Hi). split; [done|]. exists d. split_and!; try done.
    + unfold dinode_in in *. rewrite lookup_insert_ne; [done|]. unfold i2b, IPB, BSIZE. change (512 / 64) with 8.
      pose proof (Z.div_lt_upper_bound j 8 25). unfold ninodes in *. lia.
    + by apply (low_inode s); [|mconsts; lia|].
  - cbn [img set_img]. change (BBLOCK 0 ninodes) with 28. by rewrite lookup_insert_eq.
  - apply (Hbm 0 ltac:(lia)).
  - intros b Hb. by apply Hbm.
Qed.

(** ** The kernel reads the image *)

(** The root disk of the kernel is the image. *)
Definition on_disk (m : gmap Z (list Z)) (k : fs) : Prop := ∀ b buf, m !! b = Some buf → blocks k !! (ROOTDEV, b) = Some buf.

(** A reference to an inode whose contents were not read yet, as [iget] makes it. *)
Definition referenced (k : fs) (ip : nat) (inum : Z) (i : inode) : Prop :=
  icache k !! ip = Some i ∧ i_dev i = ROOTDEV ∧ i_inum i = inum ∧ 1 ≤ i_ref i ∧ i_flags i = 0.

(** What a read of [n] bytes at [off] gives. *)
Definition bytes_read (c : list Z) (off n : Z) : Z * list Z :=
  if Z.of_nat (length c) <? off then (-1, [])
  else let m := Z.min n (Z.of_nat (length c) - off) in (i32 m, take (Z.to_nat m) (drop (Z.to_nat off) c)).

(** A file with its blocks, as the kernel finds it. *)
Definition file_in (m : gmap Z (list Z)) (own : owners) (inum t : Z) (c : list Z) : Prop :=
  (∀ b x, own !! b = Some x → DATA0 ≤ b ∧ ∃ buf, m !! b = Some buf ∧ length buf = 512%nat) ∧ ∃ d,
    dinode_in m inum = Some d ∧ d_type d = t ∧ d_size d = Z.of_nat (length c) ∧
    inode_ok m own inum d (nblk (Z.of_nat (length c))) c.

Lemma image_file s own fl inum t c : image_ok s own fl → fl !! inum = Some (t, c) → file_in (img s) own inum t c.
Proof.
  intros Him Hi. destruct (im_files _ _ _ Him _ _ _ Hi) as (_ & d & Hd). split; [|by exists d].
  intros b x Hx. pose proof (own_small _ _ _ _ (im_state _ _ _ Him) Hx) as (_ & _ & Hb & ?). split; [lia|].
  by apply (so_img _ _ (im_state _ _ _ Him)).
Qed.

Definition loaded (i : inode) (d : dinode) : inode :=
  mkInode (i_dev i) (i_inum i) (i_ref i) (Z.lor I_BUSY I_VALID) (d_type d) (d_major d) (d_minor d) (d_nlink d) (d_size d) (d_addrs d).

Lemma ilock_loads m k ip inum i d : on_disk m k → busy k = ∅ → referenced k ip inum i → dinode_in m inum = Some d → d_type d ≠ 0 →
  ilock ip k = Ok (tt, mkFs (blocks k) ∅ (<[ip := loaded i d]> (icache k))).
Proof.
  intros Hk Hb (Hi & Hdev & Hin & Href & Hfl) Hd Ht. unfold dinode_in in Hd. destruct (m !! i2b inum) as [buf|] eqn:Ebuf; [|done].
  injection Hd as Hd. specialize (Hk _ _ Ebuf). unfold ilock. rewrite (bind_Ok get _ k k k) by done. rewrite Hi.
  rewrite (proj2 (Z.ltb_ge _ _)) by done. rewrite Hfl, Hdev, Hin. change (ctrue (Z.land 0 I_BUSY)) with false. change (ctrue (Z.land 0 I_VALID)) with false. cbn iota. unfold upd_inode. rewrite bind_modify.
  step (bread_run ROOTDEV (IBLOCK inum) buf (mkFs (blocks k) (busy k) (alter (λ i, set_flags (Z.lor (i_flags i) I_BUSY) i) ip (icache k)))
    ltac:(rewrite Hb; set_solver) Hk).
  rewrite bind_modify. unfold hold. cbn [blocks busy icache].
  rewrite Hd. set (ic := alter _ ip (alter _ ip _)).
  step (brelse_run ROOTDEV (IBLOCK inum) (mkFs (blocks k) (busy k) ic) ltac:(cbn; rewrite Hb; set_solver)).
  rewrite bind_modify. cbn [blocks busy icache]. rewrite (proj2 (Z.eqb_neq _ _)) by done. rewrite Hb.
  enough (alter (λ i, set_flags (Z.lor (i_flags i) I_VALID) i) ip ic = <[ip := loaded i d]> (icache k)) as -> by done.
  unfold ic. rewrite !list_alter_alter_eq. rewrite (list_alter_ext _ (λ _, loaded i d) (icache k) (icache k) ip); [by rewrite list_insert_alter| |done].
  intros x Hx. rewrite Hi in Hx. injection Hx as <-. cbn. by rewrite Hfl.
Qed.

Section kernel.
Context `{Devsw}.

Lemma file_blocks m own inum t c d k ip ic : (∀ b x, own !! b = Some x → DATA0 ≤ b ∧ ∃ buf, m !! b = Some buf ∧ length buf = 512%nat) →
  inode_ok m own inum d (nblk (Z.of_nat (length c))) c → on_disk m k → busy k = ∅ → t ≠ T_CHECKED →
  icache k !! ip = Some ic → i_dev ic = ROOTDEV → i_type ic = t → i_size ic = Z.of_nat (length c) → i_addrs ic = d_addrs d →
  ∀ b, 0 ≤ b → b * BSIZE < i_size ic → block_good k ip ic (λ b, default [] (m !! ptr m d b)) b.
Proof.
  intros Hown Hd Hk Hb Ht Hi Hdev Hty Hsz Had b Hb0 Hb1. rewrite Hsz in Hb1. unfold BSIZE in *.
  pose proof (io_nb _ _ _ _ _ _ Hd) as Hnb. set (n := Z.of_nat (length c)) in *.
  assert (b < nblk n) as Hbn.
  { unfold nblk. apply Z.le_succ_l, Z.div_le_lower_bound; lia. }
  pose proof (io_mapped _ _ _ _ _ _ Hd b ltac:(lia)) as Hm. destruct (Hown _ _ Hm) as (Hlow & buf & Hbuf & Hl).
  assert (∀ a, amask ic a = a) as Hmask by (intros a; unfold amask; by rewrite Hty, (proj2 (Z.eqb_neq _ _))).
  assert (∀ j, addr ic j = addr_of d j) as Ha by (intros j; unfold addr, addr_of; by rewrite Had).
  assert (pointer k ic b = Some (ptr m d b)) as Hp.
  { unfold pointer. rewrite Hmask, !Ha, Hdev. pose proof (io_ind _ _ _ _ _ _ Hd) as Hind. unfold ptr.
    destruct (Z.ltb_spec b NDIRECT); [done|]. rewrite (proj2 (Z.ltb_lt _ NINDIRECT)) by (change MAXFILE with (NDIRECT + NINDIRECT) in Hnb; lia).
    rewrite (proj2 (Z.ltb_lt NDIRECT (nblk n))) in Hind by lia. destruct (Hown _ _ Hind) as (Hlo & ibuf & Hib & _).
    rewrite (proj2 (Z.eqb_neq _ _)) by (unfold DATA0 in *; lia). rewrite (Hk _ _ Hib), Hib. done. }
  exists (ptr m d b), (ptr m d b). cbn beta. rewrite Hdev, (Hk _ _ Hbuf), Hbuf. cbn [default from_option id]. split; [|split; [done|split; [done|split; [by rewrite Hl|congruence]]]].
  split; [done..| | |rewrite Hb; set_solver|rewrite Hb; set_solver].
  - exists (ptr m d b). by rewrite Hmask.
  - unfold DATA0 in *; lia.
Qed.

Lemma kernel_reads m own inum t c k ip i off n : file_in m own inum t c → on_disk m k → busy k = ∅ → referenced k ip inum i →
  t = T_DIR ∨ t = T_FILE → 0 ≤ off → 0 ≤ n → is_u32 (off + n) →
  ∃ k', (ilock ip;; readi ip off n) k = Ok (bytes_read c off n, k').
Proof.
  intros [Hown (d & Hd & Hty & Hsz & Hio)] Hk Hb Hr Ht Hoff Hn [_ Hov].
  assert (t ≠ 0 ∧ t ≠ T_DEV ∧ t ≠ T_CHECKED) as (Ht0 & Ht1 & Ht2) by (unfold T_DIR, T_FILE, T_DEV, T_CHECKED in *; lia).
  step (ilock_loads m k ip inum i d Hk Hb Hr Hd ltac:(congruence)). set (k' := mkFs _ _ _). set (ic := loaded i d) in *.
  destruct Hr as (Hi & Hdev & Hin & _). assert (icache k' !! ip = Some ic) as Hic by (apply list_lookup_insert_eq; by eapply lookup_lt_Some).
  pose proof (file_blocks m own inum t c d k' ip ic Hown Hio Hk eq_refl Ht2 Hic Hdev Hty Hsz eq_refl) as Hgood.
  exists k'. unfold bytes_read. rewrite <-Hsz. change (d_size d) with (i_size ic). destruct (Z.ltb_spec (i_size ic) off) as [Hlt|Hge].
  { unfold readi. step (inode_at_run _ _ _ Hic). rewrite (proj2 (Z.eqb_neq _ _)) by (cbn; congruence).
    by rewrite (proj2 (Z.ltb_lt _ _)). }
  rewrite (readi_run _ _ _ _ _ Hic) by (done || lia || (cbn; congruence)). cbn zeta.
  set (l := Z.min n (i_size ic - off)).
  rewrite (readi_loop_all ip ic k' _ off l Hoff ltac:(unfold l; lia)) by (intros b Hb0 Hb1; apply Hgood; [done|unfold l in *; lia]).
  do 4 f_equal. apply list_eq. intros j. unfold content. rewrite list_lookup_fmap.
  destruct (decide (Z.of_nat j < l)) as [Hj|Hj].
  - rewrite lookup_seqZ_lt, lookup_take_lt, lookup_drop by lia. cbn [fmap option_fmap option_map]. change (i_size ic) with (d_size d) in *.
    set (o := off + Z.of_nat j). assert (0 ≤ o < Z.of_nat (length c)) as Ho by (unfold o, l in *; lia).
    pose proof (io_content _ _ _ _ _ _ Hio o) as Hc. unfold BSIZE.
    replace (Z.to_nat off + j)%nat with (Z.to_nat o) by (unfold o; lia).
    destruct (lookup_lt_is_Some_2 c (Z.to_nat o)) as [x Hx]; [lia|]. rewrite Hx in *.
    destruct (m !! ptr m d (o / 512)) as [buf|]; cbn in Hc |- *; [rewrite Hc; [done|]|discriminate Hc].
    all: pose proof (io_len _ _ _ _ _ _ Hio); lia.
  - rewrite lookup_seqZ_ge, lookup_take_ge by lia. done.
Qed.

(** The whole program, on the way to its theorems. *)
Lemma main_sim root v : v_main root = Some v → ∃ s own bm, main root mk_init = Ok (tt, s) ∧ image_ok s own (v_files v) ∧
  map_Forall (λ _ f, f.1 = T_DIR ∨ f.1 = T_FILE) (v_files v) ∧ freeblock s = v_free v ∧
  img s !! BBLOCK 0 ninodes = Some bm ∧ length bm = 512%nat ∧ ∀ b, 0 ≤ b → bit_free bm b = (v_free v <=? b).
Proof.
  unfold v_main. intros ([i v1] & E1 & E)%bind_Some. destruct mkfs_ok as (s0 & R0 & Him & Hf & Hn).
  assert (holds (mkVol ∅ 1 DATA0) s0) as Hv0 by (split; [by exists ∅|apply map_Forall_empty]).
  assert (i = ROOTINO) as -> by (by injection E1 as <- _).
  destruct (ialloc_sim _ _ _ _ _ Hv0 (or_introl eq_refl) E1) as (s1 & R1 & Hv1).
  destruct (add_dir_sim _ _ _ _ _ _ Hv1 E) as (s2 & R2 & ((own & Him2 & Hn2 & Hf2) & HT)).
  destruct (balloc_ok _ _ _ Him2) as (s3 & bm & R3 & Him3 & _ & Hf3 & Hbm & Hl & Hbits).
  exists s3, own, bm. unfold main. step R0. step R1. cbn [Z.eqb negb ROOTINO Pos.eqb]. step R2. cbn [Z.eqb negb].
  rewrite (bind_Ok get _ s2 s2 s2) by done. rewrite R3. rewrite Hf2 in *. done.
Qed.

(** C5: What [mkfs] builds from a host tree is what the kernel reads: when the
    abstract disk has room for the tree, and no directory fills its blocks exactly
    (its size would be rounded up past them), [mkfs] succeeds, and on the root disk
    it wrote, locking and reading any inode gives exactly the bytes of the
    abstract file - for directories the entries that link the children, for
    files the bytes of the host file - cut at the file's end. *)
Theorem mkfs_image_reads root v : v_main root = Some v → ∃ s, main root mk_init = Ok (tt, s) ∧
  ∀ k ip inum i t c off n, on_disk (img s) k → busy k = ∅ → referenced k ip inum i → v_files v !! inum = Some (t, c) →
    0 ≤ off → 0 ≤ n → is_u32 (off + n) → ∃ k', (ilock ip;; readi ip off n) k = Ok (bytes_read c off n, k').
Proof.
  intros Hv. destruct (main_sim root v Hv) as (s & own & bm & R & Him & HT & _). exists s. split; [exact R|]. clear R Hv.
  intros k ip inum i t c off n Hk Hb Hr Hi Ho Hn Hov. apply (kernel_reads (img s) own inum t c k ip i off n); try assumption.
  - by apply (image_file s own (v_files v)).
  - apply (HT _ _ Hi).
Qed.

Lemma find_free_at f bm n : ∀ bi, 0 ≤ bi → (∀ b, 0 ≤ b → bit_free bm b = (f <=? b)) → bi ≤ f < bi + Z.of_nat n → find_free n bm bi = Some f.
Proof.
  induction n as [|n IH]; intros bi Hbi Hbm Hf; [lia|]. cbn [find_free]. rewrite Hbm by done.
  destruct (Z.leb_spec f bi); [f_equal; lia|]. apply IH; [lia|done|lia].
Qed.

Lemma kernel_balloc s own fl bm f k : image_ok s own fl → img s !! BBLOCK 0 ninodes = Some bm →
  (∀ b, 0 ≤ b → bit_free bm b = (f <=? b)) → 0 ≤ f ≤ size → on_disk (img s) k → busy k = ∅ →
  Fs.balloc ROOTDEV k = Ok (f, set_blocks <[ (ROOTDEV, BBLOCK 0 ninodes) := bit_set bm f ]> k).
Proof.
  intros Him Hbm Hbits Hf Hk Hb. unfold Fs.balloc, readsb. rewrite bind_assoc.
  assert (∀ b, (ROOTDEV, b) ∉ busy k) as Hnb by (intros; rewrite Hb; set_solver).
  step (bread_run ROOTDEV 1 super_block k (Hnb _) (Hk _ _ (im_sb _ _ _ Him))). rewrite bind_assoc. step (brelse_run ROOTDEV 1 k (Hnb _)). rewrite bind_ret.
  assert (dec_sb super_block = mkSb size nblocks ninodes) as -> by by vm_compute. cbn [sb_size balloc_loop sb_ninodes].
  change (0 <? size) with true. cbn iota. step (bread_run ROOTDEV _ bm k (Hnb _) (Hk _ _ Hbm)).
  rewrite (find_free_at f) by (done || (unfold size, BPB, BSIZE in *; lia)).
  step (bwrite_run ROOTDEV (BBLOCK 0 ninodes) (bit_set bm f) k). step (brelse_run ROOTDEV (BBLOCK 0 ninodes) (set_blocks <[ (ROOTDEV, BBLOCK 0 ninodes) := bit_set bm f ]> k) (Hnb _)).
  done.
Qed.

(** The bitmap is right: the block that the kernel's [balloc] gives first on
    an image of [mkfs] belongs to no file, so that whatever is written to it
    afterwards, every file still reads as [mkfs] made it. *)
Theorem kernel_allocates_unused root v : v_main root = Some v → ∃ s, main root mk_init = Ok (tt, s) ∧
  ∀ k, on_disk (img s) k → busy k = ∅ → ∃ k', Fs.balloc ROOTDEV k = Ok (v_free v, k') ∧
    ∀ data ip inum i t c off n, referenced k ip inum i → v_files v !! inum = Some (t, c) →
      0 ≤ off → 0 ≤ n → is_u32 (off + n) →
      ∃ k'', (ilock ip;; readi ip off n) (set_blocks <[ (ROOTDEV, v_free v) := data ]> k') = Ok (bytes_read c off n, k'').
Proof.
  intros Hv. destruct (main_sim root v Hv) as (s & own & bm & R & Him & HT & Hf & Hbm & Hl & Hbits). exists s. split; [exact R|]. clear R Hv.
  intros k Hk Hb. pose proof (so_free _ _ (im_state _ _ _ Him)) as Hfr. rewrite Hf in Hfr.
  eexists. split; [eapply kernel_balloc; try eassumption; unfold DATA0 in *; lia|].
  intros data ip inum i t c off n Hr Hi Ho Hn Hov. set (m' := <[v_free v := data]> (<[BBLOCK 0 ninodes := bit_set bm (v_free v)]> (img s))).
  assert (∀ b x, own !! b = Some x → m' !! b = img s !! b) as Hm'.
  { intros b x Hx. pose proof (so_own _ _ (im_state _ _ _ Him) b x Hx) as Hbx. rewrite Hf in Hbx. unfold m'.
    rewrite !lookup_insert_ne; [done|change (BBLOCK 0 ninodes) with 28; unfold DATA0 in *; lia|lia]. }
  apply (kernel_reads m' own inum t c _ ip i off n); try assumption.
  - destruct (image_file _ _ _ _ _ _ Him Hi) as [Hown (d & Hd & Ht & Hz & Hio)]. split.
    + intros b x Hx. rewrite (Hm' b x Hx). by apply (Hown b x).
    + exists d. split_and!; try done; [|eapply inode_frame; [exact Hio|done|intros b x Hx _; by apply (Hm' b x)]].
      pose proof (im_files _ _ _ Him _ _ _ Hi) as [Hir _]. pose proof (im_next _ _ _ Him).
      unfold dinode_in in *. unfold m'. assert (i2b inum < 28).
      { unfold i2b, IPB, BSIZE. change (512 / 64) with 8. pose proof (Z.div_lt_upper_bound inum 8 25). unfold ninodes in *. lia. }
      rewrite !lookup_insert_ne; [done|change (BBLOCK 0 ninodes) with 28; lia|unfold DATA0 in *; lia].
  - intros b buf. unfold m'. cbn [blocks set_blocks]. destruct (decide (b = v_free v)) as [->|Hne].
    + by rewrite !lookup_insert_eq.
    + rewrite !(lookup_insert_ne _ (v_free v)), !(lookup_insert_ne _ (ROOTDEV, v_free v)) by congruence.
      destruct (decide (b = BBLOCK 0 ninodes)) as [->|Hne']; [by rewrite !lookup_insert_eq|].
      rewrite !lookup_insert_ne by congruence. apply Hk.
  - apply (HT _ _ Hi).
Qed.
End kernel.

(** ** A directory with a file of two bytes and an empty directory *)

#[local] Instance no_devices : Devsw := {| dev_read _ := None; dev_write _ := None |}.
Definition sample_tree : hnode := HDir [([104; 0], HFile [[104]; [105]]); ([46; 0], HUnreadable); ([100; 0], HDir [])].
(** The kernel with the image as its root disk and a reference to one inode. *)
Definition booted (s : mkstate) (inum : Z) : fs :=
  mkFs (kmap (λ b, (ROOTDEV, b)) (img s)) ∅ [mkInode ROOTDEV inum 1 0 0 0 0 0 0 (replicate 13 0)].

Lemma booted_disk s inum : on_disk (img s) (booted s inum).
Proof. intros b buf Hb. cbn. by rewrite (lookup_kmap (λ b, (ROOTDEV, b))). Qed.
Lemma booted_inode s inum : referenced (booted s inum) 0 inum (mkInode ROOTDEV inum 1 0 0 0 0 0 0 (replicate 13 0)).
Proof. by unfold referenced. Qed.

Lemma sample_volume : ∃ v, v_main sample_tree = Some v ∧ v_files v !! 2 = Some (T_FILE, [104; 105]).
Proof.
  assert (v_main sample_tree ≫= (λ v, v_files v !! 2) = Some (T_FILE, [104; 105])) as H by (vm_compute; reflexivity).
  apply bind_Some in H as (v & Hv & Hf). exists v. split; [exact Hv|exact Hf].
Qed.

Lemma mkfs_image_reads_witness : ∃ s k', main sample_tree mk_init = Ok (tt, s) ∧
  (ilock 0;; readi 0 0 512) (booted s 2) = Ok ((2, [104; 105]), k').
Proof.
  destruct sample_volume as (v & Hv & Hf). destruct (mkfs_image_reads sample_tree v Hv) as (s & R & Hread).
  destruct (Hread (booted s 2) 0%nat 2 _ _ _ 0 512 (booted_disk s 2) eq_refl (booted_inode s 2) Hf) as (k' & E).
  1-3: by split || lia.
  exists s, k'. split; [exact R|exact E].
Defined.

Lemma kernel_allocates_unused_witness : ∃ s a k' k'', main sample_tree mk_init = Ok (tt, s) ∧
  Fs.balloc ROOTDEV (booted s 2) = Ok (a, k') ∧
  (ilock 0;; readi 0 0 512) (set_blocks <[ (ROOTDEV, a) := replicate 512 7 ]> k') = Ok ((2, [104; 105]), k'').
Proof.
  destruct sample_volume as (v & Hv & Hf). destruct (kernel_allocates_unused sample_tree v Hv) as (s & R & Halloc).
  destruct (Halloc (booted s 2) (booted_disk s 2) eq_refl) as (k' & E & Hread).
  destruct (Hread (replicate 512 7) 0%nat 2 _ _ _ 0 512 (booted_inode s 2) Hf) as (k'' & E').
  1-3: by split || lia.
  exists s, (v_free v), k', k''. split; [exact R|]. split; [exact E|exact E'].
Defined.
