(* ===== verification/File.v ===== *)
(** Open files ([xv6/kernel/file.c], and [pipealloc] of [pipe.c]): the table of
    open files over the file system and the pipes. A call that would sleep
    ends as [Blocked]. *)

From S2P Require Import Prelude CString Fs.
From S2P Require Pipe.

Definition NFILE : nat := 100.
Inductive filetype := FD_NONE | FD_PIPE | FD_INODE.
#[export] Instance filetype_eq_dec : EqDecision filetype.
Proof. solve_decision. Defined.

Record file := mkFile {
  f_type : filetype; f_ref : Z; f_readable : Z; f_writable : Z;
  f_pipe : Z; f_ip : nat; f_off : Z
}.
Definition set_fref (r : Z) (f : file) : file :=
  mkFile (f_type f) r (f_readable f) (f_writable f) (f_pipe f) (f_ip f) (f_off f).
Definition set_foff (o : Z) (f : file) : file :=
  mkFile (f_type f) (f_ref f) (f_readable f) (f_writable f) (f_pipe f) (f_ip f) o.

(** The kernel's files: the file system, the table, the pipes by the page that
    holds each, and the free pages. *)
Record files := mkFiles {
  fl_fs : fs;
  ftable : list file;
  fl_pipes : gmap Z Pipe.pipe;
  fl_pages : list Z
}.

Definition lift {A} (m : M fs A) : M files A := λ s,
  match m (fl_fs s) with
  | Ok (a, f) => Ok (a, mkFiles f (ftable s) (fl_pipes s) (fl_pages s))
  | Panic msg => Panic msg
  | Blocked => Blocked
  | Undef => Undef
  | NoFuel => NoFuel
  end.

Definition no_file : file := mkFile FD_NONE 0 0 0 0 0 0.
(** [fileinit]: the table starts as zeroes. *)
Definition fileinit : list file := replicate NFILE no_file.

Definition file_at (f : nat) : M files file := s ← get; need (ftable s !! f).
Definition upd_file (f : nat) (g : file → file) : M files unit :=
  modify (λ s, mkFiles (fl_fs s) (alter g f (ftable s)) (fl_pipes s) (fl_pages s)).

Fixpoint free_slot (l : list file) (k : nat) : option nat :=
  match l with
  | [] => None
  | f :: l' => if f_ref f =? 0 then Some k else free_slot l' (S k)
  end.
Definition filealloc : M files (option nat) :=
  s ← get;
  match free_slot (ftable s) 0 with
  | Some f => upd_file f (set_fref 1);; mret (Some f)
  | None => mret None
  end.

Definition filedup (f : nat) : M files nat :=
  x ← file_at f;
  if f_ref x <? 1 then panic "filedup" else
  upd_file f (set_fref (f_ref x + 1));; mret f.

(** [pipeclose] on the pipe in page [p]: the last close frees the page. *)
Definition pipe_close (p : Z) (writable : Z) : M files unit :=
  s ← get;
  x ← need (fl_pipes s !! p);
  let '(x, _, free) := Pipe.pipeclose x writable in
  if free : bool
  then put (mkFiles (fl_fs s) (ftable s) (delete p (fl_pipes s)) (p :: fl_pages s))
  else put (mkFiles (fl_fs s) (ftable s) (<[p := x]> (fl_pipes s)) (fl_pages s)).

Definition fileclose (f : nat) : M files unit :=
  x ← file_at f;
  if f_ref x <? 1 then panic "fileclose" else
  upd_file f (set_fref (f_ref x - 1));;
  if 0 <? f_ref x - 1 then mret tt else
  upd_file f (λ y, mkFile FD_NONE 0 (f_readable y) (f_writable y) (f_pipe y) (f_ip y) (f_off y));;
  match f_type x with
  | FD_PIPE => pipe_close (f_pipe x) (f_writable x)
  | FD_INODE => lift (iput (f_ip x))
  | FD_NONE => mret tt
  end.

Definition filestat (f : nat) : M files (option stat) :=
  x ← file_at f;
  if decide (f_type x = FD_INODE) then
    lift (ilock (f_ip x));;
    st ← lift (stati (f_ip x));
    lift (iunlock (f_ip x));;
    mret (Some st)
  else mret None.

Section file.
Context `{Devsw}.
(** [proc->killed], which a pipe's reader and writer look at. *)
Context (killed : bool).

(** The result and the bytes stored at [addr]. *)
Definition fileread (f : nat) (n : Z) : M files (Z * list Z) :=
  x ← file_at f;
  if f_readable x =? 0 then mret (-1, []) else
  match f_type x with
  | FD_PIPE =>
      s ← get;
      p ← need (fl_pipes s !! f_pipe x);
      match Pipe.piperead p killed n with
      | (_, _, _, Pipe.PSleep _ _) => blocked
      | (p, _, bs, Pipe.PRet r) =>
          put (mkFiles (fl_fs s) (ftable s) (<[f_pipe x := p]> (fl_pipes s)) (fl_pages s));;
          mret (r, bs)
      end
  | FD_INODE =>
      lift (ilock (f_ip x));;
      r ← lift (readi (f_ip x) (f_off x) (u32 n));
      when (0 <? r.1) (upd_file f (set_foff (u32 (f_off x + r.1))));;
      lift (iunlock (f_ip x));;
      mret r
  | FD_NONE => panic "fileread"
  end.

Definition filewrite (f : nat) (addr : list Z) (n : Z) : M files Z :=
  x ← file_at f;
  if f_writable x =? 0 then mret (-1) else
  match f_type x with
  | FD_PIPE =>
      s ← get;
      p ← need (fl_pipes s !! f_pipe x);
      match Pipe.pipewrite p killed (take (Z.to_nat n) addr) 0 n with
      | (_, _, Pipe.PSleep _ _) => blocked
      | (p, _, Pipe.PRet r) =>
          put (mkFiles (fl_fs s) (ftable s) (<[f_pipe x := p]> (fl_pipes s)) (fl_pages s));;
          mret r
      end
  | FD_INODE =>
      lift (ilock (f_ip x));;
      r ← lift (writei (f_ip x) addr (f_off x) (u32 n));
      when (0 <? r) (upd_file f (set_foff (u32 (f_off x + r))));;
      lift (iunlock (f_ip x));;
      mret r
  | FD_NONE => panic "filewrite"
  end.
End file.

(** [kalloc] and [kfree] as [Kalloc.v] proves them: a stack of free pages. *)
Definition kalloc : M files (option Z) :=
  s ← get;
  match fl_pages s with
  | [] => mret None
  | p :: ps => put (mkFiles (fl_fs s) (ftable s) (fl_pipes s) ps);; mret (Some p)
  end.

(** The two ends of a new pipe; [junk] is what its page held. *)
Definition pipealloc (junk : list Z) : M files (option (nat * nat)) :=
  f0 ← filealloc;
  f1 ← (match f0 with Some _ => filealloc | None => mret None end);
  p ← (match f1 with Some _ => kalloc | None => mret None end);
  match f0, f1, p with
  | Some f0, Some f1, Some p =>
      modify (λ s, mkFiles (fl_fs s) (ftable s) (<[p := Pipe.pipe_init junk]> (fl_pipes s)) (fl_pages s));;
      upd_file f0 (λ y, mkFile FD_PIPE (f_ref y) 1 0 p (f_ip y) (f_off y));;
      upd_file f1 (λ y, mkFile FD_PIPE (f_ref y) 0 1 p (f_ip y) (f_off y));;
      mret (Some (f0, f1))
  | _, _, _ =>
      (match f0 with Some f => fileclose f | None => mret tt end);;
      (match f1 with Some f => fileclose f | None => mret tt end);;
      mret None
  end.
