(* ===== verification/Syscall.v ===== *)
(** The arguments of system calls ([xv6/kernel/syscall.c]): fetched from the
    caller's memory, which spans [0, sz) of the address space the kernel
    shares, with the checks of the C code on unsigned 32-bit addresses; and the
    dispatch table. *)

From S2P Require Import Prelude CString UnixFile.

(** What the kernel sees of the calling process: its size, its saved stack
    pointer and the memory behind its addresses (the kernel can touch all of
    it, whether or not it is the process'). *)
Record uproc := mkUproc { u_sz : Z; u_esp : Z; u_mem : gmap Z Z }.

(** [fetchint]: [None] is the result -1. *)
Definition fetchint (p : uproc) (addr : Z) : option Z :=
  if (addr >=? u_sz p) || (u32 (addr + 4) >? u_sz p) then None
  else Some (i32 (le_val (bytes_at (u_mem p) addr 4))).

(** The loop of [fetchstr] over the bytes from [s] to the end [ep]. *)
Fixpoint fetchstr_loop (fuel : nat) (p : uproc) (addr s : Z) : option Z :=
  match fuel with
  | O => None
  | S fuel' =>
      if s <? u_sz p then
        if default 0 (u_mem p !! s) =? 0 then Some (s - addr) else fetchstr_loop fuel' p addr (s + 1)
      else None
  end.
(** The length of the string at [addr], whose pointer is [addr] itself. *)
Definition fetchstr (p : uproc) (addr : Z) : option Z :=
  if addr >=? u_sz p then None else fetchstr_loop (S (Z.to_nat (u_sz p - addr))) p addr addr.

Definition argint (p : uproc) (n : Z) : option Z := fetchint p (u32 (u_esp p + 4 + 4 * n)).

Definition argptr (p : uproc) (n size : Z) : option Z :=
  i ← argint p n;
  if (u32 i >=? u_sz p) || (u32 (u32 i + size) >? u_sz p) then None else Some (u32 i).

Definition argstr (p : uproc) (n : Z) : option (Z * Z) :=
  addr ← argint p n; len ← fetchstr p (u32 addr); Some (u32 addr, len).

(** The bytes of a string argument. *)
Definition str_at (p : uproc) (a len : Z) : list Z := bytes_at (u_mem p) a len.

(** ** Dispatch *)

Inductive sysname :=
  | SYS_fork | SYS_exit | SYS_wait | SYS_pipe | SYS_write | SYS_read | SYS_close | SYS_kill
  | SYS_exec | SYS_open | SYS_mknod | SYS_unlink | SYS_fstat | SYS_link | SYS_mkdir | SYS_chdir
  | SYS_dup | SYS_getpid | SYS_sbrk | SYS_sleep | SYS_uptime.

(** [syscalls[num]] for [0 < num < NELEM(syscalls)]. *)
Definition syscalls (num : Z) : option sysname :=
  if (num >? 0) && (num <? 22) then
    [SYS_fork; SYS_exit; SYS_wait; SYS_pipe; SYS_write; SYS_read; SYS_close; SYS_kill;
     SYS_exec; SYS_open; SYS_mknod; SYS_unlink; SYS_fstat; SYS_link; SYS_mkdir; SYS_chdir;
     SYS_dup; SYS_getpid; SYS_sbrk; SYS_sleep; SYS_uptime] !! Z.to_nat (num - 1)
  else None.

(** [syscall]: the new [eax]; the unknown call's message is left out. *)
Definition syscall {S} (handler : sysname → M S Z) (eax : Z) : M S Z :=
  match syscalls eax with
  | Some c => r ← handler c; mret (u32 r)
  | None => mret (u32 (-1))
  end.

(** ** What the checks guarantee *)

Lemma argint_range p n v : argint p n = Some v → is_i32 v.
Proof. unfold argint, fetchint. destruct (_ || _); [done|]. intros [= <-]. apply i32_range. Qed.

Lemma fetchstr_loop_spec p addr : ∀ fuel s len,
  fetchstr_loop fuel p addr s = Some len → s ≤ addr + len ∧ addr + len < u_sz p ∧
  default 0 (u_mem p !! (addr + len)) = 0 ∧ ∀ k, s ≤ k < addr + len → default 0 (u_mem p !! k) ≠ 0.
Proof.
  induction fuel as [|fuel IH]; intros s len H; [done|]. cbn in H.
  destruct (Z.ltb_spec s (u_sz p)); [|done].
  destruct (Z.eqb_spec (default 0 (u_mem p !! s)) 0) as [E|E].
  - injection H as <-. replace (addr + (s - addr)) with s by lia. split_and!; [lia..|done|]. lia.
  - apply IH in H as (? & ? & ? & Hk). split_and!; [lia..|done|]. intros k Hks.
    destruct (decide (k = s)) as [->|]; [done|]. apply Hk. lia.
Qed.

Lemma fetchstr_loop_finds p addr : ∀ fuel s e,
  s ≤ e < u_sz p → (Z.to_nat (u_sz p - s) < fuel)%nat → default 0 (u_mem p !! e) = 0 →
  is_Some (fetchstr_loop fuel p addr s).
Proof.
  induction fuel as [|fuel IH]; intros s e He Hf Hz; [lia|]. cbn.
  rewrite (proj2 (Z.ltb_lt _ _)) by lia. destruct (Z.eqb_spec (default 0 (u_mem p !! s)) 0); [eauto|].
  apply (IH _ e); [|lia|done]. destruct (decide (s = e)) as [->|]; [done|lia].
Qed.

#[local] Arguments fetchstr_loop : simpl never.

(** C29: The pointer checks keep the kernel inside the caller's memory: a
    pointer argument accepted for a size that is not negative, and a string
    argument up to its NUL, lie in [0, sz), and a string is accepted exactly
    when its memory holds a NUL below [sz]. The stack word the argument comes
    from is the caller's too. *)
Theorem arguments_in_bounds p n :
  is_u32 (u_sz p) → u_sz p ≤ 4294967292 →
  (∀ v, argint p n = Some v → u32 (u_esp p + 4 + 4 * n) + 4 ≤ u_sz p) ∧
  (∀ size a, 0 ≤ size < 2147483648 → u_sz p < 2147483648 → argptr p n size = Some a →
    0 ≤ a ∧ a < u_sz p ∧ a + size ≤ u_sz p) ∧
  (∀ a, argstr p n = a →
    match a with
    | Some (a, len) => 0 ≤ a ∧ 0 ≤ len ∧ a + len < u_sz p ∧ nonul (str_at p a len) ∧
        default 0 (u_mem p !! (a + len)) = 0
    | None => ∀ i, argint p n = Some i → ∀ e, u32 i ≤ e < u_sz p → default 0 (u_mem p !! e) ≠ 0
    end).
Proof.
  intros [Hs0 Hs1] Hs. split; [|split].
  - intros v. unfold argint, fetchint. pose proof (u32_range (u_esp p + 4 + 4 * n)) as [? _].
    destruct (_ || _) eqn:E; [done|]. intros _. apply orb_false_iff in E as [E1 E2].
    rewrite Z.geb_leb in E1. apply Z.leb_gt in E1.
    rewrite Z.gtb_ltb in E2. apply Z.ltb_ge in E2. rewrite u32_small in E2; [lia|]. unfold is_u32. lia.
  - intros size a Hsz Hsmall. unfold argptr. destruct (argint p n) as [i|]; [|done]. cbn.
    pose proof (u32_range i) as [? _]. destruct (_ || _) eqn:E; [done|]. intros [= <-].
    apply orb_false_iff in E as [E1 E2]. rewrite Z.geb_leb in E1. apply Z.leb_gt in E1.
    rewrite Z.gtb_ltb in E2. apply Z.ltb_ge in E2. rewrite u32_small in E2 by (unfold is_u32; lia). lia.
  - intros a <-. unfold argstr. destruct (argint p n) as [i|] eqn:Ei; [|done]. cbn.
    pose proof (u32_range i) as [? _]. unfold fetchstr. rewrite Z.geb_leb.
    destruct (Z.leb_spec (u_sz p) (u32 i)); cbn.
    { intros ? [= <-]. lia. }
    destruct (fetchstr_loop _ _ _ _) as [len|] eqn:El; cbn.
    + apply fetchstr_loop_spec in El as (? & ? & ? & Hk). split_and!; [lia..| |done].
      unfold nonul, str_at. apply list.Forall_lookup. intros k b Hb. rewrite lookup_bytes_at in Hb.
      destruct (decide _); [|done]. injection Hb as <-. apply Hk. lia.
    + intros ? [= <-] e He Hz. destruct (fetchstr_loop_finds p (u32 i) (S (Z.to_nat (u_sz p - u32 i))) (u32 i) e He) as [? Hx];
        [lia|done|]. by rewrite El in Hx.
Qed.

(** A process of one page that passes the string ["ab"] at 100. *)
Definition demo_proc : uproc :=
  mkUproc 4096 1000 (put_bytes (put_bytes ∅ 1004 (le_bytes 4 100)) 100 [97; 98; 0]).

Lemma arguments_in_bounds_witness : argstr demo_proc 0 = Some (100, 2) ∧ 100 + 2 < 4096.
Proof.
  split; [by vm_compute|]. destruct (arguments_in_bounds demo_proc 0) as (_ & _ & H); [by split|done|].
  specialize (H (Some (100, 2)) ltac:(by vm_compute)). apply H.
Defined.
