(* ===== verification/Sysfile.v ===== *)
(** The file system calls of [xv6/kernel/sysfile.c] for one process: its
    descriptors, its directory and its memory over the kernel's open files. *)

From S2P Require Import Prelude CString UnixFile Fs File Syscall.
From S2P Require Pipe.

Definition NOFILE : nat := 16.
Definition MAXARG : nat := 32.
Definition O_RDONLY : Z := 0x000.
Definition O_WRONLY : Z := 0x001.
Definition O_RDWR : Z := 0x002.
Definition O_CREATE : Z := 0x200.
Definition O_CHECKED : Z := 0x400.

Record kst := mkKst {
  k_files : files;
  k_ofile : list (option nat);   (* proc->ofile *)
  k_cwd : nat;
  k_user : uproc;
  k_killed : bool
}.

Definition liftF {A} (m : M files A) : M kst A := λ s,
  match m (k_files s) with
  | Ok (a, f) => Ok (a, mkKst f (k_ofile s) (k_cwd s) (k_user s) (k_killed s))
  | Panic msg => Panic msg
  | Blocked => Blocked
  | Undef => Undef
  | NoFuel => NoFuel
  end.
Definition liftI {A} (m : M fs A) : M kst A := liftF (lift m).

(** Stores into the caller's memory. *)
Definition store (a : Z) (bs : list Z) : M kst unit :=
  modify (λ s, mkKst (k_files s) (k_ofile s) (k_cwd s)
    (mkUproc (u_sz (k_user s)) (u_esp (k_user s)) (put_bytes (u_mem (k_user s)) a bs)) (k_killed s)).
Definition set_ofile (fd : nat) (f : option nat) : M kst unit :=
  modify (λ s, mkKst (k_files s) (<[fd := f]> (k_ofile s)) (k_cwd s) (k_user s) (k_killed s)).

(** A guard that ends the call with -1, and an argument it needs. *)
Definition arg {A} (o : uproc → option A) (k : A → M kst Z) : M kst Z :=
  s ← get; match o (k_user s) with Some a => k a | None => mret (-1) end.
Definition argpath (n : Z) (k : list Z → M kst Z) : M kst Z :=
  arg (λ p, '(a, len) ← argstr p n; Some (str_at p a len)) k.

Definition argfd (n : Z) (k : nat → nat → M kst Z) : M kst Z :=
  arg (λ p, argint p n) (λ fd,
    if (fd <? 0) || (fd >=? Z.of_nat NOFILE) then mret (-1) else
    s ← get;
    match k_ofile s !! Z.to_nat fd with
    | Some (Some f) => k (Z.to_nat fd) f
    | _ => mret (-1)
    end).

Fixpoint free_fd (l : list (option nat)) (k : nat) : option nat :=
  match l with
  | [] => None
  | None :: _ => Some k
  | Some _ :: l' => free_fd l' (S k)
  end.
Definition fdalloc (f : nat) : M kst (option nat) :=
  s ← get;
  match free_fd (k_ofile s) 0 with
  | Some fd => set_ofile fd (Some f);; mret (Some fd)
  | None => mret None
  end.

(** The fields [stati] sets of the [struct stat] at [a]; padding stays. *)
Definition store_stat (a : Z) (st : stat) : M kst unit :=
  store a (le_bytes 2 (st_type st));; store (a + 4) (le_bytes 4 (st_dev st));;
  store (a + 8) (le_bytes 4 (st_ino st));; store (a + 12) (le_bytes 2 (st_nlink st));;
  store (a + 16) (le_bytes 4 (st_size st));; store (a + 20) [st_checksum st].

Section sysfile.
Context `{Devsw}.
(** What an uninitialised [name] array holds, and a page just allocated. *)
Context (junk page : list Z).
(** [exec] of [exec.c]. *)
Context (exec : list Z → list (list Z) → M kst Z).

Definition sys_dup : M kst Z :=
  argfd 0 (λ _ f,
    fd ← fdalloc f;
    match fd with
    | None => mret (-1)
    | Some fd => liftF (filedup f);; mret (Z.of_nat fd)
    end).

Definition sys_read : M kst Z :=
  argfd 0 (λ _ f, arg (λ p, argint p 2) (λ n, arg (λ p, argptr p 1 n) (λ a,
    s ← get;
    r ← liftF (fileread (k_killed s) f n);
    store a r.2;;
    mret r.1))).

Definition sys_write : M kst Z :=
  argfd 0 (λ _ f, arg (λ p, argint p 2) (λ n, arg (λ p, argptr p 1 n) (λ a,
    s ← get;
    liftF (filewrite (k_killed s) f (bytes_at (u_mem (k_user s)) a n) n)))).

Definition sys_close : M kst Z :=
  argfd 0 (λ fd f, set_ofile fd None;; liftF (fileclose f);; mret 0).

Definition sys_fstat : M kst Z :=
  argfd 0 (λ _ f, arg (λ p, argptr p 1 24) (λ a,
    st ← liftF (filestat f);
    match st with
    | Some st => store_stat a st;; mret 0
    | None => mret (-1)
    end)).

Definition namei_k (path : list Z) : M kst (option nat) :=
  s ← get; liftI (namei junk (k_cwd s) path).
Definition nameiparent_k (path : list Z) : M kst (option nat * list Z) :=
  s ← get; liftI (nameiparent (k_cwd s) path junk).

Definition sys_link : M kst Z :=
  argpath 0 (λ old, argpath 1 (λ new,
    ip ← namei_k old;
    match ip with
    | None => mret (-1)
    | Some ip =>
        liftI (ilock ip);;
        i ← liftI (inode_at ip);
        if i_type i =? T_DIR then liftI (iunlockput ip);; mret (-1) else
        liftI (upd_inode ip (λ i, set_nlink (i16 (i_nlink i + 1)) i));;
        liftI (iupdate ip);;
        liftI (iunlock ip);;
        let bad :=
          liftI (ilock ip);;
          liftI (upd_inode ip (λ i, set_nlink (i16 (i_nlink i - 1)) i));;
          liftI (iupdate ip);;
          liftI (iunlockput ip);;
          mret (-1) in
        r ← nameiparent_k new;
        match r with
        | (None, _) => bad
        | (Some dp, name) =>
            liftI (ilock dp);;
            d ← liftI (inode_at dp);
            i ← liftI (inode_at ip);
            l ← (if i_dev d =? i_dev i then liftI (dirlink dp name (i_inum i)) else mret (-1));
            if l <? 0 then liftI (iunlockput dp);; bad else
            liftI (iunlockput dp);;
            liftI (iput ip);;
            mret 0
        end
    end)).

Fixpoint isdirempty_loop (fuel : nat) (dp : nat) (off : Z) : M fs bool :=
  match fuel with
  | O => nofuel
  | S fuel' =>
      i ← inode_at dp;
      if off <? i_size i then
        r ← readi dp off 16;
        if negb (r.1 =? 16) then panic "isdirempty: readi" else
        if negb (de_inum (dec_dirent r.2) =? 0) then mret false else isdirempty_loop fuel' dp (off + 16)
      else mret true
  end.
Definition isdirempty (dp : nat) : M fs bool :=
  i ← inode_at dp; isdirempty_loop (S (Z.to_nat (i_size i / 16))) dp 32.

Definition dotname : list Z := [46; 0].
Definition dotdotname : list Z := [46; 46; 0].

Definition sys_unlink : M kst Z :=
  argpath 0 (λ path,
    r ← nameiparent_k path;
    match r with
    | (None, _) => mret (-1)
    | (Some dp, name) =>
        liftI (ilock dp);;
        c1 ← need (namecmp name dotname);
        c2 ← need (if c1 =? 0 then Some 0 else namecmp name dotdotname);
        if (c1 =? 0) || (c2 =? 0) then liftI (iunlockput dp);; mret (-1) else
        r ← liftI (dirlookup dp name);
        match r with
        | None => liftI (iunlockput dp);; mret (-1)
        | Some (ip, off) =>
            liftI (ilock ip);;
            i ← liftI (inode_at ip);
            if i_nlink i <? 1 then panic "unlink: nlink < 1" else
            e ← (if i_type i =? T_DIR then liftI (isdirempty ip) else mret true);
            if negb e then liftI (iunlockput ip);; liftI (iunlockput dp);; mret (-1) else
            w ← liftI (writei dp (replicate 16 0) off 16);
            if negb (w =? 16) then panic "unlink: writei" else
            when (i_type i =? T_DIR)
              (liftI (upd_inode dp (λ d, set_nlink (i16 (i_nlink d - 1)) d));; liftI (iupdate dp));;
            liftI (iunlockput dp);;
            liftI (upd_inode ip (λ i, set_nlink (i16 (i_nlink i - 1)) i));;
            liftI (iupdate ip);;
            liftI (iunlockput ip);;
            mret 0
        end
    end).

Definition create (path : list Z) (type major minor : Z) : M kst (option nat) :=
  r ← nameiparent_k path;
  match r with
  | (None, _) => mret None
  | (Some dp, name) =>
      liftI (ilock dp);;
      r ← liftI (dirlookup dp name);
      match r with
      | Some (ip, _) =>
          liftI (iunlockput dp);;
          liftI (ilock ip);;
          i ← liftI (inode_at ip);
          if (type =? T_FILE) && (i_type i =? T_FILE) then mret (Some ip) else
          if (type =? T_CHECKED) && (i_type i =? T_CHECKED) then mret (Some ip) else
          liftI (iunlockput ip);; mret None
      | None =>
          d ← liftI (inode_at dp);
          ip ← liftI (ialloc (i_dev d) type);
          liftI (ilock ip);;
          liftI (upd_inode ip (λ i, set_nlink 1 (set_devnums major minor i)));;
          liftI (iupdate ip);;
          i ← liftI (inode_at ip);
          when (type =? T_DIR)
            (liftI (upd_inode dp (λ d, set_nlink (i16 (i_nlink d + 1)) d));;
             liftI (iupdate dp);;
             r1 ← liftI (dirlink ip dotname (i_inum i));
             if r1 <? 0 then panic "create dots" else
             r2 ← liftI (dirlink ip dotdotname (i_inum d));
             if r2 <? 0 then panic "create dots" else mret tt);;
          r ← liftI (dirlink dp name (i_inum i));
          if r <? 0 then panic "create: dirlink" else
          liftI (iunlockput dp);;
          mret (Some ip)
      end
  end.

(** [sys_open] after its arguments. *)
Definition open_inode (path : list Z) (omode : Z) : M kst (option nat) :=
  if ctrue (Z.land omode O_CREATE) then create path T_FILE 0 0
  else if ctrue (Z.land (Z.land omode O_CREATE) O_CHECKED) then create path T_CHECKED 0 0
  else
    ip ← namei_k path;
    match ip with
    | None => mret None
    | Some ip =>
        liftI (ilock ip);;
        i ← liftI (inode_at ip);
        if (i_type i =? T_DIR) && negb (omode =? O_RDONLY) then liftI (iunlockput ip);; mret None
        else mret (Some ip)
    end.
Definition do_open (path : list Z) (omode : Z) : M kst Z :=
  ip ← open_inode path omode;
  match ip with
  | None => mret (-1)
  | Some ip =>
      f ← liftF filealloc;
      fd ← (match f with Some f => fdalloc f | None => mret None end);
      match f, fd with
      | Some f, Some fd =>
          liftI (iunlock ip);;
          liftF (upd_file f (λ y, mkFile FD_INODE (f_ref y) (cbool (negb (ctrue (Z.land omode O_WRONLY))))
            (cbool (ctrue (Z.land omode O_WRONLY) || ctrue (Z.land omode O_RDWR))) (f_pipe y) ip 0));;
          mret (Z.of_nat fd)
      | _, _ =>
          (match f with Some f => liftF (fileclose f) | None => mret tt end);;
          liftI (iunlockput ip);;
          mret (-1)
      end
  end.
Definition sys_open : M kst Z :=
  argpath 0 (λ path, arg (λ p, argint p 1) (λ omode, do_open path omode)).

Definition sys_mkdir : M kst Z :=
  argpath 0 (λ path,
    ip ← create path T_DIR 0 0;
    match ip with None => mret (-1) | Some ip => liftI (iunlockput ip);; mret 0 end).

Definition sys_mknod : M kst Z :=
  argpath 0 (λ path, arg (λ p, argint p 1) (λ major, arg (λ p, argint p 2) (λ minor,
    ip ← create path T_DEV (i16 major) (i16 minor);
    match ip with None => mret (-1) | Some ip => liftI (iunlockput ip);; mret 0 end))).

Definition sys_chdir : M kst Z :=
  argpath 0 (λ path,
    ip ← namei_k path;
    match ip with
    | None => mret (-1)
    | Some ip =>
        liftI (ilock ip);;
        i ← liftI (inode_at ip);
        if negb (i_type i =? T_DIR) then liftI (iunlockput ip);; mret (-1) else
        liftI (iunlock ip);;
        s ← get;
        liftI (iput (k_cwd s));;
        modify (λ s, mkKst (k_files s) (k_ofile s) ip (k_user s) (k_killed s));;
        mret 0
    end).

(** The loop of [sys_exec] over the argument vector: the strings from index
    [i] on; [None] when the call fails. *)
Fixpoint exec_args (n : nat) (p : uproc) (uargv i : Z) : option (list (list Z)) :=
  match n with
  | O => None   (* i >= NELEM(argv) *)
  | S n' =>
      uarg ← fetchint p (u32 (uargv + 4 * i));
      if uarg =? 0 then Some [] else
      len ← fetchstr p (u32 uarg);
      l ← exec_args n' p uargv (i + 1);
      Some (str_at p (u32 uarg) len :: l)
  end.
Definition sys_exec : M kst Z :=
  argpath 0 (λ path, arg (λ p, argint p 1) (λ uargv,
    arg (λ p, exec_args MAXARG p (u32 uargv) 0) (λ argv, exec path argv))).

Definition sys_pipe : M kst Z :=
  arg (λ p, argptr p 0 8) (λ fd,
    r ← liftF (pipealloc page);
    match r with
    | None => mret (-1)
    | Some (rf, wf) =>
        fd0 ← fdalloc rf;
        fd1 ← (match fd0 with Some _ => fdalloc wf | None => mret None end);
        match fd0, fd1 with
        | Some fd0, Some fd1 =>
            store fd (le_bytes 4 (Z.of_nat fd0));;
            store (u32 (fd + 4)) (le_bytes 4 (Z.of_nat fd1));;
            mret 0
        | _, _ =>
            (match fd0 with Some fd0 => set_ofile fd0 None | None => mret tt end);;
            liftF (fileclose rf);;
            liftF (fileclose wf);;
            mret (-1)
        end
    end).
End sysfile.
