(* ===== verification/SysfileProofs.v ===== *)
(** Reference counts of open files under the calls of [Sysfile.v]: every count
    is the number of descriptors that name the file, and no sequence of calls
    breaks that, whichever way each call ends. *)

From S2P Require Import Prelude CString UnixFile Fs File Syscall Sysfile.
From S2P Require Pipe.

(** ** References *)

Definition fd_count (l : list (option nat)) (f : nat) : Z := Z.of_nat (length (filter (λ o, o = Some f) l)).

(** The count of file [f] is its descriptors in this process and [o f] more. *)
Definition counted (o : nat → Z) (s : kst) : Prop :=
  ∀ f x, ftable (k_files s) !! f = Some x → f_ref x = fd_count (k_ofile s) f + o f.

Definition bump (f : nat) (d : Z) (o : nat → Z) : nat → Z := λ k, if decide (k = f) then o k + d else o k.
Definition bump_opt (f : option nat) (d : Z) (o : nat → Z) : nat → Z :=
  match f with Some f => bump f d o | None => o end.

(** [m] moves the references that are in no descriptor from [o] to [o' r],
    where [r] is its result. *)
Definition moves {A} (o : nat → Z) (m : M kst A) (o' : A → nat → Z) : Prop :=
  ∀ s a s', counted o s → m s = Ok (a, s') → counted (o' a) s'.

Lemma counted_ext o o' s : (∀ k, o k = o' k) → counted o s → counted o' s.
Proof. intros E H f x Hx. rewrite (H f x Hx), E. done. Qed.

Lemma bump_bump f d e o k : bump f e (bump f d o) k = bump f (d + e) o k.
Proof. unfold bump. destruct (decide (k = f)); lia. Qed.
Lemma bump_0 f o k : bump f 0 o k = o k.
Proof. unfold bump. destruct (decide (k = f)); lia. Qed.
Lemma bump_comm f g d e o k : bump f d (bump g e o) k = bump g e (bump f d o) k.
Proof. unfold bump. destruct (decide (k = f)), (decide (k = g)); lia. Qed.

Lemma moves_bind {A B} o o1 o2 (m : M kst A) (f : A → M kst B) :
  moves o m o1 → (∀ a, moves (o1 a) (f a) o2) → moves o (m ≫= f) o2.
Proof. intros Hm Hf s b s' Hs H. minv H. apply (Hf r s0 b s'); [|done]. by apply (Hm s r s0). Qed.

Lemma moves_ret {A} o (a : A) o' : (∀ k, o k = o' a k) → moves o (mret a) o'.
Proof. intros E s b s' Hs [= <- <-]. by apply (counted_ext o). Qed.

Lemma moves_weaken {A} o o1 o2 (m : M kst A) : moves o m o1 → (∀ a k, o1 a k = o2 a k) → moves o m o2.
Proof. intros Hm E s a s' Hs H. apply (counted_ext (o1 a)); [apply E|]. by apply (Hm s). Qed.

(** A routine that moves no reference. *)
Notation keeps m := (∀ o, moves o m (λ _, o)).

Lemma keeps_get : keeps (get : M kst kst).
Proof. by intros o s a s' Hs [= <- <-]. Qed.
Lemma keeps_panic {A} msg : keeps (panic msg : M kst A).
Proof. by intros o s a s' Hs ?. Qed.
Lemma keeps_nofuel {A} : keeps (nofuel : M kst A).
Proof. by intros o s a s' Hs ?. Qed.
Lemma keeps_need {A} (x : option A) : keeps (need x : M kst A).
Proof. intros o. destruct x; [|by intros s a s' Hs ?]. by apply moves_ret. Qed.
Lemma keeps_store a bs : keeps (store a bs).
Proof. intros o s u s' Hs [= <- <-]. exact Hs. Qed.

(** The file system layer does not see the table. *)
Lemma keeps_liftI {A} (m : M fs A) : keeps (liftI m).
Proof.
  intros o s a s' Hs H. unfold liftI, liftF, lift in H.
  destruct (m (fl_fs (k_files s))) as [[b f]| | | |]; try done. injection H as <- <-. exact Hs.
Qed.

(** Within the layer of open files: [m] leaves all counts alone. *)
Definition steady {A} (m : M files A) : Prop :=
  ∀ s a s', m s = Ok (a, s') → f_ref <$> ftable s' = f_ref <$> ftable s.

Lemma keeps_steady {A} (m : M files A) : steady m → keeps (liftF m).
Proof.
  intros Hm o s a s' Hs H. unfold liftF in H. destruct (m (k_files s)) as [[b f]| | | |] eqn:E; try done.
  injection H as <- <-. intros k x Hx. cbn in Hx |- *. apply Hm in E.
  assert (f_ref <$> (ftable f !! k) = f_ref <$> (ftable (k_files s) !! k)) as Ek.
  { rewrite <-!list_lookup_fmap. by rewrite E. }
  rewrite Hx in Ek. destruct (ftable (k_files s) !! k) as [y|] eqn:Ey; [|done]. injection Ek as ->. by apply Hs.
Qed.

Lemma steady_bind {A B} (m : M files A) (f : A → M files B) : steady m → (∀ a, steady (f a)) → steady (m ≫= f).
Proof. intros Hm Hf s b s' H. minv H. rewrite (Hf _ _ _ _ H). by apply Hm in E. Qed.
Lemma steady_ret {A} (a : A) : steady (mret a).
Proof. by intros s b s' [= <- <-]. Qed.
Lemma steady_get : steady (get : M files files).
Proof. by intros s b s' [= <- <-]. Qed.
Lemma steady_need {A} (x : option A) : steady (need x).
Proof. destruct x; [apply steady_ret|by intros s b s' ?]. Qed.
Lemma steady_panic {A} msg : steady (panic msg : M files A).
Proof. by intros s a s' ?. Qed.
Lemma steady_blocked {A} : steady (blocked : M files A).
Proof. by intros s a s' ?. Qed.
Lemma steady_lift {A} (m : M fs A) : steady (lift m).
Proof. intros s a s' H. unfold lift in H. destruct (m (fl_fs s)) as [[b f]| | | |]; try done. by injection H as <- <-. Qed.
Lemma steady_upd f g : (∀ x, f_ref (g x) = f_ref x) → steady (upd_file f g).
Proof.
  intros Hg s a s' [= <- <-]. cbn.
  apply list_eq. intros k. rewrite !list_lookup_fmap. destruct (decide (k = f)) as [->|Hk].
  - rewrite list_lookup_alter_eq. by destruct (ftable s !! f); cbn; rewrite ?Hg.
  - by rewrite list_lookup_alter_ne by done.
Qed.

Create HintDb refs.
#[export] Hint Resolve keeps_get keeps_panic keeps_nofuel keeps_need keeps_store keeps_liftI
  steady_ret steady_get steady_need steady_panic steady_blocked steady_lift : refs.

(** [keep] walks through the text of a routine that moves no reference. *)
Ltac keep :=
  repeat first
    [ match goal with
      | |- ∀ _, _ => intro
      | |- moves _ (let x := _ in _) _ => cbv zeta
      | |- moves _ (liftI _) _ => apply keeps_liftI
      | |- moves _ (mret _) _ => apply moves_ret; done
      | |- moves _ (_ ≫= _) _ => eapply moves_bind
      | |- moves _ (when ?b _) _ => unfold when
      | |- moves _ (if ?b then _ else _) _ => destruct b
      | |- moves _ (match ?x with _ => _ end) _ => destruct x
      | |- steady (_ ≫= _) => apply steady_bind
      | |- steady (when ?b _) => unfold when
      | |- steady (if ?b then _ else _) => destruct b
      | |- steady (match ?x with _ => _ end) => destruct x
      | |- steady (upd_file _ _) => apply steady_upd; done
      | |- _ => solve [eauto with refs]
      end ].

Lemma keeps_arg {A} (x : uproc → option A) k o o' : (∀ a, moves o (k a) o') → (∀ r j, o j = o' r j) → moves o (arg x k) o'.
Proof.
  intros Hk E. eapply moves_bind; [apply keeps_get|]. intros s. destruct (x (k_user s)); [apply Hk|].
  apply moves_ret. intros j. apply E.
Qed.

(** Steps that put back a state they have just got. *)
Lemma steady_get_need {A B} (g : files → option A) (body : files → A → M files B) :
  (∀ s x b s', body s x s = Ok (b, s') → f_ref <$> ftable s' = f_ref <$> ftable s) →
  steady (s ← get; x ← need (g s); body s x).
Proof.
  intros Hb s b s' H. minv H. injection E as <- <-. minv H. unfold need in E.
  destruct (g s) as [x|]; [|done]. injection E as <- <-. by apply (Hb s x b).
Qed.

Lemma steady_file_at f : steady (file_at f).
Proof. unfold file_at. apply steady_bind; [apply steady_get|]. intros s. apply steady_need. Qed.
#[export] Hint Resolve steady_file_at : refs.

Section refs.
Context `{Devsw}.

Lemma steady_fileread killed f n : steady (fileread killed f n).
Proof.
  unfold fileread. apply steady_bind; [apply steady_file_at|]. intros x.
  destruct (f_readable x =? 0); [apply steady_ret|]. destruct (f_type x); [apply steady_panic| |keep].
  apply steady_get_need. intros s p b s' Hs.
  destruct (Pipe.piperead p killed n) as [[[p' c] bs'] [rc|ch i]]; [|done].
  minv Hs. injection Hs as _ <-. by injection E as _ <-.
Qed.

Lemma steady_filewrite killed f bs n : steady (filewrite killed f bs n).
Proof.
  unfold filewrite. apply steady_bind; [apply steady_file_at|]. intros x.
  destruct (f_writable x =? 0); [apply steady_ret|]. destruct (f_type x); [apply steady_panic| |keep].
  apply steady_get_need. intros s p b s' Hs.
  destruct (Pipe.pipewrite p killed _ 0 n) as [[p' c] [rc|ch i]]; [|done].
  minv Hs. injection Hs as _ <-. by injection E as _ <-.
Qed.

Lemma steady_filestat f : steady (filestat f).
Proof. unfold filestat. apply steady_bind; [apply steady_file_at|]. intros x. case_decide; keep. Qed.

Lemma steady_pipe_close p w : steady (pipe_close p w).
Proof.
  apply steady_get_need. intros s x b s' Hs. destruct (Pipe.pipeclose x w) as [[x' c] [|]]; by injection Hs as _ <-.
Qed.
End refs.
#[export] Hint Resolve steady_fileread steady_filewrite steady_filestat steady_pipe_close : refs.

(** ** Steps that move references *)

(** A change of one count. *)
Lemma counted_upd o s f x g fs ps pgs :
  counted o s → ftable (k_files s) !! f = Some x →
  counted (bump f (f_ref (g x) - f_ref x) o)
    (mkKst (mkFiles fs (alter g f (ftable (k_files s))) ps pgs) (k_ofile s) (k_cwd s) (k_user s) (k_killed s)).
Proof.
  intros Hs Hx k y Hy. cbn in Hy |- *. unfold bump. destruct (decide (k = f)) as [->|Hk].
  - rewrite list_lookup_alter_eq, Hx in Hy. injection Hy as <-. rewrite (Hs f x Hx). lia.
  - rewrite list_lookup_alter_ne in Hy by done. by apply Hs.
Qed.

Lemma free_slot_spec l : ∀ k f, free_slot l k = Some f → ∃ x, l !! (f - k)%nat = Some x ∧ (k ≤ f)%nat ∧ f_ref x = 0.
Proof.
  induction l as [|x l IH]; intros k f H; [done|]. cbn in H. destruct (Z.eqb_spec (f_ref x) 0).
  - injection H as <-. rewrite Nat.sub_diag. eauto.
  - apply IH in H as (y & Hy & Hle & Hr). exists y. split_and!; [|lia|done].
    by replace (f - k)%nat with (S (f - S k)) by lia.
Qed.

Lemma moves_filealloc o : moves o (liftF filealloc) (λ r, bump_opt r 1 o).
Proof.
  intros s r s' Hs Hr. unfold liftF, filealloc, get, mbind, M_bind in Hr.
  destruct (free_slot (ftable (k_files s)) 0) as [f|] eqn:Ef.
  - cbn in Hr. injection Hr as <- <-. apply free_slot_spec in Ef as (x & Hx & _ & Hx0). rewrite Nat.sub_0_r in Hx.
    refine (counted_ext _ _ _ _ (counted_upd o s f x (set_fref 1) _ _ _ Hs Hx)).
    intros k. cbn [f_ref set_fref]. by rewrite Hx0.
  - injection Hr as <- <-. exact Hs.
Qed.

Lemma file_at_inv f s x s' : file_at f s = Ok (x, s') → ftable s !! f = Some x ∧ s' = s.
Proof. unfold file_at, get, need, mbind, M_bind. destruct (ftable s !! f); [|done]. by intros [= <- <-]. Qed.

Lemma moves_filedup f o : moves o (liftF (filedup f)) (λ _, bump f 1 o).
Proof.
  intros s r s' Hs Hr. unfold liftF in Hr. destruct (filedup f (k_files s)) as [[r' t]| | | |] eqn:E; try done.
  injection Hr as <- <-. unfold filedup in E. minv E. apply file_at_inv in E0 as [Hx ->].
  destruct (f_ref r <? 1); [done|]. injection E as _ <-.
  refine (counted_ext _ _ _ _ (counted_upd o s f r (set_fref (f_ref r + 1)) _ _ _ Hs Hx)).
  intros k. cbn [f_ref set_fref]. by replace (f_ref r + 1 - f_ref r) with 1 by lia.
Qed.

(** A steady routine run on the kernel's files. *)
Lemma counted_steady {A} (m : M files A) o s u b t :
  steady m → counted o (mkKst u (k_ofile s) (k_cwd s) (k_user s) (k_killed s)) → m u = Ok (b, t) →
  counted o (mkKst t (k_ofile s) (k_cwd s) (k_user s) (k_killed s)).
Proof.
  intros Hm Hs Hr. apply (keeps_steady m Hm o _ b _ Hs). unfold liftF. cbn. by rewrite Hr.
Qed.

Lemma moves_fileclose f o : moves o (liftF (fileclose f)) (λ _, bump f (-1) o).
Proof.
  intros s r s' Hs Hr. unfold liftF in Hr. destruct (fileclose f (k_files s)) as [[r' t]| | | |] eqn:E; try done.
  injection Hr as <- <-. unfold fileclose in E. minv E. apply file_at_inv in E0 as [Hx ->]. rename r into x.
  destruct (Z.ltb_spec (f_ref x) 1); [done|]. minv E. injection E0 as _ <-.
  destruct (Z.ltb_spec 0 (f_ref x - 1)).
  - injection E as _ <-.
    refine (counted_ext _ _ _ _ (counted_upd o s f x (set_fref (f_ref x - 1)) _ _ _ Hs Hx)).
    intros k. cbn [f_ref set_fref]. by replace (f_ref x - 1 - f_ref x) with (-1) by lia.
  - minv E. injection E0 as _ <-.
    match type of E with ?m ?u = _ => assert (steady m) as Hm by (destruct (f_type x); eauto with refs) end.
    refine (counted_steady _ _ s _ _ _ Hm _ E). cbn [ftable fl_fs fl_pipes fl_pages].
    set (g := λ y, mkFile FD_NONE 0 (f_readable (set_fref (f_ref x - 1) y)) (f_writable y) (f_pipe y) (f_ip y) (f_off y)).
    assert (∀ l : list file, alter (λ y, mkFile FD_NONE 0 (f_readable y) (f_writable y) (f_pipe y) (f_ip y) (f_off y)) f
      (alter (set_fref (f_ref x - 1)) f l) = alter g f l) as ->.
    { intros l. apply list_eq. intros k. destruct (decide (k = f)) as [->|Hk].
      - rewrite !list_lookup_alter_eq. by destruct (l !! f).
      - by rewrite !list_lookup_alter_ne by done. }
    refine (counted_ext _ _ _ _ (counted_upd o s f x g _ _ _ Hs Hx)).
    intros k. cbn [f_ref g]. by replace (0 - f_ref x) with (-1) by lia.
Qed.

(** Descriptors. *)
Lemma fd_count_insert l fd v f old :
  l !! fd = Some old →
  fd_count (<[fd := v]> l) f =
    fd_count l f + (if decide (v = Some f) then 1 else 0) - (if decide (old = Some f) then 1 else 0).
Proof.
  intros Hl. pose proof (lookup_lt_Some _ _ _ Hl) as Hlt. unfold fd_count.
  rewrite (insert_take_drop _ _ _ Hlt). rewrite <-(take_drop_middle _ _ _ Hl) at 3.
  rewrite !list.filter_app, !filter_cons, !length_app. repeat case_decide; cbn in *; try done; lia.
Qed.

Lemma free_fd_spec l : ∀ k fd, free_fd l k = Some fd → (k ≤ fd)%nat ∧ l !! (fd - k)%nat = Some None.
Proof.
  induction l as [|[f|] l IH]; intros k fd H; cbn in H; [done| |].
  - apply IH in H as [? H]. split; [lia|]. by replace (fd - k)%nat with (S (fd - S k)) by lia.
  - injection H as <-. by rewrite Nat.sub_diag.
Qed.

Lemma counted_set_fd o s fd v old :
  counted o s → k_ofile s !! fd = Some old →
  counted (bump_opt old 1 (bump_opt v (-1) o))
    (mkKst (k_files s) (<[fd := v]> (k_ofile s)) (k_cwd s) (k_user s) (k_killed s)).
Proof.
  intros Hs Hold f x Hx. cbn in Hx |- *. rewrite (fd_count_insert _ _ _ _ _ Hold), (Hs f x Hx).
  destruct old as [g|], v as [h|]; cbn [bump_opt]; unfold bump; repeat case_decide; simplify_eq; lia.
Qed.

Lemma fdalloc_inv f s r s' :
  fdalloc f s = Ok (r, s') →
  match r with
  | Some fd => k_ofile s !! fd = Some None ∧
      s' = mkKst (k_files s) (<[fd := Some f]> (k_ofile s)) (k_cwd s) (k_user s) (k_killed s)
  | None => s' = s
  end.
Proof.
  unfold fdalloc, get, set_ofile, modify, mbind, M_bind. destruct (free_fd (k_ofile s) 0) as [fd|] eqn:E.
  - apply free_fd_spec in E as [_ E]. rewrite Nat.sub_0_r in E. by intros [= <- <-].
  - by intros [= <- <-].
Qed.

Lemma moves_fdalloc f o : moves o (fdalloc f) (λ r, match r with Some _ => bump f (-1) o | None => o end).
Proof.
  intros s r s' Hs Hr%fdalloc_inv. destruct r as [fd|]; [|by subst].
  destruct Hr as [Hn ->]. apply (counted_set_fd o s fd (Some f) None Hs Hn).
Qed.

Lemma liftF_bind {A B} (m : M files A) (f : A → M files B) s :
  liftF (m ≫= f) s = (liftF m ≫= λ a, liftF (f a)) s.
Proof.
  unfold liftF, mbind, M_bind. destruct (m (k_files s)) as [[a t]| | | |]; [|done..]. cbn.
  by destruct (f a t) as [[b u]| | | |].
Qed.
Lemma moves_liftF_bind {A B} o o1 o2 (m : M files A) (f : A → M files B) :
  moves o (liftF m) o1 → (∀ a, moves (o1 a) (liftF (f a)) o2) → moves o (liftF (m ≫= f)) o2.
Proof. intros Hm Hf s b s' Hs H. rewrite liftF_bind in H. by apply (moves_bind o o1 o2 _ _ Hm Hf s b s'). Qed.
Lemma moves_liftF_ret {A} o (a : A) o' : (∀ k, o k = o' a k) → moves o (liftF (mret a)) o'.
Proof. intros E s b s' Hs [= <- <-]. destruct s. by apply (counted_ext o). Qed.

(** The references a new pipe makes. *)
Definition pipe_refs (r : option (nat * nat)) (o : nat → Z) : nat → Z :=
  match r with Some (f0, f1) => bump f1 1 (bump f0 1 o) | None => o end.

Lemma moves_pipealloc junk o : moves o (liftF (pipealloc junk)) (λ r, pipe_refs r o).
Proof.
  unfold pipealloc. eapply moves_liftF_bind; [apply moves_filealloc|]. intros f0.
  assert (∀ f0 f1 : option nat, moves (bump_opt f1 1 (bump_opt f0 1 o))
    (liftF ((match f0 with Some f => fileclose f | None => mret tt end);;
            (match f1 with Some f => fileclose f | None => mret tt end);;
            mret (@None (nat * nat)))) (λ r, pipe_refs r o)) as Hbad.
  { clear f0. intros f0 f1. eapply (moves_liftF_bind _ (λ _, bump_opt f1 1 o)).
    - destruct f0 as [f|]; [|by apply moves_liftF_ret].
      eapply moves_weaken; [apply moves_fileclose|]. intros a k. destruct f1 as [f1|]; cbn [bump_opt];
        unfold bump; repeat case_decide; lia.
    - intros _. eapply (moves_liftF_bind _ (λ _, o)); [|intros _; by apply moves_liftF_ret].
      destruct f1 as [f|]; [|by apply moves_liftF_ret].
      eapply moves_weaken; [apply moves_fileclose|]. intros a k. cbn [bump_opt]. unfold bump. case_decide; lia. }
  eapply (moves_liftF_bind _ (λ f1, bump_opt f1 1 (bump_opt f0 1 o))).
  { destruct f0; [apply moves_filealloc|by apply moves_liftF_ret]. }
  intros f1. eapply (moves_liftF_bind _ (λ _, bump_opt f1 1 (bump_opt f0 1 o))).
  { destruct f1; [|by apply moves_liftF_ret]. apply keeps_steady. intros s r s' H. unfold kalloc in H.
    minv H. injection E as <- <-. destruct (fl_pages s) as [|p ps]; [by injection H as _ <-|].
    minv H. injection H as _ <-. by injection E as _ <-. }
  intros [p|]; [|destruct f0, f1; apply Hbad].
  destruct f0 as [f0|], f1 as [f1|]; [|apply Hbad..].
  set (o' := bump_opt (Some f1) 1 (bump_opt (Some f0) 1 o)).
  eapply (moves_liftF_bind _ (λ _, o')); [by apply keeps_steady; intros s r s' [= _ <-]|intros _].
  eapply (moves_liftF_bind _ (λ _, o')); [by apply keeps_steady, steady_upd|intros _].
  eapply (moves_liftF_bind _ (λ _, o')); [by apply keeps_steady, steady_upd|intros _].
  by apply moves_liftF_ret.
Qed.

(** ** The calls *)

Section calls.
Context `{Devsw} (junk page : list Z).

Lemma keeps_argfd n k : (∀ fd f, keeps (k fd f)) → keeps (argfd n k).
Proof.
  intros Hk o. apply keeps_arg; [|done]. intros fd. destruct (_ || _); [by apply moves_ret|].
  eapply moves_bind; [apply keeps_get|]. intros s.
  destruct (k_ofile s !! Z.to_nat fd) as [[f|]|]; [apply Hk|by apply moves_ret..].
Qed.

Lemma keeps_namei path : keeps (namei_k junk path).
Proof. unfold namei_k. keep. Qed.
Lemma keeps_nameiparent path : keeps (nameiparent_k junk path).
Proof. unfold nameiparent_k. keep. Qed.
Hint Resolve keeps_namei keeps_nameiparent : refs.

Lemma keeps_create path type major minor : keeps (create junk path type major minor).
Proof. unfold create. keep. Qed.
Lemma keeps_open_inode path omode : keeps (open_inode junk path omode).
Proof. unfold open_inode. pose proof keeps_create. keep. Qed.
Hint Resolve keeps_create : refs.

Lemma keeps_argpath n k : (∀ p, keeps (k p)) → keeps (argpath n k).
Proof. intros Hk o. by apply keeps_arg. Qed.

Lemma keeps_sys_read : keeps sys_read.
Proof.
  apply keeps_argfd. intros _ f o. apply keeps_arg; [intros n|done]. apply keeps_arg; [intros a|done].
  eapply moves_bind; [apply keeps_get|]. intros s. eapply moves_bind; [apply keeps_steady, steady_fileread|].
  intros r. keep.
Qed.
Lemma keeps_sys_write : keeps sys_write.
Proof.
  apply keeps_argfd. intros _ f o. apply keeps_arg; [intros n|done]. apply keeps_arg; [intros a|done].
  eapply moves_bind; [apply keeps_get|]. intros s. apply keeps_steady, steady_filewrite.
Qed.
Lemma keeps_sys_fstat : keeps sys_fstat.
Proof.
  apply keeps_argfd. intros _ f o. apply keeps_arg; [intros a|done].
  eapply moves_bind; [apply keeps_steady, steady_filestat|]. intros [st|]; [|keep]. unfold store_stat. keep.
Qed.
Lemma keeps_sys_link : keeps (sys_link junk).
Proof. apply keeps_argpath. intros old. apply keeps_argpath. intros new. keep. Qed.
Lemma keeps_sys_unlink : keeps (sys_unlink junk).
Proof. apply keeps_argpath. intros path. keep. Qed.
Lemma keeps_sys_mkdir : keeps (sys_mkdir junk).
Proof. apply keeps_argpath. intros path. keep. Qed.
Lemma keeps_sys_mknod : keeps (sys_mknod junk).
Proof.
  apply keeps_argpath. intros path o. apply keeps_arg; [intros ma|done]. apply keeps_arg; [intros mi|done]. keep.
Qed.
Lemma keeps_chdir_cwd ip :
  keeps (modify (λ s, mkKst (k_files s) (k_ofile s) ip (k_user s) (k_killed s))).
Proof. intros o s u s' Hs [= _ <-]. exact Hs. Qed.
Hint Resolve keeps_chdir_cwd : refs.
Lemma keeps_sys_chdir : keeps (sys_chdir junk).
Proof. apply keeps_argpath. intros path. keep. Qed.

Lemma keeps_sys_dup : keeps sys_dup.
Proof.
  apply keeps_argfd. intros _ f o. eapply moves_bind; [apply moves_fdalloc|]. intros [fd|]; [|keep].
  eapply moves_bind; [apply moves_filedup|]. intros g. apply moves_ret. intros k. unfold bump. case_decide; lia.
Qed.

Lemma keeps_sys_close : keeps sys_close.
Proof.
  unfold sys_close, argfd. intros o. apply keeps_arg; [|done]. intros fd. destruct (_ || _); [by apply moves_ret|].
  intros s r s' Hs Hr. minv Hr. injection E as <- <-. destruct (k_ofile s !! Z.to_nat fd) as [[f|]|] eqn:Ef.
  - minv Hr. injection E as _ <-. pose proof (counted_set_fd o s _ None _ Hs Ef) as Hc. cbn [bump_opt] in Hc.
    assert (moves (bump f 1 o) (liftF (fileclose f);; mret 0) (λ _, o)) as Hm.
    { eapply moves_bind; [apply moves_fileclose|]. intros u. apply moves_ret. intros k. unfold bump. case_decide; lia. }
    exact (Hm _ _ _ Hc Hr).
  - by injection Hr as _ <-.
  - by injection Hr as _ <-.
Qed.

Lemma keeps_do_open path omode : keeps (do_open junk path omode).
Proof.
  intros o. unfold do_open. eapply moves_bind; [apply keeps_open_inode|]. intros [ip|]; [|keep].
  eapply moves_bind; [apply moves_filealloc|]. intros f.
  eapply (moves_bind _ (λ fd : option nat, match fd with Some _ => o | None => bump_opt f 1 o end)).
  { destruct f as [f|]; [|by apply moves_ret]. eapply moves_weaken; [apply moves_fdalloc|].
    intros [fd|] k; cbn [bump_opt]; unfold bump; repeat case_decide; lia. }
  intros fd. destruct f as [f|]; cbn [bump_opt]; [destruct fd as [fd|]|].
  - eapply moves_bind; [apply keeps_liftI|]. intros u1.
    eapply moves_bind; [apply keeps_steady; by apply steady_upd|]. intros u2. by apply moves_ret.
  - eapply (moves_bind _ (λ _, o)); [eapply moves_weaken; [apply moves_fileclose|]|keep].
    intros a k. unfold bump. case_decide; lia.
  - destruct fd; keep; by apply moves_ret.
Qed.
Lemma keeps_sys_open : keeps (sys_open junk).
Proof. apply keeps_argpath. intros path o. apply keeps_arg; [intros omode|done]. apply keeps_do_open. Qed.

Lemma keeps_sys_pipe : keeps (sys_pipe page).
Proof.
  intros o. apply keeps_arg; [intros a|done]. eapply moves_bind; [apply moves_pipealloc|]. intros [[rf wf]|]; [|keep].
  cbn [pipe_refs]. intros s r s' Hs Hr. minv Hr. pose proof (moves_fdalloc _ _ _ _ _ Hs E) as H1.
  apply fdalloc_inv in E. minv Hr. destruct r0 as [fd0|].
  - destruct E as [Hn ->]. pose proof (moves_fdalloc _ _ _ _ _ H1 E0) as H2. apply fdalloc_inv in E0.
    destruct r1 as [fd1|].
    + refine ((_ : moves o _ (λ _, o)) _ r s' _ Hr); [keep|].
      refine (counted_ext _ _ _ _ H2). intros k. unfold bump. repeat case_decide; lia.
    + subst. minv Hr. injection E as _ <-.
      assert (<[fd0 := Some rf]> (k_ofile s) !! fd0 = Some (Some rf)) as Hfd.
      { apply list_lookup_insert_eq. by eapply lookup_lt_Some. }
      pose proof (counted_set_fd _ _ fd0 None _ H1 Hfd) as H3. cbn [bump_opt] in H3.
      refine ((_ : moves _ (liftF (fileclose rf);; liftF (fileclose wf);; mret (-1)) (λ _, o)) _ r s' H3 Hr).
      eapply moves_bind; [apply moves_fileclose|]. intros u. eapply moves_bind; [apply moves_fileclose|]. intros u'.
      apply moves_ret. intros k. unfold bump. repeat case_decide; lia.
  - subst. injection E0 as <- <-. minv Hr. injection E as _ <-.
    refine ((_ : moves _ (liftF (fileclose rf);; liftF (fileclose wf);; mret (-1)) (λ _, o)) _ r s' H1 Hr).
    eapply moves_bind; [apply moves_fileclose|]. intros u. eapply moves_bind; [apply moves_fileclose|]. intros u'.
    apply moves_ret. intros k. unfold bump. repeat case_decide; lia.
Qed.
End calls.

(** ** All sequences of calls *)

Section runs.
Context `{Devsw}.

(** The calls of [sysfile.c] but for [exec]; [junk] and [page] stand for what
    uninitialised memory holds at the call. *)
Definition file_call (junk page : list Z) (c : sysname) : option (M kst Z) :=
  match c with
  | SYS_dup => Some sys_dup
  | SYS_read => Some sys_read
  | SYS_write => Some sys_write
  | SYS_close => Some sys_close
  | SYS_fstat => Some sys_fstat
  | SYS_link => Some (sys_link junk)
  | SYS_unlink => Some (sys_unlink junk)
  | SYS_open => Some (sys_open junk)
  | SYS_mkdir => Some (sys_mkdir junk)
  | SYS_mknod => Some (sys_mknod junk)
  | SYS_chdir => Some (sys_chdir junk)
  | SYS_pipe => Some (sys_pipe page)
  | _ => None
  end.

(** The process computes, which may leave anything in its memory and its
    registers, and makes calls, which may end in any way that returns. *)
Inductive runs : kst → kst → Prop :=
  | runs_refl s : runs s s
  | runs_user s u s2 :
      runs (mkKst (k_files s) (k_ofile s) (k_cwd s) u (k_killed s)) s2 → runs s s2
  | runs_call junk page c m s r s1 s2 :
      file_call junk page c = Some m → m s = Ok (r, s1) → runs s1 s2 → runs s s2.

Lemma keeps_file_call junk page c m : file_call junk page c = Some m → keeps m.
Proof.
  destruct c; intros Hc; cbn [file_call] in Hc; try done; injection Hc as <-;
    eauto using keeps_sys_dup, keeps_sys_read, keeps_sys_write, keeps_sys_close, keeps_sys_fstat, keeps_sys_link,
      keeps_sys_unlink, keeps_sys_open, keeps_sys_mkdir, keeps_sys_mknod, keeps_sys_chdir, keeps_sys_pipe.
Qed.

(** C4: Over every sequence of file system calls, however each returns, the
    reference count of every open file stays the number of this process'
    descriptors that name it plus the references of the others; so no file a
    descriptor names is ever free for [filealloc] to hand out again, and no
    count is left behind by a call that fails half way. *)
Theorem runs_count_references others s s' :
  counted others s → (∀ f, 0 ≤ others f) → runs s s' →
  counted others s' ∧
  ∀ fd f x, k_ofile s' !! fd = Some (Some f) → ftable (k_files s') !! f = Some x → 1 ≤ f_ref x.
Proof.
  intros Hs Ho Hr. assert (counted others s') as Hs'.
  { induction Hr as [s|s u s2 Hr IH|junk page c m s r s1 s2 Hc Hm Hr IH]; [done|by apply IH|].
    apply IH. by apply (keeps_file_call _ _ _ _ Hc others s r s1). }
  split; [done|]. intros fd f x Hfd Hx. rewrite (Hs' f x Hx). specialize (Ho f).
  assert (1 ≤ fd_count (k_ofile s') f); [|lia]. unfold fd_count.
  assert (Some f ∈ filter (λ o, o = Some f) (k_ofile s')) as Hin.
  { apply list_elem_of_filter. split; [done|]. by eapply list_elem_of_lookup_2. }
  destruct (filter _ _); [by apply elem_of_nil in Hin|]. cbn. lia.
Qed.

(** The flag [O_CHECKED] has no effect on a call that creates: [sys_open]
    tests [omode & O_CREATE & O_CHECKED], which is zero for every [omode], so
    no call ever makes a file of type [T_CHECKED]. *)
Theorem open_ignores_checked junk path omode :
  (∀ m, ctrue (Z.land (Z.land m O_CREATE) O_CHECKED) = false) ∧
  (ctrue (Z.land omode O_CREATE) = true →
   ∀ s, do_open junk path (Z.lor omode O_CHECKED) s = do_open junk path omode s).
Proof.
  split.
  - intros m. rewrite <-Z.land_assoc. by rewrite Z.land_0_r.
  - intros Hc s.
    assert (∀ b, Z.land O_CHECKED b = 0 → Z.land (Z.lor omode O_CHECKED) b = Z.land omode b) as Hl.
    { intros b Hb. by rewrite Z.land_lor_distr_l, Hb, Z.lor_0_r. }
    unfold do_open, open_inode. rewrite !(Hl O_CREATE), !(Hl O_WRONLY), !(Hl O_RDWR) by done.
    by rewrite Hc.
Qed.
End runs.

(** A process with no files calls [pipe] with its array at address 200. *)
#[local] Instance no_devices : Devsw := {| dev_read _ := None; dev_write _ := None |}.
Definition idle_process : kst :=
  mkKst (mkFiles (mkFs ∅ ∅ iinit) fileinit ∅ [8192]) (replicate NOFILE None) 0
    (mkUproc 4096 1000 (put_bytes ∅ 1004 (le_bytes 4 200))) false.
Definition after_pipe : kst :=
  match sys_pipe [] idle_process with Ok (_, s) => s | _ => idle_process end.

Lemma runs_count_references_witness :
  counted (λ _, 0) after_pipe ∧ k_ofile after_pipe = Some 0%nat :: Some 1%nat :: replicate 14 None.
Proof.
  split; [|by vm_compute].
  apply (runs_count_references (λ _, 0) idle_process after_pipe).
  - intros f x Hx. apply lookup_replicate in Hx as [-> _]. by vm_compute.
  - done.
  - apply (runs_call [] [] SYS_pipe (sys_pipe []) idle_process 0 after_pipe); [done| |apply runs_refl].
    unfold after_pipe. destruct (sys_pipe [] idle_process) as [[r s]| | | |] eqn:E; vm_compute in E;
      [by injection E as <- _|discriminate..].
Defined.

Lemma open_ignores_checked_witness :
  ctrue (Z.land (Z.lor O_CREATE O_RDWR) O_CREATE) = true ∧
  do_open [] (zstr "/a") (Z.lor (Z.lor O_CREATE O_RDWR) O_CHECKED) idle_process =
  do_open [] (zstr "/a") (Z.lor O_CREATE O_RDWR) idle_process.
Proof. split; [done|]. by apply (open_ignores_checked [] (zstr "/a") (Z.lor O_CREATE O_RDWR)). Defined.
