(* ===== verification/Grep.v ===== *)
(** [xv6/user/grep.c]: the matcher for [^ . * $] and the line loop over its
    buffer. Patterns and texts are the bytes before the NUL. *)

From S2P Require Import Prelude CString.

Definition DOT : Z := 46.
Definition STAR : Z := 42.
Definition DOLLAR : Z := 36.
Definition CARET : Z := 94.
Definition NEWLINE : Z := 10.

(** ** The matcher *)

Section matchstar.
(** [matchhere(re, _)] for the rest of the pattern. *)
Context (here : list Z → bool) (c : Z).
(** [do { if(matchhere(re, text)) return 1; } while(...); return 0;] *)
Fixpoint matchstar (text : list Z) : bool :=
  if here text then true else
  match text with
  | [] => false
  | x :: text' => if (x =? c) || (c =? DOT) then matchstar text' else false
  end.
End matchstar.

Fixpoint matchhere (re text : list Z) {struct re} : bool :=
  match re with
  | [] => true
  | c :: re1 =>
      let plain :=
        if (c =? DOLLAR) && bool_decide (re1 = []) then bool_decide (text = []) else
        match text with
        | [] => false
        | x :: text' => if (c =? DOT) || (c =? x) then matchhere re1 text' else false
        end in
      match re1 with
      | s :: re2 => if s =? STAR then matchstar (matchhere re2) c text else plain
      | [] => plain
      end
  end.

(** The loop of [match] over the suffixes of the text, the empty one included. *)
Fixpoint match_loop (re text : list Z) : bool :=
  if matchhere re text then true else
  match text with
  | [] => false
  | _ :: text' => match_loop re text'
  end.
Definition match_ (re text : list Z) : bool :=
  match re with
  | c :: re' => if c =? CARET then matchhere re' text else match_loop re text
  | [] => match_loop re text
  end.

(** ** What a pattern means *)

(** A character class: one character, or any for a dot. *)
Definition class (c x : Z) : Prop := c = DOT ∨ c = x.

(** The pattern matches some prefix of the text. *)
Inductive prefix_of : list Z → list Z → Prop :=
  | prefix_nil text : prefix_of [] text
  | prefix_star c re t1 t2 :
      Forall (class c) t1 → prefix_of re t2 → prefix_of (c :: STAR :: re) (t1 ++ t2)
  | prefix_end : prefix_of [DOLLAR] []
  | prefix_char c re x text :
      head re ≠ Some STAR → (c = DOLLAR → re ≠ []) → class c x →
      prefix_of re text → prefix_of (c :: re) (x :: text).

Lemma matchstar_spec (here : list Z → bool) (P : list Z → Prop) c text :
  (∀ t, here t = true ↔ P t) →
  matchstar here c text = true ↔ ∃ t1 t2, text = t1 ++ t2 ∧ Forall (class c) t1 ∧ P t2.
Proof.
  intros Hh. induction text as [|x text IH]; cbn.
  - destruct (here []) eqn:E; split; try done.
    + intros _. exists [], []. split_and!; [done|by constructor|by apply Hh].
    + intros (t1 & t2 & Ht & _ & Hp). symmetry in Ht. apply app_nil in Ht as [-> ->]. apply Hh in Hp. congruence.
  - destruct (here (x :: text)) eqn:E.
    { split; [intros _|done]. exists [], (x :: text). split_and!; [done|by constructor|by apply Hh]. }
    split.
    + destruct ((x =? c) || (c =? DOT)) eqn:Ec; [|done]. intros (t1 & t2 & -> & H1 & H2)%IH.
      exists (x :: t1), t2. split_and!; [done| |done]. constructor; [|done]. unfold class.
      apply orb_true_iff in Ec as [Ec|Ec]; apply Z.eqb_eq in Ec; auto.
    + intros (t1 & t2 & Ht & H1 & H2). destruct t1 as [|y t1]; cbn in Ht.
      { subst t2. apply Hh in H2. congruence. }
      injection Ht as <- ->. apply Forall_cons_1 in H1 as [Hc H1].
      assert ((x =? c) || (c =? DOT) = true) as ->.
      { destruct Hc as [-> | ->]; [by rewrite orb_true_r|by rewrite Z.eqb_refl]. }
      apply IH. eauto.
Qed.

Lemma matchhere_spec re : ∀ text, matchhere re text = true ↔ prefix_of re text.
Proof.
  induction re as [re IH] using (induction_ltof1 _ (@length Z)). unfold ltof in IH.
  destruct re as [|c re1]; [intros text; split; [constructor|done]|]. intros text.
  assert (head re1 ≠ Some STAR →
    (if (c =? DOLLAR) && bool_decide (re1 = []) then bool_decide (text = []) else
     match text with [] => false | x :: text' => if (c =? DOT) || (c =? x) then matchhere re1 text' else false end) = true
    ↔ prefix_of (c :: re1) text) as Hplain.
  { intros Hns. destruct ((c =? DOLLAR) && bool_decide (re1 = [])) eqn:Ee.
    - apply andb_true_iff in Ee as [->%Z.eqb_eq ->%bool_decide_eq_true]. rewrite bool_decide_eq_true. split.
      + intros ->. constructor.
      + inversion 1; subst; [done|]. by match goal with H : DOLLAR = DOLLAR → _ |- _ => destruct H end.
    - apply andb_false_iff in Ee. split.
      + destruct text as [|x text]; [done|]. destruct ((c =? DOT) || (c =? x)) eqn:Ec; [|done].
        intros Hm%IH; [|cbn; lia]. constructor; [done| | |done].
        * intros -> ->. by destruct Ee.
        * apply orb_true_iff in Ec as [Ec|Ec]; apply Z.eqb_eq in Ec; [by left|by right].
      + inversion 1 as [|? ? ? ? ? ? E1| |? ? x t Hh Hd Hc Hp]; subst.
        * by destruct Hns.
        * by destruct Ee.
        * assert ((c =? DOT) || (c =? x) = true) as ->.
          { destruct Hc as [-> | ->]; [done|]. by rewrite Z.eqb_refl, orb_true_r. }
          apply IH; [cbn; lia|done]. }
  cbn [matchhere]. destruct re1 as [|s re2]; [by apply Hplain|].
  destruct (Z.eqb_spec s STAR) as [->|Hs]; [|apply Hplain; cbn; congruence].
  rewrite (matchstar_spec _ (prefix_of re2)) by (intros t; apply IH; cbn; lia). split.
  - intros (t1 & t2 & -> & H1 & H2). by constructor.
  - inversion 1 as [| | |? ? ? ? Hh]; subst; [eauto|]. by destruct Hh.
Qed.

(** C28: [match] decides the meaning of the pattern: after a [^] the text must
    start with it, and otherwise it may start anywhere, at the end of the text
    included; [.] stands for any character, [c*] for a run of [c]s, and a
    final [$] for the end of the text. *)
Theorem match_correct re text :
  match_ re text = true ↔
  match re with
  | c :: re' => if c =? CARET then prefix_of re' text else ∃ t1 t2, text = t1 ++ t2 ∧ prefix_of re t2
  | [] => True
  end.
Proof.
  assert (∀ re, match_loop re text = true ↔ ∃ t1 t2, text = t1 ++ t2 ∧ prefix_of re t2) as Hl.
  { clear re. intros re. induction text as [|x text IH]; cbn; rewrite <-?matchhere_spec.
    - destruct (matchhere re []) eqn:E; split; try done.
      + intros _. exists [], []. by rewrite <-matchhere_spec.
      + intros (t1 & t2 & Ht & Hp). symmetry in Ht. apply app_nil in Ht as [_ ->]. apply matchhere_spec in Hp. congruence.
    - destruct (matchhere re (x :: text)) eqn:E.
      { split; [intros _|done]. exists [], (x :: text). by rewrite <-matchhere_spec. }
      rewrite IH. split.
      + intros (t1 & t2 & -> & Hp). by exists (x :: t1), t2.
      + intros ([|y t1] & t2 & Ht & Hp); cbn in Ht; [subst; apply matchhere_spec in Hp; congruence|].
        injection Ht as <- ->. eauto. }
  unfold match_. destruct re as [|c re']; [split; [done|]; intros _; apply Hl; exists [], text; split; [done|constructor]|].
  destruct (c =? CARET); [apply matchhere_spec|apply Hl].
Qed.

(** ** The line loop *)

Definition BUFSIZE : nat := 1024.

(** The loop over the newlines of [buf] from index [p]: the new buffer, the
    new [p] and what is written. [None]: a read past the end of [buf]. A line
    that does not match keeps the NUL put at its end. *)
Fixpoint lines_loop (fuel : nat) (pattern buf : list Z) (p : nat) : option (list Z * nat * list Z) :=
  match fuel with
  | O => None
  | S fuel' =>
      r ← strchr (drop p buf) NEWLINE;
      match r with
      | None => Some (buf, p, [])
      | Some rest =>
          let q := (length buf - length rest)%nat in
          text ← cstr (drop p (<[q := 0]> buf));
          if match_ pattern text then
            '(b, p', out) ← lines_loop fuel' pattern buf (S q);
            Some (b, p', slice p (S q - p) buf ++ out)
          else lines_loop fuel' pattern (<[q := 0]> buf) (S q)
      end
  end.

(** One turn for a read that stored [chunk] at [buf + m]. *)
Definition grep_turn (pattern buf : list Z) (m : Z) (chunk : list Z) : option (list Z * Z * list Z) :=
  if decide (0 ≤ m ∧ (Z.to_nat m + length chunk ≤ length buf)%nat) then
    let buf := splice (Z.to_nat m) chunk buf in
    let m := m + Z.of_nat (length chunk) in
    '(buf, p, out) ← lines_loop (S (length buf)) pattern buf 0;
    let m := if decide (p = O) then 0 else m in
    if 0 <? m then
      let m := m - Z.of_nat p in
      buf ← memmove_user buf 0 p (Z.to_nat m);
      Some (buf, m, out)
    else Some (buf, m, out)
  else None.

(** [grep] on the chunks its reads return, none of them empty, and then the
    end of the file: what it writes; [None] is undefined behaviour. *)
Fixpoint grep_loop (pattern buf : list Z) (m : Z) (chunks : list (list Z)) : option (list Z) :=
  match chunks with
  | [] => Some []
  | chunk :: chunks' =>
      '(buf, m, out) ← grep_turn pattern buf m chunk;
      (λ o, out ++ o) <$> grep_loop pattern buf m chunks'
  end.
Definition grep (pattern : list Z) (chunks : list (list Z)) : option (list Z) :=
  grep_loop pattern (replicate BUFSIZE 0) 0 chunks.

(** Lines, and the bytes that hold them. *)
Definition line (l : list Z) : Prop := Forall (λ b, b ≠ 0 ∧ b ≠ NEWLINE) l.
Definition unlines (ls : list (list Z)) : list Z := mjoin ((λ l, l ++ [NEWLINE]) <$> ls).

Lemma unlines_cons l ls : unlines (l :: ls) = (l ++ [NEWLINE]) ++ unlines ls.
Proof. done. Qed.

Lemma strchr_line l r : line l → strchr (l ++ NEWLINE :: r) NEWLINE = Some (Some (NEWLINE :: r)).
Proof.
  induction 1 as [|b l [H0 Hn] _ IH]; cbn; [done|].
  by rewrite (proj2 (Z.eqb_neq b 0)), (proj2 (Z.eqb_neq b NEWLINE)).
Qed.

Lemma line_nonul l : line l → nonul l.
Proof. apply Forall_impl. tauto. Qed.

(** The loop over the lines of [ls], with [pre] before them in the buffer and
    NULs after. *)
Lemma lines_loop_run pattern ls : ∀ fuel pre z,
  Forall line ls → (length ls < fuel)%nat →
  ∃ buf, lines_loop fuel pattern (pre ++ unlines ls ++ 0 :: z) (length pre) =
    Some (buf, (length pre + length (unlines ls))%nat, unlines (filter (λ l, match_ pattern l = true) ls)) ∧
    length buf = length (pre ++ unlines ls ++ 0 :: z).
Proof.
  induction ls as [|l ls IH]; intros [|fuel] pre z Hls Hf; cbn [length] in Hf; try lia.
  - exists (pre ++ 0 :: z). cbn. rewrite drop_app_length. cbn. by rewrite Nat.add_0_r.
  - apply Forall_cons_1 in Hls as [Hl Hls].
    set (tl := unlines ls ++ 0 :: z).
    assert (unlines (l :: ls) ++ 0 :: z = l ++ NEWLINE :: tl) as ->.
    { rewrite unlines_cons. by rewrite <-!app_assoc. }
    cbn [lines_loop]. rewrite drop_app_length, (strchr_line _ _ Hl). cbn [mbind option_bind].
    assert (length (pre ++ l ++ NEWLINE :: tl) - length (NEWLINE :: tl) = length (pre ++ l))%nat as ->
      by (rewrite !length_app; cbn; lia).
    assert (∀ x, <[length (pre ++ l) := x]> (pre ++ l ++ NEWLINE :: tl) = (pre ++ l ++ [x]) ++ tl) as Hins.
    { intros x. rewrite (app_assoc pre l), insert_app_r_alt by lia. rewrite Nat.sub_diag. cbn. by rewrite <-!app_assoc. }
    rewrite Hins. rewrite <-app_assoc, drop_app_length. rewrite <-app_assoc. cbn [app].
    rewrite (cstr_app _ _ (line_nonul _ Hl)). cbn [mbind option_bind].
    assert (∀ x, S (length (pre ++ l)) = length (pre ++ l ++ [x])) as HS by (intros x; rewrite !length_app; cbn; lia).
    assert (length pre + length (unlines (l :: ls)) = length (pre ++ l ++ [NEWLINE]) + length (unlines ls))%nat as ->.
    { rewrite unlines_cons, !length_app. cbn. lia. }
    rewrite filter_cons. case_decide as Hm.
    + rewrite Hm. replace (pre ++ l ++ NEWLINE :: tl) with ((pre ++ l ++ [NEWLINE]) ++ tl) by (by rewrite <-!app_assoc).
      rewrite (HS NEWLINE). destruct (IH fuel (pre ++ l ++ [NEWLINE]) z) as (buf & Hr & Hb); [done|lia|].
      fold tl in Hr, Hb. rewrite Hr. exists buf. cbn [mbind option_bind]. split; [|exact Hb]. do 2 f_equal.
      unfold slice. rewrite <-app_assoc, drop_app_length.
      rewrite !length_app. replace (length pre + (length l + length [NEWLINE]) - length pre)%nat with (length (l ++ [NEWLINE])) by (rewrite length_app; lia).
      rewrite take_app_length. done.
    + apply not_true_is_false in Hm. rewrite Hm. replace (pre ++ l ++ 0 :: tl) with ((pre ++ l ++ [0]) ++ tl) by (by rewrite <-!app_assoc).
      rewrite (HS 0). destruct (IH fuel (pre ++ l ++ [0]) z) as (buf & Hr & Hb); [done|lia|].
      fold tl in Hr, Hb. rewrite Hr. exists buf. split; [|rewrite Hb, !length_app; cbn; lia]. do 3 f_equal. rewrite !length_app. cbn. lia.
Qed.

(** [grep] on a file of whole lines that one read returns, shorter than
    its buffer, writes exactly the lines that match, in order, each with its
    newline. *)
Theorem grep_one_read pattern ls :
  Forall line ls → (length (unlines ls) < BUFSIZE)%nat →
  grep pattern [unlines ls] = Some (unlines (filter (λ l, match_ pattern l = true) ls)).
Proof.
  intros Hls Hlen. unfold grep. cbn [grep_loop]. unfold grep_turn.
  rewrite decide_True by (rewrite length_replicate; cbn; lia). change (Z.to_nat 0) with O.
  assert (∃ z, splice 0 (unlines ls) (replicate BUFSIZE 0) = [] ++ unlines ls ++ 0 :: z ∧
    length ([] ++ unlines ls ++ 0 :: z) = BUFSIZE) as (z & -> & Hz).
  { exists (replicate (BUFSIZE - length (unlines ls) - 1) 0). unfold splice.
    rewrite length_replicate, Nat.sub_0_r, (take_ge (unlines ls)), drop_replicate by lia. split.
    - replace (BUFSIZE - (0 + length (unlines ls)))%nat with (S (BUFSIZE - length (unlines ls) - 1)) by lia. done.
    - cbn [app]. rewrite length_app. cbn [length]. rewrite length_replicate. lia. }
  assert (length ls ≤ length (unlines ls))%nat as Hle.
  { clear. induction ls as [|l ls IH]; [done|]. rewrite unlines_cons, !length_app. cbn. lia. }
  destruct (lines_loop_run pattern ls (S (length ([] ++ unlines ls ++ 0 :: z))) [] z) as (buf & Hr & Hb); [done|lia|].
  cbn [length] in Hr. rewrite Hr. cbn [mbind option_bind Nat.add].
  destruct (decide (length (unlines ls) = O)) as [E|E].
  { cbn. by rewrite app_nil_r. }
  rewrite (proj2 (Z.ltb_lt _ _)) by lia. rewrite Z.add_0_l, Z.sub_diag.
  change (memmove_user buf 0 _ (Z.to_nat 0)) with (Some buf).
  cbn [mbind option_bind fmap option_fmap option_map]. by rewrite app_nil_r.
Qed.

Lemma grep_one_read_witness :
  grep (zstr "^a.*$") [unlines [zstr "ab"; zstr "ba"; zstr "a"]] = Some (unlines [zstr "ab"; zstr "a"]).
Proof.
  rewrite (grep_one_read (zstr "^a.*$") [zstr "ab"; zstr "ba"; zstr "a"]).
  - by vm_compute.
  - unfold line. apply (bool_decide_unpack _). by vm_compute.
  - apply Nat.ltb_lt. by vm_compute.
Defined.

(** When the end of a line is still to be read, [grep] finds the newline of
    an earlier read behind the new bytes: given ["a"] with its newline and then
    ["b"] alone, it writes ["b"] as a line of its own, is left with a negative
    count of buffered bytes, and the next read stores before its buffer. *)
Theorem grep_stale_newline :
  grep [] [unlines [zstr "a"]; zstr "b"] = Some (unlines [zstr "a"; zstr "b"]) ∧
  ∀ c, grep [] [unlines [zstr "a"]; zstr "b"; c] = None.
Proof. split; [by vm_compute|]. intros c. by vm_compute. Qed.
