(* ===== verification/Printf.v ===== *)
(** Formatted output: [printf] of [xv6/user/printf.c] and [cprintf] of
    [xv6/kernel/console.c]. A call gives the characters it writes, as bytes.
    Arguments are the 32-bit words on the stack; [str] gives the string at a
    pointer. *)

From S2P Require Import Prelude CString.

Definition PERCENT : Z := 37.
Definition digits_user : list Z := zstr "0123456789ABCDEF".
Definition digits_kernel : list Z := zstr "0123456789abcdef".

(** [do { buf[i++] = digits[x % base]; } while((x /= base) != 0);]: the digits
    stored, the least significant first. *)
Fixpoint digit_loop (fuel : nat) (digits : list Z) (base x : Z) : list Z :=
  match fuel with
  | O => []
  | S fuel' =>
      default 0 (digits !! Z.to_nat (x mod base)) ::
      (if x / base =? 0 then [] else digit_loop fuel' digits base (x / base))
  end.

(** The text in [buf], in the order it is printed; [xx] is an [int]. *)
Definition printint_with (digits : list Z) (xx base : Z) (sgn : bool) : list Z :=
  let neg := sgn && (xx <? 0) in
  let x := if neg then u32 (- xx) else u32 xx in
  (if neg then [45] else []) ++ reverse (digit_loop 32 digits base x).
Definition printint (xx base : Z) (sgn : bool) : list Z := printint_with digits_user xx base sgn.
Definition kprintint (xx base : Z) (sign : bool) : list Z := printint_with digits_kernel xx base sign.

Section formats.
Context (str : Z → option (list Z)).

Definition null_text : list Z := zstr "(null)".
Definition string_arg (a : Z) : option (list Z) := if a =? 0 then Some null_text else str a.

(** [printf]: [state] is whether a ['%'] came before; [None] when the format
    asks for more arguments than there are, or for a bad pointer. *)
Fixpoint printf (fmt : list Z) (state : bool) (ap : list Z) : option (list Z) :=
  match fmt with
  | [] => Some []
  | c :: fmt' =>
      if negb state then
        if c =? PERCENT then printf fmt' true ap
        else (λ o, c :: o) <$> printf fmt' false ap
      else if c =? 100 then
        match ap with [] => None | a :: ap' => (λ o, printint (i32 a) 10 true ++ o) <$> printf fmt' false ap' end
      else if (c =? 120) || (c =? 112) then
        match ap with [] => None | a :: ap' => (λ o, printint (i32 a) 16 false ++ o) <$> printf fmt' false ap' end
      else if c =? 115 then
        match ap with
        | [] => None
        | a :: ap' => s ← string_arg a; (λ o, s ++ o) <$> printf fmt' false ap'
        end
      else if c =? 99 then
        match ap with [] => None | a :: ap' => (λ o, u8 a :: o) <$> printf fmt' false ap' end
      else if c =? PERCENT then (λ o, c :: o) <$> printf fmt' false ap
      else (λ o, PERCENT :: c :: o) <$> printf fmt' false ap
  end.

(** [cprintf]: one turn takes a character, or a ['%'] and the next one. *)
Fixpoint cprintf (fmt : list Z) (argp : list Z) : option (list Z) :=
  match fmt with
  | [] => Some []
  | c :: fmt' =>
      if negb (c =? PERCENT) then (λ o, c :: o) <$> cprintf fmt' argp else
      match fmt' with
      | [] => Some []
      | c :: fmt'' =>
          if c =? 100 then
            match argp with [] => None | a :: ap' => (λ o, kprintint (i32 a) 10 true ++ o) <$> cprintf fmt'' ap' end
          else if (c =? 120) || (c =? 112) then
            match argp with [] => None | a :: ap' => (λ o, kprintint (i32 a) 16 false ++ o) <$> cprintf fmt'' ap' end
          else if c =? 115 then
            match argp with
            | [] => None
            | a :: ap' => s ← string_arg a; (λ o, s ++ o) <$> cprintf fmt'' ap'
            end
          else if c =? PERCENT then (λ o, PERCENT :: o) <$> cprintf fmt'' argp
          else (λ o, PERCENT :: c :: o) <$> cprintf fmt'' argp
      end
  end.
End formats.

(** ** Numbers *)

(** The number a string of digits stands for. *)
Definition digit_value (digits : list Z) (c : Z) : Z :=
  match list_find (λ d, d = c) digits with Some (i, _) => Z.of_nat i | None => -1 end.
Definition number (digits : list Z) (base : Z) (s : list Z) : Z :=
  foldl (λ n c, n * base + digit_value digits c) 0 s.

Lemma number_app digits base s t n :
  foldl (λ n c, n * base + digit_value digits c) n (s ++ [t]) =
  foldl (λ n c, n * base + digit_value digits c) n s * base + digit_value digits t.
Proof. by rewrite foldl_app. Qed.

Lemma digit_loop_spec digits base : 2 ≤ base → NoDup digits → base ≤ Z.of_nat (length digits) →
  ∀ fuel x, 0 ≤ x → x < base ^ Z.of_nat fuel → (0 < fuel)%nat →
  number digits base (reverse (digit_loop fuel digits base x)) = x ∧
  (0 < length (digit_loop fuel digits base x))%nat ∧
  (0 < x → base ^ (Z.of_nat (length (digit_loop fuel digits base x)) - 1) ≤ x).
Proof.
  intros Hb Hnd Hlen. induction fuel as [|fuel IH]; intros x Hx Hlt Hf; [lia|].
  pose proof (Z.mod_pos_bound x base ltac:(lia)) as Hm. pose proof (Z.div_mod x base ltac:(lia)) as Hd.
  pose proof (Z.div_pos x base Hx ltac:(lia)) as Hdp.
  destruct (lookup_lt_is_Some_2 digits (Z.to_nat (x mod base))) as [d Hdig]; [lia|].
  assert (digit_value digits d = x mod base) as Hv.
  { unfold digit_value. assert (list_find (λ c, c = d) digits = Some (Z.to_nat (x mod base), d)) as ->; [|lia].
    apply list_find_Some. split_and!; [done..|]. intros j y Hj Hlt' ->.
    pose proof (NoDup_lookup _ _ _ _ Hnd Hj Hdig). lia. }
  cbn [digit_loop]. rewrite Hdig. cbn [default]. unfold id. destruct (Z.eqb_spec (x / base) 0) as [E|E].
  - split_and!; [|cbn; lia|cbn; lia]. cbn. rewrite Hv. lia.
  - assert (x / base < base ^ Z.of_nat fuel) as Hlt'.
    { apply Z.div_lt_upper_bound; [lia|]. by rewrite <-Z.pow_succ_r, <-Nat2Z.inj_succ by lia. }
    destruct fuel as [|fuel]; [cbn in Hlt'; lia|].
    destruct (IH (x / base) Hdp Hlt' ltac:(lia)) as (Hn & Hpos & Hbig). set (ds := digit_loop (S fuel) _ _ _) in *.
    rewrite reverse_cons. unfold number in *. rewrite number_app, Hn, Hv. split_and!; [lia|cbn; lia|].
    intros _. cbn [length]. specialize (Hbig ltac:(lia)).
    replace (Z.of_nat (S (length ds)) - 1) with (Z.succ (Z.of_nat (length ds) - 1)) by lia.
    rewrite Z.pow_succ_r by lia. nia.
Qed.

(** [printint] prints the value: in base 10 with sign, a minus sign
    exactly for the negative [int]s (the least included) and then the digits
    of the absolute value; in base 16 the digits of the 32-bit word; with no
    leading zero, and in at most 12 of the 16 bytes of its buffer. *)
Theorem printint_value digits xx :
  digits = digits_user ∨ digits = digits_kernel → is_i32 xx →
  (∃ ds, printint_with digits xx 10 true = (if xx <? 0 then [45] else []) ++ ds ∧
     number digits 10 ds = Z.abs xx ∧ (xx ≠ 0 → 10 ^ (Z.of_nat (length ds) - 1) ≤ Z.abs xx)) ∧
  (number digits 16 (printint_with digits xx 16 false) = u32 xx) ∧
  (length (printint_with digits xx 10 true) ≤ 12)%nat ∧ (length (printint_with digits xx 16 false) ≤ 12)%nat.
Proof.
  intros Hdig Hxx. assert (NoDup digits ∧ length digits = 16%nat) as [Hnd Hl].
  { destruct Hdig as [-> | ->]; (split; [apply (bool_decide_unpack _); by vm_compute|done]). }
  assert (∀ base x, 10 ≤ base ≤ 16 → 0 ≤ x < 4294967296 →
    number digits base (reverse (digit_loop 32 digits base x)) = x ∧
    (0 < x → base ^ (Z.of_nat (length (reverse (digit_loop 32 digits base x))) - 1) ≤ x) ∧
    (length (reverse (digit_loop 32 digits base x)) ≤ 11)%nat) as Hmain.
  { intros base x Hb Hx. rewrite length_reverse.
    assert (10 ^ 32 ≤ base ^ 32) as Hp by (apply Z.pow_le_mono_l; lia).
    destruct (digit_loop_spec digits base ltac:(lia) Hnd ltac:(lia) 32 x ltac:(lia)) as (H1 & H2 & H3);
      [change (Z.of_nat 32) with 32; lia|lia|]. split_and!; [done..|].
    destruct (decide (x = 0)) as [->|Hx0]; [cbn [digit_loop]; rewrite Z.div_0_l by lia; cbn; lia|]. specialize (H3 ltac:(lia)).
    destruct (decide (length (digit_loop 32 digits base x) ≤ 11)%nat) as [?|Hgt]; [done|exfalso].
    assert (10 ^ 11 ≤ base ^ (Z.of_nat (length (digit_loop 32 digits base x)) - 1)); [|lia].
    etrans; [apply (Z.pow_le_mono_l 10 base); lia|]. apply Z.pow_le_mono_r; lia. }
  unfold is_i32 in Hxx. unfold printint_with. cbn [andb].
  destruct (Hmain 16 (u32 xx) ltac:(lia) (u32_range xx)) as (H1 & _ & H3).
  destruct (Z.ltb_spec xx 0) as [Hneg|Hpos].
  - rewrite (u32_small (- xx)) by (unfold is_u32; lia).
    destruct (Hmain 10 (- xx) ltac:(lia) ltac:(lia)) as (H4 & H5 & H6). split; [|split; [exact H1|split]].
    + eexists. split; [reflexivity|]. split; [lia|]. intros _. rewrite Z.abs_neq by lia. apply H5. lia.
    + rewrite length_app. cbn [length]. lia.
    + rewrite length_app. cbn [length]. lia.
  - destruct (Hmain 10 (u32 xx) ltac:(lia) (u32_range xx)) as (H4 & H5 & H6).
    rewrite (u32_small xx) in H1, H3, H4, H5, H6 |- * by (unfold is_u32; lia).
    split; [|split; [exact H1|split]].
    + eexists. split; [reflexivity|]. split; [lia|]. intros ?. rewrite Z.abs_eq by lia. apply H5. lia.
    + cbn [app]. lia.
    + cbn [app]. lia.
Qed.

Lemma printint_value_witness : printint (-2147483648) 10 true = zstr "-2147483648" ∧
  number digits_user 16 (printint (-1) 16 false) = 4294967295.
Proof.
  split; [by vm_compute|]. unfold printint.
  destruct (printint_value digits_user (-1)) as (_ & H & _); [by left|by split|]. rewrite H. by vm_compute.
Defined.

(** ** The two formatters *)

(** A format both treat alike: no [%c] and no hexadecimal (whose digits differ
    in case), and no ['%'] at its end. *)
Fixpoint shared_format (fmt : list Z) : Prop :=
  match fmt with
  | [] => True
  | c :: fmt' =>
      if c =? PERCENT then
        match fmt' with
        | [] => False
        | d :: fmt'' => d ≠ 99 ∧ d ≠ 120 ∧ d ≠ 112 ∧ shared_format fmt''
        end
      else shared_format fmt'
  end.

Lemma digit_loop_same : ∀ fuel x, 0 ≤ x → digit_loop fuel digits_user 10 x = digit_loop fuel digits_kernel 10 x.
Proof.
  induction fuel as [|fuel IH]; intros x Hx; [done|]. cbn [digit_loop].
  pose proof (Z.mod_pos_bound x 10 eq_refl) as Hm. rewrite IH by (apply Z.div_pos; lia). f_equal.
  assert (x mod 10 = 0 ∨ x mod 10 = 1 ∨ x mod 10 = 2 ∨ x mod 10 = 3 ∨ x mod 10 = 4 ∨ x mod 10 = 5 ∨
    x mod 10 = 6 ∨ x mod 10 = 7 ∨ x mod 10 = 8 ∨ x mod 10 = 9) as E by lia.
  by repeat destruct E as [->|E]; [..|rewrite E].
Qed.

Lemma decimal_same xx : printint xx 10 true = kprintint xx 10 true.
Proof.
  unfold printint, kprintint, printint_with. cbv zeta. rewrite digit_loop_same; [exact eq_refl|].
  destruct (true && _); apply u32_range.
Qed.

#[local] Opaque printint kprintint.

(** The user's [printf] and the kernel's [cprintf] write the same text for
    every format of [%d], [%s], [%%], unknown sequences and plain characters,
    with the same arguments. *)
Theorem cprintf_agrees_printf str fmt ap :
  shared_format fmt → cprintf str fmt ap = printf str fmt false ap.
Proof.
  revert ap. induction fmt as [fmt IH] using (induction_ltof1 _ (@length Z)). unfold ltof in IH. intros ap Hf.
  destruct fmt as [|c fmt]; [done|]. cbn [shared_format cprintf printf negb] in *.
  destruct (Z.eqb_spec c PERCENT) as [->|Hc]; cbn [negb].
  2:{ rewrite (IH fmt); [done|cbn; lia|done]. }
  destruct fmt as [|d fmt]; [done|]. destruct Hf as (Hd1 & Hd2 & Hd3 & Hf). cbn [printf negb].
  rewrite (proj2 (Z.eqb_neq d 120)), (proj2 (Z.eqb_neq d 112)), (proj2 (Z.eqb_neq d 99)) by done. cbn [orb].
  assert (∀ ap, cprintf str fmt ap = printf str fmt false ap) as E by (intros; apply IH; [cbn; lia|done]).
  destruct (d =? 100).
  { destruct ap as [|a ap]; [done|]. rewrite (E ap). rewrite (decimal_same (i32 a)). exact eq_refl. }
  destruct (d =? 115).
  { destruct ap as [|a ap]; [done|]. destruct (string_arg str a); [|done]. cbn. by rewrite E. }
  rewrite E. destruct (Z.eqb_spec d PERCENT) as [->|]; done.
Qed.

Lemma cprintf_agrees_printf_witness :
  cprintf (λ _, Some (zstr "sh")) (zstr "pid %d %s: %%") [u32 (-7); 4096] = Some (zstr "pid -7 sh: %").
Proof.
  rewrite (cprintf_agrees_printf (λ _, Some (zstr "sh")) (zstr "pid %d %s: %%") [u32 (-7); 4096]); [by vm_compute|].
  vm_compute. repeat split; discriminate.
Defined.
