(* ===== verification/ShParse.v ===== *)
(** The parser of the shell ([xv6/user/sh.c]): tokens, the recursive descent
    over pipelines, lists, redirections and blocks, and the NULs put at the
    ends of the words. A pointer into the line is its distance to the end
    [es]; the cursor [*ps] is the rest of the line. *)

From S2P Require Import Prelude CString.

Definition MAXARGS : nat := 10.
Definition O_RDONLY : Z := 0x000.
Definition O_WRONLY : Z := 0x001.
Definition O_CREATE : Z := 0x200.

Definition whitespace : list Z := [32; 9; 13; 10; 11].
Definition symbols : list Z := zstr "<|>&;()".
Definition PIPECH : Z := 124.
Definition LPAR : Z := 40.
Definition RPAR : Z := 41.
Definition SEMI : Z := 59.
Definition AMP : Z := 38.
Definition LT : Z := 60.
Definition GT : Z := 62.
Definition PLUS : Z := 43.
Definition WORD : Z := 97.

(** A word: where it starts and where it ends. *)
Definition span : Type := nat * nat.
Record redir := mkRedir { r_file : span; r_mode : Z; r_fd : Z }.
Inductive cmd :=
  | EXEC (argv : list span)
  | REDIR (sub : cmd) (r : redir)
  | PIPE (left right : cmd)
  | LIST (left right : cmd)
  | BACK (sub : cmd).

Definition is_space (c : Z) : bool := bool_decide (c ∈ whitespace).
Definition is_symbol (c : Z) : bool := bool_decide (c ∈ symbols).

Fixpoint skip_space (s : list Z) : list Z :=
  match s with
  | c :: s' => if is_space c then skip_space s' else s
  | [] => []
  end.
Fixpoint skip_word (s : list Z) : list Z :=
  match s with
  | c :: s' => if negb (is_space c) && negb (is_symbol c) then skip_word s' else s
  | [] => []
  end.

(** The token's kind, its span, and the cursor after the spaces behind it. *)
Definition gettoken : M (list Z) (Z * span) :=
  s ← get;
  let s := skip_space s in
  let q := length s in
  let '(ret, s) :=
    match s with
    | [] => (0, s)
    | c :: s' =>
        if bool_decide (c ∈ [PIPECH; LPAR; RPAR; SEMI; AMP; LT]) then (c, s')
        else if c =? GT then
          match s' with
          | d :: s'' => if d =? GT then (PLUS, s'') else (c, s')
          | [] => (c, s')
          end
        else (WORD, skip_word s)
    end in
  put (skip_space s);;
  mret (ret, (q, length s)).

Definition peek (toks : list Z) : M (list Z) bool :=
  s ← get;
  let s := skip_space s in
  put s;;
  mret (match s with [] => false | c :: _ => bool_decide (c ∈ toks) end).

(** The redirections [parseredirs] finds, in the order they are wrapped. *)
Fixpoint parseredirs (fuel : nat) : M (list Z) (list redir) :=
  match fuel with
  | O => nofuel
  | S fuel' =>
      b ← peek [LT; GT];
      if b : bool then
        t ← gettoken;
        w ← gettoken;
        if negb (w.1 =? WORD) then panic "missing file for redirection" else
        let r :=
          if t.1 =? LT then [mkRedir w.2 O_RDONLY 0]
          else if (t.1 =? GT) || (t.1 =? PLUS) then [mkRedir w.2 (Z.lor O_WRONLY O_CREATE) 1]
          else [] in
        rs ← parseredirs fuel';
        mret (r ++ rs)
      else mret []
  end.
Definition wrap (c : cmd) (rs : list redir) : cmd := foldl REDIR c rs.

(** The words and redirections of a simple command; [argc] words are in. *)
Fixpoint exec_loop (fuel : nat) (argc : nat) : M (list Z) (list span * list redir) :=
  match fuel with
  | O => nofuel
  | S fuel' =>
      b ← peek [PIPECH; RPAR; AMP; SEMI];
      if b : bool then mret ([], []) else
      t ← gettoken;
      if t.1 =? 0 then mret ([], []) else
      if negb (t.1 =? WORD) then panic "syntax" else
      if decide (MAXARGS ≤ S argc)%nat then panic "too many args" else
      rs ← parseredirs fuel';
      l ← exec_loop fuel' (S argc);
      mret (t.2 :: l.1, rs ++ l.2)
  end.

(** [while(peek(ps, es, "&")) { gettoken; cmd = backcmd(cmd); }] *)
Fixpoint back_loop (fuel : nat) (c : cmd) : M (list Z) cmd :=
  match fuel with
  | O => nofuel
  | S fuel' =>
      b ← peek [AMP];
      if b : bool then gettoken;; back_loop fuel' (BACK c) else mret c
  end.

Fixpoint parseline (fuel : nat) : M (list Z) cmd :=
  match fuel with
  | O => nofuel
  | S fuel' =>
      c ← parsepipe fuel';
      c ← back_loop fuel' c;
      b ← peek [SEMI];
      if b : bool then gettoken;; r ← parseline fuel'; mret (LIST c r) else mret c
  end
with parsepipe (fuel : nat) : M (list Z) cmd :=
  match fuel with
  | O => nofuel
  | S fuel' =>
      c ← parseexec fuel';
      b ← peek [PIPECH];
      if b : bool then gettoken;; r ← parsepipe fuel'; mret (PIPE c r) else mret c
  end
with parseblock (fuel : nat) : M (list Z) cmd :=
  match fuel with
  | O => nofuel
  | S fuel' =>
      b ← peek [LPAR];
      if negb b then panic "parseblock" else
      gettoken;;
      c ← parseline fuel';
      b ← peek [RPAR];
      if negb b then panic "syntax - missing )" else
      gettoken;;
      rs ← parseredirs fuel';
      mret (wrap c rs)
  end
with parseexec (fuel : nat) : M (list Z) cmd :=
  match fuel with
  | O => nofuel
  | S fuel' =>
      b ← peek [LPAR];
      if b : bool then parseblock fuel' else
      rs ← parseredirs fuel';
      l ← exec_loop fuel' 0;
      mret (wrap (EXEC l.1) (rs ++ l.2))
  end.

(** [*p = 0] for the pointer at distance [p] from the end; the line is [buf]
    with its NUL. *)
Definition put_nul (p : nat) (buf : list Z) : list Z := <[(length buf - 1 - p)%nat := 0]> buf.
Fixpoint nulterminate (c : cmd) (buf : list Z) : list Z :=
  match c with
  | EXEC argv => foldl (λ b w, put_nul w.2 b) buf argv
  | REDIR sub r => put_nul (r_file r).2 (nulterminate sub buf)
  | PIPE l r | LIST l r => nulterminate r (nulterminate l buf)
  | BACK sub => nulterminate sub buf
  end.

Definition parse_fuel (s : list Z) : nat := 4 * length s + 8.

(** The command and the line with its NULs; [s] is the line before its NUL. *)
Definition parsecmd (s : list Z) : outcome (cmd * list Z) :=
  match (c ← parseline (parse_fuel s); peek [];; mret c) s with
  | Ok (c, []) => Ok (c, nulterminate c (s ++ [0]))
  | Ok (_, _ :: _) => Panic "syntax"
  | Panic msg => Panic msg
  | Blocked => Blocked
  | Undef => Undef
  | NoFuel => NoFuel
  end.
