(* ===== verification/ShProofs.v ===== *)
(** The parser of the shell terminates on every line, and reads back every
    command that is printed with the parentheses its grammar needs. *)

From S2P Require Import Prelude CString ShParse.

(** ** Cursors only move forward *)

Definition shrinks {A} (m : M (list Z) A) : Prop :=
  ∀ s a s', m s = Ok (a, s') → (length s' ≤ length s)%nat.

Lemma shrinks_bind {A B} (m : M (list Z) A) (f : A → M (list Z) B) :
  shrinks m → (∀ a, shrinks (f a)) → shrinks (m ≫= f).
Proof. intros Hm Hf s b s' H. minv H. apply Hm in E. apply Hf in H. lia. Qed.
Lemma shrinks_ret {A} (a : A) : shrinks (mret a).
Proof. by intros s b s' [= <- <-]. Qed.
Lemma shrinks_panic {A} msg : shrinks (panic msg : M (list Z) A).
Proof. by intros s a s' ?. Qed.
Lemma shrinks_nofuel {A} : shrinks (nofuel : M (list Z) A).
Proof. by intros s a s' ?. Qed.

Lemma length_skip_space s : (length (skip_space s) ≤ length s)%nat.
Proof. induction s as [|c s IH]; cbn; [done|]. destruct (is_space c); cbn; lia. Qed.
Lemma length_skip_word s : (length (skip_word s) ≤ length s)%nat.
Proof. induction s as [|c s IH]; cbn; [done|]. destruct (negb (is_space c) && negb (is_symbol c)); cbn; lia. Qed.

Lemma peek_run toks s :
  peek toks s = Ok (match skip_space s with [] => false | c :: _ => bool_decide (c ∈ toks) end, skip_space s).
Proof. done. Qed.

Lemma skip_space_head c s s' : skip_space s = c :: s' → is_space c = false.
Proof.
  induction s as [|d s IH]; cbn; [done|]. destruct (is_space d) eqn:E; [done|]. by intros [= -> ->].
Qed.
Lemma skip_space_idem s : skip_space (skip_space s) = skip_space s.
Proof. induction s as [|c s IH]; cbn; [done|]. destruct (is_space c) eqn:E; [done|]. cbn. by rewrite E. Qed.

Lemma not_symbol c : c ∉ [PIPECH; LPAR; RPAR; SEMI; AMP; LT] → c ≠ GT → is_symbol c = false.
Proof.
  intros H1 H2. apply bool_decide_eq_false. change symbols with [LT; PIPECH; GT; AMP; SEMI; LPAR; RPAR].
  rewrite !elem_of_cons in *. rewrite elem_of_nil in *. tauto.
Qed.

Lemma gettoken_shrinks s t s' :
  gettoken s = Ok (t, s') → (length s' ≤ length s)%nat ∧ (skip_space s ≠ [] → length s' < length s)%nat.
Proof.
  unfold gettoken, get, put, mret, M_ret, mbind, M_bind. pose proof (length_skip_space s) as H1.
  destruct (skip_space s) as [|c r] eqn:Es; [intros [= _ <-]; cbn; split; [lia|done]|].
  pose proof (skip_space_head _ _ _ Es) as Hc. cbn [length] in H1.
  assert (∀ x, (length x ≤ length r → length (skip_space x) ≤ length s ∧ (c :: r ≠ [] → length (skip_space x) < length s)))%nat as Hx.
  { intros x Hx. pose proof (length_skip_space x). split; [lia|]. intros _. lia. }
  case_bool_decide as Hsym; [intros [= _ <-]; exact (Hx r ltac:(lia))|].
  destruct (Z.eqb_spec c GT).
  - destruct r as [|d r']; [intros [= _ <-]; exact (Hx [] ltac:(lia))|].
    destruct (d =? GT); intros [= _ <-]; [apply (Hx r')|apply (Hx (d :: r'))]; cbn; lia.
  - intros [= _ <-]. cbn [skip_word]. rewrite Hc, not_symbol by done. apply (Hx (skip_word r)), length_skip_word.
Qed.

Lemma shrinks_gettoken : shrinks gettoken.
Proof. intros s t s' H. by apply gettoken_shrinks in H as [? _]. Qed.
Lemma shrinks_peek toks : shrinks (peek toks).
Proof. intros s b s' [= _ <-]. apply length_skip_space. Qed.

Create HintDb sh.
#[export] Hint Resolve shrinks_ret shrinks_panic shrinks_nofuel shrinks_gettoken shrinks_peek : sh.

Ltac shrink :=
  repeat first
    [ match goal with
      | |- ∀ _, _ => intro
      | |- shrinks (_ ≫= _) => apply shrinks_bind
      | |- shrinks (if ?b then _ else _) => destruct b
      | |- shrinks (if _ is left _ then _ else _) => case_decide
      end
    | solve [eauto with sh] ].

Lemma shrinks_parseredirs fuel : shrinks (parseredirs fuel).
Proof. induction fuel; cbn [parseredirs]; shrink. Qed.
#[export] Hint Resolve shrinks_parseredirs : sh.
Lemma shrinks_exec_loop fuel : ∀ argc, shrinks (exec_loop fuel argc).
Proof. induction fuel; intros argc; cbn [exec_loop]; shrink. Qed.
Lemma shrinks_back_loop fuel : ∀ c, shrinks (back_loop fuel c).
Proof. induction fuel; intros c; cbn [back_loop]; shrink. Qed.
#[export] Hint Resolve shrinks_exec_loop shrinks_back_loop : sh.

Lemma shrinks_parsers fuel :
  shrinks (parseline fuel) ∧ shrinks (parsepipe fuel) ∧ shrinks (parseblock fuel) ∧ shrinks (parseexec fuel).
Proof.
  induction fuel as [|fuel (IHl & IHp & IHb & IHe)]; [split_and!; cbn; shrink|].
  split_and!; cbn [parseline parsepipe parseblock parseexec]; shrink.
Qed.

(** ** Termination *)

(** [m] returns or panics from every cursor of at most [n] characters. *)
Definition ends {A} (o : outcome A) : Prop := match o with Ok _ | Panic _ => True | _ => False end.
Definition total {A} (n : nat) (m : M (list Z) A) : Prop := ∀ s, (length s ≤ n)%nat → ends (m s).

Lemma total_bind {A B} n (m : M (list Z) A) (f : A → M (list Z) B) :
  total n m → shrinks m → (∀ a, total n (f a)) → total n (m ≫= f).
Proof.
  intros Hm Hs Hf s Hl. unfold mbind, M_bind. specialize (Hm s Hl). destruct (m s) as [[a s']| | | |] eqn:E; try done.
  apply Hf. apply Hs in E. lia.
Qed.
Lemma total_ret {A} n (a : A) : total n (mret a).
Proof. by intros s _. Qed.
Lemma total_panic {A} n msg : total n (panic msg : M (list Z) A).
Proof. by intros s _. Qed.
Lemma total_peek n toks : total n (peek toks).
Proof. by intros s _. Qed.
Lemma gettoken_ok s : ∃ t s', gettoken s = Ok (t, s').
Proof.
  unfold gettoken, get, put, mret, M_ret, mbind, M_bind. destruct (skip_space s) as [|c r]; [eauto|].
  destruct (bool_decide _); [eauto|]. destruct (c =? GT); [|eauto]. destruct r as [|d r]; [eauto|].
  destruct (d =? GT); eauto.
Qed.
Lemma total_gettoken n : total n gettoken.
Proof. intros s _. by destruct (gettoken_ok s) as (t & s' & ->). Qed.

(** A token after a successful look-ahead takes a character, and so does every
    token but the end. *)
Lemma gettoken_takes n s t s' :
  gettoken s = Ok (t, s') → (length s ≤ n)%nat → skip_space s ≠ [] → ∃ m, n = S m ∧ (length s' ≤ m)%nat.
Proof.
  intros Ht Hl Hne. apply gettoken_shrinks in Ht as [_ Ht]. specialize (Ht Hne). destruct n as [|m]; [lia|].
  exists m. split; [done|lia].
Qed.

Lemma total_token {A} n (f : Z * span → M (list Z) A) :
  (∀ t, t.1 = 0 → total n (f t)) → (∀ t m, n = S m → total m (f t)) → total n (gettoken ≫= f).
Proof.
  intros H0 Hf s Hl. destruct (gettoken_ok s) as (t & s' & Et). unfold mbind, M_bind. rewrite Et.
  destruct (decide (skip_space s = [])) as [E|E].
  - apply H0; [|apply gettoken_shrinks in Et as [? _]; lia].
    unfold gettoken, get, put, mret, M_ret, mbind, M_bind in Et. rewrite E in Et. by injection Et as <- _.
  - destruct (gettoken_takes _ _ _ _ Et Hl E) as (m & -> & Hm). by apply (Hf t m).
Qed.

Lemma total_peek_token {A} n toks (f : Z * span → M (list Z) A) (g : M (list Z) A) :
  (∀ t m, n = S m → total m (f t)) → total n g →
  total n (b ← peek toks; if b : bool then gettoken ≫= f else g).
Proof.
  intros Hf Hg s Hl. unfold mbind at 1, M_bind at 1. rewrite peek_run.
  pose proof (length_skip_space s) as Hls.
  destruct (skip_space s) as [|c r] eqn:Es; [apply Hg; cbn; lia|].
  case_bool_decide; [|apply Hg; lia].
  destruct (gettoken_ok (c :: r)) as (t & s' & Et). unfold mbind, M_bind. rewrite Et.
  destruct (gettoken_takes n _ _ _ Et ltac:(lia)) as (m & -> & Hm); [by rewrite <-Es, skip_space_idem, Es|].
  by apply (Hf t m).
Qed.

Lemma total_mono {A} n m (f : M (list Z) A) : (m ≤ n)%nat → total n f → total m f.
Proof. intros Hm Hf s Hs. apply Hf. lia. Qed.

Lemma total_parseredirs fuel : ∀ n, (n < fuel)%nat → total n (parseredirs fuel).
Proof.
  induction fuel as [|fuel IH]; intros n Hn; [lia|]. cbn [parseredirs]. apply total_peek_token; [|apply total_ret].
  intros t m ->. apply total_bind; [apply total_gettoken|apply shrinks_gettoken|]. intros w.
  destruct (negb (w.1 =? WORD)); [apply total_panic|].
  apply total_bind; [apply IH; lia|apply shrinks_parseredirs|]. intros rs. apply total_ret.
Qed.

Lemma total_exec_loop fuel : ∀ n argc, (n < fuel)%nat → total n (exec_loop fuel argc).
Proof.
  induction fuel as [|fuel IH]; intros n argc Hn; [lia|]. cbn [exec_loop].
  apply total_bind; [apply total_peek|apply shrinks_peek|]. intros [|]; [apply total_ret|]. apply total_token.
  - intros t ->. rewrite Z.eqb_refl. apply total_ret.
  - intros t m ->. destruct (t.1 =? 0); [apply total_ret|]. destruct (negb (t.1 =? WORD)); [apply total_panic|].
    case_decide; [apply total_panic|].
    apply total_bind; [apply total_parseredirs; lia|apply shrinks_parseredirs|]. intros rs.
    apply total_bind; [apply IH; lia|apply shrinks_exec_loop|]. intros l. apply total_ret.
Qed.

Lemma total_back_loop fuel : ∀ n c, (n < fuel)%nat → total n (back_loop fuel c).
Proof.
  induction fuel as [|fuel IH]; intros n c Hn; [lia|]. cbn [back_loop]. apply total_peek_token; [|apply total_ret].
  intros t m ->. apply IH. lia.
Qed.

Lemma total_parsers fuel :
  (∀ n, (4 * n + 8 ≤ fuel)%nat → total n (parseline fuel)) ∧
  (∀ n, (4 * n + 7 ≤ fuel)%nat → total n (parsepipe fuel)) ∧
  (∀ n, (4 * n + 5 ≤ fuel)%nat → total n (parseblock fuel)) ∧
  (∀ n, (4 * n + 6 ≤ fuel)%nat → total n (parseexec fuel)).
Proof.
  induction fuel as [|fuel (IHl & IHp & IHb & IHe)]; [split_and!; intros; lia|].
  destruct (shrinks_parsers fuel) as (Sl & Sp & Sb & Se).
  split_and!; intros n Hn; cbn [parseline parsepipe parseblock parseexec].
  - apply total_bind; [apply IHp; lia|done|]. intros c.
    apply total_bind; [apply total_back_loop; lia|apply shrinks_back_loop|]. intros c2.
    apply total_peek_token; [|apply total_ret]. intros t m ->.
    apply total_bind; [apply IHl; lia|done|]. intros r. apply total_ret.
  - apply total_bind; [apply IHe; lia|done|]. intros c. apply total_peek_token; [|apply total_ret].
    intros t m ->. apply total_bind; [apply IHp; lia|done|]. intros r. apply total_ret.
  - intros s Hs. unfold mbind at 1, M_bind at 1. rewrite peek_run.
    pose proof (length_skip_space s) as Hls. destruct (skip_space s) as [|c r] eqn:Es; [done|].
    case_bool_decide; [|done]. cbn [negb].
    destruct (gettoken_ok (c :: r)) as (t & s' & Et). unfold mbind at 1, M_bind at 1. rewrite Et.
    destruct (gettoken_takes n _ _ _ Et ltac:(lia)) as (m & -> & Hm); [by rewrite <-Es, skip_space_idem, Es|].
    revert s' Hm Et. intros s' Hm _. revert s' Hm.
    apply total_bind; [apply IHl; lia|done|]. intros c2.
    apply total_bind; [apply total_peek|apply shrinks_peek|]. intros [|]; [|apply total_panic]. cbn [negb].
    apply total_bind; [apply total_gettoken|apply shrinks_gettoken|]. intros t2.
    apply total_bind; [apply total_parseredirs; lia|apply shrinks_parseredirs|]. intros rs. apply total_ret.
  - apply total_bind; [apply total_peek|apply shrinks_peek|]. intros [|]; [apply IHb; lia|].
    apply total_bind; [apply total_parseredirs; lia|apply shrinks_parseredirs|]. intros rs.
    apply total_bind; [apply total_exec_loop; lia|apply shrinks_exec_loop|]. intros l. apply total_ret.
Qed.

Lemma parse_ends s : ends ((c ← parseline (parse_fuel s); peek [];; mret c) s).
Proof.
  apply (total_bind (length s)); [|apply shrinks_parsers| |done].
  - apply total_parsers. done.
  - intros c. apply total_bind; [apply total_peek|apply shrinks_peek|]. intros b. apply total_ret.
Qed.

(** C38: The parser terminates on every line, however its parentheses and
    operators are arranged: it returns a command or one of its syntax errors,
    within fuel linear in the line. *)
Theorem parsecmd_total s : (∃ c buf, parsecmd s = Ok (c, buf)) ∨ (∃ msg, parsecmd s = Panic msg).
Proof.
  unfold parsecmd. pose proof (parse_ends s) as H.
  match type of H with ends ?o => destruct o as [[c [|x r]]|msg| | |] end;
    [left; eauto|right; eauto..|done|done|done].
Qed.

(** ** More fuel does not change a result *)

Definition later {A} (m m' : M (list Z) A) : Prop := ∀ s, m s = NoFuel ∨ m' s = m s.

Lemma later_refl {A} (m : M (list Z) A) : later m m.
Proof. intros s. by right. Qed.
Lemma later_nofuel {A} (m : M (list Z) A) : later nofuel m.
Proof. intros s. by left. Qed.
Lemma later_bind {A B} (m m' : M (list Z) A) (f f' : A → M (list Z) B) :
  later m m' → (∀ a, later (f a) (f' a)) → later (m ≫= f) (m' ≫= f').
Proof.
  intros Hm Hf s. unfold mbind, M_bind. destruct (Hm s) as [-> | ->]; [by left|].
  destruct (m s) as [[a s']| | | |]; [apply Hf|by right..].
Qed.
#[export] Hint Resolve later_refl later_nofuel : sh.
Ltac later :=
  repeat first
    [ match goal with
      | |- ∀ _, _ => intro
      | |- later (_ ≫= _) (_ ≫= _) => apply later_bind
      | |- later (if ?b then _ else _) _ => destruct b
      end
    | solve [eauto with sh] ].

Lemma later_parseredirs f : ∀ f', (f ≤ f')%nat → later (parseredirs f) (parseredirs f').
Proof.
  induction f as [|f IH]; intros [|f'] Hf; [apply later_refl|apply later_nofuel|lia|]. cbn [parseredirs].
  specialize (IH f' ltac:(lia)). later.
Qed.
Lemma later_exec_loop f : ∀ f' argc, (f ≤ f')%nat → later (exec_loop f argc) (exec_loop f' argc).
Proof.
  induction f as [|f IH]; intros [|f'] argc Hf; [apply later_refl|apply later_nofuel|lia|]. cbn [exec_loop].
  assert (∀ argc, later (exec_loop f argc) (exec_loop f' argc)) by (intros; apply IH; lia).
  pose proof (later_parseredirs f f' ltac:(lia)). later.
Qed.
Lemma later_back_loop f : ∀ f' c, (f ≤ f')%nat → later (back_loop f c) (back_loop f' c).
Proof.
  induction f as [|f IH]; intros [|f'] c Hf; [apply later_refl|apply later_nofuel|lia|]. cbn [back_loop].
  assert (∀ c, later (back_loop f c) (back_loop f' c)) by (intros; apply IH; lia). later.
Qed.
Lemma later_parsers f : ∀ f', (f ≤ f')%nat →
  later (parseline f) (parseline f') ∧ later (parsepipe f) (parsepipe f') ∧
  later (parseblock f) (parseblock f') ∧ later (parseexec f) (parseexec f').
Proof.
  induction f as [|f IH]; intros [|f'] Hf; [by split_and!; apply later_refl|by split_and!; apply later_nofuel|lia|].
  destruct (IH f' ltac:(lia)) as (Hl & Hp & Hb & He).
  pose proof (later_parseredirs f f' ltac:(lia)).
  assert (∀ argc, later (exec_loop f argc) (exec_loop f' argc)) by (intros; apply later_exec_loop; lia).
  assert (∀ c, later (back_loop f c) (back_loop f' c)) by (intros; apply later_back_loop; lia).
  split_and!; cbn [parseline parsepipe parseblock parseexec]; later.
Qed.

(** Every parser starts by skipping spaces. *)
Lemma parse_skip f s :
  parseline f (skip_space s) = parseline f s ∧ parsepipe f (skip_space s) = parsepipe f s ∧
  parseexec f (skip_space s) = parseexec f s.
Proof.
  assert (∀ A toks (g : bool → M (list Z) A), (peek toks ≫= g) (skip_space s) = (peek toks ≫= g) s) as Hp.
  { intros A toks g. unfold mbind, M_bind. by rewrite !peek_run, skip_space_idem. }
  assert (∀ f, parseexec f (skip_space s) = parseexec f s) as He by (intros [|f']; [done|apply Hp]).
  assert (∀ f, parsepipe f (skip_space s) = parsepipe f s) as Hpp.
  { intros [|f']; [done|]. cbn [parsepipe]. unfold mbind at 1 3, M_bind at 1 3. by rewrite He. }
  split_and!; [|apply Hpp|apply He]. destruct f as [|f']; [done|]. cbn [parseline].
  unfold mbind at 1 4, M_bind at 1 4. by rewrite Hpp.
Qed.

(** ** Commands and their text *)

Inductive rkind := RIn | ROut.
Inductive scmd :=
  | SExec (argv : list (list Z))
  | SRedir (sub : scmd) (k : rkind) (file : list Z)
  | SPipe (left right : scmd)
  | SList (left right : scmd)
  | SBack (sub : scmd).

Definition word_char (c : Z) : Prop := c ≠ 0 ∧ is_space c = false ∧ is_symbol c = false.
Definition word (w : list Z) : Prop := w ≠ [] ∧ Forall word_char w.

(** Non-empty words without separators, and fewer than [MAXARGS] of them. *)
Fixpoint printable (x : scmd) : Prop :=
  match x with
  | SExec argv => Forall word argv ∧ (length argv < MAXARGS)%nat
  | SRedir sub _ f => printable sub ∧ word f
  | SPipe l r | SList l r => printable l ∧ printable r
  | SBack sub => printable sub
  end.

Definition pr_words (ws : list (list Z)) : list Z := mjoin ((λ w, w ++ [32]) <$> ws).
Definition pr_redir (r : rkind * list Z) : list Z :=
  match r.1 with RIn => LT | ROut => GT end :: r.2 ++ [32].
Definition pr_redirs (rs : list (rkind * list Z)) : list Z := mjoin (pr_redir <$> rs).

(** The text of a command where the grammar wants a simple command or block
    (level 0), a pipeline (1), one with [&]s (2), or a whole line (3). *)
Fixpoint pr (lvl : nat) (x : scmd) : list Z :=
  let paren (l : nat) (t : list Z) := if decide (lvl < l)%nat then [LPAR] ++ t ++ [RPAR] else t in
  match x with
  | SExec ws => pr_words ws
  | SRedir sub k f => pr 0 sub ++ pr_redir (k, f)
  | SPipe l r => paren 1%nat (pr 0 l ++ [PIPECH] ++ pr 1 r)
  | SBack sub => paren 2%nat (pr 2 sub ++ [AMP])
  | SList l r => paren 3%nat (pr 2 l ++ [SEMI] ++ pr 3 r)
  end.

(** ** Spans and words *)

(** The span holds the word, and ends at a separator. *)
Definition span_is (s : list Z) (sp : span) (w : list Z) : Prop :=
  ∃ p r, s = p ++ w ++ r ∧ sp = (length (w ++ r), length r) ∧
    match r with [] => True | c :: _ => ¬ word_char c end.
Definition redir_is (s : list Z) (r : redir) (x : rkind * list Z) : Prop :=
  span_is s (r_file r) x.2 ∧
  (r_mode r, r_fd r) = match x.1 with RIn => (O_RDONLY, 0) | ROut => (Z.lor O_WRONLY O_CREATE, 1) end.

Fixpoint cmd_is (s : list Z) (c : cmd) (x : scmd) : Prop :=
  match c, x with
  | EXEC l, SExec ws => Forall2 (span_is s) l ws
  | REDIR c r, SRedir x k f => cmd_is s c x ∧ redir_is s r (k, f)
  | PIPE c1 c2, SPipe x1 x2 | LIST c1 c2, SList x1 x2 => cmd_is s c1 x1 ∧ cmd_is s c2 x2
  | BACK c, SBack x => cmd_is s c x
  | _, _ => False
  end.

Lemma span_is_app p s sp w : span_is s sp w → span_is (p ++ s) sp w.
Proof. intros (q & r & -> & H). exists (p ++ q), r. by rewrite <-app_assoc. Qed.
Lemma redir_is_app p s r x : redir_is s r x → redir_is (p ++ s) r x.
Proof. intros [H1 H2]. split; [by apply span_is_app|done]. Qed.
Lemma cmd_is_app p s c : ∀ x, cmd_is s c x → cmd_is (p ++ s) c x.
Proof.
  induction c as [l|c IH r|c1 IH1 c2 IH2|c1 IH1 c2 IH2|c IH]; intros [ws|x k f|x1 x2|x1 x2|x]; cbn; try done.
  - apply Forall2_impl. intros. by apply span_is_app.
  - intros [H1 H2]. split; [by apply IH|by apply redir_is_app].
  - naive_solver.
  - naive_solver.
  - apply IH.
Qed.

Lemma skip_space_split s : ∃ p, s = p ++ skip_space s.
Proof.
  induction s as [|c s [p IH]]; [by exists []|]. cbn. destruct (is_space c); [|by exists []].
  exists (c :: p). by rewrite IH at 1.
Qed.
Lemma cmd_is_skip s c x : cmd_is (skip_space s) c x → cmd_is s c x.
Proof. destruct (skip_space_split s) as [p E]. rewrite E at 2. apply cmd_is_app. Qed.
Lemma redir_is_skip s c x : redir_is (skip_space s) c x → redir_is s c x.
Proof. destruct (skip_space_split s) as [p E]. rewrite E at 2. apply redir_is_app. Qed.

Lemma word_head w r : word w → ∃ c w', w = c :: w' ∧ word_char c ∧ skip_space (w ++ r) = w ++ r.
Proof.
  intros [Hne Hw]. destruct w as [|c w']; [done|]. exists c, w'. apply Forall_cons_1 in Hw as [Hc _].
  split_and!; [done..|]. cbn. by destruct Hc as (_ & -> & _).
Qed.

Lemma word_char_not c x : word_char c → is_space x = true ∨ is_symbol x = true → c ≠ x.
Proof. intros (_ & H1 & H2) Hx ->. destruct Hx; congruence. Qed.

Lemma skip_word_app w r : Forall word_char w → (match r with [] => True | c :: _ => ¬ word_char c ∧ c ≠ 0 end) →
  skip_word (w ++ r) = r.
Proof.
  intros Hw Hr. induction Hw as [|c w (Hc0 & Hc1 & Hc2) _ IH]; cbn.
  - destruct r as [|c r]; [done|]. cbn. destruct Hr as [Hr H0]. destruct (is_space c) eqn:E1; [done|].
    destruct (is_symbol c) eqn:E2; [done|]. destruct Hr. done.
  - rewrite Hc1, Hc2. apply IH.
Qed.

Lemma gettoken_word w r : word w →
  gettoken (w ++ 32 :: r) = Ok ((WORD, (length (w ++ 32 :: r), length (32 :: r))), skip_space r).
Proof.
  intros Hw. destruct (word_head w (32 :: r) Hw) as (c & w' & E & Hc & Hs).
  unfold gettoken, get, put, mret, M_ret, mbind, M_bind. rewrite Hs. rewrite E. cbn [app].
  rewrite bool_decide_eq_false_2.
  2:{ rewrite !elem_of_cons, elem_of_nil. intros Hin.
      repeat destruct Hin as [Hin|Hin]; try done; revert Hin; apply (word_char_not _ _ Hc); by right. }
  rewrite (proj2 (Z.eqb_neq c GT)) by (apply (word_char_not _ _ Hc); by right).
  change (c :: w' ++ 32 :: r) with ((c :: w') ++ 32 :: r). rewrite <-E, skip_word_app; [done|apply Hw|].
  split; [|done]. by intros (_ & ? & _).
Qed.

Lemma span_word w r : span_is (w ++ 32 :: r) (length (w ++ 32 :: r), length (32 :: r)) w.
Proof. exists [], (32 :: r). split_and!; [done..|]. by intros (_ & ? & _). Qed.

(** ** What may follow *)

Definition starts (set : list Z) (s : list Z) : Prop :=
  match skip_space s with [] => True | c :: _ => c ∈ set end.
Definition follow (lvl : nat) : list Z :=
  match lvl with
  | 0%nat => [RPAR; SEMI; AMP; PIPECH]
  | 1%nat => [RPAR; SEMI; AMP]
  | 2%nat => [RPAR; SEMI]
  | _ => [RPAR]
  end.

Lemma starts_weaken set set' s : set ⊆ set' → starts set s → starts set' s.
Proof. unfold starts. destruct (skip_space s); set_solver. Qed.
Lemma follow_0 lvl : follow lvl ⊆ follow 0.
Proof. destruct lvl as [|[|[|?]]]; cbn; set_solver. Qed.
Lemma peek_no toks set s : starts set s → (∀ c, c ∈ set → c ∉ toks) → peek toks s = Ok (false, skip_space s).
Proof.
  intros Hs Hd. rewrite peek_run. unfold starts in Hs. destruct (skip_space s) as [|c r]; [done|].
  rewrite bool_decide_eq_false_2; [done|]. by apply Hd.
Qed.
Lemma peek_yes toks c s : is_space c = false → c ∈ toks → peek toks (c :: s) = Ok (true, c :: s).
Proof. intros Hc Hin. rewrite peek_run. cbn [skip_space]. rewrite Hc. by rewrite bool_decide_eq_true_2. Qed.

Lemma starts_cons set c s : is_space c = false → c ∈ set → starts set (c :: s).
Proof. intros Hc Hin. unfold starts. cbn. by rewrite Hc. Qed.

Lemma gettoken_op c r : c ∈ [PIPECH; LPAR; RPAR; SEMI; AMP; LT] →
  gettoken (c :: r) = Ok ((c, (S (length r), length r)), skip_space r).
Proof.
  intros Hc. unfold gettoken, get, put, mret, M_ret, mbind, M_bind. cbn [skip_space].
  assert (is_space c = false) as ->.
  { apply bool_decide_eq_false. revert Hc. unfold whitespace. rewrite !elem_of_cons, !elem_of_nil.
    unfold PIPECH, LPAR, RPAR, SEMI, AMP, LT. lia. }
  by rewrite bool_decide_eq_true_2.
Qed.

Lemma peek_no_word toks w r : word w → (∀ c, c ∈ toks → is_symbol c = true) →
  peek toks (w ++ r) = Ok (false, w ++ r).
Proof.
  intros Hw Ht. destruct (word_head w r Hw) as (c & w' & E & Hc & Hs). rewrite peek_run, Hs, E. cbn [app].
  rewrite bool_decide_eq_false_2; [done|]. intros Hin. apply Ht in Hin. destruct Hc as (_ & _ & H2). congruence.
Qed.

(** ** Redirections *)

Lemma pr_redirs_cons k f rs rest :
  pr_redirs ((k, f) :: rs) ++ rest = match k with RIn => LT | ROut => GT end :: f ++ 32 :: (pr_redirs rs ++ rest).
Proof. unfold pr_redirs, pr_redir. cbn. by rewrite <-!app_assoc. Qed.

Lemma skip_redirs rs rest :
  skip_space (pr_redirs rs ++ rest) = match rs with [] => skip_space rest | _ => pr_redirs rs ++ rest end.
Proof. destruct rs as [|[k f] rs]; [done|]. rewrite pr_redirs_cons. by destruct k. Qed.

Lemma gettoken_redir k f r : word f →
  gettoken (match k with RIn => LT | ROut => GT end :: f ++ 32 :: r) =
    Ok ((match k with RIn => LT | ROut => GT end, (S (length (f ++ 32 :: r)), length (f ++ 32 :: r))), f ++ 32 :: r).
Proof.
  intros Hf. destruct (word_head f (32 :: r) Hf) as (c & f' & E & Hc & Hs). destruct k.
  - rewrite gettoken_op by set_solver. by rewrite Hs.
  - unfold gettoken, get, put, mret, M_ret, mbind, M_bind. cbn [skip_space]. change (is_space GT) with false. cbn iota.
    rewrite bool_decide_eq_false_2 by (rewrite !elem_of_cons, elem_of_nil; unfold GT, PIPECH, LPAR, RPAR, SEMI, AMP, LT; lia).
    subst f. cbn [app] in *. rewrite Z.eqb_refl.
    rewrite (proj2 (Z.eqb_neq c GT)) by (apply (word_char_not _ _ Hc); by right). by rewrite Hs.
Qed.

Lemma parseredirs_run rs : ∀ rest, Forall (λ r, word r.2) rs → starts (follow 0) rest ∨ (∃ w r, word w ∧ rest = w ++ r) →
  ∃ f0, ∀ f, (f0 ≤ f)%nat → ∃ rs', parseredirs f (pr_redirs rs ++ rest) = Ok (rs', skip_space rest) ∧
    Forall2 (redir_is (pr_redirs rs ++ rest)) rs' rs.
Proof.
  induction rs as [|[k f] rs IH]; intros rest Hrs Hrest.
  - exists 1%nat. intros [|fu] Hf; [lia|]. exists []. split; [|constructor]. cbn [parseredirs]. unfold pr_redirs. cbn [mjoin list_join fmap list_fmap app].
    destruct Hrest as [Hrest|(w & r & Hw & ->)].
    + step (peek_no [LT; GT] _ _ Hrest ltac:(intros c; cbn; rewrite !elem_of_cons, !elem_of_nil; unfold LT, GT, RPAR, SEMI, AMP, PIPECH; lia)). done.
    + step (peek_no_word [LT; GT] w r Hw ltac:(intros c; rewrite !elem_of_cons, elem_of_nil; intros [->|[->|[]]]; done)).
      destruct (word_head w r Hw) as (_ & _ & _ & _ & ->). done.
  - apply Forall_cons_1 in Hrs as [Hf Hrs]. destruct (IH rest Hrs Hrest) as [f0 H0]. exists (S f0).
    intros [|fu] Hfu; [lia|]. destruct (H0 fu ltac:(lia)) as (rs' & Hr & His). rewrite pr_redirs_cons.
    set (tl := pr_redirs rs ++ rest) in *. set (op := match k with RIn => LT | ROut => GT end).
    exists (mkRedir (length (f ++ 32 :: tl), length (32 :: tl)) (match k with RIn => O_RDONLY | ROut => Z.lor O_WRONLY O_CREATE end)
      (match k with RIn => 0 | ROut => 1 end) :: rs'). split.
    + cbn [parseredirs]. assert (peek [LT; GT] (op :: f ++ 32 :: tl) = Ok (true, op :: f ++ 32 :: tl)) as Hp.
      { apply peek_yes; [by destruct k|destruct k; set_solver]. }
      step Hp. step (gettoken_redir k f tl Hf). step (gettoken_word f tl Hf). cbn [fst snd]. rewrite Z.eqb_refl. cbn [negb].
      assert (parseredirs fu (skip_space tl) = parseredirs fu tl) as Hsk.
      { destruct fu; [done|]. cbn [parseredirs]. unfold mbind at 1 4, M_bind at 1 4. by rewrite !peek_run, skip_space_idem. }
      rewrite <-Hsk in Hr. step Hr. by destruct k.
    + constructor.
      * split; [|by destruct k]. apply (span_is_app [op]). apply span_word.
      * eapply list.Forall2_impl; [exact His|]. intros r' x' Hx. apply (redir_is_app (op :: f ++ [32]) tl) in Hx.
        by rewrite <-app_comm_cons, <-app_assoc in Hx.
Qed.

Lemma parseredirs_skip f s : parseredirs f (skip_space s) = parseredirs f s.
Proof. destruct f; [done|]. cbn [parseredirs]. unfold mbind at 1 4, M_bind at 1 4. by rewrite !peek_run, skip_space_idem. Qed.
Lemma exec_loop_skip f argc s : exec_loop f argc (skip_space s) = exec_loop f argc s.
Proof. destruct f; [done|]. cbn [exec_loop]. unfold mbind at 1 5, M_bind at 1 5. by rewrite !peek_run, skip_space_idem. Qed.

(** ** Simple commands *)

Lemma pr_words_cons w ws r : pr_words (w :: ws) ++ r = w ++ 32 :: (pr_words ws ++ r).
Proof. unfold pr_words. cbn. by rewrite <-!app_assoc. Qed.

Lemma exec_loop_run ws : ∀ argc rs rest, Forall word ws → (argc + length ws < MAXARGS)%nat →
  Forall (λ r, word r.2) rs → starts (follow 0) rest → (ws = [] → rs = []) →
  ∃ f0, ∀ f, (f0 ≤ f)%nat → ∃ l rs', exec_loop f argc (pr_words ws ++ pr_redirs rs ++ rest) = Ok ((l, rs'), skip_space rest) ∧
    Forall2 (span_is (pr_words ws ++ pr_redirs rs ++ rest)) l ws ∧
    Forall2 (redir_is (pr_words ws ++ pr_redirs rs ++ rest)) rs' rs.
Proof.
  induction ws as [|w ws IH]; intros argc rs rest Hws Hn Hrs Hrest Hnil.
  - rewrite (Hnil eq_refl). exists 1%nat. intros [|fu] Hf; [lia|]. exists [], []. split_and!; [|constructor..].
    cbn [exec_loop]. change (pr_words [] ++ pr_redirs [] ++ rest) with rest. unfold mbind at 1, M_bind at 1. rewrite peek_run.
    pose proof (skip_space_idem rest) as Hid. unfold starts in Hrest. destruct (skip_space rest) as [|c r] eqn:Es; [done|].
    rewrite bool_decide_eq_true_2; [done|]. revert Hrest. cbn [follow]. rewrite !elem_of_cons, !elem_of_nil. tauto.
  - apply Forall_cons_1 in Hws as [Hw Hws]. cbn [length] in Hn.
    assert (∃ f0, ∀ f, (f0 ≤ f)%nat → ∃ rs1 l rs2,
      parseredirs f (pr_words ws ++ pr_redirs rs ++ rest) = Ok (rs1, skip_space (match ws with [] => rest | _ => pr_words ws ++ pr_redirs rs ++ rest end)) ∧
      exec_loop f (S argc) (match ws with [] => rest | _ => pr_words ws ++ pr_redirs rs ++ rest end) = Ok ((l, rs2), skip_space rest) ∧
      Forall2 (span_is (pr_words ws ++ pr_redirs rs ++ rest)) l ws ∧
      Forall2 (redir_is (pr_words ws ++ pr_redirs rs ++ rest)) (rs1 ++ rs2) rs) as [f0 H0].
    { destruct ws as [|w2 ws].
      - destruct (parseredirs_run rs rest Hrs) as [f1 H1]; [by left|].
        destruct (IH (S argc) [] rest) as [f2 H2]; [done|lia|done..|]. exists (f1 + f2)%nat. intros f Hf.
        destruct (H1 f ltac:(lia)) as (rs1 & E1 & I1). destruct (H2 f ltac:(lia)) as (l & rs2 & E2 & Il & I2).
        exists rs1, l, rs2. split_and!; [exact E1|exact E2|by apply Forall2_nil_inv_r in Il as ->|].
        apply Forall2_nil_inv_r in I2 as ->. by rewrite app_nil_r.
      - destruct (IH (S argc) rs rest) as [f2 H2]; [done|cbn in *; lia|done..|].
        apply Forall_cons_1 in Hws as [Hw2 _].
        destruct (parseredirs_run [] (pr_words (w2 :: ws) ++ pr_redirs rs ++ rest) ltac:(constructor)) as [f1 H1].
        { right. rewrite pr_words_cons. eauto. }
        exists (f1 + f2)%nat. intros f Hf. destruct (H1 f ltac:(lia)) as (rs1 & E1 & I1).
        destruct (H2 f ltac:(lia)) as (l & rs2 & E2 & Il & I2). apply Forall2_nil_inv_r in I1 as ->.
        exists [], l, rs2. split_and!; done. }
    exists (S f0). intros [|fu] Hf; [lia|]. destruct (H0 fu ltac:(lia)) as (rs1 & l & rs2 & E1 & E2 & Il & I12).
    rewrite pr_words_cons. set (tl := pr_words ws ++ pr_redirs rs ++ rest) in *.
    exists ((length (w ++ 32 :: tl), length (32 :: tl)) :: l), (rs1 ++ rs2). split_and!.
    + cbn [exec_loop]. step (peek_no_word [PIPECH; RPAR; AMP; SEMI] w (32 :: tl) Hw
        ltac:(intros c; rewrite !elem_of_cons, elem_of_nil; intros [->|[->|[->|[->|[]]]]]; done)).
      step (gettoken_word w tl Hw). cbn [fst snd]. change (WORD =? 0) with false. rewrite Z.eqb_refl. cbn [negb].
      rewrite decide_False by lia. rewrite <-(parseredirs_skip fu tl) in E1. step E1.
      rewrite <-exec_loop_skip in E2. step E2. done.
    + constructor; [apply span_word|]. eapply list.Forall2_impl; [exact Il|]. intros sp x Hx.
      apply (span_is_app (w ++ [32])) in Hx. by rewrite <-app_assoc in Hx.
    + eapply list.Forall2_impl; [exact I12|]. intros sp x Hx. apply (redir_is_app (w ++ [32])) in Hx. by rewrite <-app_assoc in Hx.
Qed.

(** ** The four levels of the grammar *)

Definition backs (n : nat) (c : cmd) : cmd := Nat.iter n BACK c.
Lemma backs_S n c : backs (S n) c = backs n (BACK c).
Proof. induction n as [|n IH]; [done|]. cbn in *. by rewrite IH. Qed.

(** With enough fuel, each parser reads the text of its level: a simple command
    or block with its redirections, a pipeline, one with [&]s, a line. *)
Definition reads0 (x : scmd) : Prop := ∀ rs rest,
  Forall (λ r, word r.2) rs → starts (follow 0) rest →
  ∃ f0, ∀ f, (f0 ≤ f)%nat → ∃ c rs',
    parseexec f (pr 0 x ++ pr_redirs rs ++ rest) = Ok (wrap c rs', skip_space rest) ∧
    cmd_is (pr 0 x ++ pr_redirs rs ++ rest) c x ∧ Forall2 (redir_is (pr 0 x ++ pr_redirs rs ++ rest)) rs' rs.
Definition reads1 (x : scmd) : Prop := ∀ rest, starts (follow 1) rest →
  ∃ f0, ∀ f, (f0 ≤ f)%nat → ∃ c,
    parsepipe f (pr 1 x ++ rest) = Ok (c, skip_space rest) ∧ cmd_is (pr 1 x ++ rest) c x.
Definition reads2 (x : scmd) : Prop := ∀ n rest, starts (follow 2) rest →
  ∃ f0, ∀ f, (f0 ≤ f)%nat → ∃ c,
    (parsepipe f ≫= back_loop f) (pr 2 x ++ replicate n AMP ++ rest) = Ok (backs n c, skip_space rest) ∧
    cmd_is (pr 2 x ++ replicate n AMP ++ rest) c x.
Definition reads3 (x : scmd) : Prop := ∀ rest, starts (follow 3) rest →
  ∃ f0, ∀ f, (f0 ≤ f)%nat → ∃ c,
    parseline f (pr 3 x ++ rest) = Ok (c, skip_space rest) ∧ cmd_is (pr 3 x ++ rest) c x.

Lemma back_loop_skip f c s : back_loop f c (skip_space s) = back_loop f c s.
Proof. destruct f; [done|]. cbn [back_loop]. unfold mbind at 1 3, M_bind at 1 3. by rewrite !peek_run, skip_space_idem. Qed.

Lemma back_loop_run n : ∀ c rest f, starts (follow 2) rest → (n < f)%nat →
  back_loop f c (replicate n AMP ++ rest) = Ok (backs n c, skip_space rest).
Proof.
  induction n as [|n IH]; intros c rest [|f] Hr Hf; try lia; cbn [back_loop replicate app].
  - step (peek_no [AMP] _ _ Hr ltac:(intros d; cbn; rewrite !elem_of_cons, !elem_of_nil; unfold AMP, RPAR, SEMI; lia)). done.
  - step (peek_yes [AMP] AMP (replicate n AMP ++ rest) eq_refl ltac:(set_solver)).
    step (gettoken_op AMP (replicate n AMP ++ rest) ltac:(set_solver)).
    rewrite back_loop_skip, IH, backs_S by (done || lia). done.
Qed.

Lemma starts_amps n rest : starts (follow 2) rest → starts (follow 1) (replicate n AMP ++ rest).
Proof. destruct n; [apply starts_weaken; cbn; set_solver|]. intros _. by apply starts_cons; [|cbn; set_solver]. Qed.
Lemma skip_amps n rest : skip_space (replicate n AMP ++ rest) = match n with O => skip_space rest | _ => replicate n AMP ++ rest end.
Proof. by destruct n. Qed.

Lemma reads1_of0 x : pr 1 x = pr 0 x → reads0 x → reads1 x.
Proof.
  intros E H0 rest Hr. destruct (H0 [] rest ltac:(constructor)) as [f0 Hf0].
  { by apply (starts_weaken (follow 1)); [cbn; set_solver|]. }
  exists (S f0). intros [|f] Hf; [lia|]. destruct (Hf0 f ltac:(lia)) as (c & rs' & Hp & Hc & Hrs).
  apply Forall2_nil_inv_r in Hrs as ->. cbn [wrap foldl pr_redirs mjoin list_join fmap list_fmap app] in Hp, Hc.
  exists c. rewrite E. split; [|done]. cbn [parsepipe]. step Hp. unfold mbind at 1, M_bind at 1.
  rewrite (peek_no [PIPECH] (follow 1)).
  - by rewrite skip_space_idem.
  - unfold starts in *. by rewrite skip_space_idem.
  - intros d. cbn. rewrite !elem_of_cons, !elem_of_nil. unfold AMP, RPAR, SEMI, PIPECH. lia.
Qed.

Lemma reads2_of1 x : pr 2 x = pr 1 x → reads1 x → reads2 x.
Proof.
  intros E H1 n rest Hr. destruct (H1 (replicate n AMP ++ rest) (starts_amps n rest Hr)) as [f0 Hf0].
  exists (f0 + S n)%nat. intros f Hf. destruct (Hf0 f ltac:(lia)) as (c & Hp & Hc). exists c. rewrite E. split; [|done].
  step Hp. rewrite back_loop_skip. apply back_loop_run; [done|lia].
Qed.

Lemma line_of_pipe f x n rest c :
  starts (follow 3) rest → (parsepipe f ≫= back_loop f) (pr 2 x ++ rest) = Ok (backs n c, skip_space rest) →
  parseline (S f) (pr 2 x ++ rest) = Ok (backs n c, skip_space rest).
Proof.
  intros Hr Hp. cbn [parseline]. rewrite <-bind_assoc. step Hp. unfold mbind at 1, M_bind at 1.
  rewrite (peek_no [SEMI] (follow 3)).
  - by rewrite skip_space_idem.
  - unfold starts in *. by rewrite skip_space_idem.
  - intros d. cbn. rewrite !elem_of_cons, !elem_of_nil. unfold RPAR, SEMI. lia.
Qed.

Lemma reads3_of2 x : pr 3 x = pr 2 x → reads2 x → reads3 x.
Proof.
  intros E H2 rest Hr. destruct (H2 0%nat rest) as [f0 Hf0]; [by apply (starts_weaken (follow 3)); [cbn; set_solver|]|].
  exists (S f0). intros [|f] Hf; [lia|]. destruct (Hf0 f ltac:(lia)) as (c & Hp & Hc). exists c. rewrite E.
  split; [|done]. by apply (line_of_pipe f x 0).
Qed.

(** A block: the line between parentheses. *)
Lemma reads0_of3 x : pr 0 x = [LPAR] ++ pr 3 x ++ [RPAR] → reads3 x → reads0 x.
Proof.
  intros E H3 rs rest Hrs Hr. rewrite E.
  replace (([LPAR] ++ pr 3 x ++ [RPAR]) ++ pr_redirs rs ++ rest)
    with (LPAR :: pr 3 x ++ RPAR :: pr_redirs rs ++ rest) by (by rewrite <-!app_assoc).
  set (tl := pr_redirs rs ++ rest).
  destruct (H3 (RPAR :: tl)) as [f0 Hf0]; [by apply starts_cons; [|set_solver]|].
  destruct (parseredirs_run rs rest Hrs ltac:(by left)) as [f1 Hf1].
  exists (2 + f0 + f1)%nat. intros [|[|f]] Hf; [lia..|]. destruct (Hf0 f ltac:(lia)) as (c & Hp & Hc).
  destruct (Hf1 f ltac:(lia)) as (rs' & Hrp & Hri). exists c, rs'. split_and!.
  - cbn [parseexec]. step (peek_yes [LPAR] LPAR (pr 3 x ++ RPAR :: tl) eq_refl ltac:(set_solver)). cbn [parseblock].
    step (peek_yes [LPAR] LPAR (pr 3 x ++ RPAR :: tl) eq_refl ltac:(set_solver)). cbn [negb].
    step (gettoken_op LPAR (pr 3 x ++ RPAR :: tl) ltac:(set_solver)).
    destruct (parse_skip f (pr 3 x ++ RPAR :: tl)) as [Hsk _]. rewrite <-Hsk in Hp. step Hp.
    change (skip_space (RPAR :: tl)) with (RPAR :: tl).
    step (peek_yes [RPAR] RPAR tl eq_refl ltac:(set_solver)). cbn [negb].
    step (gettoken_op RPAR tl ltac:(set_solver)). rewrite <-parseredirs_skip in Hrp. by step Hrp.
  - by apply (cmd_is_app [LPAR]).
  - eapply list.Forall2_impl; [exact Hri|]. intros r y Hy.
    apply (redir_is_app (LPAR :: pr 3 x ++ [RPAR])) in Hy. by rewrite <-app_comm_cons, <-app_assoc in Hy.
Qed.

Lemma reads0_exec ws : printable (SExec ws) → reads0 (SExec ws).
Proof.
  intros [Hws Hn] rs rest Hrs Hr. cbn [pr].
  assert (∀ A (g : bool → M (list Z) A) s, s = pr_words ws ++ pr_redirs rs ++ rest →
    (peek [LPAR] ≫= g) s = g false (skip_space s)) as Hpk.
  { intros A g s ->. destruct ws as [|w ws].
    - change (pr_words [] ++ pr_redirs rs ++ rest) with (pr_redirs rs ++ rest). unfold mbind, M_bind. rewrite peek_run.
      rewrite skip_redirs. destruct rs as [|[k f] rs]; [|rewrite pr_redirs_cons; by destruct k].
      unfold starts in Hr. destruct (skip_space rest) as [|c r]; [done|]. rewrite bool_decide_eq_false_2; [done|].
      revert Hr. cbn. rewrite !elem_of_cons, !elem_of_nil. unfold LPAR, RPAR, SEMI, AMP, PIPECH. lia.
    - apply Forall_cons_1 in Hws as [Hw _]. rewrite pr_words_cons.
      step (peek_no_word [LPAR] w (32 :: (pr_words ws ++ pr_redirs rs ++ rest)) Hw
        ltac:(intros c; rewrite elem_of_cons, elem_of_nil; intros [->|[]]; done)).
      by destruct (word_head w (32 :: (pr_words ws ++ pr_redirs rs ++ rest)) Hw) as (_ & _ & _ & _ & ->). }
  destruct ws as [|w ws].
  - destruct (parseredirs_run rs rest Hrs ltac:(by left)) as [f1 H1].
    destruct (exec_loop_run [] 0 [] rest) as [f2 H2]; [done|cbn; lia|done..|].
    exists (S (f1 + f2)). intros [|f] Hf; [lia|]. destruct (H1 f ltac:(lia)) as (rs' & E1 & I1).
    destruct (H2 f ltac:(lia)) as (l & rs2 & E2 & Il & I2). apply Forall2_nil_inv_r in Il as ->. apply Forall2_nil_inv_r in I2 as ->.
    exists (EXEC []), rs'. split_and!; [|constructor|done]. cbn [parseexec]. rewrite (Hpk _ _ _ eq_refl).
    change (pr_words [] ++ pr_redirs rs ++ rest) with (pr_redirs rs ++ rest).
    rewrite <-parseredirs_skip in E1. step E1. rewrite <-exec_loop_skip in E2. step E2. cbn [fst snd]. by rewrite app_nil_r.
  - pose proof (Forall_cons_1 _ _ _ Hws) as [Hw _].
    destruct (parseredirs_run [] (pr_words (w :: ws) ++ pr_redirs rs ++ rest) ltac:(constructor)) as [f1 H1].
    { right. rewrite pr_words_cons. eauto. }
    destruct (exec_loop_run (w :: ws) 0 rs rest) as [f2 H2]; [done..|].
    exists (S (f1 + f2)). intros [|f] Hf; [lia|]. destruct (H1 f ltac:(lia)) as (rs1 & E1 & I1). apply Forall2_nil_inv_r in I1 as ->.
    destruct (H2 f ltac:(lia)) as (l & rs2 & E2 & Il & I2). exists (EXEC l), rs2. split_and!; [|done|done].
    cbn [parseexec]. rewrite (Hpk _ _ _ eq_refl). set (s := pr_words (w :: ws) ++ pr_redirs rs ++ rest) in *.
    change (pr_redirs [] ++ s) with s in E1. rewrite <-parseredirs_skip in E1. step E1. rewrite <-exec_loop_skip in E2.
    step E2. done.
Qed.

Lemma reads0_redir x k f : word f → reads0 x → reads0 (SRedir x k f).
Proof.
  intros Hf H0 rs rest Hrs Hr. cbn [pr].
  replace ((pr 0 x ++ pr_redir (k, f)) ++ pr_redirs rs ++ rest) with (pr 0 x ++ pr_redirs ((k, f) :: rs) ++ rest)
    by (unfold pr_redirs; cbn [fmap list_fmap mjoin list_join]; by rewrite <-!app_assoc).
  destruct (H0 ((k, f) :: rs) rest) as [f0 Hf0]; [by constructor|done|]. exists f0. intros fu Hfu.
  destruct (Hf0 fu Hfu) as (c & rs' & Hp & Hc & Hi). apply Forall2_cons_inv_r in Hi as (r & rs2 & Hr1 & Hr2 & ->).
  exists (REDIR c r), rs2. split_and!; [exact Hp|by split|done].
Qed.

Lemma reads1_pipe x y : reads0 x → reads1 y → reads1 (SPipe x y).
Proof.
  intros H0 H1 rest Hr. cbn [pr]. rewrite decide_False by lia.
  replace ((pr 0 x ++ [PIPECH] ++ pr 1 y) ++ rest) with (pr 0 x ++ PIPECH :: pr 1 y ++ rest) by (by rewrite <-!app_assoc).
  destruct (H0 [] (PIPECH :: pr 1 y ++ rest) ltac:(constructor)) as [f0 Hf0]; [by apply starts_cons; [|set_solver]|].
  destruct (H1 rest Hr) as [f1 Hf1]. exists (S (f0 + f1)). intros [|f] Hf; [lia|].
  destruct (Hf0 f ltac:(lia)) as (c & rs' & Hp & Hc & Hrs). apply Forall2_nil_inv_r in Hrs as ->.
  destruct (Hf1 f ltac:(lia)) as (c2 & Hp2 & Hc2). exists (PIPE c c2). split.
  - cbn [parsepipe]. cbn [wrap foldl pr_redirs mjoin list_join fmap list_fmap app] in Hp. step Hp.
    change (skip_space (PIPECH :: pr 1 y ++ rest)) with (PIPECH :: pr 1 y ++ rest).
    step (peek_yes [PIPECH] PIPECH (pr 1 y ++ rest) eq_refl ltac:(set_solver)).
    step (gettoken_op PIPECH (pr 1 y ++ rest) ltac:(set_solver)).
    destruct (parse_skip f (pr 1 y ++ rest)) as (_ & Hsk & _). rewrite <-Hsk in Hp2. by step Hp2.
  - split; [exact Hc|]. apply (cmd_is_app (pr 0 x ++ [PIPECH])) in Hc2. by rewrite <-app_assoc in Hc2.
Qed.

Lemma reads2_back x : reads2 x → reads2 (SBack x).
Proof.
  intros H2 n rest Hr. cbn [pr]. rewrite decide_False by lia. destruct (H2 (S n) rest Hr) as [f0 Hf0]. exists f0.
  intros f Hf. destruct (Hf0 f Hf) as (c & Hp & Hc). exists (BACK c).
  replace ((pr 2 x ++ [AMP]) ++ replicate n AMP ++ rest) with (pr 2 x ++ replicate (S n) AMP ++ rest) by (by rewrite <-!app_assoc).
  rewrite <-backs_S. done.
Qed.

Lemma reads3_list x y : reads2 x → reads3 y → reads3 (SList x y).
Proof.
  intros H2 H3 rest Hr. cbn [pr]. rewrite decide_False by lia.
  replace ((pr 2 x ++ [SEMI] ++ pr 3 y) ++ rest) with (pr 2 x ++ SEMI :: pr 3 y ++ rest) by (by rewrite <-!app_assoc).
  destruct (H2 0%nat (SEMI :: pr 3 y ++ rest)) as [f0 Hf0]; [by apply starts_cons; [|set_solver]|].
  destruct (H3 rest Hr) as [f1 Hf1]. exists (S (f0 + f1)). intros [|f] Hf; [lia|].
  destruct (Hf0 f ltac:(lia)) as (c & Hp & Hc). destruct (Hf1 f ltac:(lia)) as (c2 & Hp2 & Hc2).
  exists (LIST c c2). cbn [replicate app] in Hp, Hc. split.
  - cbn [parseline]. rewrite <-bind_assoc. step Hp. cbn [backs Nat.iter].
    change (skip_space (SEMI :: pr 3 y ++ rest)) with (SEMI :: pr 3 y ++ rest).
    step (peek_yes [SEMI] SEMI (pr 3 y ++ rest) eq_refl ltac:(set_solver)).
    step (gettoken_op SEMI (pr 3 y ++ rest) ltac:(set_solver)).
    destruct (parse_skip f (pr 3 y ++ rest)) as (Hsk & _). rewrite <-Hsk in Hp2. by step Hp2.
  - split; [exact Hc|]. apply (cmd_is_app (pr 2 x ++ [SEMI])) in Hc2. by rewrite <-app_assoc in Hc2.
Qed.

Lemma reads_all x : printable x → reads0 x ∧ reads1 x ∧ reads2 x ∧ reads3 x.
Proof.
  induction x as [ws|x IH k f|x IHx y IHy|x IHx y IHy|x IH]; cbn [printable]; intros Hx.
  - pose proof (reads0_exec ws Hx) as H0. pose proof (reads1_of0 (SExec ws) eq_refl H0) as H1.
    pose proof (reads2_of1 (SExec ws) eq_refl H1) as H2. eauto using reads3_of2.
  - destruct Hx as [Hx Hf]. destruct (IH Hx) as [H0 _]. pose proof (reads0_redir x k f Hf H0) as H0'.
    pose proof (reads1_of0 (SRedir x k f) eq_refl H0') as H1. pose proof (reads2_of1 (SRedir x k f) eq_refl H1) as H2. eauto using reads3_of2.
  - destruct Hx as [Hx Hy]. destruct (IHx Hx) as [H0 _]. destruct (IHy Hy) as (_ & Hy1 & _).
    pose proof (reads1_pipe x y H0 Hy1) as H1. pose proof (reads2_of1 (SPipe x y) eq_refl H1) as H2.
    pose proof (reads3_of2 (SPipe x y) eq_refl H2) as H3. split_and!; [|done..]. by apply reads0_of3.
  - destruct Hx as [Hx Hy]. destruct (IHx Hx) as (_ & _ & Hx2 & _). destruct (IHy Hy) as (_ & _ & _ & Hy3).
    pose proof (reads3_list x y Hx2 Hy3) as H3. assert (reads0 (SList x y)) as H0 by (by apply reads0_of3).
    pose proof (reads1_of0 (SList x y) eq_refl H0) as H1. pose proof (reads2_of1 (SList x y) eq_refl H1) as H2. done.
  - destruct (IH Hx) as (_ & _ & H2 & _). pose proof (reads2_back x H2) as H2'.
    pose proof (reads3_of2 (SBack x) eq_refl H2') as H3. assert (reads0 (SBack x)) as H0 by (by apply reads0_of3).
    pose proof (reads1_of0 (SBack x) eq_refl H0) as H1. done.
Qed.

(** ** The NULs *)

Fixpoint ends_of (c : cmd) : list nat :=
  match c with
  | EXEC l => l.*2
  | REDIR c r => (r_file r).2 :: ends_of c
  | PIPE c1 c2 | LIST c1 c2 => ends_of c1 ++ ends_of c2
  | BACK c => ends_of c
  end.

(** A line some of whose separators have become NULs. *)
Definition cut (s buf : list Z) : Prop :=
  length buf = S (length s) ∧
  ∀ i b, (s ++ [0]) !! i = Some b → buf !! i = Some b ∨ (buf !! i = Some 0 ∧ ¬ word_char b).
Definition nul_at (buf : list Z) (e : nat) : Prop := buf !! (length buf - 1 - e)%nat = Some 0.
Definition separator (s : list Z) (e : nat) : Prop :=
  (e ≤ length s)%nat ∧ ∀ b, (s ++ [0]) !! (length s - e)%nat = Some b → ¬ word_char b.

Lemma put_nul_cut s buf e : cut s buf → separator s e →
  cut s (put_nul e buf) ∧ nul_at (put_nul e buf) e ∧ ∀ e', nul_at buf e' → nul_at (put_nul e buf) e'.
Proof.
  intros [Hl Hc] [He Hs]. unfold put_nul, nul_at. rewrite !length_insert.
  assert (length buf - 1 - e = length s - e)%nat as E by lia. rewrite E. split_and!.
  - split; [by rewrite length_insert|]. intros i b Hb. destruct (decide (i = length s - e)%nat) as [->|Hi].
    + right. split; [|by apply Hs]. apply list_lookup_insert_eq. lia.
    + rewrite list_lookup_insert_ne by done. by apply Hc.
  - apply list_lookup_insert_eq. lia.
  - intros e' He'. destruct (decide (length buf - 1 - e' = length s - e)%nat) as [->|Hi].
    + apply list_lookup_insert_eq. lia.
    + by rewrite list_lookup_insert_ne.
Qed.

Lemma nulterminate_cut s c : ∀ buf, cut s buf → Forall (separator s) (ends_of c) →
  cut s (nulterminate c buf) ∧ (∀ e, e ∈ ends_of c ∨ nul_at buf e → nul_at (nulterminate c buf) e).
Proof.
  induction c as [l|c IH r|c1 IH1 c2 IH2|c1 IH1 c2 IH2|c IH]; intros buf Hb He; cbn [nulterminate ends_of] in *.
  - revert buf Hb. induction l as [|w l IHl]; intros buf Hb; cbn [foldl].
    { split; [done|]. intros e [He'|?]; [|done]. by apply elem_of_nil in He'. }
    cbn in He. apply Forall_cons_1 in He as [Hw He]. destruct (put_nul_cut s buf w.2 Hb Hw) as (H1 & H2 & H3).
    destruct (IHl He _ H1) as [H4 H5]. split; [done|]. intros e [[->|Hin]%elem_of_cons|Hn]; apply H5; auto.
  - apply Forall_cons_1 in He as [Hr He]. destruct (IH buf Hb He) as [H1 H2].
    destruct (put_nul_cut s _ _ H1 Hr) as (H3 & H4 & H5). split; [done|].
    intros e [[->|Hin]%elem_of_cons|Hn]; [done|apply H5, H2; auto..].
  - apply Forall_app in He as [He1 He2]. destruct (IH1 buf Hb He1) as [H1 H2]. destruct (IH2 _ H1 He2) as [H3 H4].
    split; [done|]. intros e [[Hin|Hin]%elem_of_app|Hn]; apply H4; auto.
  - apply Forall_app in He as [He1 He2]. destruct (IH1 buf Hb He1) as [H1 H2]. destruct (IH2 _ H1 He2) as [H3 H4].
    split; [done|]. intros e [[Hin|Hin]%elem_of_app|Hn]; apply H4; auto.
  - by apply IH.
Qed.

Lemma span_separator s sp w : span_is s sp w → separator s sp.2.
Proof.
  intros (p & r & -> & -> & Hr). split; [rewrite !length_app; cbn; lia|]. intros b Hb. cbn [snd] in Hb.
  rewrite (app_assoc p w) in Hb. rewrite !length_app in Hb.
  replace (length p + length w + length r - length r)%nat with (length (p ++ w)) in Hb by (rewrite length_app; lia).
  rewrite <-app_assoc, lookup_app_r, Nat.sub_diag in Hb by lia.
  destruct r as [|c r]; cbn in Hb; injection Hb as <-; [by intros [? _]|done].
Qed.

Lemma cmd_separators s c : ∀ x, cmd_is s c x → Forall (separator s) (ends_of c).
Proof.
  induction c as [l|c IH r|c1 IH1 c2 IH2|c1 IH1 c2 IH2|c IH]; intros [ws|x k f|x1 x2|x1 x2|x]; cbn; try done.
  - intros H. apply Forall_fmap. induction H; constructor; [by eapply span_separator|done].
  - intros [H1 [H2 _]]. constructor; [by eapply span_separator|eauto].
  - intros [H1 H2]. apply Forall_app. eauto.
  - intros [H1 H2]. apply Forall_app. eauto.
  - apply IH.
Qed.

Lemma cstr_lookup w : ∀ l, nonul w → (∀ i b, w !! i = Some b → l !! i = Some b) → l !! length w = Some 0 →
  cstr l = Some w.
Proof.
  induction w as [|b w IH]; intros [|c l] Hw Hl He; try done.
  - injection He as ->. done.
  - apply Forall_cons_1 in Hw as [Hb Hw]. pose proof (Hl 0%nat b eq_refl) as [= ->]. cbn.
    rewrite (proj2 (Z.eqb_neq b 0) Hb). rewrite (IH l); [done|done| |done]. intros i d Hd. by apply (Hl (S i)).
Qed.

(** The string a word pointer gives in the cut line. *)
Definition string_at (buf : list Z) (sp : span) : option (list Z) := cstr (drop (length buf - 1 - sp.1) buf).

Lemma span_string s buf sp w : word w → span_is s sp w → cut s buf → nul_at buf sp.2 → string_at buf sp = Some w.
Proof.
  intros [_ Hw] (p & r & -> & -> & _) [Hl Hc] Hn. unfold string_at, nul_at in *. cbn [fst snd] in *.
  rewrite !length_app in Hl. apply cstr_lookup.
  - eapply Forall_impl; [|exact Hw]. by intros c [? _].
  - intros i b Hi. pose proof (lookup_lt_Some _ _ _ Hi). rewrite lookup_drop, length_app.
    replace (length buf - 1 - (length w + length r) + i)%nat with (length p + i)%nat by lia.
    destruct (Hc (length p + i)%nat b) as [?|[_ Hnw]]; [|done|].
    + rewrite <-!app_assoc, lookup_app_r by lia. replace (length p + i - length p)%nat with i by lia.
      by rewrite lookup_app_l.
    + destruct Hnw. by apply (Forall_lookup_1 _ _ _ _ Hw Hi).
  - rewrite lookup_drop, length_app. replace (length buf - 1 - (length w + length r) + length w)%nat
      with (length buf - 1 - length r)%nat by lia. done.
Qed.

(** The command in memory holds the strings of [x]. *)
Fixpoint holds (buf : list Z) (c : cmd) (x : scmd) : Prop :=
  match c, x with
  | EXEC l, SExec ws => string_at buf <$> l = Some <$> ws
  | REDIR c r, SRedir x k f => holds buf c x ∧ string_at buf (r_file r) = Some f ∧
      (r_mode r, r_fd r) = match k with RIn => (O_RDONLY, 0) | ROut => (Z.lor O_WRONLY O_CREATE, 1) end
  | PIPE c1 c2, SPipe x1 x2 | LIST c1 c2, SList x1 x2 => holds buf c1 x1 ∧ holds buf c2 x2
  | BACK c, SBack x => holds buf c x
  | _, _ => False
  end.

Lemma cmd_holds s buf c : ∀ x, printable x → cmd_is s c x → cut s buf → (∀ e, e ∈ ends_of c → nul_at buf e) → holds buf c x.
Proof.
  induction c as [l|c IH r|c1 IH1 c2 IH2|c1 IH1 c2 IH2|c IH]; intros [ws|x k f|x1 x2|x1 x2|x] Hp Hx Hc Hn; cbn in *; try done.
  - destruct Hp as [Hp _]. induction Hx as [|sp w l ws Hsw Hx IHx]; [done|]. apply Forall_cons_1 in Hp as [Hw Hp].
    cbn. rewrite IHx by (done || (intros e He; apply Hn; by right)).
    rewrite (span_string s buf sp w Hw Hsw Hc); [done|]. apply Hn. by left.
  - destruct Hp as [Hp Hf], Hx as [Hx [Hr Hm]]. split_and!; [|by eapply span_string, Hn; [..|left]|done].
    apply IH; [done..|]. intros e He. apply Hn. by right.
  - destruct Hp, Hx. split; [apply IH1|apply IH2]; try done; intros e He; apply Hn, elem_of_app; auto.
  - destruct Hp, Hx. split; [apply IH1|apply IH2]; try done; intros e He; apply Hn, elem_of_app; auto.
  - by apply IH.
Qed.

(** C6: The parser reads back every command from its text: words, redirections,
    pipelines, [;] lists, [&] and the blocks that nest them, printed with only
    the parentheses the grammar's precedences need. The tree has the same
    shape, and every argument and file name, read as a C string from the line
    with its NULs, is the word that was printed. *)
Theorem parsecmd_reads_back x :
  printable x → ∃ c buf, parsecmd (pr 3 x) = Ok (c, buf) ∧ holds buf c x.
Proof.
  intros Hx. destruct (reads_all x Hx) as (_ & _ & _ & H3). destruct (H3 [] I) as [f0 Hf0].
  rewrite app_nil_r in Hf0. set (s := pr 3 x) in *.
  destruct (Hf0 (f0 + parse_fuel s)%nat ltac:(lia)) as (c & Hp & Hc).
  assert (parseline (parse_fuel s) s = Ok (c, [])) as Hp'.
  { destruct (later_parsers (parse_fuel s) (f0 + parse_fuel s) ltac:(lia)) as [Hl _].
    destruct (Hl s) as [Hn|Heq]; [|by rewrite <-Heq].
    pose proof (proj1 (total_parsers (parse_fuel s)) (length s) ltac:(done) s ltac:(done)) as He. by rewrite Hn in He. }
  unfold parsecmd. step Hp'. change ((peek [] ≫= λ _, mret c) []) with (Ok (c, @nil Z)). cbn iota beta.
  eexists _, _. split; [reflexivity|].
  destruct (nulterminate_cut s c (s ++ [0])) as [H1 H2].
  - split; [rewrite length_app; cbn; lia|]. auto.
  - by eapply cmd_separators.
  - apply (cmd_holds s _ c x Hx Hc H1). auto.
Qed.

(** [ls d | grep x > out & ; (echo a ; echo b) < in] *)
Definition demo_cmd : scmd :=
  SList (SBack (SPipe (SExec [zstr "ls"; zstr "d"]) (SRedir (SExec [zstr "grep"; zstr "x"]) ROut (zstr "out"))))
    (SRedir (SList (SExec [zstr "echo"; zstr "a"]) (SExec [zstr "echo"; zstr "b"])) RIn (zstr "in")).

Lemma parsecmd_reads_back_witness :
  pr 3 demo_cmd = zstr "ls d |grep x >out &;(echo a ;echo b )<in " ∧
  ∃ c buf, parsecmd (pr 3 demo_cmd) = Ok (c, buf) ∧ holds buf c demo_cmd.
Proof.
  split; [by vm_compute|]. apply (parsecmd_reads_back demo_cmd).
  assert (∀ w, w ≠ [] → forallb (λ c, negb (c =? 0) && negb (is_space c) && negb (is_symbol c)) w = true → word w) as Hw.
  { intros w Hne Hall. split; [done|]. apply list.Forall_forall. intros c Hc. rewrite forallb_forall in Hall.
    apply list_elem_of_In in Hc. apply Hall in Hc. rewrite !andb_true_iff, !negb_true_iff in Hc.
    destruct Hc as ((H1 & H2) & H3). apply Z.eqb_neq in H1. done. }
  cbn [printable demo_cmd]. repeat match goal with |- _ ∧ _ => split | |- Forall _ _ => constructor end;
    first [apply Hw; [done|by vm_compute] | by apply Nat.ltb_lt].
Defined.
