(* ===== verification/Sh.v ===== *)
(** Running a parsed command ([runcmd] of [xv6/user/sh.c]): which programs a
    command starts and what their descriptors are. Forks and pipes succeed
    (when they do not the shell panics); [opens] says which opens do. *)

From S2P Require Import Prelude CString ShParse.

(** What a descriptor names; a pipe is known by a number. *)
Inductive obj := Inherited (n : nat) | Opened (file : list Z) (mode : Z) | ReadEnd (n : nat) | WriteEnd (n : nat).
Definition table : Type := list (option obj).

Fixpoint lowest (t : table) (o : obj) : option (nat * table) :=
  match t with
  | [] => None
  | None :: t' => Some (0%nat, Some o :: t')
  | Some x :: t' => '(fd, t'') ← lowest t' o; Some (S fd, Some x :: t'')
  end.
Definition close (fd : nat) (t : table) : table := <[fd := None]> t.
Definition dup (fd : nat) (t : table) : option table :=
  match t !! fd with Some (Some o) => snd <$> lowest t o | _ => None end.

Section run.
Context (opens : list Z → Z → bool) (buf : list Z).

Definition text (sp : span) : list Z := default [] (cstr (drop (length buf - 1 - sp.1) buf)).

(** The programs started, with their arguments and descriptors, in program
    order, and the next pipe's number. [None]: a table ran full. *)
Fixpoint runcmd (c : cmd) (t : table) (n : nat) : option (list (list (list Z) * table) * nat) :=
  match c with
  | EXEC [] => Some ([], n)
  | EXEC argv => Some ([(text <$> argv, t)], n)
  | REDIR sub r =>
      let t := close (Z.to_nat (r_fd r)) t in
      if opens (text (r_file r)) (r_mode r) then
        '(_, t) ← lowest t (Opened (text (r_file r)) (r_mode r)); runcmd sub t n
      else Some ([], n)
  | LIST l r =>
      '(e1, n) ← runcmd l t n;
      '(e2, n) ← runcmd r t n;
      Some (e1 ++ e2, n)
  | PIPE l r =>
      '(p0, t) ← lowest t (ReadEnd n);
      '(p1, t) ← lowest t (WriteEnd n);
      (* the first child: close(1); dup(p[1]); close(p[0]); close(p[1]); *)
      t1 ← dup p1 (close 1 t);
      '(e1, n') ← runcmd l (close p1 (close p0 t1)) (S n);
      (* the second: close(0); dup(p[0]); close(p[0]); close(p[1]); *)
      t2 ← dup p0 (close 0 t);
      '(e2, n'') ← runcmd r (close p1 (close p0 t2)) n';
      Some (e1 ++ e2, n'')
  | BACK sub => runcmd sub t n
  end.

(** ** What the wiring should be *)

(** The programs of a command whose standard input, output and error are [i],
    [o] and [e]. *)
Fixpoint wires (c : cmd) (i o e : obj) (n : nat) : list (list (list Z) * (obj * obj * obj)) * nat :=
  match c with
  | EXEC [] => ([], n)
  | EXEC argv => ([(text <$> argv, (i, o, e))], n)
  | REDIR sub r =>
      let f := Opened (text (r_file r)) (r_mode r) in
      if opens (text (r_file r)) (r_mode r)
      then if r_fd r =? 0 then wires sub f o e n else wires sub i f e n
      else ([], n)
  | LIST l r =>
      let '(e1, n) := wires l i o e n in
      let '(e2, n) := wires r i o e n in (e1 ++ e2, n)
  | PIPE l r =>
      let '(e1, n') := wires l i (WriteEnd n) e (S n) in
      let '(e2, n'') := wires r (ReadEnd n) o e n' in (e1 ++ e2, n'')
  | BACK sub => wires sub i o e n
  end.

(** As the parser makes them: redirections of descriptors 0 and 1. *)
Fixpoint parsed (c : cmd) : Prop :=
  match c with
  | EXEC _ => True
  | REDIR sub r => (r_fd r = 0 ∨ r_fd r = 1) ∧ parsed sub
  | PIPE l r | LIST l r => parsed l ∧ parsed r
  | BACK sub => parsed sub
  end.

Definition three (i o e : obj) (k : nat) : table := Some i :: Some o :: Some e :: replicate k None.

(** C31: Every program a command starts has exactly three descriptors, wired as
    the command says: a pipeline's left side writes to the pipe its right side
    reads from, a redirection replaces standard input or output in what it
    encloses, everything else is inherited, and no end of a pipe is left open
    in any program - so a reader sees the end of its input. *)
Theorem runcmd_wires c i o e n k :
  parsed c → (2 ≤ k)%nat →
  runcmd c (three i o e k) n =
    let '(l, n') := wires c i o e n in
    Some ((λ x, (x.1, let '(i, o, e) := x.2 in three i o e k)) <$> l, n').
Proof.
  intros Hc Hk. destruct k as [|[|k]]; [lia..|]. clear Hk. revert i o e n.
  induction c as [argv|sub IH r|l IHl r IHr|l IHl r IHr|sub IH]; intros i o e n; cbn [runcmd wires parsed] in *.
  - by destruct argv.
  - destruct Hc as [Hfd Hc]. destruct (opens _ _); [|done].
    destruct Hfd as [-> | ->]; cbn; apply (IH Hc).
  - destruct Hc as [Hl Hr]. cbn. specialize (IHl Hl i (WriteEnd n) e (S n)). unfold three in IHl. cbn [replicate] in IHl.
    rewrite IHl. destruct (wires l i (WriteEnd n) e (S n)) as [e1 n']. cbn.
    specialize (IHr Hr (ReadEnd n) o e n'). unfold three in IHr. cbn [replicate] in IHr.
    rewrite IHr. destruct (wires r (ReadEnd n) o e n') as [e2 n'']. cbn. by rewrite fmap_app.
  - destruct Hc as [Hl Hr]. rewrite (IHl Hl). destruct (wires l i o e n) as [e1 n']. cbn [mbind option_bind].
    rewrite (IHr Hr). destruct (wires r i o e n') as [e2 n'']. cbn. by rewrite fmap_app.
  - by apply IH.
Qed.
End run.

(** [a < f | b] over the line that holds the words. *)
Definition demo_line : list Z := [97; 0; 102; 0; 98; 0].
Definition demo_pipe : cmd := PIPE (REDIR (EXEC [(5, 4)%nat]) (mkRedir (3, 2)%nat 0 0)) (EXEC [(1, 0)%nat]).
Lemma runcmd_wires_witness :
  runcmd (λ _ _, true) demo_line demo_pipe (three (Inherited 0) (Inherited 1) (Inherited 2) 13) 0 =
    Some ([([[97]], three (Opened [102] 0) (WriteEnd 0) (Inherited 2) 13);
           ([[98]], three (ReadEnd 0) (Inherited 1) (Inherited 2) 13)], 1%nat).
Proof.
  rewrite (runcmd_wires (λ _ _, true) demo_line demo_pipe); [by vm_compute|cbn; tauto|lia].
Defined.
