(* ===== verification/Proc.v ===== *)
(** Processes ([xv6/kernel/proc.c]): the table, creation and death, sleep and
    wake-up, the scheduler's pass. Each routine between its [acquire] and
    [release] of [ptable.lock] is one step; a routine that ends in [sched]
    leaves the process in the state it set. *)

From S2P Require Import Prelude CString.

(** ** Definitions *)

Definition NPROC : nat := 64.
Definition NOFILE : nat := 16.
Definition KSTACKSIZE : Z := 4096.

Inductive procstate := UNUSED | EMBRYO | SLEEPING | RUNNABLE | RUNNING | ZOMBIE.
#[export] Instance procstate_eq_dec : EqDecision procstate.
Proof. solve_decision. Defined.

Record trapframe := mkTf { tf_eax : Z; tf_eip : Z; tf_esp : Z; tf_rest : list Z }.
Record proc := mkProc {
  p_sz : Z; p_pgdir : Z; p_kstack : Z; p_state : procstate; p_pid : Z; p_parent : option nat;
  p_tf : trapframe; p_chan : Z; p_killed : Z; p_ofile : list (option nat); p_cwd : option nat; p_name : list Z
}.
Definition set_state (st : procstate) (p : proc) : proc :=
  mkProc (p_sz p) (p_pgdir p) (p_kstack p) st (p_pid p) (p_parent p) (p_tf p) (p_chan p) (p_killed p)
    (p_ofile p) (p_cwd p) (p_name p).
Definition set_pid (pid : Z) (p : proc) : proc :=
  mkProc (p_sz p) (p_pgdir p) (p_kstack p) (p_state p) pid (p_parent p) (p_tf p) (p_chan p) (p_killed p)
    (p_ofile p) (p_cwd p) (p_name p).
Definition set_kstack (k : Z) (p : proc) : proc :=
  mkProc (p_sz p) (p_pgdir p) k (p_state p) (p_pid p) (p_parent p) (p_tf p) (p_chan p) (p_killed p)
    (p_ofile p) (p_cwd p) (p_name p).
Definition set_parent (q : option nat) (p : proc) : proc :=
  mkProc (p_sz p) (p_pgdir p) (p_kstack p) (p_state p) (p_pid p) q (p_tf p) (p_chan p) (p_killed p)
    (p_ofile p) (p_cwd p) (p_name p).
Definition set_chan (c : Z) (p : proc) : proc :=
  mkProc (p_sz p) (p_pgdir p) (p_kstack p) (p_state p) (p_pid p) (p_parent p) (p_tf p) c (p_killed p)
    (p_ofile p) (p_cwd p) (p_name p).
Definition set_killed (k : Z) (p : proc) : proc :=
  mkProc (p_sz p) (p_pgdir p) (p_kstack p) (p_state p) (p_pid p) (p_parent p) (p_tf p) (p_chan p) k
    (p_ofile p) (p_cwd p) (p_name p).
Definition set_image (sz pgdir : Z) (tf : trapframe) (p : proc) : proc :=
  mkProc sz pgdir (p_kstack p) (p_state p) (p_pid p) (p_parent p) tf (p_chan p) (p_killed p)
    (p_ofile p) (p_cwd p) (p_name p).
Definition set_files (ofile : list (option nat)) (cwd : option nat) (p : proc) : proc :=
  mkProc (p_sz p) (p_pgdir p) (p_kstack p) (p_state p) (p_pid p) (p_parent p) (p_tf p) (p_chan p) (p_killed p)
    ofile cwd (p_name p).
Definition set_name (n : list Z) (p : proc) : proc :=
  mkProc (p_sz p) (p_pgdir p) (p_kstack p) (p_state p) (p_pid p) (p_parent p) (p_tf p) (p_chan p) (p_killed p)
    (p_ofile p) (p_cwd p) n.

(** [safestrcpy(p->name, from, sizeof(p->name))]; names are arrays of 16 bytes,
    on which the routine is defined. *)
Definition NAMESZ : nat := 16.
Definition copy_name (from : list Z) (p : proc) : proc := set_name (default (p_name p) (safestrcpy (p_name p) from NAMESZ)) p.

Record ptable := mkPtable { procs : list proc; initproc : option nat; nextpid : Z }.

(** The parts of the kernel the routines call: memory, files and inodes, each
    with a state [K] of its own. *)
Class Kernel (K : Type) := {
  kalloc : M K (option Z);
  kfree : Z → M K unit;
  setupkvm : M K (option Z);
  inituvm : Z → M K unit;
  copyuvm : Z → Z → M K (option Z);
  freevm : Z → M K unit;
  allocuvm : Z → Z → Z → M K Z;
  deallocuvm : Z → Z → Z → M K Z;
  filedup : nat → M K unit;
  fileclose : nat → M K unit;
  idup : nat → M K unit;
  iput : nat → M K unit;
  namei_root : M K (option nat)
}.

Section proc.
Context {K : Type} `{Kernel K}.
#[local] Abbreviation MP := (M (ptable * K)).

Definition lift {A} (m : M K A) : MP A := λ s,
  match m s.2 with
  | Ok (a, k) => Ok (a, (s.1, k))
  | Panic msg => Panic msg | Blocked => Blocked | Undef => Undef | NoFuel => NoFuel
  end.
Definition table : MP ptable := λ s, Ok (s.1, s).
Definition proc_at (i : nat) : MP proc := s ← table; need (procs s !! i).
Definition upd (i : nat) (f : proc → proc) : MP unit :=
  λ s, Ok (tt, (mkPtable (alter f i (procs s.1)) (initproc s.1) (nextpid s.1), s.2)).
Definition upd_all (f : proc → proc) : MP unit :=
  λ s, Ok (tt, (mkPtable (f <$> procs s.1) (initproc s.1) (nextpid s.1), s.2)).

Fixpoint find_unused (l : list proc) (k : nat) : option nat :=
  match l with
  | [] => None
  | p :: l' => if decide (p_state p = UNUSED) then Some k else find_unused l' (S k)
  end.

Definition allocproc : MP (option nat) :=
  s ← table;
  match find_unused (procs s) 0 with
  | None => mret None
  | Some i =>
      upd i (λ p, set_pid (nextpid s) (set_state EMBRYO p));;
      (λ s, Ok (tt, (mkPtable (procs s.1) (initproc s.1) (i32 (nextpid s.1 + 1)), s.2)));;
      k ← lift kalloc;
      match k with
      | None => upd i (set_kstack 0);; upd i (set_state UNUSED);; mret None
      | Some k => upd i (set_kstack k);; mret (Some i)   (* trap frame and context: in the stack *)
      end
  end.

Definition initcode : list Z := zstr "initcode".
Definition userinit (regs : list Z) : MP unit :=
  i ← allocproc;
  i ← need i;
  (λ s, Ok (tt, (mkPtable (procs s.1) (Some i) (nextpid s.1), s.2)));;
  d ← lift setupkvm;
  match d with
  | None => panic "userinit: out of memory?"
  | Some d =>
      lift (inituvm d);;
      upd i (set_image 4096 d (mkTf 0 0 4096 regs));;
      upd i (copy_name (initcode ++ [0]));;
      c ← lift namei_root;
      upd i (λ p, set_files (p_ofile p) c p);;
      upd i (set_state RUNNABLE)
  end.

(** [growproc] of process [me]; switching to the same page table again is left
    to the machine. *)
Definition growproc (me : nat) (n : Z) : MP Z :=
  p ← proc_at me;
  sz ← (if 0 <? n then lift (allocuvm (p_pgdir p) (p_sz p) (u32 (p_sz p + n)))
        else if n <? 0 then lift (deallocuvm (p_pgdir p) (p_sz p) (u32 (p_sz p + n)))
        else mret (p_sz p));
  if negb (n =? 0) && (sz =? 0) then mret (-1) else
  upd me (λ p, set_image sz (p_pgdir p) (p_tf p) p);; mret 0.

Fixpoint dup_files (l : list (option nat)) : MP unit :=
  match l with
  | [] => mret tt
  | Some f :: l' => lift (filedup f);; dup_files l'
  | None :: l' => dup_files l'
  end.
(** Slots of the parent's files over the slots the new process has: a slot the
    parent does not use is left as it was. *)
Definition merge_files (mine new : list (option nat)) : list (option nat) :=
  zip_with (λ a b, match a with Some f => Some f | None => b end) mine new.

Definition fork (me : nat) : MP Z :=
  np ← allocproc;
  match np with
  | None => mret (-1)
  | Some i =>
      p ← proc_at me;
      d ← lift (copyuvm (p_pgdir p) (p_sz p));
      match d with
      | None =>
          q ← proc_at i;
          lift (kfree (p_kstack q));;
          upd i (set_kstack 0);;
          upd i (set_state UNUSED);;
          mret (-1)
      | Some d =>
          let tf := mkTf 0 (tf_eip (p_tf p)) (tf_esp (p_tf p)) (tf_rest (p_tf p)) in
          upd i (λ q, set_parent (Some me) (set_image (p_sz p) d tf q));;
          dup_files (p_ofile p);;
          cwd ← need (p_cwd p);
          lift (idup cwd);;
          upd i (λ q, set_files (merge_files (p_ofile p) (p_ofile q)) (Some cwd) q);;
          q ← proc_at i;
          upd i (set_state RUNNABLE);;
          upd i (copy_name (p_name p));;
          mret (p_pid q)
      end
  end.

(** [wakeup1]: every process asleep on the channel becomes runnable. *)
Definition wake (chan : Z) (p : proc) : proc :=
  if decide (p_state p = SLEEPING ∧ p_chan p = chan) then set_state RUNNABLE p else p.
Definition wakeup1 (chan : Z) : MP unit := upd_all (wake chan).
Definition wakeup (chan : Z) : MP unit := wakeup1 chan.

(** The channel [wait] sleeps on is the process' own address. *)
Definition proc_chan (i : nat) : Z := Z.of_nat i + 1.

Fixpoint close_files (l : list (option nat)) : MP unit :=
  match l with
  | [] => mret tt
  | Some f :: l' => lift (fileclose f);; close_files l'
  | None :: l' => close_files l'
  end.
(** The loop that passes the children of [me] to init, in table order. *)
Fixpoint reparent (n : nat) (k me init : nat) : MP unit :=
  match n with
  | O => mret tt
  | S n' =>
      p ← proc_at k;
      when (bool_decide (p_parent p = Some me))
        (upd k (set_parent (Some init));;
         when (bool_decide (p_state p = ZOMBIE)) (wakeup1 (proc_chan init)));;
      reparent n' (S k) me init
  end.

(** [exit] up to [sched]: the process is a zombie and runs no more. *)
Definition exit (me : nat) : MP unit :=
  s ← table;
  if decide (initproc s = Some me) then panic "init exiting" else
  p ← proc_at me;
  close_files (p_ofile p);;
  upd me (λ p, set_files (replicate NOFILE None) (p_cwd p) p);;
  cwd ← need (p_cwd p);
  lift (iput cwd);;
  upd me (λ p, set_files (p_ofile p) None p);;
  p ← proc_at me;
  (match p_parent p with Some q => wakeup1 (proc_chan q) | None => wakeup1 0 end);;
  s ← table;
  init ← need (initproc s);
  reparent (length (procs s)) 0 me init;;
  upd me (set_state ZOMBIE).

(** One scan of [wait]: a zombie child with its index, or whether there are
    children at all. *)
Fixpoint wait_scan (l : list proc) (k me : nat) (havekids : bool) : nat + bool :=
  match l with
  | [] => inr havekids
  | p :: l' =>
      if decide (p_parent p = Some me)
      then if decide (p_state p = ZOMBIE) then inl k else wait_scan l' (S k) me true
      else wait_scan l' (S k) me havekids
  end.
(** [wait] until it returns or goes to sleep ([None]); a process woken up scans
    again. *)
Definition wait (me : nat) : MP (option Z) :=
  s ← table;
  p ← proc_at me;
  match wait_scan (procs s) 0 me false with
  | inl i =>
      q ← proc_at i;
      lift (kfree (p_kstack q));;
      upd i (set_kstack 0);;
      lift (freevm (p_pgdir q));;
      upd i (λ q, set_killed 0 (set_name (<[0%nat := 0]> (p_name q)) (set_parent None (set_pid 0 (set_state UNUSED q)))));;
      mret (Some (p_pid q))
  | inr havekids =>
      if negb havekids || ctrue (p_killed p) then mret (Some (-1)) else
      upd me (λ p, set_state SLEEPING (set_chan (proc_chan me) p));;
      mret None
  end.

Fixpoint find_pid (l : list proc) (k : nat) (pid : Z) : option nat :=
  match l with
  | [] => None
  | p :: l' => if p_pid p =? pid then Some k else find_pid l' (S k) pid
  end.
Definition kill (pid : Z) : MP Z :=
  s ← table;
  match find_pid (procs s) 0 pid with
  | None => mret (-1)
  | Some i =>
      upd i (λ p, let p := set_killed 1 p in if decide (p_state p = SLEEPING) then set_state RUNNABLE p else p);;
      mret 0
  end.

Definition yield (me : nat) : MP unit := upd me (set_state RUNNABLE).
(** [sleep] up to [sched], and what it does when it runs again. *)
Definition sleep (me : nat) (chan : Z) : MP unit := upd me (λ p, set_state SLEEPING (set_chan chan p)).
Definition sleep_resume (me : nat) : MP unit := upd me (set_chan 0).
End proc.

(** [sched]'s checks, on what this processor holds: the lock, its depth of
    [pushcli], the state of its process, and the interrupt flag. *)
Definition sched (holding : bool) (ncli : Z) (state : procstate) (if_flag : bool) : option string :=
  if negb holding then Some "sched ptable.lock" else
  if negb (ncli =? 1) then Some "sched locks" else
  if decide (state = RUNNING) then Some "sched running" else
  if if_flag then Some "sched interruptible" else None.

(** One pass of [scheduler] over the table from slot [k]: each runnable process
    is made running and switched to; [run] is what the table is when it
    switches back. The pass' trace is the slots it switched to. *)
Fixpoint scheduler_pass (run : nat → list proc → list proc) (n k : nat) (l : list proc) : list nat * list proc :=
  match n with
  | O => ([], l)
  | S n' =>
      match l !! k with
      | Some p =>
          if decide (p_state p = RUNNABLE) then
            let '(tr, l') := scheduler_pass run n' (S k) (run k (<[k := set_state RUNNING p]> l)) in (k :: tr, l')
          else scheduler_pass run n' (S k) l
      | None => scheduler_pass run n' (S k) l
      end
  end.
Definition scheduler (run : nat → list proc → list proc) (l : list proc) : list nat * list proc :=
  scheduler_pass run NPROC 0 l.
