(* ===== verification/ProcProofs.v ===== *)
(** The family of processes under every sequence of the calls of [Proc.v]:
    process identifiers name one process each, and every process but init has
    a living parent, which can reap it once it is a zombie. *)

From S2P Require Import Prelude CString Proc.

(** ** Calls in sequence *)

(** What a processor does between two switches: a call of the process it runs,
    an interrupt that wakes sleepers, or the scheduler's choice. *)
Inductive op :=
  | Fork (me : nat) | Exit (me : nat) | Wait (me : nat) | Kill (me : nat) (pid : Z)
  | Yield (me : nat) | Sleep (me : nat) (chan : Z) | Resume (me : nat) | Grow (me : nat) (n : Z)
  | Wakeup (chan : Z) | Run (i : nat).

Inductive phase := Free | Embryo | Alive | Dead.
Definition phase_of (st : procstate) : phase :=
  match st with UNUSED => Free | EMBRYO => Embryo | ZOMBIE => Dead | _ => Alive end.

Section family.
Context {K : Type} `{Kernel K}.
#[local] Abbreviation MP := (M (ptable * K)).

Definition as_proc {A} (me : nat) (st : procstate) (m : MP A) : MP unit :=
  p ← proc_at me; if decide (p_state p = st) then m;; mret tt else undef.
Definition do_op (o : op) : MP unit :=
  match o with
  | Fork me => as_proc me RUNNING (fork me)
  | Exit me => as_proc me RUNNING (exit me)
  | Wait me => as_proc me RUNNING (wait me)
  | Kill me pid => as_proc me RUNNING (kill pid)
  | Yield me => as_proc me RUNNING (yield me)
  | Sleep me chan => as_proc me RUNNING (sleep me chan)
  | Resume me => as_proc me RUNNING (sleep_resume me)
  | Grow me n => as_proc me RUNNING (growproc me n)
  | Wakeup chan => wakeup chan
  | Run i => as_proc i RUNNABLE (upd i (set_state RUNNING))
  end.
Fixpoint do_ops (os : list op) : MP unit :=
  match os with [] => mret tt | o :: os' => do_op o;; do_ops os' end.

(** ** What a call does to the table *)

(** The invariant's view of a process, and of the table. *)
Record pview := mkView { v_phase : phase; v_pid : Z; v_parent : option nat }.
Definition view (p : proc) : pview := mkView (phase_of (p_state p)) (p_pid p) (p_parent p).
Definition views (t : ptable) : list pview := view <$> procs t.

(** [m] leaves the views, init and the next identifier as they are. *)
Definition calm {A} (m : MP A) : Prop :=
  ∀ s a s', m s = Ok (a, s') → views s'.1 = views s.1 ∧ initproc s'.1 = initproc s.1 ∧ nextpid s'.1 = nextpid s.1.

Lemma calm_bind {A B} (m : MP A) (f : A → MP B) : calm m → (∀ a, calm (f a)) → calm (m ≫= f).
Proof.
  intros Hm Hf s b s' H'. minv H'. destruct (Hm _ _ _ E) as (E1 & E2 & E3), (Hf _ _ _ _ H') as (F1 & F2 & F3).
  split_and!; congruence.
Qed.
Lemma calm_ret {A} (a : A) : calm (mret a).
Proof. by intros s b s' [= <- <-]. Qed.
Lemma calm_lift {A} (m : M K A) : calm (lift m).
Proof. intros s a s' E. unfold lift in E. destruct (m s.2) as [[b k]| | | |]; try done. by injection E as <- <-. Qed.
Lemma calm_table : calm table.
Proof. by intros s a s' [= <- <-]. Qed.
Lemma calm_need {A} (o : option A) : calm (need o).
Proof. destruct o; [apply calm_ret|by intros s a s' ?]. Qed.
Lemma calm_panic {A} msg : calm (panic msg : MP A).
Proof. by intros s a s' ?. Qed.
Lemma calm_proc_at i : calm (proc_at i).
Proof. apply calm_bind; [apply calm_table|]. intros s. apply calm_need. Qed.

Lemma fmap_alter_view (f : proc → proc) (g : pview → pview) (l : list proc) i :
  (∀ p, l !! i = Some p → view (f p) = g (view p)) → view <$> alter f i l = alter g i (view <$> l).
Proof.
  intros E. apply list_eq. intros j. rewrite list_lookup_fmap. destruct (decide (j = i)) as [->|Hj].
  - rewrite !list_lookup_alter_eq, list_lookup_fmap. destruct (l !! i) as [p|] eqn:Ep; [|done].
    cbn. f_equal. by apply E.
  - by rewrite !list_lookup_alter_ne, list_lookup_fmap by done.
Qed.

(** One slot changed, as its view changes. *)
Lemma upd_views i f g (s s' : ptable * K) a :
  (∀ p, procs s.1 !! i = Some p → view (f p) = g (view p)) → upd i f s = Ok (a, s') →
  views s'.1 = alter g i (views s.1) ∧ initproc s'.1 = initproc s.1 ∧ nextpid s'.1 = nextpid s.1.
Proof. intros E [= _ <-]. cbn. split; [|done]. unfold views. cbn. by apply fmap_alter_view. Qed.

Lemma alter_id {A} (l : list A) i : alter (λ x, x) i l = l.
Proof.
  apply list_eq. intros j. destruct (decide (j = i)) as [->|Hj].
  - rewrite list_lookup_alter_eq. by destruct (l !! i).
  - by rewrite list_lookup_alter_ne by done.
Qed.
Lemma calm_upd i f : (∀ p, view (f p) = view p) → calm (upd i f).
Proof. intros E s a s' Hr. rewrite <-(alter_id (views s.1) i). by apply (upd_views i f (λ v, v) s s' a). Qed.
Lemma calm_upd_all f : (∀ p, view (f p) = view p) → calm (upd_all f).
Proof.
  intros E s a s' [= _ <-]. cbn. split; [|done]. unfold views. cbn. rewrite <-list_fmap_compose.
  apply list_fmap_ext. intros k p _. apply E.
Qed.
Lemma view_wake chan p : view (wake chan p) = view p.
Proof. unfold wake. case_decide as Hd; [|done]. destruct Hd as [Hd _]. unfold view. by rewrite Hd. Qed.
Lemma calm_wakeup chan : calm (wakeup1 chan).
Proof. apply calm_upd_all, view_wake. Qed.

Create HintDb calm.
#[local] Hint Resolve calm_ret calm_lift calm_table calm_need calm_panic calm_proc_at calm_wakeup : calm.
(** [calms] walks through a routine that leaves the views alone. *)
Ltac calms :=
  repeat first
    [ match goal with
      | |- ∀ _, _ => intro
      | |- calm (_ ≫= _) => apply calm_bind
      | |- calm (when ?b _) => unfold when
      | |- calm (if ?b then _ else _) => destruct b
      | |- calm (match ?x with _ => _ end) => destruct x
      | |- calm (upd _ _) => apply calm_upd; done
      end | solve [eauto with calm] ].

Lemma calm_dup_files l : calm (dup_files l).
Proof. induction l as [|[f|] l IH]; cbn; calms. Qed.
Lemma calm_close_files l : calm (close_files l).
Proof. induction l as [|[f|] l IH]; cbn; calms. Qed.
Lemma calm_growproc me n : calm (growproc me n).
Proof. unfold growproc. calms. Qed.
Lemma calm_kill pid : calm (kill pid).
Proof.
  unfold kill. calms. apply calm_upd. intros p. cbn. case_decide as Hd; [|done]. unfold view. by rewrite Hd.
Qed.
(** A living process stays one. *)
Lemma calm_upd_running i f (s s' : ptable * K) a st :
  (∀ p, phase_of (p_state p) = Alive → view (f p) = view p) → phase_of st = Alive →
  (∀ p, procs s.1 !! i = Some p → p_state p = st) → upd i f s = Ok (a, s') →
  views s'.1 = views s.1 ∧ initproc s'.1 = initproc s.1 ∧ nextpid s'.1 = nextpid s.1.
Proof.
  intros E Ha Hst Hr. rewrite <-(alter_id (views s.1) i). apply (upd_views i f (λ v, v) s s' a); [|done].
  intros p Hp. apply E. by rewrite (Hst p Hp).
Qed.

(** ** The invariant *)

Definition parent_alive (vs : list pview) (v : pview) : Prop :=
  ∃ q w, v_parent v = Some q ∧ vs !! q = Some w ∧ v_phase w = Alive.

Record view_ok (vs : list pview) (init : nat) (next : Z) (i : nat) (v : pview) : Prop := {
  vo_free : v_phase v = Free → v_parent v = None;
  vo_embryo : v_phase v ≠ Embryo;
  vo_pid : v_phase v ≠ Free → 1 ≤ v_pid v < next;
  vo_parent : v_phase v ≠ Free → i ≠ init → parent_alive vs v
}.
Record family_at (init : nat) (next : Z) (vs : list pview) : Prop := {
  fa_ok : ∀ i v, vs !! i = Some v → view_ok vs init next i v;
  fa_uniq : ∀ i j v w, vs !! i = Some v → vs !! j = Some w → v_phase v ≠ Free →
    v_phase w ≠ Free → v_pid v = v_pid w → i = j;
  fa_init : ∃ v, vs !! init = Some v ∧ v_phase v = Alive;
  fa_next : 1 ≤ next
}.
Definition family (t : ptable) : Prop := ∃ i, initproc t = Some i ∧ family_at i (nextpid t) (views t).

(** A new child of a living process in a free slot. *)
Lemma family_born init next vs i me v w :
  family_at init next vs → vs !! i = Some v → v_phase v = Free → vs !! me = Some w → v_phase w = Alive →
  family_at init (next + 1) (<[i := mkView Alive next (Some me)]> vs).
Proof.
  intros [Hok Hu (u & Hi & Hia) Hn] Hv Hvf Hw Hwa.
  pose proof (lookup_lt_Some _ _ _ Hv) as Hlt.
  assert (∀ x, parent_alive vs x → parent_alive (<[i := mkView Alive next (Some me)]> vs) x) as Hpa.
  { intros x (q & y & Hq & Hy & Ha). exists q, y. split_and!; try done.
    rewrite list_lookup_insert_ne; [done|]. intros ->. congruence. }
  split.
  - intros j x. destruct (decide (j = i)) as [->|Hj].
    + rewrite list_lookup_insert_eq by done. intros [= <-]. split; cbn; try done; [lia|].
      intros _ _. exists me, w. split_and!; try done. rewrite list_lookup_insert_ne; [done|]. intros ->. congruence.
    + rewrite list_lookup_insert_ne by done. intros Hx. destruct (Hok j x Hx) as [Hf He Hd Ha].
      split; [done..| |]; intros; [specialize (Hd ltac:(done)); lia|]. apply Hpa. by apply Ha.
  - assert (∀ j x, j ≠ i → vs !! j = Some x → v_phase x ≠ Free → v_pid x ≠ next) as Hfresh.
    { intros j x _ Hx Hxf. pose proof (vo_pid _ _ _ _ _ (Hok j x Hx) Hxf). lia. }
    intros j k x y. destruct (decide (j = i)) as [->|Hj], (decide (k = i)) as [->|Hk];
      rewrite ?list_lookup_insert_eq, ?list_lookup_insert_ne by done; try done.
    + intros [= <-] Hy _ Hyf E. cbn in E. by destruct (Hfresh k y Hk Hy Hyf).
    + intros Hx [= <-] Hxf _ E. cbn in E. by destruct (Hfresh j x Hj Hx Hxf).
    + apply Hu.
  - exists u. split; [|done]. rewrite list_lookup_insert_ne; [done|]. intros ->. congruence.
  - lia.
Qed.

(** A slot that is given back. *)
Lemma family_cleared init next next' vs i v pid :
  family_at init next vs → vs !! i = Some v → v_phase v ≠ Alive → next ≤ next' →
  family_at init next' (<[i := mkView Free pid None]> vs).
Proof.
  intros [Hok Hu (u & Hi & Hia) Hn] Hv Hvf Hle.
  pose proof (lookup_lt_Some _ _ _ Hv) as Hlt.
  assert (∀ j x, <[i := mkView Free pid None]> vs !! j = Some x → v_phase x ≠ Free → vs !! j = Some x) as Hold.
  { intros j x. destruct (decide (j = i)) as [->|Hj].
    - rewrite list_lookup_insert_eq by done. by intros [= <-] Hx.
    - by rewrite list_lookup_insert_ne by done. }
  split.
  - intros j x Hx. destruct (decide (j = i)) as [->|Hj].
    + rewrite list_lookup_insert_eq in Hx by done. injection Hx as <-. by split; cbn.
    + rewrite list_lookup_insert_ne in Hx by done. destruct (Hok j x Hx) as [Hf He Hd Ha].
      split; [done..| |]; intros; [specialize (Hd ltac:(done)); lia|].
      destruct Ha as (q & y & Hq & Hy & Hya); [done..|]. exists q, y. split_and!; try done.
      rewrite list_lookup_insert_ne; [done|]. intros ->. congruence.
  - intros j k x y Hx Hy Hxf Hyf. apply Hu; auto.
  - exists u. split; [|done]. rewrite list_lookup_insert_ne; [done|]. intros ->. congruence.
  - lia.
Qed.

(** Children handed over: [v] may lose parent [me] for [init]. *)
Definition adopted (me init : nat) (v v' : pview) : Prop :=
  v_phase v' = v_phase v ∧ v_pid v' = v_pid v ∧
  (v_parent v' = v_parent v ∨ v_parent v = Some me ∧ v_parent v' = Some init).

Lemma adopted_lookup me init vs vs' i v' :
  Forall2 (adopted me init) vs vs' → vs' !! i = Some v' → ∃ v, vs !! i = Some v ∧ adopted me init v v'.
Proof. intros Hf Hv. destruct (Forall2_lookup_r _ _ _ _ _ Hf Hv) as (v & ? & ?). eauto. Qed.

(** The view of a table in which process [me] has just died. *)
Definition die (me : nat) (vs : list pview) : list pview := alter (λ v, mkView Dead (v_pid v) (v_parent v)) me vs.

(** Where a view of the new table comes from. *)
Lemma die_back init vs vs' me j x :
  Forall2 (adopted me init) vs vs' → (∀ i v, vs' !! i = Some v → v_parent v ≠ Some me) → die me vs' !! j = Some x →
  ∃ y, vs !! j = Some y ∧ v_pid x = v_pid y ∧ (v_phase x = v_phase y ∨ j = me ∧ v_phase x = Dead) ∧
    (v_parent x = v_parent y ∨ v_parent y = Some me ∧ v_parent x = Some init) ∧ v_parent x ≠ Some me.
Proof.
  intros Hf Hnone. unfold die. destruct (decide (j = me)) as [->|Hj].
  - rewrite list_lookup_alter_eq. destruct (vs' !! me) as [z|] eqn:Ez; [|done]. intros [= <-].
    destruct (adopted_lookup _ _ _ _ _ _ Hf Ez) as (y & Hy & Hp & Hd & Ha). exists y. cbn.
    split_and!; try done; [by right|by apply (Hnone me)].
  - rewrite list_lookup_alter_ne by done. intros Hx.
    destruct (adopted_lookup _ _ _ _ _ _ Hf Hx) as (y & Hy & Hp & Hd & Ha). exists y.
    split_and!; try done; [by left|by apply (Hnone j)].
Qed.
(** Everybody else lives on. *)
Lemma die_alive init vs vs' me q y :
  Forall2 (adopted me init) vs vs' → q ≠ me → vs !! q = Some y → v_phase y = Alive →
  ∃ x, die me vs' !! q = Some x ∧ v_phase x = Alive.
Proof.
  intros Hf Hq Hy Ha. destruct (Forall2_lookup_l _ _ _ _ _ Hf Hy) as (x & Hx & Hp & _). exists x.
  unfold die. rewrite list_lookup_alter_ne by done. split; [done|congruence].
Qed.

(** A process dies after its children have been handed to init. *)
Lemma family_died init next vs vs' me w :
  family_at init next vs → me ≠ init → vs !! me = Some w → v_phase w = Alive →
  Forall2 (adopted me init) vs vs' → (∀ i v, vs' !! i = Some v → v_parent v ≠ Some me) →
  family_at init next (die me vs').
Proof.
  intros [Hok Hu (u & Hi & Hia) Hn] Hne Hw Hwa Hf Hnone. split.
  - intros j x Hx. destruct (die_back init vs vs' me j x) as (y & Hy & Hd & Hp & Hpa & Hnm); [done..|].
    destruct (Hok j y Hy) as [F1 F2 F3 F4].
    assert (v_phase x ≠ Free → v_phase y ≠ Free) as Hnf by (destruct Hp as [?|[-> ?]]; congruence).
    split.
    + intros Hx0. assert (v_phase y = Free) as Hy0 by (destruct Hp as [?|[-> ?]]; congruence).
      specialize (F1 Hy0). destruct Hpa as [E|[E _]]; congruence.
    + destruct Hp as [->|[_ ->]]; [done|congruence].
    + intros Hx0. rewrite Hd. auto.
    + intros Hx0 Hj. destruct (F4 (Hnf Hx0) Hj) as (q & z & Hq & Hz & Hza). destruct Hpa as [E|[_ E]].
      * destruct (die_alive init vs vs' me q z) as (z' & Hz' & Ha'); [done|congruence|done..|].
        exists q, z'. split_and!; congruence.
      * destruct (die_alive init vs vs' me init u) as (z' & Hz' & Ha'); [done..|]. exists init, z'. by split_and!.
  - intros j k x y Hx Hy Hxf Hyf E.
    destruct (die_back init vs vs' me j x) as (x' & Hx' & Ed & Hp & _); [done..|].
    destruct (die_back init vs vs' me k y) as (y' & Hy' & Ed' & Hp' & _); [done..|].
    apply (Hu j k x' y'); try done; [| |congruence].
    + destruct Hp as [?|[-> ?]]; congruence.
    + destruct Hp' as [?|[-> ?]]; congruence.
  - by apply (die_alive init vs vs' me init u).
  - done.
Qed.

(** ** The calls *)

(** A call changes the table's views to [vs] and its next identifier to [n]. *)
Definition turns (s s' : ptable * K) (vs : list pview) (n : Z) : Prop :=
  views s'.1 = vs ∧ nextpid s'.1 = n ∧ initproc s'.1 = initproc s.1.

Lemma turns_calm {A} (m : MP A) s0 s a s' vs n : calm m → m s = Ok (a, s') → turns s0 s vs n → turns s0 s' vs n.
Proof. intros Hm H' (E1 & E2 & E3). destruct (Hm _ _ _ H') as (F1 & F2 & F3). split_and!; congruence. Qed.
Lemma turns_upd s0 s i f g a s' vs n :
  upd i f s = Ok (a, s') → turns s0 s vs n → (∀ p, view (f p) = g (view p)) → turns s0 s' (alter g i vs) n.
Proof.
  intros H' (E1 & E2 & E3) Hg. destruct (upd_views i f g s s' a) as (F1 & F2 & F3); [auto|done|].
  split_and!; congruence.
Qed.
Lemma turns_refl s : turns s s (views s.1) (nextpid s.1).
Proof. done. Qed.

Lemma find_unused_spec l k i : find_unused l k = Some i → ∃ p, l !! (i - k)%nat = Some p ∧ p_state p = UNUSED ∧ (k ≤ i)%nat.
Proof.
  revert k. induction l as [|p l IH]; intros k H'; cbn in H'; [done|]. case_decide.
  - injection H' as <-. exists p. by rewrite Nat.sub_diag.
  - destruct (IH _ H') as (q & Hq & Hs & Hle). exists q. replace (i - k)%nat with (S (i - S k)) by lia. split_and!; [done..|lia].
Qed.

(** [allocproc]: a free slot becomes an embryo with a new identifier, or one
    stays free when there is no memory for its stack. *)
Lemma allocproc_turns s r s' :
  allocproc s = Ok (r, s') →
  (r = None ∧ turns s s' (views s.1) (nextpid s.1)) ∨
  ∃ i v, find_unused (procs s.1) 0 = Some i ∧ views s.1 !! i = Some v ∧ v_phase v = Free ∧
    turns s s' (<[i := mkView (if r is Some _ then Embryo else Free) (nextpid s.1) (v_parent v)]> (views s.1)) (i32 (nextpid s.1 + 1)) ∧
    match r with Some i' => i' = i | None => True end.
Proof.
  unfold allocproc. intros H'. minv H'. injection E as <- <-.
  destruct (find_unused (procs s.1) 0) as [i|] eqn:Ei; [right|injection H' as <- <-; by left].
  destruct (find_unused_spec _ _ _ Ei) as (p & Hp & Hst & _). rewrite Nat.sub_0_r in Hp. exists i, (view p). split; [done|].
  assert (views s.1 !! i = Some (view p)) as Hv by (unfold views; by rewrite list_lookup_fmap, Hp).
  split; [done|]. split; [cbn; by rewrite Hst|].
  minv H'. pose proof (turns_upd s s i _ (λ v, mkView Embryo (nextpid s.1) (v_parent v)) _ _ _ _ E (turns_refl s) (λ _, eq_refl)) as T.
  minv H'. injection E0 as _ <-. minv H'.
  assert (turns s s1 (alter (λ v, mkView Embryo (nextpid s.1) (v_parent v)) i (views s.1)) (i32 (nextpid s.1 + 1))) as T2.
  { eapply turns_calm; [apply calm_lift|done|]. destruct T as (T1 & T2 & T3). split_and!; [done|cbn|done].
    by rewrite <-T2. }
  rewrite (list_alter_insert _ _ _ (view p)) in T2 by done. destruct r2 as [k|].
  - minv H'. injection H' as <- <-. split; [|done]. eapply turns_calm; [|done..]. by apply calm_upd.
  - minv H'. minv H'. injection H' as <- <-. split; [|done]. assert (turns s s2 (<[i:=mkView Embryo (nextpid s.1) (v_parent (view p))]> (views s.1)) (i32 (nextpid s.1 + 1))) as T3.
    { eapply turns_calm; [|done..]. by apply calm_upd. }
    pose proof (turns_upd _ _ i _ (λ v, mkView Free (v_pid v) (v_parent v)) _ _ _ _ E2 T3 (λ _, eq_refl)) as T4.
    rewrite (list_alter_insert _ _ _ (mkView Embryo (nextpid s.1) (v_parent (view p)))) in T4
      by (apply list_lookup_insert_eq; by eapply lookup_lt_Some). rewrite list_insert_insert_eq in T4. done.
Qed.

(** [calmly H T] takes the next routine of the call [H], which leaves the views
    alone, and carries [T] over it. *)
Ltac calmly H T :=
  let E := fresh "E" in minv H;
  match type of H with _ ?s = _ => idtac end;
  match goal with E' : ?m ?s0 = Ok (?r, ?s1), T' : turns _ ?s0 _ _ |- _ =>
    match T' with T =>
      let C := fresh in assert (calm m) as C by calms;
      apply (turns_calm m _ s0 r s1 _ _ C E') in T; clear C
    end
  end.

Definition fork_child (me i : nat) (next : Z) (vs : list pview) : list pview := <[i := mkView Alive next (Some me)]> vs.

Lemma alter_insert_eq {A} (f : A → A) (i : nat) (x : A) (l : list A) : alter f i (<[i := x]> l) = <[i := f x]> l.
Proof.
  apply list_eq. intros j. destruct (decide (j = i)) as [->|Hj].
  - rewrite list_lookup_alter_eq. destruct (decide (i < length l)%nat).
    + by rewrite !list_lookup_insert_eq by done.
    + by rewrite !(list_insert_ge l) by lia; rewrite lookup_ge_None_2 by lia.
  - by rewrite list_lookup_alter_ne, !list_lookup_insert_ne by done.
Qed.

(** [fork] makes a child of [me] in a free slot, or fails and leaves every
    process as it was. *)
Lemma fork_turns me s r s' :
  fork me s = Ok (r, s') →
  r = -1 ∧ turns s s' (views s.1) (nextpid s.1) ∨
  ∃ i v, find_unused (procs s.1) 0 = Some i ∧ views s.1 !! i = Some v ∧ v_phase v = Free ∧
    (r = -1 ∧ turns s s' (<[i := mkView Free (nextpid s.1) (v_parent v)]> (views s.1)) (i32 (nextpid s.1 + 1)) ∨
     turns s s' (fork_child me i (nextpid s.1) (views s.1)) (i32 (nextpid s.1 + 1))).
Proof.
  unfold fork. intros H'. minv H'. apply allocproc_turns in E as [[-> T]|(i & v & Hi & Hv & Hf & T & Hr)].
  { injection H' as <- <-. by left. }
  right. exists i, v. do 3 (split; [done|]). destruct r0 as [i'|]; [subst i'|injection H' as <- <-; by left].
  calmly H' T. calmly H' T. destruct r1 as [d|].
  - right. minv H'. pose proof (turns_upd _ _ _ _ (λ v, mkView (v_phase v) (v_pid v) (Some me)) _ _ _ _ E1 T (λ _, eq_refl)) as T2.
    assert (calm (dup_files (p_ofile r0))) as Hd by apply calm_dup_files.
    minv H'. apply (turns_calm _ _ _ _ _ _ _ Hd E2) in T2. calmly H' T2. calmly H' T2. calmly H' T2. calmly H' T2.
    minv H'. pose proof (turns_upd _ _ _ _ (λ v, mkView Alive (v_pid v) (v_parent v)) _ _ _ _ E7 T2 (λ _, eq_refl)) as T3.
    calmly H' T3. injection H' as <- <-. by rewrite !alter_insert_eq in T3.
  - left. calmly H' T. calmly H' T. calmly H' T. minv H'. injection H' as <- <-.
    pose proof (turns_upd _ _ _ _ (λ v, mkView Free (v_pid v) (v_parent v)) _ _ _ _ E4 T (λ _, eq_refl)) as T2.
    split; [done|]. by rewrite alter_insert_eq in T2.
Qed.

Definition adopt (me init : nat) (v : pview) : pview :=
  if decide (v_parent v = Some me) then mkView (v_phase v) (v_pid v) (Some init) else v.
Lemma adopted_adopt me init v : adopted me init v (adopt me init v).
Proof. unfold adopted, adopt. case_decide; cbn; naive_solver. Qed.

Lemma proc_at_inv i (s s' : ptable * K) p : proc_at i s = Ok (p, s') → s' = s ∧ procs s.1 !! i = Some p.
Proof.
  intros H'. unfold proc_at in H'. minv H'. injection E as <- <-. unfold need in H'.
  destruct (procs s.1 !! i); [|done]. by injection H' as <- <-.
Qed.
Lemma view_at (s : ptable * K) i p : procs s.1 !! i = Some p → views s.1 !! i = Some (view p).
Proof. intros E. unfold views. by rewrite list_lookup_fmap, E. Qed.

Lemma reparent_views n k me init s u s' :
  reparent n k me init s = Ok (u, s') →
  turns s s' (imap (λ j v, if decide (k ≤ j < k + n)%nat then adopt me init v else v) (views s.1)) (nextpid s.1).
Proof.
  revert k s. induction n as [|n IH]; intros k s H'; cbn [reparent] in H'.
  { injection H' as _ <-. split; [|done]. apply list_eq. intros j. rewrite list_lookup_imap.
    destruct (views s.1 !! j); [cbn|done]. by rewrite decide_False by lia. }
  minv H'. apply proc_at_inv in E as [-> Ep]. minv H'.
  assert (turns s s0 (alter (adopt me init) k (views s.1)) (nextpid s.1)) as T.
  { pose proof (view_at _ _ _ Ep) as Ev. case_bool_decide as Hp; cbn [when] in E.
    - minv E. apply (upd_views _ _ (adopt me init)) in E0 as (F1 & F2 & F3).
      2: { intros p. rewrite Ep. intros [= <-]. unfold view, adopt. cbn. by rewrite decide_True. }
      assert (calm (when (bool_decide (p_state r = ZOMBIE)) (wakeup1 (proc_chan init)))) as Hc by calms.
      eapply turns_calm; [exact Hc|exact E|]. by split_and!.
    - injection E as _ <-. rewrite (list_alter_insert _ _ _ (view r)) by done. unfold adopt at 1.
      rewrite decide_False by done. by rewrite list_insert_id. }
  specialize (IH _ _ H') as (I1 & I2 & I3). destruct T as (T1 & T2 & T3). split_and!; [|congruence..].
  rewrite I1, T1. apply list_eq. intros j. rewrite !list_lookup_imap. destruct (decide (j = k)) as [->|Hj].
  - rewrite list_lookup_alter_eq. destruct (views s.1 !! k); [cbn|done]. by rewrite decide_False, decide_True by lia.
  - rewrite list_lookup_alter_ne by done. destruct (views s.1 !! j); [cbn|done]. f_equal.
    repeat case_decide; try done; lia.
Qed.

(** [exit] hands the children of [me] to init and leaves a zombie. *)
Lemma exit_turns me s u s' :
  exit me s = Ok (u, s') →
  ∃ init, initproc s.1 = Some init ∧ me ≠ init ∧
    turns s s' (die me (adopt me init <$> views s.1)) (nextpid s.1).
Proof.
  unfold exit. intros H'. minv H'. injection E as <- <-. case_decide as Hi; [done|].
  pose proof (turns_refl s) as T. calmly H' T. pose proof (calm_close_files (p_ofile r)) as Hc.
  minv H'. apply (turns_calm _ _ _ _ _ _ _ Hc E0) in T. do 6 calmly H' T. minv H'. injection E7 as <- <-.
  minv H'. unfold need in E7. destruct (initproc s7.1) as [init|] eqn:Ei; [|done]. injection E7 as <- <-.
  minv H'. apply reparent_views in E7 as (R1 & R2 & R3). destruct T as (T1 & T2 & T3).
  exists init. split; [congruence|]. split; [congruence|]. unfold die.
  apply (turns_upd _ _ _ _ _ _ _ _ _ H'); [|done]. split_and!; [|congruence..]. rewrite R1, <-T1.
  apply list_eq. intros j. rewrite list_lookup_imap, list_lookup_fmap. destruct (views s7.1 !! j) as [v|] eqn:Ev; [cbn|done].
  rewrite decide_True; [done|]. apply lookup_lt_Some in Ev. unfold views in Ev. rewrite length_fmap in Ev. lia.
Qed.

Lemma wait_scan_inl l k me b i :
  wait_scan l k me b = inl i → ∃ p, l !! (i - k)%nat = Some p ∧ (k ≤ i)%nat ∧ p_parent p = Some me ∧ p_state p = ZOMBIE.
Proof.
  revert k b. induction l as [|p l IH]; intros k b H'; cbn in H'; [done|]. repeat case_decide; simplify_eq.
  - exists p. by rewrite Nat.sub_diag.
  - destruct (IH _ _ H') as (q & Hq & ? & ?); exists q; replace (i - k)%nat with (S (i - S k)) by lia. split_and!; [done|lia|naive_solver..].
  - destruct (IH _ _ H') as (q & Hq & ? & ?); exists q; replace (i - k)%nat with (S (i - S k)) by lia. split_and!; [done|lia|naive_solver..].
Qed.
Lemma wait_scan_inr l k me b c i p :
  wait_scan l k me b = inr c → l !! i = Some p → p_parent p = Some me → p_state p ≠ ZOMBIE.
Proof.
  revert k b i. induction l as [|q l IH]; intros k b [|i] H' Hp Hme; cbn in H', Hp; try done.
  - simplify_eq. rewrite decide_True in H' by done. by case_decide.
  - repeat case_decide; simplify_eq; eauto.
Qed.

(** [wait] frees a zombie child and returns its identifier, when there is one;
    otherwise it leaves every process as it was. *)
Lemma wait_turns me (s s' : ptable * K) r pm :
  wait me s = Ok (r, s') → procs s.1 !! me = Some pm → p_state pm = RUNNING →
  (turns s s' (views s.1) (nextpid s.1) ∧ ∀ i p, procs s.1 !! i = Some p → p_parent p = Some me → p_state p ≠ ZOMBIE) ∨
  ∃ i q, procs s.1 !! i = Some q ∧ p_parent q = Some me ∧ p_state q = ZOMBIE ∧ r = Some (p_pid q) ∧
    turns s s' (<[i := mkView Free 0 None]> (views s.1)) (nextpid s.1).
Proof.
  unfold wait. intros H' Hm Hst. minv H'. injection E as <- <-. minv H'. apply proc_at_inv in E as [-> E].
  rewrite Hm in E. injection E as <-. destruct (wait_scan (procs s.1) 0 me false) as [i|b] eqn:Es.
  - right. apply wait_scan_inl in Es as (q & Hq & _ & Hpar & Hz). rewrite Nat.sub_0_r in Hq. exists i, q.
    do 3 (split; [done|]). minv H'. apply proc_at_inv in E as [-> E]. rewrite Hq in E. injection E as <-.
    pose proof (turns_refl s) as T. calmly H' T. calmly H' T. calmly H' T. minv H'. injection H' as <- <-.
    split; [done|]. pose proof (turns_upd _ _ _ _ (λ _, mkView Free 0 None) _ _ _ _ E2 T (λ _, eq_refl)) as T2.
    by rewrite (list_alter_insert _ _ _ (view q)) in T2 by by apply view_at.
  - left. split; [|intros i p; by apply (wait_scan_inr _ _ _ _ _ i p Es)].
    destruct (_ || _); [by injection H' as _ <-|]. minv H'. injection H' as <- <-.
    apply (calm_upd_running _ _ _ _ _ RUNNING) in E; [by destruct E as (? & ? & ?)|..].
    + intros p Ha. unfold view. cbn. by rewrite Ha.
    + done.
    + congruence.
Qed.

(** ** Every sequence of calls *)

Lemma family_turns s s' vs n :
  turns s s' vs n → (∀ i, initproc s.1 = Some i → family_at i (nextpid s.1) (views s.1) → family_at i n vs) →
  family s.1 → family s'.1.
Proof. intros (E1 & E2 & E3) Hf (i & Hi & Hfam). exists i. split; [congruence|]. rewrite E1, E2. by apply Hf. Qed.

(** A call keeps the family and hands out at most one identifier. *)
Definition steady (s s' : ptable * K) : Prop := family s'.1 ∧ nextpid s.1 ≤ nextpid s'.1 ≤ nextpid s.1 + 1.

Lemma steady_calm {A} (m : MP A) s a s' : calm m → family s.1 → m s = Ok (a, s') → steady s s'.
Proof.
  intros Hm Hf E. destruct (Hm _ _ _ E) as (E1 & E2 & E3). split; [|lia].
  apply (family_turns s s' (views s.1) (nextpid s.1)); [by split_and!|naive_solver|done].
Qed.

Lemma next_range (s : ptable * K) i : family_at i (nextpid s.1) (views s.1) → nextpid s.1 < 2147483647 → i32 (nextpid s.1 + 1) = nextpid s.1 + 1.
Proof. intros [_ _ _ Hn] Hb. apply i32_small. unfold is_i32. lia. Qed.

Lemma steady_fork me (s s' : ptable * K) r pm :
  procs s.1 !! me = Some pm → p_state pm = RUNNING → nextpid s.1 < 2147483647 →
  family s.1 → fork me s = Ok (r, s') → steady s s'.
Proof.
  intros Hm Hst Hb Hf E. pose proof Hf as (i0 & Hi0 & Hfam). pose proof (next_range _ _ Hfam Hb) as Hn.
  apply fork_turns in E as [[_ T]|(i & v & _ & Hv & Hvf & [[_ T]|T])]; (split; [|destruct T as (_ & T & _); rewrite T; lia]).
  - apply (family_turns _ _ _ _ T); [done|done].
  - apply (family_turns _ _ _ _ T); [|done]. intros i1 _ Hfam1. rewrite Hn.
    rewrite (vo_free _ _ _ _ _ (fa_ok _ _ _ Hfam1 i v Hv) Hvf). apply (family_cleared _ (nextpid s.1) _ _ _ v); [done..|congruence|lia].
  - apply (family_turns _ _ _ _ T); [|done]. intros i1 _ Hfam1. rewrite Hn. unfold fork_child.
    apply (family_born _ _ _ _ _ v (view pm)); [done..|by apply view_at|]. cbn. by rewrite Hst.
Qed.

Lemma steady_exit me (s s' : ptable * K) u pm :
  procs s.1 !! me = Some pm → p_state pm = RUNNING → family s.1 → exit me s = Ok (u, s') → steady s s'.
Proof.
  intros Hm Hst Hf E. apply exit_turns in E as (init & Hi & Hne & T). split; [|destruct T as (_ & -> & _); lia].
  apply (family_turns _ _ _ _ T); [|done]. intros i1 Hi1 Hfam. assert (i1 = init) as -> by congruence.
  apply (family_died _ _ (views s.1) _ _ (view pm)); [done|done|by apply view_at|cbn; by rewrite Hst|..].
  - apply list.Forall2_fmap_r, list.Forall_Forall2_diag, list.Forall_forall. intros v _. apply adopted_adopt.
  - intros j v. rewrite list_lookup_fmap. destruct (views s.1 !! j) as [w|]; [|done]. intros [= <-].
    unfold adopt. case_decide; cbn; congruence.
Qed.

Lemma steady_wait me (s s' : ptable * K) r pm :
  procs s.1 !! me = Some pm → p_state pm = RUNNING → family s.1 → wait me s = Ok (r, s') → steady s s'.
Proof.
  intros Hm Hst Hf E. destruct (wait_turns _ _ _ _ _ E Hm Hst) as [[T _]|(i & q & Hq & _ & Hz & _ & T)];
    (split; [|destruct T as (_ & -> & _); lia]).
  - apply (family_turns _ _ _ _ T); [done|done].
  - apply (family_turns _ _ _ _ T); [|done]. intros i1 _ Hfam.
    apply (family_cleared _ (nextpid s.1) _ _ _ (view q)); [done|by apply view_at| |lia]. cbn. by rewrite Hz.
Qed.

Lemma steady_upd_alive i f (s s' : ptable * K) a p :
  (∀ p, phase_of (p_state p) = Alive → view (f p) = view p) → procs s.1 !! i = Some p → phase_of (p_state p) = Alive →
  family s.1 → upd i f s = Ok (a, s') → steady s s'.
Proof.
  intros Hv Hp Ha Hf E. apply (calm_upd_running _ _ _ _ _ (p_state p) Hv Ha) in E as (E1 & E2 & E3); [|congruence].
  split; [|lia]. apply (family_turns s s' (views s.1) (nextpid s.1)); [by split_and!|naive_solver|done].
Qed.

Lemma as_proc_inv {A} me st (m : MP A) (s s' : ptable * K) u :
  as_proc me st m s = Ok (u, s') → ∃ p a, procs s.1 !! me = Some p ∧ p_state p = st ∧ m s = Ok (a, s').
Proof.
  unfold as_proc. intros H'. minv H'. apply proc_at_inv in E as [-> E]. case_decide; [|done].
  minv H'. injection H' as _ <-. eauto.
Qed.

Lemma steady_op o (s s' : ptable * K) u :
  nextpid s.1 < 2147483647 → family s.1 → do_op o s = Ok (u, s') → steady s s'.
Proof.
  intros Hb Hf E. destruct o; cbn [do_op] in E; try (apply as_proc_inv in E as (p & a & Hp & Hst & E)).
  - by apply (steady_fork me s s' a p).
  - by apply (steady_exit me s s' a p).
  - by apply (steady_wait me s s' a p).
  - by apply (steady_calm (kill pid) s a s'); [apply calm_kill|..].
  - apply (steady_upd_alive me _ s s' a p) in E; [done| |done|by rewrite Hst|done]. intros q Hq. unfold view. cbn. by rewrite Hq.
  - apply (steady_upd_alive me _ s s' a p) in E; [done| |done|by rewrite Hst|done]. intros q Hq. unfold view. cbn. by rewrite Hq.
  - by apply (steady_calm (sleep_resume me) s a s'); [apply calm_upd|..].
  - by apply (steady_calm (growproc me n) s a s'); [apply calm_growproc|..].
  - by apply (steady_calm (wakeup chan) s u s'); [apply calm_wakeup|..].
  - apply (steady_upd_alive i _ s s' a p) in E; [done| |done|by rewrite Hst|done]. intros q Hq. unfold view. cbn. by rewrite Hq.
Qed.

Lemma family_ops os (s s' : ptable * K) u :
  nextpid s.1 + Z.of_nat (length os) ≤ 2147483647 → family s.1 → do_ops os s = Ok (u, s') → family s'.1.
Proof.
  revert s. induction os as [|o os IH]; intros s Hb Hf E; cbn [do_ops length] in *.
  - by injection E as _ <-.
  - minv E. destruct (steady_op o s s0 r) as [Hf' Hn]; [lia|done..|]. apply (IH s0); [lia|done..].
Qed.

(** *** The start *)

Definition blank : proc := mkProc 0 0 0 UNUSED 0 None (mkTf 0 0 0 []) 0 0 (replicate NOFILE None) None (replicate 16 0).
Definition boot_table : ptable := mkPtable (replicate NPROC blank) None 1.

Lemma family_boot regs k u (s' : ptable * K) :
  userinit regs (boot_table, k) = Ok (u, s') → family s'.1 ∧ nextpid s'.1 = 2.
Proof.
  unfold userinit. intros H'. minv H'. destruct r as [i|]; [|done]. minv H'. injection E0 as <- <-.
  apply allocproc_turns in E as [[? _]|(i' & v & _ & Hv & Hf & T & <-)]; [done|].
  minv H'. injection E as _ <-. destruct T as (T1 & T2 & T3).
  assert (turns (mkPtable (procs s.1) (Some i) (nextpid s.1), s.2) (mkPtable (procs s.1) (Some i) (nextpid s.1), s.2)
    (<[i := mkView Embryo 1 (v_parent v)]> (views boot_table)) 2) as T by (split_and!; [exact T1|exact T2|done]).
  calmly H' T. destruct r0 as [d|]; [|done]. do 5 calmly H' T.
  pose proof (turns_upd _ _ _ _ (λ v, mkView Alive (v_pid v) (v_parent v)) _ _ _ _ H' T (λ _, eq_refl)) as T'.
  rewrite alter_insert_eq in T'. cbn [v_pid v_parent] in T'. destruct T' as (V1 & V2 & V3). split; [|done].
  exists i. split; [done|]. rewrite V1, V2.
  assert (∀ j w, views boot_table !! j = Some w → w = mkView Free 0 None) as Hblank.
  { intros j w. unfold views, boot_table. cbn [procs]. rewrite fmap_replicate, lookup_replicate. by intros [-> _]. }
  apply Hblank in Hv as Hv'. subst v. pose proof (lookup_lt_Some _ _ _ Hv) as Hlt. cbn [v_parent].
  assert (∀ j w, <[i:=mkView Alive 1 None]> (views boot_table) !! j = Some w →
    j = i ∧ w = mkView Alive 1 None ∨ w = mkView Free 0 None) as Hcases.
  { intros j w. destruct (decide (j = i)) as [->|Hj].
    - rewrite list_lookup_insert_eq by done. intros [= <-]. by left.
    - rewrite list_lookup_insert_ne by done. intros Hw. right. by apply (Hblank j). }
  split.
  - intros j w [[-> ->]| ->]%Hcases; split; cbn; try done; lia.
  - intros j k' w w' [[-> ->]| ->]%Hcases [[-> ->]| ->]%Hcases; try done.
  - exists (mkView Alive 1 None). by rewrite list_lookup_insert_eq.
  - lia.
Qed.

(** C13: From boot on, whatever calls the processes make in whatever order (fewer
    than 2^31 - 2 of them), living and dead processes have different
    identifiers, every zombie has a parent that is alive, and [wait] by that
    parent, when it runs, returns the identifier of a dead child of it and
    frees that child's slot: no process is lost. *)
Theorem zombies_are_reaped regs k os u (s : ptable * K) :
  (userinit regs;; do_ops os) (boot_table, k) = Ok (u, s) → Z.of_nat (length os) < 2147483646 →
  (∀ i j p q, procs s.1 !! i = Some p → procs s.1 !! j = Some q → p_state p ≠ UNUSED → p_state q ≠ UNUSED →
     p_pid p = p_pid q → i = j) ∧
  (∀ i p, procs s.1 !! i = Some p → p_state p = ZOMBIE → ∃ q pq,
     p_parent p = Some q ∧ procs s.1 !! q = Some pq ∧ phase_of (p_state pq) = Alive ∧
     (p_state pq = RUNNING → ∀ r s', wait q s = Ok (r, s') →
       ∃ j c, procs s.1 !! j = Some c ∧ p_parent c = Some q ∧ p_state c = ZOMBIE ∧ r = Some (p_pid c) ∧
         p_state <$> procs s'.1 !! j = Some UNUSED)).
Proof.
  intros E Hb. minv E. apply family_boot in E0 as [Hf Hn]. apply family_ops in E as (init & Hi & Hfam); [|lia|done].
  assert (∀ p, p_state p ≠ UNUSED → phase_of (p_state p) ≠ Free) as Hnf by (intros p; by destruct (p_state p)).
  split.
  - intros i j p q Hp Hq Hps Hqs Epid. apply view_at in Hp, Hq.
    apply (fa_uniq _ _ _ Hfam i j (view p) (view q)); cbn; auto.
  - intros i p Hp Hz. pose proof (view_at _ _ _ Hp) as Hv. destruct (fa_ok _ _ _ Hfam i _ Hv) as [_ _ _ Hpar].
    destruct Hpar as (q & w & Hq & Hw & Ha); [cbn; by rewrite Hz|..].
    { intros ->. destruct (fa_init _ _ _ Hfam) as (v & Hv' & Hv'a). rewrite Hv in Hv'. injection Hv' as <-.
      cbn in Hv'a. by rewrite Hz in Hv'a. }
    unfold views in Hw. rewrite list_lookup_fmap in Hw. destruct (procs s.1 !! q) as [pq|] eqn:Epq; [|done].
    injection Hw as <-. exists q, pq. split_and!; [done..|]. intros Hrun x s' Ew.
    destruct (wait_turns _ _ _ _ _ Ew Epq Hrun) as [[_ Hno]|(j & c & Hc & Hcp & Hcz & Hr & (T & _))].
    + by destruct (Hno i p Hp Hq).
    + exists j, c. split_and!; try done. assert (views s'.1 !! j = Some (mkView Free 0 None)) as Hj.
      { rewrite T. apply list_lookup_insert_eq. apply view_at in Hc. by eapply lookup_lt_Some. }
      unfold views in Hj. rewrite list_lookup_fmap in Hj. destruct (procs s'.1 !! j) as [c'|]; [|done].
      injection Hj as Hj _ _. cbn. f_equal. by destruct (p_state c').
Qed.
End family.

(** ** Killing nobody *)

Section killed.
Context {K : Type} `{Kernel K}.
#[local] Abbreviation MP := (M (ptable * K)).

(** [m] leaves every [killed] flag as it is. *)
Definition spares {A} (m : MP A) : Prop :=
  ∀ s a s', m s = Ok (a, s') → p_killed <$> procs s'.1 = p_killed <$> procs s.1.

Lemma spares_bind {A B} (m : MP A) (f : A → MP B) : spares m → (∀ a, spares (f a)) → spares (m ≫= f).
Proof. intros Hm Hf s b s' H'. minv H'. rewrite (Hf _ _ _ _ H'). by apply (Hm _ _ _ E). Qed.
Lemma spares_ret {A} (a : A) : spares (mret a).
Proof. by intros s b s' [= _ <-]. Qed.
Lemma spares_lift {A} (m : M K A) : spares (lift m).
Proof. intros s a s' E. unfold lift in E. destruct (m s.2) as [[b k]| | | |]; try done. by injection E as _ <-. Qed.
Lemma spares_table : spares table.
Proof. by intros s a s' [= _ <-]. Qed.
Lemma spares_need {A} (o : option A) : spares (need o).
Proof. destruct o; [apply spares_ret|by intros s a s' ?]. Qed.
Lemma spares_proc_at i : spares (proc_at i).
Proof. apply spares_bind; [apply spares_table|]. intros s. apply spares_need. Qed.
Lemma spares_upd i f : (∀ p, p_killed (f p) = p_killed p) → spares (upd i f).
Proof.
  intros Hf s a s' [= _ <-]. cbn. apply list_eq. intros j. rewrite !list_lookup_fmap. destruct (decide (j = i)) as [->|Hj].
  - rewrite list_lookup_alter_eq. destruct (procs s.1 !! i); [cbn|done]. by rewrite Hf.
  - by rewrite list_lookup_alter_ne by done.
Qed.
Lemma spares_next : spares (λ s : ptable * K, Ok (tt, (mkPtable (procs s.1) (initproc s.1) (i32 (nextpid s.1 + 1)), s.2))).
Proof. by intros s a s' [= _ <-]. Qed.

#[local] Hint Resolve spares_ret spares_lift spares_table spares_need spares_proc_at spares_next : calm.
Ltac spare :=
  repeat first
    [ match goal with
      | |- ∀ _, _ => intro
      | |- spares (_ ≫= _) => apply spares_bind
      | |- spares (match ?x with _ => _ end) => destruct x
      | |- spares (upd _ _) => apply spares_upd; done
      end | solve [eauto with calm] ].

Lemma spares_dup_files l : spares (dup_files l).
Proof. induction l as [|[f|] l IH]; cbn; spare. Qed.
#[local] Hint Resolve spares_dup_files : calm.
Lemma spares_fork me : spares (fork me).
Proof. unfold fork, allocproc. spare. Qed.

Lemma find_pid_spec l k pid i : find_pid l k pid = Some i → ∃ p, l !! (i - k)%nat = Some p ∧ p_pid p = pid ∧ (k ≤ i)%nat.
Proof.
  revert k. induction l as [|p l IH]; intros k H'; cbn in H'; [done|]. destruct (Z.eqb_spec (p_pid p) pid).
  - injection H' as <-. exists p. by rewrite Nat.sub_diag.
  - destruct (IH _ H') as (q & Hq & Hs & Hle). exists q. replace (i - k)%nat with (S (i - S k)) by lia. split_and!; [done..|lia].
Qed.

Lemma find_unused_states l l' k : p_state <$> l = p_state <$> l' → find_unused l k = find_unused l' k.
Proof.
  revert l' k. induction l as [|p l IH]; intros [|q l'] k E; try done. cbn in E. injection E as Es El. cbn.
  rewrite Es. case_decide; [done|]. by apply IH.
Qed.

(** [kill(0)] succeeds: where the first slot without an identifier is the
    first free one, it marks that slot killed. [fork] takes the flag over, so
    when it makes a child, the child is killed before it has done anything. *)
Theorem kill_zero_kills_next_child me i (s s' : ptable * K) k r :
  find_pid (procs s.1) 0 0 = Some i → find_unused (procs s.1) 0 = Some i →
  (k ← kill 0; r ← fork me; mret (k, r)) s = Ok ((k, r), s') →
  k = 0 ∧ ∃ c, procs s'.1 !! i = Some c ∧ p_killed c = 1 ∧
    (r = -1 ∨ p_parent c = Some me ∧ phase_of (p_state c) = Alive).
Proof.
  intros Hp Hu E. minv E. minv E. injection E as -> -> ->. unfold kill in E0. minv E0. injection E as <- <-. rewrite Hp in E0.
  minv E0. injection E0 as <- <-. split; [done|].
  destruct (find_unused_spec _ _ _ Hu) as (p & Hl & Hst & _). rewrite Nat.sub_0_r in Hl.
  set (f := λ p, let p := set_killed 1 p in if decide (p_state p = SLEEPING) then set_state RUNNABLE p else p) in E.
  assert (f p = set_killed 1 p) as Hfp by (unfold f; cbn; by rewrite Hst).
  assert (procs s1.1 !! i = Some (set_killed 1 p)) as H0.
  { injection E as _ <-. cbn. by rewrite list_lookup_alter_eq, Hl; cbn; rewrite <-Hfp. }
  assert (p_killed <$> procs s'.1 !! i = Some 1) as Hk.
  { rewrite <-list_lookup_fmap, (spares_fork me _ _ _ E1), list_lookup_fmap, H0. done. }
  destruct (procs s'.1 !! i) as [c|] eqn:Ec; [|done]. injection Hk as Hk. exists c. do 2 (split; [done|]).
  apply fork_turns in E1 as [[-> _]|(i' & v & Hi' & Hv & _ & [[-> _]|T])]; [by left..|right].
  assert (find_unused (procs s1.1) 0 = Some i) as Hu'.
  { rewrite <-Hu. apply find_unused_states. injection E as _ <-. cbn. rewrite (list_alter_insert _ _ _ p Hl), Hfp.
    rewrite list_fmap_insert. cbn. apply list_insert_id. by rewrite list_lookup_fmap, Hl. }
  assert (i' = i) as -> by congruence. destruct T as (T & _). apply view_at in Ec as Hc. rewrite T in Hc. unfold fork_child in Hc.
  rewrite list_lookup_insert_eq in Hc by (by eapply lookup_lt_Some). injection Hc as E1 _ E2. by rewrite <-E1, <-E2.
Qed.
End killed.

(** ** A processor on its own *)

(** Memory that never runs out, and files and inodes that nobody looks at. *)
#[local] Instance plain_kernel : Kernel Z := {
  kalloc := λ k, Ok (Some k, k + 4096);
  kfree := λ _, mret tt;
  setupkvm := λ k, Ok (Some k, k + 4096);
  inituvm := λ _, mret tt;
  copyuvm := λ _ _ k, Ok (Some k, k + 4096);
  freevm := λ _, mret tt;
  allocuvm := λ _ _ n, mret n;
  deallocuvm := λ _ _ n, mret n;
  filedup := λ _, mret tt;
  fileclose := λ _, mret tt;
  idup := λ _, mret tt;
  iput := λ _, mret tt;
  namei_root := mret (Some 1%nat)
}.
(** Init makes a child, which makes one of its own and exits; the grandchild
    exits too. *)
Definition demo_ops : list op := [Run 0; Fork 0; Yield 0; Run 1; Fork 1; Exit 1; Run 2; Exit 2; Run 0].
Definition demo_run : outcome (unit * (ptable * Z)) := (userinit [];; do_ops demo_ops) (boot_table, 4096).
Definition demo_state : ptable * Z := match demo_run with Ok (_, s) => s | _ => (boot_table, 0) end.

Definition demo_proc (i : nat) : proc := default blank (procs demo_state.1 !! i).
Definition demo_wait : ptable * Z := match wait 0 demo_state with Ok (_, s') => s' | _ => demo_state end.

(** Both are zombies, init is their parent, and it reaps the one that comes
    first in the table. *)
Lemma zombies_are_reaped_witness :
  procs demo_state.1 !! 2%nat = Some (demo_proc 2) ∧ p_parent (demo_proc 2) = Some 0%nat ∧
  p_state (demo_proc 2) = ZOMBIE ∧ wait 0 demo_state = Ok (Some 2, demo_wait) ∧
  ∃ j c, procs demo_state.1 !! j = Some c ∧ p_parent c = Some 0%nat ∧
    p_state c = ZOMBIE ∧ Some 2 = Some (p_pid c) ∧ p_state <$> procs demo_wait.1 !! j = Some UNUSED.
Proof.
  assert (procs demo_state.1 !! 2%nat = Some (demo_proc 2)) as Hd by by vm_compute.
  assert (p_parent (demo_proc 2) = Some 0%nat) as Hp by by vm_compute.
  assert (p_state (demo_proc 2) = ZOMBIE) as Hst by by vm_compute.
  assert (wait 0 demo_state = Ok (Some 2, demo_wait)) as Hwait by by vm_compute.
  do 4 (split; [assumption|]).
  assert ((userinit [];; do_ops demo_ops) (boot_table, 4096) = Ok (tt, demo_state)) as E by by vm_compute.
  assert (procs demo_state.1 !! 0%nat = Some (demo_proc 0)) as H0 by by vm_compute.
  assert (p_state (demo_proc 0) = RUNNING) as Hrun by by vm_compute.
  assert (Z.of_nat (length demo_ops) < 2147483646) as Hlen by by apply Z.ltb_lt; vm_compute.
  destruct (zombies_are_reaped [] 4096 demo_ops tt demo_state E Hlen) as [_ Hz].
  destruct (Hz 2%nat (demo_proc 2) Hd Hst) as (q & pq & Hq & Hpq & _ & Hw).
  rewrite Hp in Hq. apply (inj Some) in Hq. subst q. rewrite H0 in Hpq. apply (inj Some) in Hpq. subst pq.
  exact (Hw Hrun (Some 2) demo_wait Hwait).
Defined.

(** Right after boot, init calls [kill(0)] and then [fork]. *)
Definition booted : outcome (unit * (ptable * Z)) := (userinit [];; do_ops [Run 0]) (boot_table, 4096).
Definition booted_state : ptable * Z := match booted with Ok (_, s) => s | _ => (boot_table, 0) end.
Definition killed_state : ptable * Z :=
  match (k ← kill 0; r ← fork 0; mret (k, r)) booted_state with Ok (_, s) => s | _ => booted_state end.
Lemma kill_zero_kills_next_child_witness :
  (k ← kill 0; r ← fork 0; mret (k, r)) booted_state = Ok ((0, 2), killed_state) ∧
  ∃ c, procs killed_state.1 !! 1%nat = Some c ∧ p_killed c = 1.
Proof.
  assert ((k ← kill 0; r ← fork 0; mret (k, r)) booted_state = Ok ((0, 2), killed_state)) as E by by vm_compute.
  assert (find_pid (procs booted_state.1) 0 0 = Some 1%nat) as Hp by by vm_compute.
  assert (find_unused (procs booted_state.1) 0 = Some 1%nat) as Hu by by vm_compute.
  split; [assumption|].
  destruct (kill_zero_kills_next_child 0 1 booted_state killed_state 0 2 Hp Hu E) as (_ & c & Hc & Hk & _).
  exists c. split; assumption.
Defined.
