(* ===== verification/Sleep.v ===== *)
(** Sleep and wake-up between processors ([xv6/kernel/proc.c]): processes that
    test a condition under a lock and [sleep] on a channel until it holds, and
    processes that make it hold and call [wakeup], in every interleaving of
    their steps with the scheduler's; and what one pass of [scheduler] runs. *)

From Stdlib Require Import Sorting.Sorted.
From S2P Require Import Prelude Proc.

(** ** Definitions *)

(** Where a process stands. The sleeper runs
    [acquire(lk); while(!ready) sleep(chan, lk); ...; release(lk)], the waker
    [acquire(lk); ready = 1; wakeup(chan); release(lk)]. *)
Inductive pc :=
  | Out                (* in neither routine *)
  | Test               (* holds lk, at the head of the loop *)
  | Enter              (* in sleep, holds lk, before acquire(&ptable.lock) *)
  | Release            (* in sleep, holds both, before release(lk) *)
  | Doze               (* in sleep, holds ptable.lock, before it sets chan and state *)
  | Asleep             (* in sched *)
  | Tidy               (* runs again, holds ptable.lock, before chan = 0 *)
  | Unlock             (* before release(&ptable.lock) *)
  | Relock             (* before acquire(lk) *)
  | Past               (* holds lk, after the loop or after wakeup *)
  | Wake1              (* made ready true, in wakeup, before acquire(&ptable.lock) *)
  | Wake2              (* holds both, before wakeup1 *)
  | Wake3              (* before release(&ptable.lock) *)
  | Yielded (k : pc)   (* in yield's sched *)
  | Yielding (k : pc). (* back from it, before release(&ptable.lock) *)

#[export] Instance pc_eq_dec : EqDecision pc.
Proof. intros x y. unfold Decision. decide equality. Defined.

(** Who holds [ptable.lock]: a processor's scheduler or a process. *)
Inductive owner := Sched | Proc (i : nat).
Record sys := mkSys { tab : list proc; at_pc : nat → pc; lk : option nat; pt : option owner; ready : bool }.

Definition move (i : nat) (k : pc) (f : nat → pc) : nat → pc := λ j, if decide (j = i) then k else f j.
Definition running (s : sys) (i : nat) : Prop := p_state <$> tab s !! i = Some RUNNING.

(** What a process does next once the scheduler has switched to it; one that
    comes from a sched of its own elsewhere still has [ptable.lock] to release. *)
Definition resume (k : pc) : pc :=
  match k with Asleep => Tidy | Yielded k => Yielding k | k => Yielding k end.
(** Spinlocks keep interrupts off, so a process yields only without locks. *)
Definition preemptible (k : pc) : Prop := k = Out ∨ k = Relock.

Section sleep.
Context (chan : Z).

Definition asleep_on (s : sys) (i : nat) : Prop :=
  ∃ p, tab s !! i = Some p ∧ p_state p = SLEEPING ∧ p_chan p = chan.

Inductive sstep (s : sys) : sys → Prop :=
  | st_acquire i : running s i → at_pc s i = Out → lk s = None →
      sstep s (mkSys (tab s) (move i Test (at_pc s)) (Some i) (pt s) (ready s))
  | st_through i : running s i → at_pc s i = Test → ready s = true →
      sstep s (mkSys (tab s) (move i Past (at_pc s)) (lk s) (pt s) (ready s))
  | st_sleep i : running s i → at_pc s i = Test → ready s = false →
      sstep s (mkSys (tab s) (move i Enter (at_pc s)) (lk s) (pt s) (ready s))
  | st_sleeplock i : running s i → at_pc s i = Enter → pt s = None →
      sstep s (mkSys (tab s) (move i Release (at_pc s)) (lk s) (Some (Proc i)) (ready s))
  | st_release_lk i : running s i → at_pc s i = Release →
      sstep s (mkSys (tab s) (move i Doze (at_pc s)) None (pt s) (ready s))
  | st_doze i : running s i → at_pc s i = Doze →
      sstep s (mkSys (alter (λ p, set_state SLEEPING (set_chan chan p)) i (tab s)) (move i Asleep (at_pc s)) (lk s) (Some Sched) (ready s))
  | st_tidy i : running s i → at_pc s i = Tidy →
      sstep s (mkSys (alter (set_chan 0) i (tab s)) (move i Unlock (at_pc s)) (lk s) (pt s) (ready s))
  | st_unlock i : running s i → at_pc s i = Unlock →
      sstep s (mkSys (tab s) (move i Relock (at_pc s)) (lk s) None (ready s))
  | st_relock i : running s i → at_pc s i = Relock → lk s = None →
      sstep s (mkSys (tab s) (move i Test (at_pc s)) (Some i) (pt s) (ready s))
  | st_consume i : running s i → at_pc s i = Past →
      sstep s (mkSys (tab s) (at_pc s) (lk s) (pt s) false)
  | st_leave i : running s i → at_pc s i = Past →
      sstep s (mkSys (tab s) (move i Out (at_pc s)) None (pt s) (ready s))
  | st_set i : running s i → at_pc s i = Test →
      sstep s (mkSys (tab s) (move i Wake1 (at_pc s)) (lk s) (pt s) true)
  | st_wakelock i : running s i → at_pc s i = Wake1 → pt s = None →
      sstep s (mkSys (tab s) (move i Wake2 (at_pc s)) (lk s) (Some (Proc i)) (ready s))
  | st_wake i : running s i → at_pc s i = Wake2 →
      sstep s (mkSys (wake chan <$> tab s) (move i Wake3 (at_pc s)) (lk s) (pt s) (ready s))
  | st_wakeunlock i : running s i → at_pc s i = Wake3 →
      sstep s (mkSys (tab s) (move i Past (at_pc s)) (lk s) None (ready s))
  | st_yield i k : running s i → at_pc s i = k → preemptible k → pt s = None →
      sstep s (mkSys (alter (set_state RUNNABLE) i (tab s)) (move i (Yielded k) (at_pc s)) (lk s) (Some Sched) (ready s))
  | st_yielded i k : running s i → at_pc s i = Yielding k →
      sstep s (mkSys (tab s) (move i k (at_pc s)) (lk s) None (ready s))
  | st_sched_acquire : pt s = None → sstep s (mkSys (tab s) (at_pc s) (lk s) (Some Sched) (ready s))
  | st_sched_release : pt s = Some Sched → sstep s (mkSys (tab s) (at_pc s) (lk s) None (ready s))
  | st_run i : pt s = Some Sched → p_state <$> tab s !! i = Some RUNNABLE →
      sstep s (mkSys (alter (set_state RUNNING) i (tab s)) (move i (resume (at_pc s i)) (at_pc s)) (lk s) (Some (Proc i)) (ready s))
  | st_other c : c ≠ chan → pt s = None →
      sstep s (mkSys (wake c <$> tab s) (at_pc s) (lk s) (pt s) (ready s))
  | st_kill i p : pt s = None → tab s !! i = Some p → p_state p = SLEEPING →
      sstep s (mkSys (alter (λ p, set_state RUNNABLE (set_killed 1 p)) i (tab s)) (at_pc s) (lk s) (pt s) (ready s)).

Inductive reach (s0 : sys) : sys → Prop :=
  | reach_refl : reach s0 s0
  | reach_step s s' : reach s0 s → sstep s s' → reach s0 s'.

Lemma reach_first s0 s1 s : sstep s0 s1 → reach s1 s → reach s0 s.
Proof.
  intros E. induction 1; [|by eapply reach_step]. by eapply reach_step; [apply reach_refl|].
Qed.

(** Before anybody has touched the lock. *)
Definition initial (s : sys) : Prop :=
  (∀ i, at_pc s i = Out) ∧ lk s = None ∧ pt s = None ∧ ∀ i, ¬ asleep_on s i.

(** ** The invariant *)

Definition holds_lk (k : pc) : bool :=
  match k with Test | Enter | Release | Past | Wake1 | Wake2 | Wake3 => true | _ => false end.
Definition holds_pt (k : pc) : bool :=
  match k with Release | Doze | Tidy | Unlock | Wake2 | Wake3 | Yielding _ => true | _ => false end.
(** A waker that has made the condition true and not yet scanned the table. *)
Definition waking (k : pc) : bool := match k with Wake1 | Wake2 => true | _ => false end.
Definition yields_ok (k : pc) : Prop :=
  match k with Yielded k | Yielding k => preemptible k | _ => True end.

(** Where a process that is not running stands. *)
Definition switched (k : pc) : Prop := match k with Out | Asleep | Yielded _ => True | _ => False end.

Record inv (s : sys) : Prop := {
  i_lk : ∀ i, holds_lk (at_pc s i) → lk s = Some i;
  i_pt : ∀ i, holds_pt (at_pc s i) → pt s = Some (Proc i);
  i_not : ∀ i, at_pc s i = Enter ∨ at_pc s i = Release → ready s = false;
  i_wake : ready s = true → ∀ i, asleep_on s i ∨ at_pc s i = Doze → ∃ j, waking (at_pc s j);
  i_yield : ∀ i, yields_ok (at_pc s i);
  i_run : ∀ i p, tab s !! i = Some p → p_state p ≠ RUNNING → switched (at_pc s i)
}.

Lemma inv_initial s : initial s → inv s.
Proof.
  intros (Hp & Hl & Ht & Ha). split; intros *; rewrite ?Hp; try done.
  - by intros [|].
  - intros _ i [Hs|Hd]; [by destruct (Ha i)|by rewrite Hp in Hd].
Qed.

(** Who is asleep after a step was asleep before it, or the step put them so. *)
Lemma asleep_same s t j : tab t = tab s → asleep_on t j → asleep_on s j.
Proof. unfold asleep_on. by intros ->. Qed.
Lemma asleep_alter f s t i j :
  asleep_on t j → tab t = alter f i (tab s) →
  asleep_on s j ∨ j = i ∧ ∃ q, tab s !! i = Some q ∧ p_state (f q) = SLEEPING.
Proof.
  intros (p & Hp & Hs & Hc) E. rewrite E in Hp. destruct (decide (j = i)) as [->|Hj].
  - rewrite list_lookup_alter_eq in Hp. destruct (tab s !! i) as [q|]; [|done]. injection Hp as <-. right. eauto.
  - rewrite list_lookup_alter_ne in Hp by done. left. by exists p.
Qed.
Lemma asleep_wake c s t j : tab t = wake c <$> tab s → asleep_on t j → asleep_on s j ∧ c ≠ chan.
Proof.
  intros E (p & Hp & Hs & Hc). rewrite E, list_lookup_fmap in Hp. destruct (tab s !! j) as [q|] eqn:Eq; [|done].
  injection Hp as <-. unfold wake in Hs, Hc. case_decide as Hd; [done|]. split; [by exists q|]. intros ->. by destruct Hd.
Qed.

(** [at_cases] splits on whether the process in question is the one that moved;
    [facts I i] brings in what the invariant says of process [i]. *)
Ltac at_cases := cbn [at_pc tab lk pt ready] in *; unfold move in *; repeat case_decide; subst; cbn in *.
Ltac facts I i :=
  let A := fresh in let B := fresh in let C := fresh in let D := fresh in
  pose proof (i_lk _ I i) as A; pose proof (i_pt _ I i) as B; pose proof (i_not _ I i) as C;
  pose proof (i_yield _ I i) as D.
Ltac finish :=
  at_cases; repeat match goal with E : at_pc ?s ?i = _, F : context [at_pc ?s ?i] |- _ => rewrite E in F end;
  cbn in *; unfold preemptible in *; intuition (subst; cbn in *; congruence).

(** Where a process that may be switched to stands. *)
Lemma switched_resume s i st :
  inv s → p_state <$> tab s !! i = Some st → st ≠ RUNNING →
  resume (at_pc s i) = Tidy ∨ ∃ k, preemptible k ∧ resume (at_pc s i) = Yielding k.
Proof.
  intros I Hp Hne. destruct (tab s !! i) as [p|] eqn:Ep; [|done]. injection Hp as Hp.
  pose proof (i_run s I i p Ep ltac:(congruence)) as Hs. pose proof (i_yield s I i) as Hy. unfold preemptible.
  destruct (at_pc s i); cbn in *; try done; eauto.
Qed.

(** [split_step I] names the places a step may lead to. *)
Ltac split_step I :=
  match goal with
  | E : at_pc _ ?i = Yielding ?k |- _ =>
      let Hy := fresh in pose proof (i_yield _ I i) as Hy; rewrite E in Hy; destruct Hy as [-> | ->]
  | E : p_state <$> tab ?s !! ?i = Some RUNNABLE |- _ =>
      let Er := fresh in destruct (switched_resume s i RUNNABLE I E ltac:(done)) as [Er|(? & ? & Er)]; rewrite ?Er in *
  | _ => idtac
  end.
Ltac by_step E I j := facts I j; destruct E; split_step I; try match goal with R : running _ ?i |- _ => facts I i end; try finish.

Lemma inv_lk s s' : inv s → sstep s s' → ∀ j, holds_lk (at_pc s' j) → lk s' = Some j.
Proof. intros I E j Hj. by_step E I j. Qed.
Lemma inv_pt s s' : inv s → sstep s s' → ∀ j, holds_pt (at_pc s' j) → pt s' = Some (Proc j).
Proof. intros I E j Hj. by_step E I j. Qed.
Lemma inv_not s s' : inv s → sstep s s' → ∀ j, at_pc s' j = Enter ∨ at_pc s' j = Release → ready s' = false.
Proof. intros I E j [Hj|Hj]; by_step E I j. Qed.
Lemma inv_yield s s' : inv s → sstep s s' → ∀ j, yields_ok (at_pc s' j).
Proof. intros I E j. by_step E I j. Qed.

Lemma inv_run s s' : inv s → sstep s s' → ∀ j p, tab s' !! j = Some p → p_state p ≠ RUNNING → switched (at_pc s' j).
Proof.
  intros I E j p Hp Hne.
  assert (∀ q, tab s !! j = Some q → p_state q ≠ RUNNING → switched (at_pc s j)) as Hs by (intros q; apply (i_run s I)).
  assert (∀ i, running s i → tab s !! i = Some p → False) as Hr.
  { unfold running. intros i Hi E'. rewrite E' in Hi. injection Hi as Hi. done. }
  destruct E; cbn [tab at_pc] in *; unfold move; repeat case_decide; subst; rewrite
    ?list_lookup_alter_eq, ?list_lookup_alter_ne, ?list_lookup_fmap in Hp by done; try done; try (by eapply Hs); try (by exfalso; eapply Hr).
  all: try match type of Hp with alter _ ?k _ !! ?j = _ => destruct (decide (j = k)) as [->|Hjk];
    [rewrite list_lookup_alter_eq in Hp|rewrite list_lookup_alter_ne in Hp by done; by eapply Hs] end.
  all: match type of Hp with _ <$> ?o = _ => destruct o as [q|] eqn:Eq; [|done] end; injection Hp as <-.
  all: try (unfold wake in Hne; case_decide as Hd; [destruct Hd|]).
  all: try (eapply Hs; [done|]); try (cbn in Hne; congruence).
  all: match goal with R : running _ _ |- _ => unfold running in R; rewrite Eq in R; injection R as R end; cbn in Hne; congruence.
Qed.

(** Asleep on the channel, or certain to be before [ptable.lock] is free. *)
Definition drowsy (s : sys) (j : nat) : Prop := asleep_on s j ∨ at_pc s j = Doze.

Lemma ready_back s s' : sstep s s' → ready s' = true → ready s = true ∨ ∃ k, waking (at_pc s' k).
Proof.
  intros E Hr. destruct E as [| | | | | | | | | | |i ? ?| | | | | | | | | |]; cbn [ready] in Hr; auto; [done|].
  right. exists i. cbn. unfold move. by rewrite decide_True.
Qed.

(** Nobody falls asleep while the condition holds. *)
Lemma drowsy_back s s' j : inv s → sstep s s' → ready s = true → drowsy s' j → drowsy s j.
Proof.
  intros I E Hr [Ha|Hd].
  - destruct E as [| | | | | | | | | | | | | | | | | | | | |];
      try (left; by eapply asleep_same, Ha); try (left; by eapply asleep_wake, Ha).
    all: try (destruct (asleep_alter _ s _ _ j Ha eq_refl) as [Ha'|(-> & q & Hq & Hs)]; [by left|]; try done).
    + by right.
    + exfalso. unfold running in *. rewrite Hq in H. injection H as H. cbn in Hs. congruence.
  - destruct (decide (at_pc s j = Doze)) as [Hd'|Hd']; [by right|]. exfalso. by_step E I j.
Qed.

(** A waker goes on to wake the channel, and leaves nobody behind. *)
Lemma waking_on s s' k j : inv s → sstep s s' → waking (at_pc s k) → drowsy s' j → ∃ k, waking (at_pc s' k).
Proof.
  intros I E Hk Hd. destruct (waking (at_pc s' k)) eqn:Hk'; [by exists k; rewrite Hk'|].
  exfalso. destruct (at_pc s k) eqn:Ek; try done; facts I j; by_step E I k.
  destruct Hd as [Ha|Hd]; [|finish]. by eapply asleep_wake in Ha as [_ []].
Qed.

Lemma inv_step s s' : inv s → sstep s s' → inv s'.
Proof.
  intros I E. split; [by apply (inv_lk s)|by apply (inv_pt s)|by apply (inv_not s)| |by apply (inv_yield s)|by apply (inv_run s)].
  intros Hr j Hj. destruct (ready_back s s' E Hr) as [Hr0|]; [|done].
  destruct (i_wake s I Hr0 j) as (k & Hk); [by apply (drowsy_back s s')|]. by apply (waking_on s s' k j).
Qed.

Lemma inv_reach s0 s : initial s0 → reach s0 s → inv s.
Proof. intros H0. induction 1 as [|s s' _ IH E]; [by apply inv_initial|]. by apply (inv_step s). Qed.

(** C11: No wake-up is lost, however the processes' steps interleave on however
    many processors: while a process sleeps and the condition it waits for
    holds, some process is inside [wakeup] and has not scanned the table yet.
    In particular nobody sleeps on a condition that holds once every waker has
    returned; and only one process is ever between the two locks' sections. *)
Theorem no_lost_wakeup s0 s i :
  initial s0 → reach s0 s → asleep_on s i → ready s = true →
  (∃ j, at_pc s j = Wake1 ∨ at_pc s j = Wake2) ∧
  (∀ j k, holds_pt (at_pc s j) → holds_pt (at_pc s k) → j = k).
Proof.
  intros H0 Hs Ha Hr. pose proof (inv_reach s0 s H0 Hs) as I. split.
  - destruct (i_wake s I Hr i) as (k & Hk); [by left|]. exists k. destruct (at_pc s k); try done; auto.
  - intros j k Hj Hk. pose proof (i_pt s I j Hj). pose proof (i_pt s I k Hk). congruence.
Qed.
End sleep.

(** *** A wake-up that comes while the sleeper goes to sleep *)

Definition demo_proc : proc := mkProc 0 0 0 RUNNING 1 None (mkTf 0 0 0 []) 0 0 [] None [].
Definition demo_sys : sys := mkSys [demo_proc; demo_proc] (λ _, Out) None None false.
Definition demo_end : sys :=
  mkSys (alter (λ p, set_state SLEEPING (set_chan 7 p)) 0%nat (tab demo_sys))
    (move 0 Asleep (move 1 Wake1 (move 1 Test (move 0 Doze (move 0 Release (move 0 Enter (move 0 Test (λ _, Out))))))))
    (Some 1%nat) (Some Sched) true.

Lemma demo_reach : reach 7 demo_sys demo_end.
Proof.
  eapply reach_first; [by apply (st_acquire 7 _ 0)|].
  eapply reach_first; [by apply (st_sleep 7 _ 0)|].
  eapply reach_first; [by apply (st_sleeplock 7 _ 0)|].
  eapply reach_first; [by apply (st_release_lk 7 _ 0)|].
  eapply reach_first; [by apply (st_acquire 7 _ 1)|].
  eapply reach_first; [by apply (st_set 7 _ 1)|].
  eapply reach_first; [by apply (st_doze 7 _ 0)|].
  apply reach_refl.
Qed.

Lemma no_lost_wakeup_witness :
  asleep_on 7 demo_end 0 ∧ ready demo_end = true ∧ ∃ j, at_pc demo_end j = Wake1 ∨ at_pc demo_end j = Wake2.
Proof.
  assert (asleep_on 7 demo_end 0) as Ha by (eexists; by split_and!).
  split; [exact Ha|]. split; [reflexivity|].
  refine (proj1 (no_lost_wakeup 7 demo_sys demo_end 0 _ demo_reach Ha eq_refl)).
  split_and!; try reflexivity. intros [|[|i]] (p & Hp & Hs & _); cbn in Hp; simplify_eq; done.
Defined.

(** ** The scheduler's pass *)

Section pass.
Context (run : nat → list proc → list proc).

Definition runnable (l : list proc) (j : nat) : Prop := p_state <$> l !! j = Some RUNNABLE.
(** While one process runs, the later ones that can run stay so. *)
Definition leaves_alone : Prop :=
  ∀ k l j, (k < j)%nat → runnable (<[k := set_state RUNNING (default demo_proc (l !! k))]> l) j →
    runnable (run k (<[k := set_state RUNNING (default demo_proc (l !! k))]> l)) j.

Lemma scheduler_pass_bounds n k l : Forall (λ j, k ≤ j < k + n)%nat (scheduler_pass run n k l).1.
Proof.
  revert k l. induction n as [|n IH]; intros k l; cbn [scheduler_pass]; [constructor|].
  assert (∀ t, Forall (λ j, S k ≤ j < S k + n)%nat t → Forall (λ j, k ≤ j < k + S n)%nat t) as Hw.
  { intros t Ht. eapply list.Forall_impl; [exact Ht|]. cbn. lia. }
  destruct (l !! k) as [p|]; [|by apply Hw, IH]. case_decide; [|by apply Hw, IH].
  pose proof (IH (S k) (run k (<[k:=set_state RUNNING p]> l))) as IHr.
  destruct (scheduler_pass run n (S k) _) as [t l']. cbn in *. constructor; [lia|by apply Hw].
Qed.

Lemma scheduler_pass_all n k l j :
  leaves_alone → (k ≤ j < k + n)%nat → runnable l j → j ∈ (scheduler_pass run n k l).1.
Proof.
  intros Hl. revert k l. induction n as [|n IH]; intros k l Hj Hr; [lia|]. cbn [scheduler_pass].
  destruct (decide (j = k)) as [->|Hne].
  - unfold runnable in Hr. destruct (l !! k) as [p|]; [|done]. injection Hr as Hr. rewrite decide_True by done.
    destruct (scheduler_pass run n (S k) _) as [t l']. cbn. constructor.
  - destruct (l !! k) as [p|] eqn:Ep; [|by apply IH; [lia|]]. case_decide; [|by apply IH; [lia|]].
    specialize (IH (S k) (run k (<[k:=set_state RUNNING p]> l)) ltac:(lia)).
    destruct (scheduler_pass run n (S k) _) as [t l']. cbn in *. constructor. apply IH.
    pose proof (Hl k l j ltac:(lia)) as Hlj. rewrite Ep in Hlj. apply Hlj. unfold runnable.
    by rewrite list_lookup_insert_ne by done.
Qed.

Lemma scheduler_pass_sorted n k l : Sorted lt (scheduler_pass run n k l).1.
Proof.
  revert k l. induction n as [|n IH]; intros k l; cbn [scheduler_pass]; [constructor|].
  destruct (l !! k) as [p|]; [|apply IH]. case_decide; [|apply IH].
  pose proof (IH (S k) (run k (<[k:=set_state RUNNING p]> l))) as IHs.
  pose proof (scheduler_pass_bounds n (S k) (run k (<[k:=set_state RUNNING p]> l))) as Hb.
  destruct (scheduler_pass run n (S k) _) as [t l']. cbn in *. constructor; [done|].
  destruct t as [|j t]; constructor. apply Forall_cons_1 in Hb as [? _]. lia.
Qed.

(** C39: One pass of the scheduler switches to every process that could run
    when the pass began, each once and in table order, provided that while one
    of them runs the later ones stay runnable: no runnable process waits for
    more than a pass. *)
Theorem scheduler_runs_every_runnable l j :
  leaves_alone → (length l ≤ NPROC)%nat → runnable l j →
  j ∈ (scheduler run l).1 ∧ Sorted lt (scheduler run l).1.
Proof.
  intros Hl Hlen Hr. split; [|apply scheduler_pass_sorted]. apply scheduler_pass_all; [done| |done].
  unfold runnable in Hr. destruct (l !! j) eqn:E; [|done]. apply lookup_lt_Some in E. lia.
Qed.
End pass.

(** A process that exits when it runs; the one after it can run too. *)
Definition demo_table : list proc := [set_state SLEEPING demo_proc; set_state RUNNABLE demo_proc; set_state RUNNABLE demo_proc].
Lemma scheduler_runs_every_runnable_witness :
  (scheduler (λ k l, alter (set_state ZOMBIE) k l) demo_table).1 = [1; 2]%nat ∧
  2%nat ∈ (scheduler (λ k l, alter (set_state ZOMBIE) k l) demo_table).1.
Proof.
  split; [by vm_compute|].
  refine (proj1 (scheduler_runs_every_runnable (λ k l, alter (set_state ZOMBIE) k l) demo_table 2 _ _ _)).
  - intros k l j Hk Hr. unfold runnable. by rewrite list_lookup_alter_ne by lia.
  - cbn. unfold NPROC. lia.
  - reflexivity.
Defined.
