(* ===== verification/Vm.v ===== *)
(** Page tables and user memory ([xv6/kernel/vm.c]) over the physical memory of
    [Kalloc.v], which the kernel sees at the same addresses. Segments, control
    registers and the switch between page tables are the machine's and are
    left out. *)

From S2P Require Import Prelude UnixFile Kalloc.

(** ** Definitions *)

Definition PTE_P : Z := 0x001.
Definition PTE_W : Z := 0x002.
Definition PTE_U : Z := 0x004.
Definition PTE_ADDR (pte : Z) : Z := Z.land (u32 pte) (u32 (Z.lnot 0xFFF)).
Definition PDX (la : Z) : Z := Z.land (Z.shiftr (u32 la) 22) 0x3FF.
Definition PTX (la : Z) : Z := Z.land (Z.shiftr (u32 la) 12) 0x3FF.
Definition NPDENTRIES : nat := 1024.
Definition PGROUNDDOWN (a : Z) : Z := Z.land (u32 a) (u32 (Z.lnot (PGSIZE - 1))).
Definition PADDR (a : Z) : Z := u32 a.
Definition USERTOP : Z := 0xA0000.
Definition has_flag (pte f : Z) : bool := ctrue (Z.land pte f).

Definition readw (a : Z) : M kmem_t Z := gets (λ k, word (kram k) a).
Definition store (a : Z) (bs : list Z) : M kmem_t unit := modify (λ k, mkKmem (freelist k) (put_bytes (kram k) a bs)).
Definition writew (a v : Z) : M kmem_t unit := store a (le_bytes 4 v).
Definition clear_page (a : Z) : M kmem_t unit := store a (replicate (Z.to_nat PGSIZE) 0).
Definition load (a n : Z) : M kmem_t (list Z) := gets (λ k, bytes_at (kram k) a n).

(** The address of a page-table entry; [None] is the null pointer. *)
Definition walkpgdir (pgdir va : Z) (create : bool) : M kmem_t (option Z) :=
  let pde := pgdir + 4 * PDX va in
  e ← readw pde;
  if has_flag e PTE_P then mret (Some (PTE_ADDR e + 4 * PTX va)) else
  if negb create then mret None else
  pgtab ← kalloc;
  if pgtab =? 0 then mret None else
  clear_page pgtab;;
  writew pde (Z.lor (Z.lor (Z.lor (PADDR pgtab) PTE_P) PTE_W) PTE_U);;
  mret (Some (pgtab + 4 * PTX va)).

Fixpoint mappages_loop (fuel : nat) (pgdir a last pa perm : Z) : M kmem_t Z :=
  match fuel with
  | O => nofuel
  | S fuel' =>
      pte ← walkpgdir pgdir a true;
      match pte with
      | None => mret (-1)
      | Some pte =>
          e ← readw pte;
          if has_flag e PTE_P then panic "remap" else
          writew pte (Z.lor (Z.lor pa perm) PTE_P);;
          if a =? last then mret 0
          else mappages_loop fuel' pgdir (u32 (a + PGSIZE)) last (u32 (pa + PGSIZE)) perm
      end
  end.
(** The loop goes round the address space at most once: it meets its own
    mappings then. *)
Definition MAP_FUEL : nat := Z.to_nat 1048577.
Definition mappages (pgdir la size pa perm : Z) : M kmem_t Z :=
  mappages_loop MAP_FUEL pgdir (PGROUNDDOWN la) (PGROUNDDOWN (la + size - 1)) pa perm.

Section vm.
(** [end] and [data], from the linker. *)
Context (kend data : Z).

Definition kmap : list (Z * Z * Z) :=
  [(USERTOP, 0x100000, PTE_W); (0x100000, data, 0); (data, PHYSTOP, PTE_W); (0xFE000000, 0, PTE_W)].

Fixpoint map_all (pgdir : Z) (ks : list (Z * Z * Z)) : M kmem_t Z :=
  match ks with
  | [] => mret pgdir
  | (p, e, perm) :: ks' =>
      r ← mappages pgdir p (u32 (e - p)) p perm;
      if r <? 0 then mret 0 else map_all pgdir ks'
  end.
(** [setupkvm]: 0 on failure. *)
Definition setupkvm : M kmem_t Z :=
  pgdir ← kalloc;
  if pgdir =? 0 then mret 0 else
  clear_page pgdir;;
  map_all pgdir kmap.

(** Without a page for the program, the kernel writes at address 0. *)
Definition inituvm (pgdir : Z) (init : list Z) : M kmem_t unit :=
  if Z.of_nat (length init) >=? PGSIZE then panic "inituvm: more than a page" else
  mem ← kalloc;
  if mem =? 0 then undef else
  clear_page mem;;
  mappages pgdir 0 PGSIZE (PADDR mem) (Z.lor PTE_W PTE_U);;
  store mem init.

(** [loaduvm]; the program's inode is read by [readi off n], over the state [R]
    of the file system: its result and the bytes it delivers. *)
Fixpoint loaduvm_loop {R} (readi : Z → Z → M R (Z * list Z)) (fuel : nat) (pgdir addr i offset sz : Z) : M (R * kmem_t) Z :=
  match fuel with
  | O => nofuel
  | S fuel' =>
      if i <? sz then
        pte ← on_snd (walkpgdir pgdir (u32 (addr + i)) false);
        match pte with
        | None => panic "loaduvm: address should exist"
        | Some pte =>
            e ← on_snd (readw pte);
            let n := if sz - i <? PGSIZE then sz - i else PGSIZE in
            '(r, bs) ← on_fst (readi (u32 (offset + i)) n);
            on_snd (store (PTE_ADDR e) bs);;
            if negb (r =? n) then mret (-1) else loaduvm_loop readi fuel' pgdir addr (u32 (i + PGSIZE)) offset sz
        end
      else mret 0
  end.
Definition loaduvm {R} (readi : Z → Z → M R (Z * list Z)) (pgdir addr offset sz : Z) : M (R * kmem_t) Z :=
  if negb (u32 addr `mod` PGSIZE =? 0) then panic "loaduvm: addr must be page aligned" else
  loaduvm_loop readi (S (Z.to_nat (sz / PGSIZE) + 1)) pgdir addr 0 offset sz.

Fixpoint deallocuvm_loop (fuel : nat) (pgdir a oldsz : Z) : M kmem_t unit :=
  match fuel with
  | O => nofuel
  | S fuel' =>
      if a <? oldsz then
        pte ← walkpgdir pgdir a false;
        (match pte with
         | None => mret tt
         | Some pte =>
             e ← readw pte;
             when (has_flag e PTE_P)
               (if PTE_ADDR e =? 0 then panic "kfree" else kfree kend (PTE_ADDR e);; writew pte 0)
         end);;
        deallocuvm_loop fuel' pgdir (u32 (a + PGSIZE)) oldsz
      else mret tt
  end.
Definition deallocuvm (pgdir oldsz newsz : Z) : M kmem_t Z :=
  if newsz >=? oldsz then mret oldsz else
  deallocuvm_loop (S (Z.to_nat (oldsz / PGSIZE) + 1)) pgdir (PGROUNDUP newsz) oldsz;;
  mret newsz.

Fixpoint allocuvm_loop (fuel : nat) (pgdir a oldsz newsz : Z) : M kmem_t Z :=
  match fuel with
  | O => nofuel
  | S fuel' =>
      if a <? newsz then
        mem ← kalloc;
        if mem =? 0 then deallocuvm pgdir newsz oldsz;; mret 0 else
        clear_page mem;;
        mappages pgdir a PGSIZE (PADDR mem) (Z.lor PTE_W PTE_U);;   (* its result is not looked at *)
        allocuvm_loop fuel' pgdir (u32 (a + PGSIZE)) oldsz newsz
      else mret newsz
  end.
Definition allocuvm (pgdir oldsz newsz : Z) : M kmem_t Z :=
  if newsz >? USERTOP then mret 0 else
  if newsz <? oldsz then mret oldsz else
  allocuvm_loop (S (Z.to_nat (newsz / PGSIZE) + 1)) pgdir (PGROUNDUP oldsz) oldsz newsz.

Fixpoint free_tables (n : nat) (pgdir i : Z) : M kmem_t unit :=
  match n with
  | O => mret tt
  | S n' =>
      e ← readw (pgdir + 4 * i);
      when (has_flag e PTE_P) (kfree kend (PTE_ADDR e));;
      free_tables n' pgdir (i + 1)
  end.
Definition freevm (pgdir : Z) : M kmem_t unit :=
  if pgdir =? 0 then panic "freevm: no pgdir" else
  deallocuvm pgdir USERTOP 0;;
  free_tables NPDENTRIES pgdir 0;;
  kfree kend pgdir.

Fixpoint copyuvm_loop (fuel : nat) (pgdir d i sz : Z) : M kmem_t Z :=
  match fuel with
  | O => nofuel
  | S fuel' =>
      if i <? sz then
        pte ← walkpgdir pgdir i false;
        match pte with
        | None => panic "copyuvm: pte should exist"
        | Some pte =>
            e ← readw pte;
            if negb (has_flag e PTE_P) then panic "copyuvm: page not present" else
            mem ← kalloc;
            if mem =? 0 then freevm d;; mret 0 else
            bs ← load (PTE_ADDR e) PGSIZE;
            store mem bs;;
            r ← mappages d i PGSIZE (PADDR mem) (Z.lor PTE_W PTE_U);
            if r <? 0 then freevm d;; mret 0 else copyuvm_loop fuel' pgdir d (u32 (i + PGSIZE)) sz
        end
      else mret d
  end.
Definition copyuvm (pgdir sz : Z) : M kmem_t Z :=
  d ← setupkvm;
  if d =? 0 then mret 0 else copyuvm_loop (S (Z.to_nat (sz / PGSIZE) + 1)) pgdir d 0 sz.

(** [uva2ka]: 0 when the page is not the user's. It reads through the null
    pointer when there is no table for it. *)
Definition uva2ka (pgdir uva : Z) : M kmem_t Z :=
  pte ← walkpgdir pgdir uva false;
  pte ← need pte;
  e ← readw pte;
  if negb (has_flag e PTE_P) then mret 0 else
  if negb (has_flag e PTE_U) then mret 0 else
  mret (PTE_ADDR e).

Fixpoint copyout_loop (fuel : nat) (pgdir va : Z) (buf : list Z) : M kmem_t Z :=
  match fuel with
  | O => nofuel
  | S fuel' =>
      match buf with
      | [] => mret 0
      | _ =>
          let va0 := PGROUNDDOWN va in
          pa0 ← uva2ka pgdir va0;
          if pa0 =? 0 then mret (-1) else
          let n := Z.min (PGSIZE - (va - va0)) (Z.of_nat (length buf)) in
          store (pa0 + (va - va0)) (take (Z.to_nat n) buf);;
          copyout_loop fuel' pgdir (u32 (va0 + PGSIZE)) (drop (Z.to_nat n) buf)
      end
  end.
Definition copyout (pgdir va : Z) (p : list Z) : M kmem_t Z := copyout_loop (S (length p)) pgdir va p.
End vm.
