(* ===== verification/VmProofs.v ===== *)
(** [mappages] against the processor's address translation: what the two-level
    tables mean to the hardware, the invariant that keeps page tables apart,
    and what mapping a range of pages does. *)

From S2P Require Import Prelude UnixFile Kalloc Vm.

(** ** The processor's translation *)

(** The frame and the flags of the entry for address [va], when both levels
    are present. *)
Definition frame (e : Z) : Z := e `div` 4096 * 4096.
Definition present (e : Z) : Prop := e `mod` 2 = 1.
#[export] Instance present_dec e : Decision (present e) := _.
Definition pde_at (m : gmap Z Z) (pgdir i : Z) : Z := word m (pgdir + 4 * i).
Definition pte_at (m : gmap Z Z) (pgdir v : Z) : Z :=
  word m (frame (pde_at m pgdir (v `div` 1024)) + 4 * (v `mod` 1024)).
(** [v] is a virtual page number. *)
Definition translate (m : gmap Z Z) (pgdir v : Z) : option (Z * Z) :=
  if decide (present (pde_at m pgdir (v `div` 1024)))
  then if decide (present (pte_at m pgdir v)) then Some (frame (pte_at m pgdir v), pte_at m pgdir v `mod` 4096) else None
  else None.

(** ** The code's arithmetic *)

Lemma land_mask z : is_u32 z → Z.land z (u32 (Z.lnot 0xFFF)) = frame z.
Proof.
  unfold is_u32, frame. intros Hz. change (u32 (Z.lnot 0xFFF)) with (Z.ldiff (Z.ones 32) (Z.ones 12)).
  change 4096 with (2 ^ 12). rewrite <-Z.shiftl_mul_pow2, <-Z.shiftr_div_pow2 by lia.
  apply Z.bits_inj'. intros i Hi. rewrite Z.land_spec, Z.ldiff_spec, Z.shiftl_spec by lia.
  destruct (Z.ltb_spec i 12).
  - rewrite (Z.ones_spec_low 12), !andb_false_r by lia. symmetry. apply Z.testbit_neg_r. lia.
  - rewrite (Z.ones_spec_high 12), Z.shiftr_spec, Z.sub_add, andb_true_r by lia. destruct (Z.ltb_spec i 32).
    + rewrite Z.ones_spec_low by lia. apply andb_true_r.
    + rewrite Z.ones_spec_high, andb_false_r by lia. symmetry. destruct (decide (z = 0)) as [->|]; [apply Z.testbit_0_l|].
      apply Z.bits_above_log2; [lia|]. apply Z.log2_lt_pow2; [lia|]. apply Z.lt_le_trans with (2 ^ 32); [lia|].
      apply Z.pow_le_mono_r; lia.
Qed.
Lemma PTE_ADDR_frame e : is_u32 e → PTE_ADDR e = frame e.
Proof. intros. unfold PTE_ADDR. by rewrite u32_small, land_mask. Qed.
Lemma PGROUNDDOWN_frame a : is_u32 a → PGROUNDDOWN a = frame a.
Proof. intros. unfold PGROUNDDOWN. rewrite u32_small by done. by apply land_mask. Qed.
Lemma PDX_div la : is_u32 la → PDX la = (la `div` 4096) `div` 1024.
Proof.
  intros H. unfold PDX. rewrite u32_small by done. change 0x3FF with (Z.ones 10).
  rewrite Z.land_ones, Z.shiftr_div_pow2 by lia. change (2 ^ 22) with (4096 * 1024). rewrite <-Z.div_div by lia.
  apply Z.mod_small. unfold is_u32 in H. split; [apply Z.div_pos; [apply Z.div_pos|]; lia|].
  apply Z.div_lt_upper_bound; [lia|]. apply Z.div_lt_upper_bound; lia.
Qed.
Lemma PTX_div la : is_u32 la → PTX la = (la `div` 4096) `mod` 1024.
Proof.
  intros H. unfold PTX. rewrite u32_small by done. change 0x3FF with (Z.ones 10).
  by rewrite Z.land_ones, Z.shiftr_div_pow2 by lia.
Qed.
Lemma has_P e : has_flag e PTE_P = bool_decide (present e).
Proof.
  unfold has_flag, PTE_P, present. change (Z.land e 1) with (Z.land e (Z.ones 1)). rewrite Z.land_ones by lia. change (2 ^ 1) with 2.
  unfold ctrue. pose proof (Z.mod_pos_bound e 2). case_bool_decide; destruct (Z.eqb_spec (e `mod` 2) 0); lia || done.
Qed.

Lemma frame_le e : 0 ≤ e → 0 ≤ frame e ≤ e ∧ e - frame e = e `mod` 4096.
Proof. intros. unfold frame. pose proof (Z.div_mod e 4096). pose proof (Z.mod_pos_bound e 4096). pose proof (Z.div_pos e 4096). lia. Qed.
Lemma frame_mod e : frame e `mod` 4096 = 0.
Proof. unfold frame. by apply Z.mod_mul. Qed.

(** An aligned address with flags in its low bits. *)
Lemma lor_aligned a f : a `mod` 4096 = 0 → 0 ≤ f < 4096 → Z.lor a f = a + f.
Proof.
  intros Ha Hf. assert (Z.land a f = 0) as Hl.
  { apply Z.bits_inj'. intros i Hi. rewrite Z.land_spec, Z.testbit_0_l. destruct (Z.ltb_spec i 12).
    - rewrite <-(Z.mod_pow2_bits_low a 12 i) by lia. change (2 ^ 12) with 4096. by rewrite Ha, Z.testbit_0_l.
    - rewrite <-(Z.mod_small f 4096) by done. change 4096 with (2 ^ 12). rewrite Z.mod_pow2_bits_high by lia.
      apply andb_false_r. }
  rewrite Z.add_nocarry_lxor, Z.lxor_lor by done. done.
Qed.
Lemma frame_flags a f : a `mod` 4096 = 0 → 0 ≤ f < 4096 → frame (a + f) = a ∧ (a + f) `mod` 4096 = f.
Proof.
  intros Ha Hf. apply Z.mod_divide in Ha as [q ->]; [|done]. unfold frame.
  rewrite Z.add_comm, Z.mod_add, Z.div_add, Z.div_small, Z.mod_small by lia. lia.
Qed.
Lemma present_flags a f : a `mod` 4096 = 0 → present (a + f) ↔ present f.
Proof.
  intros Ha. apply Z.mod_divide in Ha as [q ->]; [|done]. unfold present.
  replace (q * 4096 + f) with (f + q * 2048 * 2) by lia. by rewrite Z.mod_add.
Qed.

(** ** Words in memory *)

Definition bytes_ok (m : gmap Z Z) : Prop := ∀ a, is_byte (default 0 (m !! a)).

Lemma bytes_ok_put m o bs : bytes_ok m → Forall is_byte bs → bytes_ok (put_bytes m o bs).
Proof.
  intros Hm Hb a. rewrite lookup_put_bytes. case_decide; [|apply Hm].
  destruct (bs !! Z.to_nat (a - o)) as [b|] eqn:E; cbn; [|unfold is_byte; lia].
  by apply (proj1 (list.Forall_lookup _ _) Hb _ _ E).
Qed.
Lemma word_range m a : bytes_ok m → is_u32 (word m a).
Proof.
  intros Hm. unfold word, is_u32. change 4294967296 with (256 ^ Z.of_nat (length (bytes_at m a 4))).
  apply le_val_range. apply list.Forall_forall. intros b Hb. apply list_elem_of_lookup in Hb as [i Hi].
  rewrite lookup_bytes_at in Hi. case_decide; [|done]. injection Hi as <-. apply Hm.
Qed.
Lemma word_cleared m t a : t ≤ a → a + 4 ≤ t + 4096 → word (put_bytes m t (replicate (Z.to_nat PGSIZE) 0)) a = 0.
Proof.
  intros H1 H2. unfold word. change (Z.to_nat PGSIZE) with 4096%nat.
  rewrite bytes_at_put_in by (rewrite ?length_replicate; lia). rewrite drop_replicate, take_replicate.
  replace (Z.to_nat 4 `min` (4096 - Z.to_nat (a - t)))%nat with 4%nat by lia. by vm_compute.
Qed.

(** ** Address spaces *)

Section space.
Context (kend : Z) (Hend : 0 < kend).

(** An address space whose tables are pages of their own, none of them free. *)
Record vm_ok (k : kmem_t) (pgdir : Z) (l : list Z) : Prop := {
  vo_mem : kmem_ok kend k l;
  vo_bytes : bytes_ok (kram k);
  vo_dir : page kend pgdir ∧ pgdir ∉ l;
  vo_tab i : 0 ≤ i < 1024 → present (pde_at (kram k) pgdir i) →
    page kend (frame (pde_at (kram k) pgdir i)) ∧ frame (pde_at (kram k) pgdir i) ≠ pgdir ∧ frame (pde_at (kram k) pgdir i) ∉ l;
  vo_inj i j : 0 ≤ i < 1024 → 0 ≤ j < 1024 → present (pde_at (kram k) pgdir i) → present (pde_at (kram k) pgdir j) →
    frame (pde_at (kram k) pgdir i) = frame (pde_at (kram k) pgdir j) → i = j
}.

Definition with_bytes (o : Z) (bs : list Z) (k : kmem_t) : kmem_t := mkKmem (freelist k) (put_bytes (kram k) o bs).

(** A store into a page that is not free. *)
Lemma kmem_ok_store k l p o bs :
  kmem_ok kend k l → page kend p → p ∉ l → p ≤ o → o + Z.of_nat (length bs) ≤ p + PGSIZE → kmem_ok kend (with_bytes o bs k) l.
Proof. intros [Hc Hn Hp] Hpg Hnin Ho Hb. constructor; [|done..]. by apply (chain_frame kend _ _ _ p). Qed.

Lemma word_other_page m p q o bs a :
  page kend p → page kend q → p ≠ q → p ≤ o → o + Z.of_nat (length bs) ≤ p + PGSIZE → q ≤ a → a + 4 ≤ q + PGSIZE →
  word (put_bytes m o bs) a = word m a.
Proof. intros Hp Hq Hne ????. apply word_put_other. destruct (page_apart kend p q Hp Hq Hne); unfold PGSIZE in *; lia. Qed.

Lemma index_range v : 0 ≤ v < 1048576 → 0 ≤ v `div` 1024 < 1024 ∧ 0 ≤ v `mod` 1024 < 1024.
Proof. intros. pose proof (Z.mod_pos_bound v 1024). pose proof (Z.div_mod v 1024). lia. Qed.

(** Writing the entry for page [v] changes the translation of that page only. *)
Lemma write_pte k pgdir l v e :
  vm_ok k pgdir l → 0 ≤ v < 1048576 → present (pde_at (kram k) pgdir (v `div` 1024)) → is_u32 e →
  let k' := with_bytes (frame (pde_at (kram k) pgdir (v `div` 1024)) + 4 * (v `mod` 1024)) (le_bytes 4 e) k in
  vm_ok k' pgdir l ∧ ∀ w, 0 ≤ w < 1048576 → translate (kram k') pgdir w =
    if decide (w = v) then if decide (present e) then Some (frame e, e `mod` 4096) else None else translate (kram k) pgdir w.
Proof.
  intros I Hv Hp He k'. destruct I as [Hm Hb [Hd Hdl] Ht Hinj].
  destruct (index_range v Hv) as [Hvd Hvm]. destruct (Ht _ Hvd Hp) as (Hpg & Hne & Hnl).
  set (t := frame (pde_at (kram k) pgdir (v `div` 1024))) in *.
  assert (∀ i, 0 ≤ i < 1024 → pde_at (kram k') pgdir i = pde_at (kram k) pgdir i) as Hpde.
  { intros i Hi. unfold pde_at, k', with_bytes. cbn [kram]. apply (word_other_page _ t pgdir); try done;
      rewrite ?length_le_bytes; unfold PGSIZE; lia. }
  split.
  - constructor.
    + apply (kmem_ok_store _ _ t); try done; rewrite ?length_le_bytes; unfold PGSIZE; lia.
    + by apply bytes_ok_put; [|apply le_bytes_bytes].
    + done.
    + intros i Hi. rewrite Hpde by done. by apply Ht.
    + intros i j Hi Hj. rewrite !Hpde by done. by apply Hinj.
  - intros w Hw. destruct (index_range w Hw) as [Hwd Hwm]. unfold translate. rewrite Hpde by done.
    case_decide as Hpw.
    + destruct (decide (w = v)) as [Hwv|Hwv].
      * rewrite Hwv. unfold pte_at. rewrite Hpde by done. fold t. unfold k', with_bytes. cbn [kram].
        by rewrite word_put_same.
      * assert (pte_at (kram k') pgdir w = pte_at (kram k) pgdir w) as ->; [|done].
        unfold pte_at. rewrite Hpde by done. destruct (decide (w `div` 1024 = v `div` 1024)) as [E|E].
        -- rewrite E. fold t. unfold k', with_bytes. cbn [kram]. apply word_put_other. rewrite length_le_bytes.
           pose proof (Z.div_mod v 1024). pose proof (Z.div_mod w 1024). lia.
        -- destruct (Ht _ Hwd Hpw) as (Hpg' & _). unfold k', with_bytes. cbn [kram].
           apply (word_other_page _ t (frame (pde_at (kram k) pgdir (w `div` 1024)))); try done;
             rewrite ?length_le_bytes; unfold PGSIZE; try lia. intros Et. apply E. symmetry. by apply Hinj.
    + rewrite decide_False; [done|]. by intros ->.
Qed.

(** A new, empty table for the [i]-th entry of the directory. *)
Definition with_table (pgdir i t : Z) (k : kmem_t) : kmem_t :=
  with_bytes (pgdir + 4 * i) (le_bytes 4 (t + 7)) (with_bytes t (replicate (Z.to_nat PGSIZE) 0) k).

Lemma translate_absent m pgdir w : ¬ present (pde_at m pgdir (w `div` 1024)) → translate m pgdir w = None.
Proof. intros. unfold translate. by rewrite decide_False. Qed.
Lemma translate_zero m pgdir w : pte_at m pgdir w = 0 → translate m pgdir w = None.
Proof. intros E. unfold translate. rewrite E. by case_decide. Qed.

Lemma page_u32 t f : page kend t → 0 ≤ f < 4096 → is_u32 (t + f).
Proof. unfold page, PHYSTOP, is_u32. lia. Qed.

Lemma with_table_pde k pgdir i t j :
  page kend pgdir → page kend t → pgdir ≠ t → 0 ≤ i < 1024 → 0 ≤ j < 1024 →
  pde_at (kram (with_table pgdir i t k)) pgdir j = if decide (j = i) then t + 7 else pde_at (kram k) pgdir j.
Proof.
  intros Hd Ht Hne Hi Hj. unfold pde_at, with_table, with_bytes. cbn [kram]. case_decide as E.
  - rewrite E, word_put_same; [done|]. apply page_u32; [done|lia].
  - rewrite word_put_other by (rewrite length_le_bytes; lia).
    apply (word_other_page _ t pgdir); try done; rewrite ?length_replicate; unfold PGSIZE; lia.
Qed.

Lemma with_table_pte k pgdir i t j a :
  page kend pgdir → page kend t → pgdir ≠ t → 0 ≤ i < 1024 → 0 ≤ j < 1024 → page kend a → a ≠ pgdir →
  word (kram (with_table pgdir i t k)) (a + 4 * j) = if decide (a = t) then 0 else word (kram k) (a + 4 * j).
Proof.
  intros Hd Ht Hne Hi Hj Ha Had. unfold with_table, with_bytes. cbn [kram].
  rewrite (word_other_page _ pgdir a) by (try done; rewrite ?length_le_bytes; unfold PGSIZE; lia).
  case_decide as E; [rewrite E; apply word_cleared; lia|].
  apply (word_other_page _ t a); try done; rewrite ?length_replicate; unfold PGSIZE; lia.
Qed.

Lemma frame_t7 t : page kend t → frame (t + 7) = t ∧ present (t + 7).
Proof.
  intros [Ht _]. destruct (frame_flags t 7) as [E _]; [done|lia|]. split; [done|]. by apply present_flags.
Qed.

Lemma add_table k k1 pgdir l t i :
  vm_ok k pgdir (t :: l) → kram k1 = kram k → kmem_ok kend k1 l → 0 ≤ i < 1024 → ¬ present (pde_at (kram k) pgdir i) →
  let k' := with_table pgdir i t k1 in
  vm_ok k' pgdir l ∧ pde_at (kram k') pgdir i = t + 7 ∧
  ∀ w, 0 ≤ w < 1048576 → translate (kram k') pgdir w = translate (kram k) pgdir w.
Proof.
  intros [Hm Hb [Hd Hdl] Htab Hinj] Ek Hm1 Hi Hnp k'.
  pose proof (ko_pages _ _ _ Hm) as Hpl. apply Forall_cons_1 in Hpl as [Ht Hpl].
  pose proof (ko_nodup _ _ _ Hm) as Hnd. apply NoDup_cons_1_1 in Hnd as Htl.
  apply not_elem_of_cons in Hdl as [Hne Hdl]. destruct (frame_t7 t Ht) as [Ef Epr].
  assert (∀ j, 0 ≤ j < 1024 → pde_at (kram k') pgdir j = if decide (j = i) then t + 7 else pde_at (kram k) pgdir j) as Hpde.
  { intros j Hj. unfold k'. rewrite with_table_pde by done. unfold pde_at. by rewrite Ek. }
  split; [|split; [rewrite Hpde by done; by rewrite decide_True|]].
  - constructor.
    + apply (kmem_ok_store _ _ pgdir); try done; try (rewrite ?length_le_bytes; unfold PGSIZE; lia).
      apply (kmem_ok_store _ _ t); try done; rewrite length_replicate; unfold PGSIZE; lia.
    + apply bytes_ok_put; [|apply le_bytes_bytes]. apply bytes_ok_put; [by rewrite Ek|]. apply Forall_replicate. unfold is_byte. lia.
    + done.
    + intros j Hj. rewrite Hpde by done. case_decide as E; [by rewrite Ef|]. intros Hp.
      destruct (Htab j Hj Hp) as (? & ? & Hl). apply not_elem_of_cons in Hl as [_ Hl]. done.
    + intros j1 j2 Hj1 Hj2. rewrite !Hpde by done. intros Hp1 Hp2 E.
      destruct (decide (j1 = i)), (decide (j2 = i)); subst; try done.
      * destruct (Htab j2 Hj2 Hp2) as (_ & _ & Hl). rewrite <-E, Ef in Hl. by destruct Hl; left.
      * destruct (Htab j1 Hj1 Hp1) as (_ & _ & Hl). rewrite E, Ef in Hl. by destruct Hl; left.
      * by apply Hinj.
  - intros w Hw. destruct (index_range w Hw) as [Hwd Hwm]. destruct (decide (w `div` 1024 = i)) as [E|E].
    + transitivity (@None (Z * Z)).
      * apply translate_zero. unfold pte_at. rewrite Hpde, decide_True, Ef by done. unfold k'.
        by rewrite with_table_pte, decide_True by done.
      * symmetry. apply translate_absent. by rewrite E.
    + unfold translate, pte_at. rewrite Hpde, (decide_False (P := _ = i)) by done.
      case_decide as Hp; [|done]. destruct (Htab _ Hwd Hp) as (Hpg & Hpd & Hl). apply not_elem_of_cons in Hl as [Hlt _].
      assert (word (kram k') (frame (pde_at (kram k) pgdir (w `div` 1024)) + 4 * (w `mod` 1024)) =
        word (kram k) (frame (pde_at (kram k) pgdir (w `div` 1024)) + 4 * (w `mod` 1024))) as ->; [|done].
      unfold k'. rewrite with_table_pte by done. rewrite decide_False by done. by rewrite Ek.
Qed.

(** [walkpgdir] with [create]: the entry for page [v], whose table is there,
    or the free list is empty. No translation changes. *)
Lemma walkpgdir_run k pgdir l v :
  vm_ok k pgdir l → 0 ≤ v < 1048576 →
  (l = [] ∧ walkpgdir pgdir (v * 4096) true k = Ok (None, k)) ∨
  ∃ k' l', walkpgdir pgdir (v * 4096) true k =
      Ok (Some (frame (pde_at (kram k') pgdir (v `div` 1024)) + 4 * (v `mod` 1024)), k') ∧
    vm_ok k' pgdir l' ∧ present (pde_at (kram k') pgdir (v `div` 1024)) ∧
    ∀ w, 0 ≤ w < 1048576 → translate (kram k') pgdir w = translate (kram k) pgdir w.
Proof.
  intros I Hv. destruct (index_range v Hv) as [Hvd Hvm].
  assert (is_u32 (v * 4096)) as Hu by (unfold is_u32; lia).
  unfold walkpgdir. rewrite (PDX_div (v * 4096)), (PTX_div (v * 4096)), Z.div_mul by done.
  assert (readw (pgdir + 4 * (v `div` 1024)) k = Ok (pde_at (kram k) pgdir (v `div` 1024), k)) as Er by done.
  step Er. rewrite has_P. case_bool_decide as Hp.
  - right. exists k, l. rewrite PTE_ADDR_frame by (apply word_range, I). done.
  - cbn [negb]. destruct (kalloc_run kend Hend k l (vo_mem _ _ _ I)) as (k1 & E1 & Hm1 & Ek1). step E1.
    destruct l as [|t l]; cbn [hd tl] in *.
    + left. split; [done|]. assert (k1 = k) as ->; [|done]. unfold kalloc, gets, mbind, M_bind in E1.
      pose proof (ko_chain _ _ _ (vo_mem _ _ _ I)) as Hc. cbn in Hc. rewrite Hc in E1. by injection E1 as <-.
    + right. destruct (add_table k k1 pgdir l t (v `div` 1024) I Ek1 Hm1 Hvd Hp) as (I' & Epde & Htr).
      pose proof (ko_pages _ _ _ (vo_mem _ _ _ I)) as Hpl. apply Forall_cons_1 in Hpl as [Ht _].
      exists (with_table pgdir (v `div` 1024) t k1), l. destruct (frame_t7 t Ht) as [Ef Epr]. rewrite Epde, Ef.
      split; [|exact (conj I' (conj Epr Htr))]. pose proof Ht as [Ht1 Ht2]. rewrite (proj2 (Z.eqb_neq t 0)) by lia.
      assert (Z.lor (Z.lor (Z.lor (PADDR t) PTE_P) PTE_W) PTE_U = t + 7) as Elor.
      { unfold PADDR. rewrite u32_small by (unfold is_u32, PHYSTOP in *; lia).
        rewrite <-!Z.lor_assoc. change (Z.lor PTE_P (Z.lor PTE_W PTE_U)) with 7. apply lor_aligned; [done|lia]. }
      rewrite Elor. reflexivity.
Qed.

(** ** Mapping a range *)

(** What the processor sees once the [n] pages from [v] on are mapped to the
    frames from [pa] on with the flags [perm]. *)
Definition maps_to (m m' : gmap Z Z) (pgdir v n pa perm : Z) : Prop :=
  ∀ w, 0 ≤ w < 1048576 → translate m' pgdir w =
    if decide (v ≤ w < v + n) then Some (pa + (w - v) * 4096, Z.lor perm 1) else translate m pgdir w.

Definition map_result (k : kmem_t) (pgdir v n pa perm : Z) (r : outcome (Z * kmem_t)) : Prop :=
  (∃ k' l', r = Ok (0, k') ∧ vm_ok k' pgdir l' ∧ maps_to (kram k) (kram k') pgdir v n pa perm ∧
     ∀ w, v ≤ w < v + n → translate (kram k) pgdir w = None) ∨
  (∃ k', r = Ok (-1, k') ∧ vm_ok k' pgdir [] ∧
     ∀ w, 0 ≤ w < 1048576 → w < v ∨ v + n ≤ w → translate (kram k') pgdir w = translate (kram k) pgdir w) ∨
  r = Panic "remap" ∧ ∃ w, v ≤ w < v + n ∧ translate (kram k) pgdir w ≠ None.

Lemma flags_range perm : 0 ≤ perm < 4096 → 0 ≤ Z.lor perm 1 < 4096 ∧ present (Z.lor perm 1).
Proof.
  intros H. split; [split; [apply Z.lor_nonneg; lia|]|].
  - apply Z.log2_lt_cancel. change (Z.log2 4096) with 12. rewrite Z.log2_lor by lia. apply Z.max_lub_lt; [|cbn; lia].
    destruct (decide (perm = 0)) as [->|]; [cbn; lia|]. apply Z.log2_lt_pow2; lia.
  - unfold present. rewrite <-Z.bit0_mod, Z.lor_spec. by rewrite orb_true_r.
Qed.

(** One page: the entry is written, unless there was a mapping already. *)
Lemma map_page k pgdir l v pa perm :
  vm_ok k pgdir l → 0 ≤ v < 1048576 → present (pde_at (kram k) pgdir (v `div` 1024)) →
  pa `mod` 4096 = 0 → 0 ≤ pa → pa + 4096 ≤ 4294967296 → 0 ≤ perm < 4096 →
  let o := frame (pde_at (kram k) pgdir (v `div` 1024)) + 4 * (v `mod` 1024) in
  has_flag (word (kram k) o) PTE_P = bool_decide (translate (kram k) pgdir v ≠ None) ∧
  vm_ok (with_bytes o (le_bytes 4 (Z.lor (Z.lor pa perm) PTE_P)) k) pgdir l ∧
  maps_to (kram k) (kram (with_bytes o (le_bytes 4 (Z.lor (Z.lor pa perm) PTE_P)) k)) pgdir v 1 pa perm.
Proof.
  intros I Hv Hp Hpa H0 Hpa2 Hperm o. destruct (flags_range perm Hperm) as [Hf Hfp].
  rewrite has_P. change PTE_P with 1. rewrite <-Z.lor_assoc, lor_aligned by done.
  destruct (frame_flags pa (Z.lor perm 1)) as [Ef Em]; [done..|].
  destruct (write_pte k pgdir l v (pa + Z.lor perm 1) I Hv Hp) as [I' Ht]; [unfold is_u32; lia|].
  split; [|split; [done|]].
  - unfold translate. rewrite (decide_True (P := present (pde_at _ _ _))) by done.
    change (word (kram k) o) with (pte_at (kram k) pgdir v).
    destruct (decide (present (pte_at (kram k) pgdir v))) as [Hq|Hq].
    + by rewrite !bool_decide_eq_true_2.
    + rewrite !bool_decide_eq_false_2; [done| |done]. intros Hn. by apply Hn.
  - intros w Hw. unfold o. rewrite (Ht w Hw). destruct (decide (w = v)) as [->|Hne].
    + rewrite decide_True, decide_True by (lia || by apply present_flags). by rewrite Ef, Em, Z.sub_diag, Z.add_0_r.
    + by rewrite decide_False by lia.
Qed.

Lemma maps_to_cons m m1 m2 pgdir v n pa perm :
  0 ≤ n → maps_to m m1 pgdir v 1 pa perm → maps_to m1 m2 pgdir (v + 1) n (pa + 4096) perm → maps_to m m2 pgdir v (n + 1) pa perm.
Proof.
  intros Hn H1 H2 w Hw. rewrite (H2 w Hw), (H1 w Hw). destruct (decide (w = v)) as [->|Hne].
  - rewrite decide_False, !decide_True by lia. done.
  - rewrite (decide_False (P := v ≤ w < v + 1)) by lia. repeat case_decide; try lia; [|done]. do 2 f_equal. lia.
Qed.

Lemma mappages_loop_run n : ∀ fuel k l pgdir v pa perm,
  (n < fuel)%nat → vm_ok k pgdir l → 0 ≤ v → v + Z.of_nat n < 1048576 → pa `mod` 4096 = 0 → 0 ≤ pa →
  pa + (Z.of_nat n + 1) * 4096 ≤ 4294967296 → 0 ≤ perm < 4096 →
  map_result k pgdir v (Z.of_nat n + 1) pa perm
    (mappages_loop fuel pgdir (v * 4096) ((v + Z.of_nat n) * 4096) pa perm k).
Proof.
  induction n as [|n IH]; intros [|fuel] k l pgdir v pa perm Hfu I Hv Hvn Hpa H0 Hpa2 Hperm; try lia; cbn [mappages_loop].
  all: destruct (walkpgdir_run k pgdir l v I) as [[-> E]|(k1 & l1 & E & I1 & Hp & Htr)]; [lia|step E; right; left; exists k; by split_and!|step E].
  all: destruct (map_page k1 pgdir l1 v pa perm I1 ltac:(lia) Hp Hpa H0 ltac:(lia) Hperm) as (Ef & I2 & Hm).
  all: set (o := frame _ + _) in *.
  all: assert (readw o k1 = Ok (word (kram k1) o, k1)) as Er by reflexivity; step Er; rewrite Ef, Htr by lia; clear Ef.
  all: case_bool_decide as Hc; [right; right; split; [reflexivity|exists v; split; [lia|done]]|].
  all: assert (translate (kram k) pgdir v = None) as Hfree by (destruct (translate (kram k) pgdir v); [by destruct Hc|done]).
  all: set (k2 := with_bytes o _ k1) in *.
  all: assert (writew o (Z.lor (Z.lor pa perm) PTE_P) k1 = Ok (tt, k2)) as Ew by reflexivity; step Ew.
  all: assert (maps_to (kram k) (kram k2) pgdir v 1 pa perm) as Hm' by (intros w Hw; rewrite (Hm w Hw), Htr by done; done).
  - rewrite (proj2 (Z.eqb_eq _ _)) by lia. left. exists k2, l1. split_and!; [done..|]. intros w Hw. by replace w with v by lia.
  - rewrite (proj2 (Z.eqb_neq _ _)) by lia. unfold PGSIZE. rewrite !u32_small by (unfold is_u32; lia).
    replace (v * 4096 + 4096) with ((v + 1) * 4096) by lia.
    replace ((v + Z.of_nat (S n)) * 4096) with ((v + 1 + Z.of_nat n) * 4096) by lia.
    assert ((pa + 4096) `mod` 4096 = 0) as Hpa' by (rewrite <-Z.add_mod_idemp_l, Hpa by lia; done).
    destruct (IH fuel k2 l1 pgdir (v + 1) (pa + 4096) perm) as [(k' & l' & E' & I' & Hm2 & Hfree2)|[(k' & E' & I' & Hsame)|(E' & w & Hw & Hn)]];
      [lia|done|lia|lia|done|lia|lia|done|..].
    + left. exists k', l'. split_and!; [done..| |]; replace (Z.of_nat (S n) + 1) with (Z.of_nat n + 1 + 1) by lia.
      * eapply maps_to_cons; [lia|done..].
      * intros w Hw. destruct (decide (w = v)) as [->|Hne]; [done|]. specialize (Hfree2 w ltac:(lia)). rewrite (Hm' w) in Hfree2 by lia.
        by rewrite decide_False in Hfree2 by lia.
    + right. left. exists k'. split_and!; [done..|]. intros w Hw Hr. rewrite Hsame by lia. rewrite (Hm' w Hw).
      by rewrite decide_False by lia.
    + right. right. split; [done|]. exists w. split; [lia|]. rewrite (Hm' w) in Hn by lia. by rewrite decide_False in Hn by lia.
Qed.

(** C14: [mappages] does to the processor's view of memory what it says: on an
    address space whose tables are pages of their own, it returns 0, none of
    the pages that meet the range was mapped before, and they, and no others,
    now translate to the frames from [pa] on with the permissions asked for; or it returns -1 and memory is
    exhausted, the pages outside the range untouched; or it panics, and then
    one of the pages was mapped before. The page tables stay apart from each
    other and from the free pages. *)
Theorem mappages_translates k l pgdir la size pa perm :
  vm_ok k pgdir l → 0 ≤ la → 0 < size → la + size ≤ 4294967296 → pa `mod` 4096 = 0 → 0 ≤ pa →
  pa + (size `div` 4096 + 2) * 4096 ≤ 4294967296 → 0 ≤ perm < 4096 →
  let v := la `div` 4096 in let n := (la + size - 1) `div` 4096 - v + 1 in
  map_result k pgdir v n pa perm (mappages pgdir la size pa perm k).
Proof.
  intros I Hla Hsz Hr Hpa H0 Hpa2 Hperm v n. unfold mappages.
  rewrite !PGROUNDDOWN_frame by (unfold is_u32; lia). unfold frame. fold v.
  set (u := (la + size - 1) `div` 4096) in *.
  assert (0 ≤ v ∧ v ≤ u ∧ u < 1048576 ∧ u - v ≤ size `div` 4096 + 1) as (Hv0 & Hvu & Hu & Hspan).
  { unfold u, v. pose proof (Z.div_mod la 4096). pose proof (Z.mod_pos_bound la 4096).
    pose proof (Z.div_mod (la + size - 1) 4096). pose proof (Z.mod_pos_bound (la + size - 1) 4096).
    pose proof (Z.div_mod size 4096). pose proof (Z.mod_pos_bound size 4096). lia. }
  pose proof (mappages_loop_run (Z.to_nat (u - v)) MAP_FUEL k l pgdir v pa perm) as R.
  rewrite Z2Nat.id in R by lia. replace (v + (u - v)) with u in R by lia.
  apply R; [|done|lia|lia|done|lia|nia|done].
  unfold MAP_FUEL. lia.
Qed.
End space.

(** *** A kernel of one megabyte *)

Definition demo_kend : Z := 0x100000.
(** The directory is the first page of the kernel's heap; the next is free. *)
Definition demo_mem : kmem_t := mkKmem 0x102000 ∅.

Lemma demo_pde i : pde_at (kram demo_mem) 0x101000 i = 0.
Proof. done. Qed.

Lemma demo_vm_ok : vm_ok demo_kend demo_mem 0x101000 [0x102000].
Proof.
  constructor.
  - constructor; [by vm_compute|by apply NoDup_singleton|]. apply Forall_singleton. split; [done|].
    unfold demo_kend, PHYSTOP. lia.
  - intros a. cbn [kram demo_mem]. rewrite lookup_empty. cbn. unfold is_byte. lia.
  - split; [split; [done|unfold demo_kend, PHYSTOP; lia]|]. rewrite list_elem_of_singleton. lia.
  - intros i _. by rewrite demo_pde.
  - intros i j _ _. by rewrite demo_pde.
Qed.

Definition demo_result : outcome (Z * kmem_t) := mappages 0x101000 0x5123 0x1000 0x200000 6 demo_mem.
Definition returns_0 {S} (r : outcome (Z * S)) : bool := match r with Ok (z, _) => z =? 0 | _ => false end.

(** The two pages that the range meets, both mapped. *)
Lemma mappages_translates_witness :
  ∃ k', demo_result = Ok (0, k') ∧ translate (kram k') 0x101000 5 = Some (0x200000, 7) ∧
    translate (kram k') 0x101000 6 = Some (0x201000, 7) ∧ translate (kram k') 0x101000 7 = None.
Proof.
  assert (map_result demo_kend demo_mem 0x101000 5 2 0x200000 6 (mappages 0x101000 0x5123 0x1000 0x200000 6 demo_mem)) as R.
  { refine (mappages_translates demo_kend _ demo_mem [0x102000] 0x101000 0x5123 0x1000 0x200000 6 demo_vm_ok _ _ _ _ _ _ _);
      by vm_compute. }
  assert (returns_0 demo_result = true) as E0 by (vm_compute; reflexivity).
  fold demo_result in R. destruct R as [(k' & l' & E & _ & Hm & _)|[(k' & E & _)|[E _]]]; [|rewrite E in E0; discriminate E0..].
  exists k'. split; [exact E|].
  clear E E0. rewrite (Hm 5), (Hm 6), (Hm 7) by lia. by vm_compute.
Defined.
