(* ===== verification/Console.v ===== *)
(** The console ([xv6/kernel/console.c]): the input ring that [consoleintr]
    edits and [consoleread] empties, and the screen. [panic] and the device
    set-up are left out; [cprintf] is in [Printf.v]. *)

From S2P Require Import Prelude.

(** ** Definitions *)

Definition BACKSPACE : Z := 0x100.
Definition INPUT_BUF : Z := 128.
(** [C(x)], control-x, of the character's code. *)
Definition C (x : Z) : Z := x - 64.
Definition CTRL_D : Z := C 68.
Definition CTRL_H : Z := C 72.
Definition CTRL_P : Z := C 80.
Definition CTRL_U : Z := C 85.
Definition DEL : Z := 127.
Definition NL : Z := 10.
Definition CR : Z := 13.

Record input := mkInput { ibuf : list Z; ir : Z; iw : Z; ie : Z }.
Definition input_init : input := mkInput (replicate (Z.to_nat INPUT_BUF) 0) 0 0 0.

Definition ring_get (s : input) (i : Z) : Z := default 0 (ibuf s !! Z.to_nat (i `mod` INPUT_BUF)).
Definition set_e (e : Z) (s : input) : input := mkInput (ibuf s) (ir s) (iw s) e.
Definition set_r (r : Z) (s : input) : input := mkInput (ibuf s) r (iw s) (ie s).

(** [C('U')]: the characters handed to [consputc] come with the new state. *)
Fixpoint kill_line (fuel : nat) (s : input) : option (input * list Z) :=
  match fuel with
  | O => None
  | S fuel' =>
      if negb (ie s =? iw s) && negb (ring_get s (u32 (ie s - 1)) =? NL)
      then '(s', out) ← kill_line fuel' (set_e (u32 (ie s - 1)) s); Some (s', BACKSPACE :: out)
      else Some (s, [])
  end.
(** At most the ring's characters are erased. *)
Definition KILL_FUEL : nat := S (Z.to_nat INPUT_BUF).

(** One character of [consoleintr]: the state, what is put on the screen, and
    whether readers are woken. The listing of control-P is left out. *)
Definition consoleintr_char (c : Z) (s : input) : option (input * list Z * bool) :=
  if c =? CTRL_P then Some (s, [], false)
  else if c =? CTRL_U then '(s', out) ← kill_line KILL_FUEL s; Some (s', out, false)
  else if (c =? CTRL_H) || (c =? DEL) then
    if ie s =? iw s then Some (s, [], false) else Some (set_e (u32 (ie s - 1)) s, [BACKSPACE], false)
  else if negb (c =? 0) && (u32 (ie s - ir s) <? INPUT_BUF) then
    let c := if c =? CR then NL else c in
    let s := mkInput (<[Z.to_nat (ie s `mod` INPUT_BUF) := u8 c]> (ibuf s)) (ir s) (iw s) (u32 (ie s + 1)) in
    if (c =? NL) || (c =? CTRL_D) || (ie s =? u32 (ir s + INPUT_BUF))
    then Some (mkInput (ibuf s) (ir s) (ie s) (ie s), [c], true)
    else Some (s, [c], false)
  else Some (s, [], false).

(** [consoleintr] on the characters [getc] gives. *)
Fixpoint consoleintr (cs : list Z) (s : input) : option (input * list Z * bool) :=
  match cs with
  | [] => Some (s, [], false)
  | c :: cs' =>
      '(s, out, wake) ← consoleintr_char c s;
      '(s, out', wake') ← consoleintr cs' s; Some (s, out ++ out', wake || wake')
  end.

(** How a [consoleread] goes on: it returns, or sleeps with so many bytes to go. *)
Inductive cres := CRet (r : Z) | CSleep (n : nat).

(** The loop of [consoleread] with [n] of [target] bytes to go: the bytes it
    stores before it returns or sleeps. *)
Fixpoint consoleread_loop (target : nat) (n : nat) (killed : bool) (s : input) : input * list Z * cres :=
  match n with
  | O => (s, [], CRet (Z.of_nat target))
  | S n' =>
      if ir s =? iw s then (s, [], if killed then CRet (-1) else CSleep n) else
      let c := ring_get s (ir s) in
      let s1 := set_r (u32 (ir s + 1)) s in
      if c =? CTRL_D then
        (if decide (n < target)%nat then set_r (u32 (ir s1 - 1)) s1 else s1, [], CRet (Z.of_nat target - Z.of_nat n))
      else if c =? NL then (s1, [c], CRet (Z.of_nat target - Z.of_nat n'))
      else let '(s2, bs, r) := consoleread_loop target n' killed s1 in (s2, c :: bs, r)
  end.
Definition consoleread (n : nat) (killed : bool) (s : input) : input * list Z * cres := consoleread_loop n n killed s.

(** *** The screen *)

Record screen := mkScreen { crt : list Z; cursor : Z }.
Definition blank_cell : Z := 0x0720.

(** [memmove(crt, crt+80, 2*23*80); memset(crt+pos, 0, 2*(24*80-pos))]: the
    cells cleared must be there, and their number not negative. *)
Definition scroll (l : list Z) (pos : Z) : option (list Z) :=
  if decide (0 ≤ pos ≤ 24 * 80 ∧ 24 * 80 ≤ Z.of_nat (length l)) then
    let l := splice 0 (slice 80 (23 * 80) l) l in
    Some (splice (Z.to_nat pos) (replicate (Z.to_nat (24 * 80 - pos)) 0) l)
  else None.

Definition cgaputc (c : Z) (s : screen) : option screen :=
  let pos := cursor s in
  '(l, pos) ← (if c =? NL then Some (crt s, pos + (80 - pos `mod` 80))
    else if c =? BACKSPACE then Some (crt s, if pos >? 0 then pos - 1 else pos)
    else if decide (Z.to_nat pos < length (crt s))%nat
         then Some (<[Z.to_nat pos := Z.lor (Z.land c 255) 0x0700]> (crt s), pos + 1) else None);
  '(l, pos) ← (if pos `div` 80 >=? 24 then l ← scroll l (pos - 80); Some (l, pos - 80) else Some (l, pos));
  if decide (Z.to_nat pos < length l)%nat then Some (mkScreen (<[Z.to_nat pos := blank_cell]> l) (u16 pos)) else None.

(** What goes to the serial port, and the screen. *)
Definition consputc (c : Z) (s : screen) : option (list Z * screen) :=
  s' ← cgaputc c s; Some (if c =? BACKSPACE then [8; 32; 8] else [c], s').
Fixpoint consolewrite (buf : list Z) (s : screen) : option (list Z * screen) :=
  match buf with
  | [] => Some ([], s)
  | b :: buf' => '(o, s) ← consputc (Z.land b 255) s; '(o', s) ← consolewrite buf' s; Some (o ++ o', s)
  end.

(** ** What an editor of lines does *)

(** Lines ready to be read, and the line being typed. *)
Record editor := mkEd { ready : list Z; line : list Z }.

Definition ed_key (c : Z) (s : editor) : editor * list Z * bool :=
  if c =? CTRL_P then (s, [], false)
  else if c =? CTRL_U then (mkEd (ready s) [], replicate (length (line s)) BACKSPACE, false)
  else if (c =? CTRL_H) || (c =? DEL) then
    (mkEd (ready s) (removelast (line s)), match line s with [] => [] | _ => [BACKSPACE] end, false)
  else if negb (c =? 0) && bool_decide (length (ready s ++ line s) < 128)%nat then
    let c := if c =? CR then NL else c in
    let l := line s ++ [u8 c] in
    if (c =? NL) || (c =? CTRL_D) || bool_decide (length (ready s ++ l) = 128)%nat
    then (mkEd (ready s ++ l) [], [c], true) else (mkEd (ready s) l, [c], false)
  else (s, [], false).
Fixpoint ed_keys (cs : list Z) (s : editor) : editor * list Z * bool :=
  match cs with
  | [] => (s, [], false)
  | c :: cs' => let '(s, out, wake) := ed_key c s in
      let '(s, out', wake') := ed_keys cs' s in (s, out ++ out', wake || wake')
  end.

(** A read takes bytes up to the end of a line; an end of file is taken too
    when it comes first, and otherwise ends the read and stays. *)
Fixpoint ed_read (target n : nat) (killed : bool) (l : list Z) : list Z * list Z * cres :=
  match n, l with
  | O, _ => (l, [], CRet (Z.of_nat target))
  | S _, [] => ([], [], if killed then CRet (-1) else CSleep n)
  | S n', c :: l' =>
      if c =? CTRL_D then (if decide (n < target)%nat then l else l', [], CRet (Z.of_nat target - Z.of_nat n))
      else if c =? NL then (l', [c], CRet (Z.of_nat target - Z.of_nat n'))
      else let '(l2, bs, r) := ed_read target n' killed l' in (l2, c :: bs, r)
  end.
