(* ===== verification/ConsoleProofs.v ===== *)
(** The console's ring of characters behaves as an editor of lines, whatever is
    typed and read and however its 32-bit indices wrap; and the screen stays
    inside its memory. *)

From S2P Require Import Prelude Console.

(** ** Segments of the ring *)

Definition cell (b : list Z) (i : Z) : Z := default 0 (b !! Z.to_nat (i `mod` 128)).
Definition seg (b : list Z) (i n : Z) : list Z := cell b <$> seqZ i n.

Lemma cell_u32 b i : cell b (u32 i) = cell b i.
Proof.
  unfold cell, u32. change 4294967296 with (128 * 33554432). rewrite Z.rem_mul_r by lia.
  rewrite <-Z.add_mod_idemp_r, (Z.mul_comm 128 (_ `mod` _)), Z.mod_mul, Z.add_0_r, Z.mod_mod by lia. done.
Qed.
Lemma length_seg b i n : length (seg b i n) = Z.to_nat n.
Proof. unfold seg. by rewrite length_fmap, length_seqZ. Qed.
Lemma lookup_seg b i n k : seg b i n !! k = if decide (Z.of_nat k < n) then Some (cell b (i + Z.of_nat k)) else None.
Proof.
  unfold seg. rewrite list_lookup_fmap. case_decide; [by rewrite lookup_seqZ_lt by lia|by rewrite lookup_seqZ_ge by lia].
Qed.
Lemma cell_mod b i j : i `mod` 128 = j `mod` 128 → cell b i = cell b j.
Proof. unfold cell. by intros ->. Qed.
Lemma seg_u32 b i n : seg b (u32 i) n = seg b i n.
Proof.
  apply list_eq. intros k. rewrite !lookup_seg. case_decide; [|done]. f_equal.
  rewrite <-(cell_u32 b (u32 i + _)), <-(cell_u32 b (i + _)). f_equal. unfold u32. by rewrite Z.add_mod_idemp_l.
Qed.
Lemma seg_cons b i n : 0 < n → seg b i n = cell b i :: seg b (i + 1) (n - 1).
Proof. intros. unfold seg. rewrite seqZ_cons by done. cbn. do 3 f_equal; lia. Qed.
Lemma seg_snoc b i n : 0 ≤ n → seg b i (n + 1) = seg b i n ++ [cell b (i + n)].
Proof. intros. unfold seg. rewrite seqZ_app by lia. rewrite fmap_app. done. Qed.
Lemma seg_app b i n m : 0 ≤ n → 0 ≤ m → seg b i (n + m) = seg b i n ++ seg b (i + n) m.
Proof. intros. unfold seg. rewrite seqZ_app by lia. by rewrite fmap_app. Qed.

(** A store next to a segment that leaves it room. *)
Lemma seg_insert_other b i n e v :
  length b = 128%nat → 0 ≤ n < 128 → e `mod` 128 = (i + n) `mod` 128 → seg (<[Z.to_nat (e `mod` 128) := v]> b) i n = seg b i n.
Proof.
  intros Hb Hn ->. apply list_eq. intros k. rewrite !lookup_seg. case_decide; [|done]. f_equal. unfold cell.
  rewrite list_lookup_insert_ne; [done|]. intros E. apply Z2Nat.inj in E; try (apply Z.mod_pos_bound; lia).
  assert ((i + n - (i + Z.of_nat k)) `mod` 128 = 0) as Em by (by rewrite Zminus_mod, E, Z.sub_diag).
  replace (i + n - (i + Z.of_nat k)) with (n - Z.of_nat k) in Em by lia. rewrite Z.mod_small in Em by lia. lia.
Qed.
Lemma cell_insert b e v : length b = 128%nat → cell (<[Z.to_nat (e `mod` 128) := v]> b) e = v.
Proof.
  intros Hb. unfold cell. rewrite list_lookup_insert_eq; [done|]. pose proof (Z.mod_pos_bound e 128). lia.
Qed.

(** ** The ring and the editor *)

Record sim (s : input) (a : editor) : Prop := {
  sm_len : length (ibuf s) = 128%nat;
  sm_room : (length (ready a ++ line a) ≤ 128)%nat;
  sm_r : is_u32 (ir s);
  sm_w : iw s = u32 (ir s + Z.of_nat (length (ready a)));
  sm_e : ie s = u32 (ir s + Z.of_nat (length (ready a ++ line a)));
  sm_all : ready a ++ line a = seg (ibuf s) (ir s) (Z.of_nat (length (ready a ++ line a)))
}.
(** The line being typed holds no end of line. *)
Definition typing (a : editor) : Prop := Forall (λ c, c ≠ NL) (line a).

Lemma typing_snoc r l c : typing (mkEd r (l ++ [c])) ↔ typing (mkEd r l) ∧ c ≠ NL.
Proof. unfold typing. cbn. by rewrite list.Forall_app, list.Forall_singleton. Qed.

Lemma sim_init : sim input_init (mkEd [] []).
Proof. split; try done; cbn; unfold is_u32; lia. Qed.

Lemma u32_add_l a b : u32 (u32 a + b) = u32 (a + b).
Proof. unfold u32. by rewrite Z.add_mod_idemp_l. Qed.
Lemma u32_sub_l a b : u32 (u32 a - b) = u32 (a - b).
Proof. unfold u32. by rewrite Zminus_mod_idemp_l. Qed.
(** Indices less than the whole range apart are equal only when they meet. *)
Lemma u32_apart a n m : 0 ≤ n < 4294967296 → 0 ≤ m < 4294967296 → (u32 (a + n) =? u32 (a + m)) = (n =? m).
Proof.
  intros Hn Hm. destruct (Z.eqb_spec n m) as [->|Hne]; [apply Z.eqb_refl|]. apply Z.eqb_neq. unfold u32. intros E.
  assert ((a + n - (a + m)) `mod` 4294967296 = 0) as E0 by (by rewrite Zminus_mod, E, Z.sub_diag).
  replace (a + n - (a + m)) with (n - m) in E0 by lia. apply Z.mod_divide in E0 as [q Hq]; [|done]. nia.
Qed.
Lemma u32_diff a n : 0 ≤ n < 4294967296 → u32 (u32 (a + n) - a) = n.
Proof. intros. rewrite u32_sub_l. replace (a + n - a) with n by lia. by apply u32_small. Qed.

Lemma sim_count s a : sim s a → u32 (ie s - ir s) = Z.of_nat (length (ready a ++ line a)).
Proof. intros [? Hroom ? Hw He ?]. rewrite He. apply u32_diff. lia. Qed.
Lemma sim_line_empty s a : sim s a → (ie s =? iw s) = bool_decide (line a = []).
Proof.
  intros [? Hroom ? Hw He ?]. rewrite length_app in *. rewrite He, Hw, u32_apart by lia.
  destruct (line a); cbn [length]; [rewrite bool_decide_eq_true_2 by done; apply Z.eqb_eq; lia|].
  rewrite bool_decide_eq_false_2 by done. apply Z.eqb_neq. lia.
Qed.
Lemma sim_ready_empty s a : sim s a → (ir s =? iw s) = bool_decide (ready a = []).
Proof.
  intros [? Hroom Hr Hw He ?]. rewrite length_app in *. rewrite Hw. rewrite <-(u32_small (ir s)) at 1 by done.
  rewrite <-(Z.add_0_r (ir s)) at 1. rewrite u32_apart by lia.
  destruct (ready a); cbn [length]; [done|]. rewrite bool_decide_eq_false_2 by done. apply Z.eqb_neq. lia.
Qed.
Lemma sim_full s a : sim s a → (ie s =? u32 (ir s + INPUT_BUF)) = bool_decide (length (ready a ++ line a) = 128)%nat.
Proof.
  intros [? Hroom ? Hw He ?]. rewrite He, u32_apart by (unfold INPUT_BUF; lia). unfold INPUT_BUF.
  case_bool_decide; [apply Z.eqb_eq|apply Z.eqb_neq]; lia.
Qed.

(** Backspace. *)
Lemma sim_erase s r l c : sim s (mkEd r (l ++ [c])) →
  sim (set_e (u32 (ie s - 1)) s) (mkEd r l) ∧ ring_get s (u32 (ie s - 1)) = c.
Proof.
  intros [Hl Hroom Hr Hw He Hall]. cbn [ready line] in *. rewrite app_assoc in *. rewrite (length_app _ [c]) in *. cbn [length] in *.
  rewrite Nat2Z.inj_add in Hall, He. rewrite seg_snoc in Hall by lia. apply app_inj_tail in Hall as [Hall Hc].
  assert (u32 (ie s - 1) = u32 (ir s + Z.of_nat (length (r ++ l)))) as Ee.
  { rewrite He, u32_sub_l. f_equal. lia. }
  split; [split; cbn; try done; lia|].
  change (ring_get s (u32 (ie s - 1))) with (cell (ibuf s) (u32 (ie s - 1))). by rewrite Ee, cell_u32.
Qed.

(** A character. *)
Definition typed (c : Z) (s : input) : input :=
  mkInput (<[Z.to_nat (ie s `mod` INPUT_BUF) := c]> (ibuf s)) (ir s) (iw s) (u32 (ie s + 1)).
Lemma sim_type s r l c : sim s (mkEd r l) → (length (r ++ l) < 128)%nat → sim (typed c s) (mkEd r (l ++ [c])).
Proof.
  intros [Hl Hroom Hr Hw He Hall] Hlt. cbn [ready line] in *.
  assert (ie s `mod` 128 = (ir s + Z.of_nat (length (r ++ l))) `mod` 128) as Em.
  { rewrite He. unfold u32. change 4294967296 with (128 * 33554432). rewrite Z.rem_mul_r by lia.
    by rewrite <-Z.add_mod_idemp_r, (Z.mul_comm 128 (_ `mod` _)), Z.mod_mul, Z.add_0_r, Z.mod_mod by lia. }
  split; cbn [ibuf ir iw ie ready line typed]; try done.
  - by rewrite length_insert.
  - rewrite app_assoc, (length_app _ [c]). cbn. lia.
  - rewrite He, u32_add_l. f_equal. rewrite app_assoc, (length_app _ [c]). cbn. lia.
  - rewrite app_assoc, (length_app _ [c]). cbn [length]. rewrite Nat2Z.inj_add, seg_snoc by lia. f_equal.
    + rewrite Hall at 1. symmetry. by apply seg_insert_other; [|lia|].
    + f_equal. rewrite <-(cell_mod _ _ _ Em). symmetry. by apply cell_insert.
Qed.

(** The line becomes readable. *)
Lemma sim_commit s r l : sim s (mkEd r l) → sim (mkInput (ibuf s) (ir s) (ie s) (ie s)) (mkEd (r ++ l) []).
Proof. intros [Hl Hroom Hr Hw He Hall]. split; cbn [ibuf ir iw ie ready line] in *; rewrite ?app_nil_r; done. Qed.

(** A character is read. *)
Lemma sim_read_char s c r l : sim s (mkEd (c :: r) l) → sim (set_r (u32 (ir s + 1)) s) (mkEd r l) ∧ ring_get s (ir s) = c.
Proof.
  intros [Hl Hroom Hr Hw He Hall]. cbn [ready line app length] in *. rewrite seg_cons in Hall by lia. injection Hall as Hc Hall.
  split; [|done]. split; cbn [ibuf ir iw ie ready line set_r]; try done.
  - lia.
  - apply u32_range.
  - rewrite Hw, u32_add_l. f_equal. lia.
  - rewrite He, u32_add_l. f_equal. lia.
  - rewrite Hall at 1. rewrite seg_u32. f_equal. lia.
Qed.

Lemma kill_line_sim l : ∀ fuel s r, (length l < fuel)%nat → sim s (mkEd r l) → typing (mkEd r l) →
  ∃ s', kill_line fuel s = Some (s', replicate (length l) BACKSPACE) ∧ sim s' (mkEd r []).
Proof.
  induction l as [|c l IH] using rev_ind; intros [|fuel] s r Hf Hs Ht; try lia; cbn [kill_line];
    rewrite (sim_line_empty _ _ Hs); cbn [line].
  - exists s. by rewrite bool_decide_eq_true_2.
  - rewrite bool_decide_eq_false_2 by (by destruct l). destruct (sim_erase _ _ _ _ Hs) as [Hs' Hc]. rewrite Hc.
    apply typing_snoc in Ht as [Ht Hcn]. rewrite (proj2 (Z.eqb_neq c NL) Hcn).
    rewrite length_app in Hf. cbn in Hf. destruct (IH fuel _ r ltac:(lia) Hs' Ht) as (s' & E & Hs''). cbn [negb andb].
    rewrite E. exists s'. split; [|done]. cbn. rewrite length_app, Nat.add_comm. done.
Qed.

Lemma key_sim c s a : is_byte c → sim s a → typing a →
  ∃ s' a' out wake, consoleintr_char c s = Some (s', out, wake) ∧ ed_key c a = (a', out, wake) ∧ sim s' a' ∧ typing a'.
Proof.
  intros Hc Hs Ht. destruct a as [r l]. unfold consoleintr_char, ed_key. cbn [ready line].
  destruct (c =? CTRL_P); [by eauto 10|]. destruct (c =? CTRL_U).
  { destruct (kill_line_sim l KILL_FUEL s r) as (s' & E & Hs'); [|done..|].
    - pose proof (sm_room _ _ Hs) as Hroom. cbn [ready line] in Hroom. rewrite length_app in Hroom. unfold KILL_FUEL, INPUT_BUF. lia.
    - rewrite E. cbn. do 4 eexists. split_and!; try done. by constructor. }
  destruct ((c =? CTRL_H) || (c =? DEL)).
  { rewrite (sim_line_empty _ _ Hs). cbn [line]. destruct l as [|x l' _] using rev_ind.
    - rewrite bool_decide_eq_true_2 by done. by eauto 10.
    - rewrite bool_decide_eq_false_2 by (by destruct l'). destruct (sim_erase _ _ _ _ Hs) as [Hs' _].
      do 4 eexists. split; [done|]. rewrite removelast_last. apply typing_snoc in Ht as [Ht _].
      split; [by destruct l'|done]. }
  rewrite (sim_count _ _ Hs). cbn [ready line].
  replace (Z.of_nat (length (r ++ l)) <? INPUT_BUF) with (bool_decide (length (r ++ l) < 128)%nat)
    by (unfold INPUT_BUF; case_bool_decide; symmetry; [apply Z.ltb_lt|apply Z.ltb_ge]; lia).
  destruct (negb (c =? 0) && bool_decide (length (r ++ l) < 128)%nat) eqn:Eg; [|by eauto 10].
  apply andb_true_iff in Eg as [_ Hlt%bool_decide_eq_true]. set (c' := if c =? CR then NL else c).
  assert (is_byte c') as Hc' by (unfold c'; destruct (c =? CR); [unfold is_byte, NL; lia|done]).
  rewrite (u8_small c') by done. cbv zeta. fold (typed c' s).
  pose proof (sim_type s r l c' Hs Hlt) as Hs'. rewrite (sim_full _ _ Hs'). cbn [ready line].
  destruct ((c' =? NL) || (c' =? CTRL_D) || _) eqn:Ee; do 4 eexists; (split; [done|]); (split; [done|]).
  - split; [|by constructor]. by apply (sim_commit (typed c' s)).
  - split; [done|]. apply orb_false_iff in Ee as [[Ee _]%orb_false_iff _]. apply typing_snoc. split; [done|]. by apply Z.eqb_neq.
Qed.

Lemma keys_sim cs : ∀ s a, Forall is_byte cs → sim s a → typing a →
  ∃ s' a' out wake, consoleintr cs s = Some (s', out, wake) ∧ ed_keys cs a = (a', out, wake) ∧ sim s' a' ∧ typing a'.
Proof.
  induction cs as [|c cs IH]; intros s a Hb Hs Ht; cbn [consoleintr ed_keys]; [by eauto 10|].
  apply Forall_cons_1 in Hb as [Hc Hb]. destruct (key_sim c s a Hc Hs Ht) as (s1 & a1 & o1 & w1 & E1 & F1 & Hs1 & Ht1).
  destruct (IH s1 a1 Hb Hs1 Ht1) as (s2 & a2 & o2 & w2 & E2 & F2 & Hs2 & Ht2). rewrite E1, F1. cbn. rewrite E2, F2. by eauto 10.
Qed.

Lemma read_sim target n : ∀ killed s a, sim s a →
  ∃ s', consoleread_loop target n killed s = (s', (ed_read target n killed (ready a)).1.2, (ed_read target n killed (ready a)).2) ∧
    sim s' (mkEd (ed_read target n killed (ready a)).1.1 (line a)).
Proof.
  induction n as [|n IH]; intros killed s a Hs; cbn [consoleread_loop ed_read].
  { exists s. by destruct a. }
  rewrite (sim_ready_empty _ _ Hs). destruct a as [[|c r] l]; cbn [ready line].
  { rewrite bool_decide_eq_true_2 by done. by exists s. }
  rewrite bool_decide_eq_false_2 by done. destruct (sim_read_char _ _ _ _ Hs) as [Hs' Hc]. rewrite Hc.
  destruct (c =? CTRL_D).
  { case_decide; cbn [fst snd]; eexists; (split; [done|]); [|done]. cbn [ir set_r].
    replace (u32 (u32 (ir s + 1) - 1)) with (ir s); [by destruct s|]. rewrite u32_sub_l.
    replace (ir s + 1 - 1) with (ir s) by lia. symmetry. apply u32_small, (sm_r _ _ Hs). }
  destruct (c =? NL); [by eauto|]. destruct (IH killed _ _ Hs') as (s2 & E2 & Hs2). cbn [ready line] in *. rewrite E2.
  destruct (ed_read target n killed r) as [[l2 bs] res]. cbn in *. by exists s2.
Qed.

(** ** Everything typed and read *)

(** Keys arrive, or a reader asks for (more of) [target] bytes. *)
Inductive event := Keys (cs : list Z) | Read (target n : nat) (killed : bool).
Inductive seen := Shown (out : list Z) (wake : bool) | Got (bs : list Z) (r : cres).

Fixpoint console_run (es : list event) (s : input) : option (list seen) :=
  match es with
  | [] => Some []
  | Keys cs :: es' => '(s, out, wake) ← consoleintr cs s; t ← console_run es' s; Some (Shown out wake :: t)
  | Read target n killed :: es' =>
      let '(s, bs, r) := consoleread_loop target n killed s in t ← console_run es' s; Some (Got bs r :: t)
  end.
Fixpoint ed_run (es : list event) (a : editor) : list seen :=
  match es with
  | [] => []
  | Keys cs :: es' => let '(a, out, wake) := ed_keys cs a in Shown out wake :: ed_run es' a
  | Read target n killed :: es' =>
      let '(l, bs, r) := ed_read target n killed (ready a) in Got bs r :: ed_run es' (mkEd l (line a))
  end.
Definition keys_ok (e : event) : Prop := match e with Keys cs => Forall is_byte cs | _ => True end.

Lemma editor_sim es : ∀ s a, Forall keys_ok es → sim s a → typing a → console_run es s = Some (ed_run es a).
Proof.
  induction es as [|[cs|target n killed] es IH]; intros s a Hok Hs Ht; cbn [console_run ed_run]; [done|..];
    apply Forall_cons_1 in Hok as [Hk Hok].
  - destruct (keys_sim cs s a Hk Hs Ht) as (s1 & a1 & out & wake & E & F & Hs1 & Ht1). rewrite E, F. cbn.
    by rewrite (IH s1 a1 Hok Hs1 Ht1).
  - destruct (read_sim target n killed s a Hs) as (s1 & E & Hs1). rewrite E.
    destruct (ed_read target n killed (ready a)) as [[l bs] r]. cbn in *. by rewrite (IH s1 _ Hok Hs1).
Qed.

(** C26: The console is an editor of lines: whatever is typed and read, in any
    order, for ever, the characters echoed, the wake-ups and the bytes every
    [consoleread] returns are those of a queue of finished lines and a line
    being typed, of 128 characters together, where backspace removes the last
    character and control-U the line. The loops end, and the ring's indices may
    wrap round. *)
Theorem console_is_an_editor es : Forall keys_ok es → console_run es input_init = Some (ed_run es (mkEd [] [])).
Proof. intros H. apply editor_sim; [done|apply sim_init|by constructor]. Qed.

(** ["ab"], a backspace, ["c"], return; two readers. *)
Lemma console_is_an_editor_witness :
  let es := [Keys [97; 98; 8; 99; 13; 100]; Read 10 10 false; Read 10 10 false] in
  console_run es input_init = Some (ed_run es (mkEd [] [])) ∧
  ed_run es (mkEd [] []) = [Shown [97; 98; 256; 99; 10; 100] true; Got [97; 99; 10] (CRet 3); Got [] (CSleep 10)].
Proof.
  cbv zeta. split; [|by vm_compute]. apply console_is_an_editor.
  repeat (constructor; try (unfold is_byte; lia)).
Defined.

(** ** The screen *)

(** 25 rows of 80 cells, the cursor at most at the start of the last one. *)
Definition screen_ok (s : screen) : Prop := length (crt s) = 2000%nat ∧ 0 ≤ cursor s ≤ 1920.

Lemma scroll_ok l pos : length l = 2000%nat → 0 ≤ pos ≤ 1920 → ∃ l', scroll l pos = Some l' ∧ length l' = 2000%nat.
Proof.
  intros Hl Hp. unfold scroll. rewrite decide_True by lia. eexists. split; [done|].
  assert (length (splice 0 (slice 80 (23 * 80) l) l) = 2000%nat) as H1 by (rewrite length_splice; lia).
  rewrite length_splice; lia.
Qed.

Lemma cgaputc_ok c s : screen_ok s → ∃ s', cgaputc c s = Some s' ∧ screen_ok s'.
Proof.
  destruct s as [l pos]. intros [Hl Hp]. unfold cgaputc. cbn [crt cursor] in *.
  assert (∃ l1 p1, (if c =? NL then Some (l, pos + (80 - pos `mod` 80))
    else if c =? BACKSPACE then Some (l, if pos >? 0 then pos - 1 else pos)
    else if decide (Z.to_nat pos < length l)%nat then Some (<[Z.to_nat pos := Z.lor (Z.land c 255) 0x0700]> l, pos + 1) else None) =
      Some (l1, p1) ∧ length l1 = 2000%nat ∧ 0 ≤ p1 ≤ 2000) as (l1 & p1 & -> & Hl1 & Hp1).
  { destruct (c =? NL).
    - exists l, (pos + (80 - pos `mod` 80)). split; [done|]. split; [done|].
      pose proof (Z.mod_pos_bound pos 80). lia.
    - destruct (c =? BACKSPACE).
      + do 2 eexists. split; [done|]. split; [done|]. destruct (Z.gtb_spec pos 0); lia.
      + rewrite decide_True by lia. do 2 eexists. split; [done|]. rewrite length_insert. lia. }
  cbn. rewrite Z.geb_leb. destruct (Z.leb_spec 24 (p1 `div` 80)) as [Hge|Hlt].
  - assert (1920 ≤ p1) as Hp1' by (pose proof (Z.mul_div_le p1 80); lia).
    destruct (scroll_ok l1 (p1 - 80) Hl1 ltac:(lia)) as (l2 & -> & Hl2). cbn. rewrite decide_True by lia. eexists. split; [done|].
    split; cbn; [by rewrite length_insert|]. rewrite u16_small; lia.
  - assert (p1 < 1920) as Hp1' by (pose proof (Z.mod_pos_bound p1 80); pose proof (Z.div_mod p1 80); lia).
    cbn. rewrite decide_True by lia. eexists. split; [done|]. split; cbn; [by rewrite length_insert|]. rewrite u16_small; lia.
Qed.

(** [consolewrite] stays inside the screen's memory: from a cursor on one
    of the first 24 rows, whatever bytes are written, every store is within
    the 2000 cells and the cursor ends where it may. *)
Theorem consolewrite_in_bounds buf s : screen_ok s → ∃ out s', consolewrite buf s = Some (out, s') ∧ screen_ok s'.
Proof.
  revert s. induction buf as [|b buf IH]; intros s Hs; cbn [consolewrite]; [by exists [], s|].
  unfold consputc. destruct (cgaputc_ok (Z.land b 255) s Hs) as (s1 & E & Hs1). rewrite E. cbn.
  destruct (IH s1 Hs1) as (out & s2 & E2 & Hs2). rewrite E2. cbn. by eauto.
Qed.
Lemma consolewrite_in_bounds_witness :
  ∃ out s', consolewrite [104; 105; 10] (mkScreen (replicate 2000 0) 1919) = Some (out, s') ∧ screen_ok s'.
Proof. apply consolewrite_in_bounds. split; [done|]. cbn. lia. Defined.
