(* ===== verification/Kbd.v ===== *)
(** The keyboard ([xv6/kernel/kbd.c], [kbd.h]): scan codes to characters, and
    their way to the console. The controller is the list of the scan codes it
    has ready; its status port says whether there is one. *)

From S2P Require Import Prelude Console ConsoleProofs.

(** ** Definitions *)

Definition KBS_DIB : Z := 0x01.
Definition NO : Z := 0.
Definition SHIFT : Z := 1.
Definition CTL : Z := 2.
Definition ALT : Z := 4.
Definition CAPSLOCK : Z := 8.
Definition NUMLOCK : Z := 16.
Definition SCROLLLOCK : Z := 32.
Definition E0ESC : Z := 64.

(** A C array of 256 characters: the leading elements, and designated ones. *)
Definition table (l : list Z) (ds : list (Z * Z)) : list Z :=
  foldl (λ t d, <[Z.to_nat d.1 := u8 d.2]> t) ((u8 <$> l) ++ replicate (256 - length l) 0) ds.

Definition shiftcode : list Z :=
  table [] [(0x1D, CTL); (0x2A, SHIFT); (0x36, SHIFT); (0x38, ALT); (0x9D, CTL); (0xB8, ALT)].
Definition togglecode : list Z := table [] [(0x3A, CAPSLOCK); (0x45, NUMLOCK); (0x46, SCROLLLOCK)].

(** The keys with an escape before their code: arrows and the like. *)
Definition escaped (enter div : Z) : list (Z * Z) :=
  [(0x9C, enter); (0xB5, div); (0xC8, 0xE2); (0xD0, 0xE3); (0xC9, 0xE6); (0xD1, 0xE7); (0xCB, 0xE4);
   (0xCD, 0xE5); (0x97, 0xE0); (0xCF, 0xE1); (0xD2, 0xE8); (0xD3, 0xE9)].

Definition normalmap : list Z := table
  ([NO; 0x1B] ++ zstr "1234567890-=" ++ [8; 9] ++ zstr "qwertyuiop[]" ++ [NL; NO] ++ zstr "asdfghjkl;'`"
   ++ [NO] ++ zstr "\zxcvbnm,./" ++ [NO; 42; NO; 32] ++ replicate 13 NO ++ zstr "789-456+1230.")
  (escaped NL 47).
Definition shiftmap : list Z := table
  ([NO; 0x1B] ++ zstr "!@#$%^&*()_+" ++ [8; 9] ++ zstr "QWERTYUIOP{}" ++ [NL; NO] ++ zstr "ASDFGHJKL:" ++ [34; 126]
   ++ [NO] ++ zstr "|ZXCVBNM<>?" ++ [NO; 42; NO; 32] ++ replicate 13 NO ++ zstr "789-456+1230.")
  (escaped NL 47).
Definition ctlmap : list Z := table
  (replicate 16 NO ++ (C <$> zstr "QWERTYUIOP") ++ [NO; NO; CR; NO] ++ (C <$> zstr "ASDFGHJKL")
   ++ [NO; NO; NO; NO] ++ (C <$> zstr "\ZXCVBNM") ++ [NO; NO; C 47; NO; NO])
  (escaped CR (C 47)).
Definition charcode : list (list Z) := [normalmap; shiftmap; ctlmap; ctlmap].

Record kbd := mkKbd { kshift : Z; port : list Z }.

(** [shift & CAPSLOCK]: letters change case. *)
Definition swap_case (c : Z) : Z :=
  if (97 <=? c) && (c <=? 122) then u32 (c + (65 - 97))
  else if (65 <=? c) && (c <=? 90) then u32 (c + (97 - 65))
  else c.

(** The use [data] makes of the tables: the new [shift] and the character. *)
Definition kbd_press (shift data : Z) : option (Z * Z) :=
  sc ← shiftcode !! Z.to_nat data; tc ← togglecode !! Z.to_nat data;
  let shift := Z.lxor (Z.lor shift sc) tc in
  m ← charcode !! Z.to_nat (Z.land shift (Z.lor CTL SHIFT));
  c ← m !! Z.to_nat data;
  Some (shift, if ctrue (Z.land shift CAPSLOCK) then swap_case c else c).

Definition kbdgetc (k : kbd) : option (Z * kbd) :=
  let st := match port k with [] => 0 | _ => KBS_DIB end in
  if Z.land st KBS_DIB =? 0 then Some (-1, k) else
  match port k with
  | [] => None
  | data :: rest =>
      if data =? 0xE0 then Some (0, mkKbd (Z.lor (kshift k) E0ESC) rest)
      else if ctrue (Z.land data 0x80) then
        let data := if ctrue (Z.land (kshift k) E0ESC) then data else Z.land data 0x7F in
        sc ← shiftcode !! Z.to_nat data;
        Some (0, mkKbd (Z.land (kshift k) (Z.lnot (Z.lor sc E0ESC))) rest)
      else
        let '(data, shift) := if ctrue (Z.land (kshift k) E0ESC)
          then (Z.lor data 0x80, Z.land (kshift k) (Z.lnot E0ESC)) else (data, kshift k) in
        '(shift, c) ← kbd_press shift data;
        Some (c, mkKbd shift rest)
  end.

(** The calls [consoleintr] makes of [getc], until it is negative. *)
Fixpoint getc_all (fuel : nat) (k : kbd) : option (list Z * kbd) :=
  match fuel with
  | O => None
  | S fuel' =>
      '(c, k) ← kbdgetc k;
      if c >=? 0 then '(cs, k) ← getc_all fuel' k; Some (c :: cs, k) else Some ([], k)
  end.

(** [kbdintr] when the controller has the scan codes [codes]: one per round,
    and a round that finds none. *)
Definition kbdintr (codes : list Z) (k : kbd) (s : input) : option (kbd * input) :=
  '(cs, k) ← getc_all (S (length codes + length (port k))) (mkKbd (kshift k) (port k ++ codes));
  '(s, _, _) ← consoleintr cs s; Some (k, s).
Fixpoint kbdintrs (l : list (list Z)) (k : kbd) (s : input) : option (kbd * input) :=
  match l with
  | [] => Some (k, s)
  | codes :: l' => '(k, s) ← kbdintr codes k s; kbdintrs l' k s
  end.
Definition kbd_init : kbd := mkKbd 0 [].

(** ** What the tables give *)

(** The codes a key sends: it is pressed, and released. *)
Definition tap (key : Z) : list Z := [key; Z.lor key 0x80].
Definition LSHIFT : Z := 0x2A.
(** The keys pressed to type [c]: the first key that has it, or the first that
    has it with the left shift key held down. *)
Definition keys_of (c : Z) : option (list Z) :=
  match list_find (λ x, x = c) normalmap with
  | Some (key, _) => Some (tap (Z.of_nat key))
  | None =>
      '(key, _) ← list_find (λ x, x = c) shiftmap;
      Some ([LSHIFT] ++ tap (Z.of_nat key) ++ [Z.lor LSHIFT 0x80])
  end.

Definition bytes256 : list Z := seqZ 0 256.
Definition text_char (c : Z) : Prop := 32 ≤ c < 127.
#[export] Instance text_char_dec c : Decision (text_char c) := _.

(** *** One code *)

Definition code_ok (sh data : Z) : bool :=
  match kbdgetc (mkKbd sh [data]) with
  | Some (c, mkKbd sh' []) => bool_decide (0 ≤ c < 256) && bool_decide (0 ≤ sh' < 128)
  | _ => false
  end.

Lemma all_codes_ok : forallb (λ sh, forallb (code_ok sh) bytes256) (seqZ 0 128) = true.
Proof. vm_compute. reflexivity. Qed.

Lemma kbdgetc_rest sh data rest c sh' :
  kbdgetc (mkKbd sh [data]) = Some (c, mkKbd sh' []) →
  kbdgetc (mkKbd sh (data :: rest)) = Some (c, mkKbd sh' rest).
Proof.
  unfold kbdgetc. cbn [port kshift]. change (Z.land KBS_DIB KBS_DIB =? 0) with false. cbn iota.
  destruct (data =? 0xE0); [by intros [= <- <-]|].
  destruct (ctrue (Z.land data 128)).
  - destruct (shiftcode !! _); cbn; [by intros [= <- <-]|done].
  - destruct (ctrue (Z.land sh E0ESC)); destruct (kbd_press _ _) as [[? ?]|]; cbn; try done; by intros [= <- <-].
Qed.

Lemma kbdgetc_code sh data : 0 ≤ sh < 128 → is_byte data →
  ∃ c sh', (∀ rest, kbdgetc (mkKbd sh (data :: rest)) = Some (c, mkKbd sh' rest)) ∧ is_byte c ∧ 0 ≤ sh' < 128.
Proof.
  intros Hs Hd. pose proof all_codes_ok as H. rewrite forallb_forall in H.
  specialize (H sh ltac:(apply list_elem_of_In, elem_of_seqZ; lia)). cbv beta in H. rewrite forallb_forall in H.
  specialize (H data ltac:(apply list_elem_of_In, elem_of_seqZ; unfold is_byte in *; lia)). unfold code_ok in H.
  destruct (kbdgetc (mkKbd sh [data])) as [[c [sh' [|? ?]]]|] eqn:E; try done.
  apply andb_true_iff in H as [H1 H2]. apply bool_decide_eq_true in H1, H2.
  exists c, sh'. split; [|done]. intros rest. by apply kbdgetc_rest.
Qed.

Lemma getc_all_codes codes : ∀ sh fuel, 0 ≤ sh < 128 → Forall is_byte codes → (length codes < fuel)%nat →
  ∃ cs sh', getc_all fuel (mkKbd sh codes) = Some (cs, mkKbd sh' []) ∧ length cs = length codes ∧
    Forall is_byte cs ∧ 0 ≤ sh' < 128.
Proof.
  induction codes as [|d codes IH]; intros sh [|fuel] Hs Hb Hf; cbn [length] in Hf; try lia.
  { exists [], sh. done. }
  apply Forall_cons_1 in Hb as [Hd Hb]. destruct (kbdgetc_code sh d Hs Hd) as (c & sh1 & E & Hc & Hs1).
  destruct (IH sh1 fuel Hs1 Hb ltac:(lia)) as (cs & sh2 & E2 & Hl & Hcs & Hs2).
  exists (c :: cs), sh2. cbn [getc_all]. rewrite E. cbn. unfold is_byte in Hc.
  rewrite (proj2 (Z.geb_le c 0)) by lia. rewrite E2. cbn. rewrite Hl. split_and!; [done..|by constructor|lia|lia].
Qed.


(** The fuel of [getc_all] does not matter once it is enough, so codes may come
    in one interrupt or in several. *)
Lemma getc_all_app codes codes' : ∀ fuel fuel' sh sh1 cs r,
  0 ≤ sh < 128 → Forall is_byte codes → (length codes < fuel)%nat → (length codes + fuel' ≤ fuel)%nat →
  getc_all (S (length codes)) (mkKbd sh codes) = Some (cs, mkKbd sh1 []) →
  getc_all fuel' (mkKbd sh1 codes') = Some r →
  getc_all fuel (mkKbd sh (codes ++ codes')) = Some (cs ++ r.1, r.2).
Proof.
  induction codes as [|d codes IH]; intros fuel fuel' sh sh1 cs r Hs Hb Hf Hf' E E'.
  - assert (cs = [] ∧ sh1 = sh) as [-> ->] by (by injection E as <- <-). cbn [length app] in *.
    assert (∀ n f k q, (n ≤ f)%nat → getc_all n k = Some q → getc_all f k = Some q) as mono.
    { clear. induction n as [|n IH]; intros [|f] k q Hn H; cbn [getc_all] in *; try done; try lia.
      destruct (kbdgetc k) as [[c k']|]; cbn in *; [|done]. destruct (c >=? 0); [|done].
      destruct (getc_all n k') as [q'|] eqn:En; [|done]. by rewrite (IH f k' q') by (lia || done). }
    destruct r. by apply (mono fuel').
  - apply Forall_cons_1 in Hb as [Hd Hb]. destruct fuel as [|fuel]; [lia|]. cbn [length app] in *.
    destruct (kbdgetc_code sh d Hs Hd) as (c & sh2 & Ec & Hc & Hs2).
    cbn [getc_all] in E |- *. rewrite Ec in E |- *. cbn in E |- *. unfold is_byte in Hc.
    rewrite (proj2 (Z.geb_le c 0)) in * by lia.
    destruct (getc_all_codes codes sh2 (S (length codes)) Hs2 Hb ltac:(lia)) as (cs2 & sh4 & E2 & _ & _ & _).
    cbn [getc_all] in E2. rewrite E2 in E. cbn in E. simplify_eq.
    rewrite (IH fuel fuel' sh2 sh1 cs2 r) by (done || lia). done.
Qed.

(** *** Typing *)

(** The characters a keyboard without held keys gives for the keys of [c]: [c]
    among zeros, and no key is held in the end. *)
Definition typed_ok (c : Z) : bool :=
  match keys_of c with
  | Some codes =>
      forallb (λ d, bool_decide (is_byte d)) codes &&
      match getc_all (S (length codes)) (mkKbd 0 codes) with
      | Some (cs, mkKbd 0 []) => bool_decide (filter (λ x, x ≠ 0) cs = [c])
      | _ => false
      end
  | None => false
  end.
Lemma all_typed_ok : forallb typed_ok (NL :: seqZ 32 95) = true.
Proof. vm_compute. reflexivity. Qed.

(** The codes of a text, key after key. *)
Definition keystrokes (cs : list Z) : option (list Z) := (@concat Z) <$> mapM keys_of cs.

Lemma keystrokes_give text codes : Forall (λ c, text_char c ∨ c = NL) text → keystrokes text = Some codes →
  Forall is_byte codes ∧ ∃ cs, getc_all (S (length codes)) (mkKbd 0 codes) = Some (cs, kbd_init) ∧
    filter (λ x, x ≠ 0) cs = text.
Proof.
  unfold keystrokes. revert codes. induction text as [|c text IH]; intros codes Ht H; cbn in H.
  { simplify_eq. split; [constructor|]. by exists []. }
  apply Forall_cons_1 in Ht as [Hc Ht]. pose proof all_typed_ok as Ha. rewrite forallb_forall in Ha.
  assert (typed_ok c = true) as Hk.
  { apply Ha. destruct Hc as [Hc| ->]; [right|by left]. apply list_elem_of_In, elem_of_seqZ. unfold text_char in Hc. lia. }
  clear Ha. unfold typed_ok in Hk. destruct (keys_of c) as [ks|]; [|done]. cbn in H.
  destruct (mapM keys_of text) as [kss|]; [|done]. cbn in H. simplify_eq. apply andb_true_iff in Hk as [Hb Hk].
  destruct (getc_all _ (mkKbd 0 ks)) as [[cs1 [[| |] [|? ?]]]|] eqn:E; try done. apply bool_decide_eq_true in Hk.
  destruct (IH (concat kss) Ht eq_refl) as (Hb2 & cs2 & E2 & F2). rewrite forallb_forall in Hb.
  assert (Forall is_byte ks) as Hb1.
  { apply list.Forall_forall. intros d Hd%list_elem_of_In. by apply Hb, bool_decide_eq_true in Hd. }
  split; [by apply list.Forall_app|]. exists (cs1 ++ cs2). split.
  - rewrite length_app.
    by rewrite (getc_all_app ks (concat kss) _ (S (length (concat kss))) 0 0 cs1 (cs2, kbd_init)) by (done || lia).
  - by rewrite list.filter_app, Hk, F2.
Qed.

(** *** The editor, behind the keyboard *)

Lemma ed_keys_app cs cs' a :
  (ed_keys (cs ++ cs') a).1.1 = (ed_keys cs' (ed_keys cs a).1.1).1.1.
Proof.
  revert a. induction cs as [|c cs IH]; intros a; cbn [ed_keys app]; [done|].
  destruct (ed_key c a) as [[a1 o] w]. specialize (IH a1).
  destruct (ed_keys (cs ++ cs') a1) as [[? ?] ?], (ed_keys cs a1) as [[? ?] ?]. cbn in *. by rewrite IH.
Qed.

(** The zeros that shift keys and releases give are no characters. *)
Lemma ed_keys_zeros cs a : (ed_keys cs a).1.1 = (ed_keys (filter (λ x, x ≠ 0) cs) a).1.1.
Proof.
  revert a. induction cs as [|c cs IH]; intros a; [done|]. rewrite filter_cons. case_decide as Hc; cbn [ed_keys].
  - destruct (ed_key c a) as [[a1 o] w]. specialize (IH a1). destruct (ed_keys cs a1) as [[? ?] ?].
    by destruct (ed_keys (filter _ cs) a1) as [[? ?] ?].
  - subst c. change (ed_key 0 a) with (a, @nil Z, false). rewrite <-IH.
    by destruct (ed_keys cs a) as [[? ?] ?].
Qed.

Lemma ed_key_text c l : text_char c → (length l < 127)%nat →
  (ed_key c (mkEd [] l)).1.1 = mkEd [] (l ++ [c]).
Proof.
  intros Hc Hl. unfold text_char in Hc. unfold ed_key, CTRL_P, CTRL_U, CTRL_H, CTRL_D, DEL, C, CR, NL. cbn [ready line app].
  rewrite !(proj2 (Z.eqb_neq c _)) by lia. cbn [orb negb andb]. rewrite bool_decide_eq_true_2 by lia.
  rewrite u8_small by lia.
  by rewrite bool_decide_eq_false_2 by (rewrite length_app; cbn [length]; lia).
Qed.

Lemma ed_keys_line text l : Forall text_char text → (length l + length text ≤ 127)%nat →
  (ed_keys (text ++ [NL]) (mkEd [] l)).1.1 = mkEd (l ++ text ++ [NL]) [].
Proof.
  revert l. induction text as [|c text IH]; intros l Ht Hl; cbn [length app] in *.
  - cbn [ed_keys]. unfold ed_key. change (NL =? CTRL_P) with false. change (NL =? CTRL_U) with false.
    change ((NL =? CTRL_H) || (NL =? DEL)) with false. change (NL =? 0) with false. cbn [ready line app negb andb].
    rewrite bool_decide_eq_true_2 by lia. done.
  - apply Forall_cons_1 in Ht as [Hc Ht]. specialize (IH (l ++ [c]) Ht). rewrite length_app in IH. cbn [length] in IH.
    rewrite <-app_assoc in IH. cbn [app] in IH. rewrite <-IH by lia. cbn [ed_keys].
    destruct (ed_key c (mkEd [] l)) as [[a1 o] w] eqn:E. pose proof (ed_key_text c l Hc ltac:(lia)) as H1.
    rewrite E in H1. cbn in H1. subst a1. by destruct (ed_keys (text ++ [NL]) _) as [[? ?] ?].
Qed.

(** A line is read whole by a reader with room for it. *)
Lemma ed_read_line text target n : Forall text_char text → (length text < n)%nat → (n ≤ target)%nat →
  ed_read target n false (text ++ [NL]) =
    ([], text ++ [NL], CRet (Z.of_nat target - Z.of_nat n + Z.of_nat (length text) + 1)).
Proof.
  revert n. induction text as [|c text IH]; intros [|n] Ht Hn Hm; cbn [length app ed_read] in *; try lia.
  - change (NL =? CTRL_D) with false. change (NL =? NL) with true. cbn iota. do 2 f_equal. lia.
  - apply Forall_cons_1 in Ht as [Hc Ht]. unfold text_char in Hc. unfold CTRL_D, C, NL.
    rewrite !(proj2 (Z.eqb_neq c _)) by lia. change [10] with [NL]. rewrite (IH n Ht) by lia. do 3 f_equal. lia.
Qed.

Lemma kbdintrs_sim l : ∀ sh sh' cs s a,
  0 ≤ sh < 128 → Forall is_byte (concat l) → sim s a → typing a →
  getc_all (S (length (concat l))) (mkKbd sh (concat l)) = Some (cs, mkKbd sh' []) →
  ∃ s', kbdintrs l (mkKbd sh []) s = Some (mkKbd sh' [], s') ∧ sim s' (ed_keys cs a).1.1.
Proof.
  induction l as [|codes l IH]; intros sh sh' cs s a Hs Hb Hsim Ht E.
  { cbn in E. injection E as <- <-. exists s. by destruct a. }
  cbn [concat kbdintrs] in *. apply list.Forall_app in Hb as [Hb1 Hb2].
  destruct (getc_all_codes codes sh (S (length codes)) Hs Hb1 ltac:(lia)) as (cs1 & sh1 & E1 & _ & Hc1 & Hs1).
  destruct (getc_all_codes (concat l) sh1 (S (length (concat l))) Hs1 Hb2 ltac:(lia)) as (cs2 & sh2 & E2 & _ & Hc2 & Hs2).
  rewrite length_app in E. rewrite (getc_all_app codes (concat l) (S (length codes + length (concat l))) (S (length (concat l))) sh sh1 cs1 _ Hs Hb1 ltac:(lia) ltac:(lia) E1 E2) in E.
  cbn in E. simplify_eq. destruct (keys_sim cs1 s a Hc1 Hsim Ht) as (s1 & a1 & o & w & F & G & Hsim1 & Ht1).
  destruct (IH sh1 sh' cs2 s1 a1 Hs1 Hb2 Hsim1 Ht1 E2) as (s2 & F2 & Hsim2). exists s2. unfold kbdintr. cbn [port kshift app length].
  rewrite Nat.add_0_r. rewrite E1. cbn. rewrite F. cbn. split; [done|]. by rewrite ed_keys_app, G.
Qed.

(** ** Properties *)

(** C40: The keyboard only gives characters: whatever bytes the controller sends,
    the tables are read inside their bounds, every code is taken and answered
    by one byte (zero for a code that types nothing), and the modifier state
    keeps to its seven bits. *)
Theorem kbd_types_bytes codes sh : 0 ≤ sh < 128 → Forall is_byte codes →
  ∃ cs sh', getc_all (S (length codes)) (mkKbd sh codes) = Some (cs, mkKbd sh' []) ∧
    length cs = length codes ∧ Forall is_byte cs ∧ 0 ≤ sh' < 128.
Proof. intros Hs Hb. apply getc_all_codes; [done..|lia]. Qed.
Lemma kbd_types_bytes_witness :
  ∃ cs sh', getc_all 6 (mkKbd 8 [0xE0; 0xC8; 0x2A; 0x1E; 0xFF]) = Some (cs, mkKbd sh' []) ∧
    length cs = 5%nat ∧ Forall is_byte cs ∧ 0 ≤ sh' < 128.
Proof.
  apply (kbd_types_bytes [0xE0; 0xC8; 0x2A; 0x1E; 0xFF] 8); [lia|].
  repeat (constructor; [unfold is_byte; lia|]). constructor.
Defined.

(** C27: What is typed is read: the keys of a line of printable characters, with
    shift held where it must be, and return, however the interrupts share
    their scan codes out, make the line that a [read] of the console with room
    for it returns. *)
Theorem typed_line_is_read text codes l n :
  Forall text_char text → (length text ≤ 127)%nat → (length text < n)%nat →
  keystrokes (text ++ [NL]) = Some codes → concat l = codes →
  ∃ s s', kbdintrs l kbd_init input_init = Some (kbd_init, s) ∧
    consoleread n false s = (s', text ++ [NL], CRet (Z.of_nat (length text) + 1)).
Proof.
  intros Ht Hl Hn Hk Hc. destruct (keystrokes_give (text ++ [NL]) codes) as (Hb & cs & E & F); [|done|].
  { apply list.Forall_app. split; [|by repeat constructor; right]. eapply list.Forall_impl; [exact Ht|]. by left. }
  subst codes. destruct (kbdintrs_sim l 0 0 cs input_init (mkEd [] [])) as (s & Es & Hs);
    [lia|done|apply sim_init|constructor|done|].
  rewrite ed_keys_zeros, F, (ed_keys_line text []) in Hs by (done || (cbn; lia)). cbn [app] in Hs.
  destruct (read_sim n n false s _ Hs) as (s' & Er & _). exists s, s'. split; [done|].
  unfold consoleread. rewrite Er. cbn [ready]. rewrite ed_read_line by (done || lia). cbn. do 2 f_equal. lia.
Qed.

(** ["Hi!"], its scan codes in two interrupts. *)
Lemma typed_line_is_read_witness :
  let codes := [0x2A; 0x23; 0xA3; 0xAA; 0x17; 0x97; 0x2A; 0x02; 0x82; 0xAA; 0x1C; 0x9C] in
  ∃ s s', kbdintrs [take 5 codes; drop 5 codes] kbd_init input_init = Some (kbd_init, s) ∧
    consoleread 80 false s = (s', [72; 105; 33; 10], CRet 4).
Proof.
  intros codes. apply (typed_line_is_read [72; 105; 33] codes).
  - repeat (constructor; [unfold text_char; lia|]). constructor.
  - cbn. lia.
  - cbn. lia.
  - vm_compute. reflexivity.
  - reflexivity.
Defined.
