(* ===== verification/Umalloc.v ===== *)
(** The user's memory allocator ([xv6/user/umalloc.c]): a ring of free blocks in
    the order of their addresses, between which the allocated blocks lie. A
    block is its [Header], of eight bytes, and what follows; sizes count
    headers. *)

From S2P Require Import Prelude.

(** ** Definitions *)

Definition SIZEOF_HEADER : Z := 8.
Record Header := mkHeader { h_ptr : Z; h_size : Z }.

(** The headers in memory by address, [freep] (0 is null), and the end of the
    process's memory. *)
Record heap := mkHeap { hdrs : gmap Z Header; freep : Z; brk : Z }.

Section umalloc.
(** The address of the static [base], and whether the kernel grants an [sbrk]
    of so many bytes to a process with so much memory. *)
Context (base : Z) (sbrk_ok : Z → Z → bool).

Definition set_freep (p : Z) (s : heap) : heap := mkHeap (hdrs s) p (brk s).
Definition load (p : Z) : M heap Header := s ← get; need (hdrs s !! p).
(** A store outside the process's memory is a fault. *)
Definition store (p : Z) (h : Header) : M heap unit :=
  s ← get;
  if (p =? base) || ((0 <? p) && (p + SIZEOF_HEADER <=? brk s))
  then put (mkHeap (<[p := h]> (hdrs s)) (freep s) (brk s)) else undef.
(** A field of a header that may hold anything before. *)
Definition store_ptr (p q : Z) : M heap unit :=
  s ← get; store p (mkHeader q (from_option h_size 0 (hdrs s !! p))).
Definition store_size (p n : Z) : M heap unit :=
  s ← get; store p (mkHeader (from_option h_ptr 0 (hdrs s !! p)) n).
(** [p + n] on [Header *]. *)
Definition plus (p n : Z) : Z := u32 (p + SIZEOF_HEADER * n).

(** The loop of [free]: the block after which [bp] goes. *)
Fixpoint free_find (fuel : nat) (bp p : Z) : M heap Z :=
  match fuel with
  | O => nofuel
  | S fuel' =>
      h ← load p;
      if (bp >? p) && (bp <? h_ptr h) then mret p
      else if (p >=? h_ptr h) && ((bp >? p) || (bp <? h_ptr h)) then mret p
      else free_find fuel' bp (h_ptr h)
  end.

(** The join with the block in front, which links [bp] in any case. *)
Definition join_right (bp p : Z) : M heap unit :=
  hb ← load bp; hp ← load p;
  if plus bp (h_size hb) =? h_ptr hp then
    hn ← load (h_ptr hp);
    store_size bp (u32 (h_size hb + h_size hn));;
    store_ptr bp (h_ptr hn)
  else store_ptr bp (h_ptr hp).
(** The join with the block behind, and [freep = p]. *)
Definition join_left (bp p : Z) : M heap unit :=
  hb ← load bp; hp ← load p;
  (if plus p (h_size hp) =? bp then
    store_size p (u32 (h_size hp + h_size hb));;
    store_ptr p (h_ptr hb)
  else store_ptr p bp);;
  modify (set_freep p).

Definition free (fuel : nat) (ap : Z) : M heap unit :=
  let bp := u32 (ap - SIZEOF_HEADER) in
  s ← get;
  p ← free_find fuel bp (freep s);
  join_right bp p;; join_left bp p.

(** [sbrk(n)]: the old end of memory, or -1. *)
Definition sbrk (n : Z) : M heap Z :=
  s ← get;
  if sbrk_ok (brk s) n then put (mkHeap (hdrs s) (freep s) (brk s + n));; mret (brk s) else mret (-1).

Definition morecore (fuel : nat) (nu : Z) : M heap Z :=
  let nu := if nu <? 4096 then 4096 else nu in
  p ← sbrk (i32 (u32 (nu * SIZEOF_HEADER)));
  if p =? -1 then mret 0 else
  store_size p nu;;
  free fuel (plus p 1);;
  gets freep.

(** A block that is large enough is taken off the ring, or its end is split off. *)
Definition take_block (nunits prevp p : Z) (h : Header) : M heap Z :=
  q ← (if h_size h =? nunits then store_ptr prevp (h_ptr h);; mret p
       else
         let k := u32 (h_size h - nunits) in
         store_size p k;; store_size (plus p k) nunits;; mret (plus p k));
  modify (set_freep prevp);; mret (plus q 1).

(** The loop of [malloc]. *)
Fixpoint malloc_loop (fuel : nat) (nunits prevp p : Z) : M heap Z :=
  match fuel with
  | O => nofuel
  | S fuel' =>
      h ← load p;
      if h_size h >=? nunits then take_block nunits prevp p h
      else
        s ← get;
        if p =? freep s then
          p ← morecore fuel' nunits;
          if p =? 0 then mret 0 else
          h ← load p; malloc_loop fuel' nunits p (h_ptr h)
        else malloc_loop fuel' nunits p (h_ptr h)
  end.

Definition nunits_of (nbytes : Z) : Z := u32 (u32 (nbytes + SIZEOF_HEADER - 1) / SIZEOF_HEADER + 1).

Definition malloc (fuel : nat) (nbytes : Z) : M heap Z :=
  s ← get;
  (if freep s =? 0 then store base (mkHeader base 0);; modify (set_freep base) else mret tt);;
  s ← get;
  h ← load (freep s);
  malloc_loop fuel (nunits_of nbytes) (freep s) (h_ptr h).
End umalloc.
