(* ===== verification/UmallocTiles.v ===== *)
(** Layouts of the user's heap: the blocks from one address on, in order, with
    their sizes and whether they are free, and the headers such a layout has
    in memory. Used by [UmallocProofs.v]. *)

From S2P Require Import Prelude Umalloc.

(** ** Tiles *)

Abbreviation tile := (Z * bool)%type.
Fixpoint span (ts : list tile) : Z := match ts with [] => 0 | (n, _) :: r => n + span r end.
Definition after (a : Z) (ts : list tile) : Z := a + SIZEOF_HEADER * span ts.
(** The last free block of [ts], laid out from [a], or [p]. *)
Fixpoint lastf (p a : Z) (ts : list tile) : Z :=
  match ts with
  | [] => p
  | (n, fr) :: r => lastf (if (fr : bool) then a else p) (after a [(n, fr)]) r
  end.
Definition sizes_ok (ts : list tile) : Prop := Forall (λ t : tile, 1 ≤ t.1) ts.
(** No two free blocks touch; [prev] says whether the tile before is free. *)
Fixpoint apart (prev : bool) (ts : list tile) : Prop :=
  match ts with
  | [] => True
  | (_, fr) :: r => (prev && fr = false) ∧ apart fr r
  end.
Fixpoint ends_free (prev : bool) (ts : list tile) : bool :=
  match ts with [] => prev | (_, fr) :: r => ends_free fr r end.

Definition hp (h : gmap Z Header) (p : Z) : option Z := h_ptr <$> h !! p.
Definition hs (h : gmap Z Header) (p : Z) : option Z := h_size <$> h !! p.

(** The headers of [ts], laid out from [a], when [p] is the free block before
    them: the sizes, and the links between free blocks but for the last. *)
Fixpoint part (h : gmap Z Header) (p a : Z) (ts : list tile) : Prop :=
  match ts with
  | [] => True
  | (n, true) :: r => hp h p = Some a ∧ hs h a = Some n ∧ part h a (after a [(n, true)]) r
  | (n, false) :: r => hs h a = Some n ∧ part h p (after a [(n, false)]) r
  end.

Lemma span_app t u : span (t ++ u) = span t + span u.
Proof. induction t as [|[n fr] t IH]; cbn; lia. Qed.
Lemma after_nil a : after a [] = a.
Proof. unfold after. cbn. lia. Qed.
Lemma after_app a t u : after a (t ++ u) = after (after a t) u.
Proof. unfold after. rewrite span_app. lia. Qed.
Lemma after_cons a t u : after a (t :: u) = after (after a [t]) u.
Proof. apply (after_app a [t] u). Qed.
Lemma span_pos ts : sizes_ok ts → 0 ≤ span ts.
Proof. induction 1 as [|[n fr] ts Hn _ IH]; cbn in *; lia. Qed.
Lemma after_le a ts : sizes_ok ts → a ≤ after a ts.
Proof. intros H%span_pos. unfold after, SIZEOF_HEADER. lia. Qed.
Lemma after_lt a n fr : 1 ≤ n → a + 8 ≤ after a [(n, fr)].
Proof. unfold after, SIZEOF_HEADER. cbn. lia. Qed.
Lemma after_one a n fr : after a [(n, fr)] = a + 8 * n.
Proof. unfold after, SIZEOF_HEADER. cbn. lia. Qed.
Lemma length_span ts : sizes_ok ts → Z.of_nat (length ts) ≤ span ts.
Proof. induction 1 as [|[n fr] ts Hn _ IH]; cbn [span length fst] in *; lia. Qed.

Lemma lastf_app p a t u : lastf p a (t ++ u) = lastf (lastf p a t) (after a t) u.
Proof.
  revert p a. induction t as [|[n fr] t IH]; intros p a; cbn [lastf app]; [by rewrite after_nil|].
  by rewrite IH, (after_cons a (n, fr) t).
Qed.
Lemma lastf_range p a ts : sizes_ok ts → lastf p a ts = p ∨ a ≤ lastf p a ts < after a ts.
Proof.
  intros H. revert p a. induction H as [|[n fr] ts Hn Hts IH]; intros p a; cbn [lastf]; [by left|].
  rewrite (after_cons a (n, fr) ts). cbn [fst] in Hn. pose proof (after_lt a n fr Hn).
  pose proof (after_le (after a [(n, fr)]) ts Hts).
  destruct fr; [specialize (IH a (after a [(n, true)]))|specialize (IH p (after a [(n, false)]))]; lia.
Qed.

Lemma part_app h p a t u : part h p a (t ++ u) ↔ part h p a t ∧ part h (lastf p a t) (after a t) u.
Proof.
  revert p a. induction t as [|[n []] t IH]; intros p a; cbn [part app lastf].
  - rewrite after_nil. tauto.
  - rewrite (after_cons a (n, true) t), IH. tauto.
  - rewrite (after_cons a (n, false) t), IH. tauto.
Qed.

(** Headers outside the tiles do not matter to them, nor does which block links
    to the first. *)
Lemma part_change h h' p p' a ts : part h p a ts → sizes_ok ts → hp h' p' = hp h p →
  (∀ x, a ≤ x < after a ts → h' !! x = h !! x) → part h' p' a ts.
Proof.
  intros Hp Hs. revert p p' a Hp. induction Hs as [|[n fr] ts Hn Hts IH]; intros p p' a Hp Hpp Hx; [done|].
  cbn [fst] in Hn. rewrite (after_cons a (n, fr) ts) in Hx. pose proof (after_lt a n fr Hn).
  pose proof (after_le (after a [(n, fr)]) ts Hts). assert (h' !! a = h !! a) as Ha by (apply Hx; lia).
  destruct fr; cbn [part] in *.
  - destruct Hp as (H1 & H2 & H3). split; [by rewrite Hpp|]. split; [by unfold hs; rewrite Ha|].
    apply (IH a); [done|unfold hp; by rewrite Ha|]. intros x ?. apply Hx. lia.
  - destruct Hp as (H2 & H3). split; [by unfold hs; rewrite Ha|].
    apply (IH p); [done|done|]. intros x ?. apply Hx. lia.
Qed.

(** The link of the last free block is not one of the tiles' own. *)
Lemma part_relink h h' p a ts : part h p a ts → sizes_ok ts → p < a →
  hs h' (lastf p a ts) = hs h (lastf p a ts) →
  (∀ x, x = p ∨ a ≤ x < after a ts → x ≠ lastf p a ts → h' !! x = h !! x) → part h' p a ts.
Proof.
  intros Hp Hs. revert p a Hp. induction Hs as [|[n fr] ts Hn Hts IH]; intros p a Hp Hpa Hl Hx; [done|].
  cbn [fst] in Hn. rewrite (after_cons a (n, fr) ts) in Hx. pose proof (after_lt a n fr Hn).
  pose proof (after_le (after a [(n, fr)]) ts Hts). cbn [lastf] in *.
  destruct (lastf_range (if fr then a else p) (after a [(n, fr)]) ts Hts) as [El|Hr].
  all: destruct fr; cbn [part] in *.
  - destruct Hp as (H1 & H2 & H3). split; [unfold hp; rewrite Hx; [done|by left|rewrite El; lia]|].
    split; [by rewrite El in Hl; rewrite Hl|]. apply IH; [done|lia|done|]. intros x [->|?] ?; apply Hx; first [done|by left|right; lia].
  - destruct Hp as (H2 & H3). split; [unfold hs; rewrite Hx; [done|right; lia|rewrite El; lia]|].
    apply IH; [done|lia|done|]. intros x [->|?] ?; apply Hx; first [done|by left|right; lia].
  - destruct Hp as (H1 & H2 & H3). split; [unfold hp; rewrite Hx; [done|by left|lia]|].
    split; [unfold hs; rewrite Hx; [done|right; lia|lia]|]. apply IH; [done|lia|done|].
    intros x [->|?] ?; apply Hx; first [done|by left|right; lia].
  - destruct Hp as (H2 & H3). split; [unfold hs; rewrite Hx; [done|right; lia|lia]|].
    apply IH; [done|lia|done|]. intros x [->|?] ?; apply Hx; first [done|by left|right; lia].
Qed.

(** The last link, when the tiles or the block before them change. *)
Lemma last_change h h' p p' a ts : sizes_ok ts → hp h' p' = hp h p →
  (∀ x, a ≤ x < after a ts → h' !! x = h !! x) → hp h' (lastf p' a ts) = hp h (lastf p a ts).
Proof.
  intros Hs. revert p p' a. induction Hs as [|[n fr] ts Hn Hts IH]; intros p p' a Hpp Hx; [done|].
  cbn [fst] in Hn. rewrite (after_cons a (n, fr) ts) in Hx. pose proof (after_lt a n fr Hn).
  pose proof (after_le (after a [(n, fr)]) ts Hts). cbn [lastf]. apply IH.
  - destruct fr; [|done]. unfold hp. rewrite Hx; [done|lia].
  - intros x ?. apply Hx. lia.
Qed.

(** ** Lists of blocks *)

(** The free blocks with their sizes, in the order of the links. *)
Fixpoint path (h : gmap Z Header) (p : Z) (R : list (Z * Z)) : Prop :=
  match R with
  | [] => True
  | (x, n) :: R' => hp h p = Some x ∧ hs h x = Some n ∧ path h x R'
  end.
Fixpoint lastp (p : Z) (R : list (Z * Z)) : Z := match R with [] => p | (x, _) :: R' => lastp x R' end.
Fixpoint blocks (free : bool) (a : Z) (ts : list tile) : list (Z * Z) :=
  match ts with
  | [] => []
  | (n, fr) :: r => (if Bool.eqb fr free then [(a, n)] else []) ++ blocks free (after a [(n, fr)]) r
  end.

Lemma path_app h p R R' : path h p (R ++ R') ↔ path h p R ∧ path h (lastp p R) R'.
Proof. revert p. induction R as [|[x n] R IH]; intros p; cbn; [tauto|]. rewrite IH. tauto. Qed.
Lemma lastp_app p R R' : lastp p (R ++ R') = lastp (lastp p R) R'.
Proof. revert p. induction R as [|[x n] R IH]; intros p; cbn; [done|]. apply IH. Qed.
Lemma blocks_app fr a t u : blocks fr a (t ++ u) = blocks fr a t ++ blocks fr (after a t) u.
Proof.
  revert a. induction t as [|[n f] t IH]; intros a; cbn [blocks app]; [by rewrite after_nil|].
  by rewrite IH, <-app_assoc, (after_cons a (n, f) t).
Qed.
Lemma part_path h p a ts : part h p a ts → path h p (blocks true a ts).
Proof.
  revert p a. induction ts as [|[n []] ts IH]; intros p a; cbn [part blocks Bool.eqb app path]; [done|..].
  - intros (? & ? & ?). auto.
  - intros (? & ?). auto.
Qed.
Lemma lastp_blocks p a ts : lastp p (blocks true a ts) = lastf p a ts.
Proof. revert p a. induction ts as [|[n []] ts IH]; intros p a; cbn [blocks Bool.eqb app lastp lastf]; auto. Qed.
Lemma length_blocks fr a ts : (length (blocks fr a ts) ≤ length ts)%nat.
Proof. revert a. induction ts as [|[n f] ts IH]; intros a; cbn; [done|]. rewrite length_app. specialize (IH (after a [(n, f)])). destruct (Bool.eqb f fr); cbn; lia. Qed.
(** A block of the list is a tile. *)
Lemma blocks_split fr a ts A x n B : blocks fr a ts = A ++ (x, n) :: B →
  ∃ t u, ts = t ++ (n, fr) :: u ∧ x = after a t ∧ A = blocks fr a t ∧ B = blocks fr (after x [(n, fr)]) u.
Proof.
  revert a A. induction ts as [|[k f] ts IH]; intros a A; cbn [blocks]; [by destruct A|].
  destruct (Bool.eqb f fr) eqn:E; cbn [app].
  - apply Bool.eqb_prop in E as ->. destruct A as [|y A]; cbn [app]; intros EA.
    + injection EA as <- <- <-. exists [], ts. by rewrite after_nil.
    + injection EA as <- E. destruct (IH _ _ E) as (t & u & -> & -> & -> & ->). exists ((k, fr) :: t), u. cbn [blocks].
      rewrite Bool.eqb_reflx, (after_cons a (k, fr) t). done.
  - intros EA. destruct (IH _ _ EA) as (t & u & -> & -> & -> & ->). exists ((k, f) :: t), u. cbn [blocks].
    by rewrite E, (after_cons a (k, f) t).
Qed.
Lemma blocks_in fr a t n u : (after a t, n) ∈ blocks fr a (t ++ (n, fr) :: u).
Proof. rewrite blocks_app. apply elem_of_app. right. cbn [blocks]. rewrite Bool.eqb_reflx. by left. Qed.
Lemma blocks_range fr a ts x n : sizes_ok ts → (x, n) ∈ blocks fr a ts → a ≤ x ∧ 1 ≤ n ∧ x + 8 * n ≤ after a ts.
Proof.
  intros Hs (A & B & E)%list_elem_of_split. apply blocks_split in E as (t & u & -> & -> & _).
  apply list.Forall_app in Hs as [Ht [Hn Hu]%Forall_cons_1]. cbn [fst] in Hn. rewrite after_app, after_cons, after_one.
  pose proof (after_le a t Ht). pose proof (after_le (after a t + 8 * n) u Hu). lia.
Qed.

Lemma after_size a n f : after a [(n, f)] = after a [(n, true)].
Proof. by rewrite !after_one. Qed.


(** ** Joins *)

Definition merge_right (n : Z) (u : list tile) : Z * list tile :=
  match u with (k, true) :: r => (n + k, r) | _ => (n, u) end.
Definition merge_left (t : list tile) (n : Z) (u : list tile) : list tile :=
  match rev t with (m, true) :: r => rev r ++ (m + n, true) :: u | _ => t ++ (n, true) :: u end.
Definition free_tiles (t : list tile) (n : Z) (u : list tile) : list tile :=
  let '(n', u') := merge_right n u in merge_left t n' u'.

(** Where the block behind is. *)
Lemma lastf_split p a t : (lastf p a t = p ∧ Forall (λ x : tile, x.2 = false) t) ∨
  ∃ t0 m t1, t = t0 ++ (m, true) :: t1 ∧ lastf p a t = after a t0 ∧ Forall (λ x : tile, x.2 = false) t1.
Proof.
  revert p a. induction t as [|[n fr] t IH]; intros p a; [by left|]. cbn [lastf].
  destruct (IH (if fr then a else p) (after a [(n, fr)])) as [[E Ht]|(t0 & m & t1 & -> & E & Ht)].
  - destruct fr; [right|left; split; [done|by constructor]]. exists [], n, t. by rewrite after_nil.
  - right. exists ((n, fr) :: t0), m, t1. by rewrite (after_cons a (n, fr) t0).
Qed.

Lemma merge_left_plain t n u : ends_free false t = false → merge_left t n u = t ++ (n, true) :: u.
Proof.
  intros E. unfold merge_left. induction t as [|[m fr] t _] using rev_ind; [done|]. rewrite rev_app_distr. cbn.
  assert (ends_free false (t ++ [(m, fr)]) = fr) as Ef by (clear; generalize false; induction t as [|[? ?] t IH]; cbn; auto).
  rewrite Ef in E. by subst fr.
Qed.
Lemma merge_left_free t m n u : merge_left (t ++ [(m, true)]) n u = t ++ (m + n, true) :: u.
Proof. unfold merge_left. rewrite rev_app_distr. cbn. by rewrite rev_involutive. Qed.
Lemma ends_free_app b t u : ends_free b (t ++ u) = ends_free (ends_free b t) u.
Proof. revert b. induction t as [|[k fr] t IH]; intros b; cbn; auto. Qed.
Lemma ends_free_used b t : Forall (λ x : tile, x.2 = false) t → ends_free b t = if decide (t = []) then b else false.
Proof.
  intros H. revert b. induction H as [|[n fr] t E H IH]; intros b; [done|]. cbn in *. subst fr. rewrite IH. by case_decide.
Qed.

(** The tiles before the block that is taken. *)
Definition take_before (t : list tile) (n nunits : Z) : list tile :=
  if n =? nunits then t else t ++ [(n - nunits, true)].

(** ** Free blocks do not touch *)

Lemma apart_app b t u : apart b (t ++ u) ↔ apart b t ∧ apart (ends_free b t) u.
Proof. revert b. induction t as [|[n f] t IH]; intros b; cbn; [tauto|]. rewrite IH. tauto. Qed.
Lemma apart_weaken u : apart true u → apart false u.
Proof. destruct u as [|[n f] u]; cbn; [done|]. tauto. Qed.

Lemma apart_free t n u : apart false (t ++ (n, false) :: u) → apart false (free_tiles t n u).
Proof.
  rewrite apart_app. cbn [apart]. intros (Ht & _ & Hu).
  assert (apart true (merge_right n u).2) as Hu'.
  { destruct u as [|[k []] u]; cbn in *; tauto. }
  unfold free_tiles. destruct (merge_right n u) as [n' u']. cbn [snd] in Hu'. destruct (ends_free false t) eqn:Ef.
  - destruct t as [|[m fr] t _] using rev_ind; [done|]. rewrite ends_free_app in Ef. cbn in Ef. subst fr. rewrite merge_left_free.
    rewrite apart_app in Ht |- *. cbn in *. tauto.
  - rewrite merge_left_plain, apart_app by done. cbn [apart]. rewrite Ef. tauto.
Qed.
Lemma apart_take t n nunits u : apart false (t ++ (n, true) :: u) → apart false (take_before t n nunits ++ (nunits, false) :: u).
Proof.
  rewrite apart_app. cbn [apart]. intros (Ht & He & Hu%apart_weaken). unfold take_before. destruct (n =? nunits).
  - rewrite apart_app. cbn [apart]. rewrite andb_false_r. tauto.
  - rewrite !apart_app, ends_free_app. cbn. rewrite He. tauto.
Qed.

