(* ===== verification/UmallocProofs.v ===== *)
(** The user's allocator keeps its blocks apart and loses none. The heap is
    described by its tiles ([UmallocTiles.v]). *)

From S2P Require Import Prelude Umalloc UmallocTiles.

(** ** The heap *)

Section umalloc.
(** [base] is in the program's data, below the first address of the heap; the
    kernel gives no memory beyond the user's part of the address space. *)
Context (base hstart : Z) (sbrk_ok : Z → Z → bool).
Definition USER_MAX : Z := 0xA0000.
Context (Hbase : 0 < base) (Hstart : base + SIZEOF_HEADER ≤ hstart) (Hfits : hstart ≤ USER_MAX).
Context (grants : ∀ b n, sbrk_ok b n = true → 0 ≤ n → b + n ≤ USER_MAX).

Abbreviation store := (store base).
Abbreviation store_ptr := (store_ptr base).
Abbreviation store_size := (store_size base).
Abbreviation free := (free base).
Abbreviation malloc_loop := (malloc_loop base sbrk_ok).
Abbreviation morecore := (morecore base sbrk_ok).
Abbreviation take_block := (take_block base).
Abbreviation malloc := (malloc base sbrk_ok).
Abbreviation join_right := (join_right base).
Abbreviation join_left := (join_left base).

Record rep (s : heap) (ts : list tile) : Prop := {
  rp_part : part (hdrs s) base hstart ts;
  rp_last : hp (hdrs s) (lastf base hstart ts) = Some base;
  rp_base : hs (hdrs s) base = Some 0;
  rp_sizes : sizes_ok ts;
  rp_brk : brk s = after hstart ts;
  rp_limit : after hstart ts ≤ USER_MAX;
  rp_freep : freep s = base ∨ ∃ t k u, ts = t ++ (k, true) :: u ∧ freep s = after hstart t
}.

Lemma load_Ok s p h : hdrs s !! p = Some h → load p s = Ok (h, s).
Proof. intros E. unfold load. rewrite (bind_Ok get _ s s s) by done. by rewrite E. Qed.
Lemma load_hp s p q : hp (hdrs s) p = Some q → ∃ n, load p s = Ok (mkHeader q n, s) ∧ hs (hdrs s) p = Some n.
Proof.
  unfold hp, hs. destruct (hdrs s !! p) as [[q' n]|] eqn:E; cbn; intros [= ->]. exists n. by rewrite (load_Ok s p _ E).
Qed.

(** *** Where a block goes *)

Lemma first_link h p a ts z : part h p a ts → sizes_ok ts → hp h (lastf p a ts) = Some z →
  ∃ q, hp h p = Some q ∧ (q = z ∨ a ≤ q < after a ts).
Proof.
  intros Hp Hs. revert p a Hp. induction Hs as [|[n fr] ts Hn Hts IH]; intros p a Hp Hl; cbn [part lastf] in *.
  { exists z. auto. }
  rewrite (after_cons a (n, fr) ts). cbn [fst] in Hn. pose proof (after_lt a n fr Hn).
  pose proof (after_le (after a [(n, fr)]) ts Hts). destruct fr.
  - destruct Hp as (P1 & _). exists a. split; [done|right; lia].
  - destruct Hp as (_ & P2). destruct (IH _ _ P2 Hl) as (q & Hq & [->|?]); eexists; (split; [done|]); [by left|right; lia].
Qed.

Lemma find_forward t n u s : ∀ p a fuel,
  part (hdrs s) p a (t ++ (n, false) :: u) → sizes_ok (t ++ (n, false) :: u) →
  hp (hdrs s) (lastf p a (t ++ (n, false) :: u)) = Some base →
  base ≤ p < a → (length t < fuel)%nat →
  free_find fuel (after a t) p s = Ok (lastf p a t, s).
Proof.
  induction t as [|[m fr] t IH]; intros p a [|fuel] Hp Hs Hl Hb Hf; cbn [length app] in *; try lia.
  - rewrite after_nil. cbn [lastf free_find]. destruct (first_link _ _ _ _ _ Hp Hs Hl) as (q & Hq & Hr).
    destruct (load_hp s p q Hq) as (k & El & _). step El. cbn [h_ptr].
    destruct Hp as [_ Hp]. apply Forall_cons_1 in Hs as [Hn Hs]. cbn [fst] in Hn. cbn [lastf] in Hl.
    destruct (first_link _ _ _ _ _ Hp Hs Hl) as (q' & Hq' & Hr'). rewrite Hq in Hq'. injection Hq' as <-.
    pose proof (after_lt a n false Hn).
    destruct ((a >? p) && (a <? q)) eqn:E1; [done|]. destruct ((p >=? q) && ((a >? p) || (a <? q))) eqn:E2; [done|]. lia.
  - apply Forall_cons_1 in Hs as [Hm Hs]. cbn [fst] in Hm. rewrite (after_cons a (m, fr) t).
    pose proof (after_lt a m fr Hm). cbn [lastf part] in *. pose proof Hs as Hs'. apply list.Forall_app in Hs' as [Hst _].
    pose proof (after_le (after a [(m, fr)]) t Hst).
    destruct fr.
    + destruct Hp as (P1 & _ & Hp). cbn [free_find]. destruct (load_hp s p a P1) as (k & El & _). step El. cbn [h_ptr].
      replace ((after (after a [(m, true)]) t >? p) && (after (after a [(m, true)]) t <? a)) with false by lia.
      replace (p >=? a) with false by lia. cbn [andb]. apply IH; try done; lia.
    + destruct Hp as (_ & Hp). apply IH; try done; lia.
Qed.

Lemma find_wrap t s : ∀ p a bp, part (hdrs s) p a t → sizes_ok t → hp (hdrs s) (lastf p a t) = Some base →
  base < bp < p → p < a → ∃ k, (k ≤ length t)%nat ∧
    ∀ fuel, free_find (S k + fuel) bp p s = free_find fuel bp base s.
Proof.
  induction t as [|[m fr] t IH]; intros p a bp Hp Hs Hl Hb Ha.
  - exists 0%nat. split; [done|]. intros fuel. cbn [plus free_find Nat.add]. destruct (load_hp s p base Hl) as (k & El & _).
    step El. cbn [h_ptr]. replace ((bp >? p) && (bp <? base)) with false by lia.
    replace (bp >? p) with false by lia. replace (bp <? base) with false by lia. by rewrite andb_false_r.
  - apply Forall_cons_1 in Hs as [Hm Hs]. cbn [fst] in Hm. pose proof (after_lt a m fr Hm). cbn [lastf part] in *. destruct fr.
    + destruct Hp as (P1 & _ & Hp). destruct (IH a _ bp Hp Hs Hl) as (k & Hk & E); [lia..|]. exists (S k). split; [cbn; lia|].
      intros fuel. rewrite <-E. change (S (S k) + fuel)%nat with (S (S k + fuel)). remember (S k + fuel)%nat as f.
      cbn [free_find]. destruct (load_hp s p a P1) as (sz & El & _). step El. cbn [h_ptr].
      replace ((bp >? p) && (bp <? a)) with false by lia. by replace (p >=? a) with false by lia.
    + destruct Hp as (_ & Hp). destruct (IH p _ bp Hp Hs Hl) as (k & Hk & E); [lia..|]. exists k. split; [cbn; lia|done].
Qed.

(** The tiles from a free block on. *)
Lemma from_free h a t k u : part h base a (t ++ (k, true) :: u) →
  hs h (after a t) = Some k ∧ part h (after a t) (after (after a t) [(k, true)]) u ∧
  lastf base a (t ++ (k, true) :: u) = lastf (after a t) (after (after a t) [(k, true)]) u.
Proof. rewrite part_app, lastf_app. cbn [part lastf]. tauto. Qed.

Lemma free_find_ok s t n u fuel : rep s (t ++ (n, false) :: u) → (2 * length (t ++ (n, false) :: u) + 2 ≤ fuel)%nat →
  free_find fuel (after hstart t) (freep s) s = Ok (lastf base hstart t, s).
Proof.
  intros [Hp Hl Hb Hs Hk Hlim Hfp] Hf. rewrite length_app in Hf. cbn [length] in Hf. unfold SIZEOF_HEADER in Hstart.
  pose proof Hs as Hs'. apply list.Forall_app in Hs' as [Hst Hsu]. pose proof (after_le hstart t Hst).
  assert (∀ f, (length t < f)%nat → free_find f (after hstart t) base s = Ok (lastf base hstart t, s)) as Hbase'.
  { intros f Hf'. apply find_forward with n u; try done; lia. }
  destruct Hfp as [->|(t' & k & u' & E & ->)]; [apply Hbase'; lia|].
  apply app_eq_inv in E as [(v & -> & E)|(v & -> & E)]; (destruct v as [|[m fr] v]; [done|]); injection E as <- <- ->.
  - rewrite <-app_assoc in Hp, Hl, Hs. cbn [app] in *. destruct (from_free _ _ _ _ _ Hp) as (_ & Hpv & Elast).
    rewrite Elast in Hl. apply list.Forall_app in Hs as [Hst' [Hk' Hsv]%Forall_cons_1]. cbn [fst] in Hk'.
    pose proof (after_le hstart t' Hst'). pose proof (after_lt (after hstart t') k true Hk').
    rewrite after_app, (after_cons _ (k, true) v), lastf_app. cbn [lastf]. rewrite length_app in Hf. cbn [length] in Hf.
    apply find_forward with n u; try done; lia.
  - replace (t ++ (n, false) :: v ++ (k, true) :: u') with ((t ++ (n, false) :: v) ++ (k, true) :: u') in Hp, Hl
      by (by rewrite <-app_assoc).
    destruct (from_free _ _ _ _ _ Hp) as (_ & Hpv & Elast). rewrite Elast in Hl.
    apply Forall_cons_1 in Hsu as [Hn [Hsv [Hk' Hsu]%Forall_cons_1]%list.Forall_app]. cbn [fst] in Hn, Hk'.
    rewrite after_app, (after_cons _ (n, false) v) in *. pose proof (after_lt (after hstart t) n false Hn).
    pose proof (after_le (after (after hstart t) [(n, false)]) v Hsv).
    set (q := after (after (after hstart t) [(n, false)]) v) in *. pose proof (after_lt q k true Hk').
    rewrite length_app in Hf. cbn [length] in Hf.
    destruct (find_wrap u' s q _ (after hstart t) Hpv Hsu Hl) as (j & Hj & Ej); [lia..|].
    replace fuel with (S j + (fuel - S j))%nat by lia. rewrite Ej. apply Hbase'. lia.
Qed.

(** *** A block is freed *)

Lemma store_Ok s p h : p = base ∨ 0 < p ∧ p + 8 ≤ brk s → store p h s = Ok (tt, mkHeap (<[p := h]> (hdrs s)) (freep s) (brk s)).
Proof.
  intros Hp. unfold Umalloc.store. rewrite (bind_Ok get _ s s s) by done.
  replace ((p =? base) || ((0 <? p) && (p + SIZEOF_HEADER <=? brk s))) with true; [done|]. unfold SIZEOF_HEADER. lia.
Qed.
Lemma store_ptr_Ok s p q h : p = base ∨ 0 < p ∧ p + 8 ≤ brk s → hdrs s !! p = Some h →
  store_ptr p q s = Ok (tt, mkHeap (<[p := mkHeader q (h_size h)]> (hdrs s)) (freep s) (brk s)).
Proof. intros Hp E. unfold Umalloc.store_ptr. rewrite (bind_Ok get _ s s s), E by done. by apply store_Ok. Qed.
Lemma store_size_Ok s p n h : p = base ∨ 0 < p ∧ p + 8 ≤ brk s → hdrs s !! p = Some h →
  store_size p n s = Ok (tt, mkHeap (<[p := mkHeader (h_ptr h) n]> (hdrs s)) (freep s) (brk s)).
Proof. intros Hp E. unfold Umalloc.store_size. rewrite (bind_Ok get _ s s s), E by done. by apply store_Ok. Qed.
Lemma plus_after a n fr : 0 ≤ a → 0 ≤ n → after a [(n, fr)] ≤ USER_MAX → plus a n = after a [(n, fr)].
Proof. unfold plus, after, USER_MAX. cbn [span]. intros. rewrite u32_small; [lia|]. unfold is_u32, SIZEOF_HEADER in *. lia. Qed.

Lemma hp_hs h p q n : hp h p = Some q → hs h p = Some n → h !! p = Some (mkHeader q n).
Proof. unfold hp, hs. destruct (h !! p) as [[? ?]|]; cbn; [|done]. by intros [= ->] [= ->]. Qed.

Lemma join_right_ok s pr bp q0 n u :
  hdrs s !! bp = Some (mkHeader q0 n) → 1 ≤ n → sizes_ok u → base < bp → pr < bp → base ≤ pr →
  after bp ((n, false) :: u) ≤ USER_MAX → after bp ((n, false) :: u) ≤ brk s →
  part (hdrs s) pr (after bp [(n, false)]) u → hp (hdrs s) (lastf pr (after bp [(n, false)]) u) = Some base →
  ∃ h q, join_right bp pr s = Ok (tt, mkHeap h (freep s) (brk s)) ∧
    let '(n', u') := merge_right n u in
    h !! bp = Some (mkHeader q n') ∧ (∀ x, x ≠ bp → h !! x = hdrs s !! x) ∧ 1 ≤ n' ∧ sizes_ok u' ∧
    after bp ((n', false) :: u') = after bp ((n, false) :: u) ∧
    part h bp (after bp [(n', false)]) u' ∧ hp h (lastf bp (after bp [(n', false)]) u') = Some base.
Proof.
  intros Hbp Hn Hs Hb Hpr Hpb Hlim Hbrk Hp Hl. rewrite after_cons in Hlim, Hbrk.
  pose proof (after_lt bp n false Hn) as Hn'. pose proof (after_le (after bp [(n, false)]) u Hs).
  assert (bp = base ∨ 0 < bp ∧ bp + 8 ≤ brk s) as Hv by lia.
  destruct (first_link _ _ _ _ _ Hp Hs Hl) as (q & Hq & Hr). destruct (load_hp s pr q Hq) as (m & Elp & _).
  unfold Umalloc.join_right. step (load_Ok s bp _ Hbp). step Elp. cbn [h_size h_ptr].
  rewrite (plus_after bp n false) by lia.
  assert (∀ h', h' = <[bp := mkHeader q n]> (hdrs s) → (after bp [(n, false)] =? q) = false →
    part h' bp (after bp [(n, false)]) u ∧ hp h' (lastf bp (after bp [(n, false)]) u) = Some base) as Hplain.
  { intros h' -> _. assert (∀ x, after bp [(n, false)] ≤ x < after (after bp [(n, false)]) u →
      <[bp := mkHeader q n]> (hdrs s) !! x = hdrs s !! x) as Hx by (intros x ?; apply lookup_insert_ne; lia).
    assert (hp (<[bp := mkHeader q n]> (hdrs s)) bp = hp (hdrs s) pr) as Hpp by (rewrite Hq; unfold hp; by rewrite lookup_insert_eq).
    split; [by eapply part_change|]. by rewrite (last_change (hdrs s) _ pr). }
  destruct (after bp [(n, false)] =? q) eqn:E.
  - destruct u as [|[k []] u]; cbn [part lastf] in Hp, Hl.
    + rewrite Hl in Hq. injection Hq as <-. lia.
    + destruct Hp as (P1 & P2 & P3). rewrite P1 in Hq. injection Hq as <-.
      set (a2 := after bp [(n, false)]) in *. apply Forall_cons_1 in Hs as [Hk Hs]. cbn [fst] in Hk.
      pose proof (after_lt a2 k true Hk). rewrite after_cons in Hlim, Hbrk. pose proof (after_le (after a2 [(k, true)]) u Hs).
      destruct (first_link _ _ _ _ _ P3 Hs Hl) as (q2 & Hq2 & _).
      step (load_Ok s a2 _ (hp_hs _ _ _ _ Hq2 P2)). cbn [h_size h_ptr].
      step (store_size_Ok s bp (u32 (n + k)) _ Hv Hbp). cbn [h_ptr].
      rewrite (store_ptr_Ok _ bp q2 (mkHeader q0 (u32 (n + k)))) by (cbn; (done || by rewrite lookup_insert_eq)).
      cbn [hdrs freep brk h_size]. rewrite insert_insert_eq.
      assert (after bp [(n + k, false)] = after a2 [(k, true)]) as Ea by (unfold a2, after; cbn [span]; lia).
      assert (a2 = bp + 8 * n) as Ea2 by apply after_one. pose proof (after_one a2 k true) as Ea3.
      rewrite u32_small by (clear Hplain; unfold is_u32; unfold USER_MAX in *; lia).
      eexists _, q2. split; [done|]. cbn [merge_right]. rewrite (after_cons bp (n + k, false) u), (after_cons bp (n, false) ((k, true) :: u)), (after_cons _ (k, true) u), Ea.
      assert (∀ x, x ≠ bp → <[bp := mkHeader q2 (n + k)]> (hdrs s) !! x = hdrs s !! x) as Hx
        by (intros x ?; by apply lookup_insert_ne).
      assert (hp (<[bp := mkHeader q2 (n + k)]> (hdrs s)) bp = hp (hdrs s) a2) as Hpp by (rewrite Hq2; unfold hp; by rewrite lookup_insert_eq).
      split_and!; try done; [by rewrite lookup_insert_eq|lia|..].
      * eapply part_change; [done..|]. intros x ?. apply Hx. lia.
      * rewrite (last_change (hdrs s) _ a2); try done. intros x ?. apply Hx. lia.
    + destruct Hp as (P2 & P3). apply Forall_cons_1 in Hs as [Hk Hs]. cbn [fst] in Hk.
      destruct (first_link _ _ _ _ _ P3 Hs Hl) as (q2 & Hq2 & Hr2). rewrite Hq in Hq2. injection Hq2 as <-.
      pose proof (after_lt (after bp [(n, false)]) k false Hk). lia.
  - rewrite (store_ptr_Ok s bp q _ Hv Hbp). cbn [h_size]. eexists _, q. split; [done|].
    destruct (Hplain _ eq_refl eq_refl) as [Hp' Hl'].
    assert (merge_right n u = (n, u)) as ->.
    { destruct u as [|[k []] u]; try done. cbn in Hp. destruct Hp as (P1 & _). rewrite P1 in Hq. injection Hq as <-. lia. }
    split_and!; try done; [by rewrite lookup_insert_eq|]. intros x ?. by apply lookup_insert_ne.
Qed.

(** [join_left] when the block behind touches, and when it does not. The heap
    is as [join_right] leaves it. *)
Section join_left.
Context (h : gmap Z Header) (h0 : gmap Z Header) (fp bk bp q n' : Z) (t u' : list tile).
Context (Ebp : bp = after hstart t) (Hbp : h !! bp = Some (mkHeader q n')) (Hsame : ∀ x, x ≠ bp → h !! x = h0 !! x).
Context (Hn : 1 ≤ n') (Ht : sizes_ok t) (Hu : sizes_ok u') (Hlim : after bp ((n', false) :: u') ≤ USER_MAX)
  (Hbk : after bp ((n', false) :: u') = bk).
Context (Hpt : part h0 base hstart t) (Hb0 : hs h0 base = Some 0)
  (Hpu : part h bp (after bp [(n', false)]) u') (Hlu : hp h (lastf bp (after bp [(n', false)]) u') = Some base).

Lemma join_left_free t0 m : t = t0 ++ [(m, true)] →
  ∃ s', join_left bp (lastf base hstart t) (mkHeap h fp bk) = Ok (tt, s') ∧ rep s' (t0 ++ (m + n', true) :: u') ∧ brk s' = bk.
Proof.
  intros ->. unfold SIZEOF_HEADER in Hstart. rewrite lastf_app. cbn [lastf]. set (pr := after hstart t0) in *.
  pose proof Hpt as Hpt'. rewrite part_app in Hpt'. destruct Hpt' as (Hp0 & (P1 & P2 & _)). fold pr in P1, P2.
  rewrite after_app in Ebp. fold pr in Ebp. pose proof Ht as Ht'. apply list.Forall_app in Ht' as [Ht0 [Hm _]%Forall_cons_1].
  cbn [fst] in Hm. pose proof (after_le hstart t0 Ht0) as Hpr. fold pr in Hpr. pose proof (after_one pr m true) as Em.
  rewrite after_cons in Hlim, Hbk. pose proof (after_one bp n' false) as En'. pose proof (after_le (after bp [(n', false)]) u' Hu) as Hu'.
  assert (∃ r, h !! pr = Some (mkHeader r m)) as [r Hr].
  { rewrite Hsame by lia. unfold hs in P2. destruct (h0 !! pr) as [[r sz]|]; cbn in P2; [|done]. injection P2 as ->. eauto. }
  unfold Umalloc.join_left. step (load_Ok (mkHeap h fp bk) bp _ Hbp). step (load_Ok (mkHeap h fp bk) pr _ Hr). cbn [h_size].
  rewrite (plus_after pr m true) by lia. rewrite <-Ebp, Z.eqb_refl.
  assert (pr = base ∨ 0 < pr ∧ pr + 8 ≤ bk) as Hv by lia.
  rewrite u32_small by (unfold is_u32; unfold USER_MAX in *; lia).
  rewrite (bind_assoc (store_size pr (m + n'))). step (store_size_Ok (mkHeap h fp bk) pr (m + n') _ Hv Hr). cbn [h_ptr hdrs freep brk].
  assert (hdrs (mkHeap (<[pr := mkHeader r (m + n')]> h) fp bk) !! pr = Some (mkHeader r (m + n'))) as Hr2
    by (cbn; by rewrite lookup_insert_eq).
  step (store_ptr_Ok (mkHeap (<[pr := mkHeader r (m + n')]> h) fp bk) pr q _ Hv Hr2). cbn [hdrs freep brk h_size]. rewrite insert_insert_eq.
  set (h2 := <[pr := mkHeader q (m + n')]> h). eexists. split; [done|]. split; [|done].
  assert (∀ x, x ≠ pr → x ≠ bp → h2 !! x = h0 !! x) as Hx2 by (intros x ? ?; unfold h2; rewrite lookup_insert_ne by done; by apply Hsame).
  assert (∀ x, x ≠ pr → h2 !! x = h !! x) as Hx1 by (intros x ?; unfold h2; by rewrite lookup_insert_ne).
  assert (after pr [(m + n', true)] = after bp [(n', false)]) as Ea by (rewrite !after_one; lia).
  assert (hp h2 pr = hp h bp) as Hpp by (unfold hp, h2; by rewrite lookup_insert_eq, Hbp).
  assert (hp h2 base = hp h0 base) as Hbb by (unfold hp; rewrite Hx2; [done|lia|lia]).
  split; cbn [hdrs freep brk set_freep].
  - rewrite part_app. split; [eapply part_change; [done|done|done|]; intros x ?; apply Hx2; lia|]. cbn [part]. fold pr. split_and!.
    + rewrite (last_change h0 h2 base); [exact P1|done|done|]. intros x ?. apply Hx2; lia.
    + unfold hs, h2. by rewrite lookup_insert_eq.
    + rewrite Ea. eapply part_change; [exact Hpu|done|done|]. intros x ?. apply Hx1. lia.
  - rewrite lastf_app. cbn [lastf]. fold pr. rewrite Ea, (last_change h h2 bp); [exact Hlu|done|done|]. intros x ?. apply Hx1. lia.
  - unfold hs. rewrite Hx2 by lia. exact Hb0.
  - apply list.Forall_app. split; [done|]. constructor; [cbn; lia|done].
  - rewrite after_app. fold pr. rewrite after_cons, Ea. lia.
  - rewrite after_app. fold pr. rewrite after_cons, Ea. lia.
  - right. by exists t0, (m + n'), u'.
Qed.

(** The block behind is there, with the size the tiles say, and does not touch. *)
Lemma behind_apart : ends_free false t = false →
  ∃ r m, h !! lastf base hstart t = Some (mkHeader r m) ∧ 0 ≤ m ∧
    base ≤ lastf base hstart t ∧ lastf base hstart t + 8 ≤ bp ∧ lastf base hstart t + 8 * m < bp ∧
    (lastf base hstart t = base ∨ hstart ≤ lastf base hstart t).
Proof.
  intros E. pose proof (after_le hstart t Ht). unfold SIZEOF_HEADER in Hstart.
  destruct (lastf_split base hstart t) as [[El _]|(t0 & m & t1 & E1 & El & Hused)]; rewrite El.
  - unfold hs in Hb0. rewrite Hsame by lia. destruct (h0 !! base) as [[r sz]|]; cbn in Hb0; [|done]. injection Hb0 as ->.
    exists r, 0. split; [done|]. lia.
  - rewrite E1 in Hpt. rewrite E1 in Ht. destruct (from_free _ _ _ _ _ Hpt) as (P2 & _). apply list.Forall_app in Ht as [Ht0 [Hm Ht1]%Forall_cons_1].
    cbn [fst] in Hm. pose proof (after_le hstart t0 Ht0).
    destruct t1 as [|[k fr] t1]; [by rewrite E1, ends_free_app in E|].
    apply Forall_cons_1 in Ht1 as [Hk Ht1]. cbn [fst] in Hk.
    assert (bp = after (after hstart t0 + 8 * m + 8 * k) t1) as Eb.
    { rewrite Ebp, E1, after_app, after_cons, after_one, after_cons, after_one. done. }
    pose proof (after_le (after hstart t0 + 8 * m + 8 * k) t1 Ht1). rewrite Hsame by lia.
    unfold hs in P2. destruct (h0 !! after hstart t0) as [[r sz]|]; cbn in P2; [|done]. injection P2 as ->.
    exists r, m. split; [done|]. lia.
Qed.

Lemma join_left_plain : ends_free false t = false →
  ∃ s', join_left bp (lastf base hstart t) (mkHeap h fp bk) = Ok (tt, s') ∧ rep s' (t ++ (n', true) :: u') ∧ brk s' = bk.
Proof.
  intros E. unfold SIZEOF_HEADER in Hstart. destruct (behind_apart E) as (r & m & Hr & Hm & Hge & Hle & Hap & Hor). set (pr := lastf base hstart t) in *.
  rewrite after_cons in Hlim, Hbk. pose proof (after_one bp n' false) as En'. pose proof (after_le (after bp [(n', false)]) u' Hu) as Hu'.
  pose proof (after_le hstart t Ht) as Hpr.
  unfold Umalloc.join_left. step (load_Ok (mkHeap h fp bk) bp _ Hbp). step (load_Ok (mkHeap h fp bk) pr _ Hr). cbn [h_size].
  assert (0 < pr) as Hpos by lia.
  assert ((plus pr m =? bp) = false) as ->.
  { unfold plus, SIZEOF_HEADER. rewrite u32_small by (unfold is_u32; unfold USER_MAX in *; lia). lia. }
  assert (pr = base ∨ 0 < pr ∧ pr + 8 ≤ bk) as Hv by lia.
  step (store_ptr_Ok (mkHeap h fp bk) pr bp _ Hv Hr). cbn [hdrs freep brk h_size].
  set (h2 := <[pr := mkHeader bp m]> h). eexists. split; [done|]. split; [|done].
  assert (∀ x, x ≠ pr → h2 !! x = h !! x) as Hx1 by (intros x ?; unfold h2; by rewrite lookup_insert_ne).
  assert (∀ x, x ≠ pr → x ≠ bp → h2 !! x = h0 !! x) as Hx2 by (intros x ? ?; rewrite Hx1 by done; by apply Hsame).
  assert (hs h2 pr = hs h0 pr) as Hsp by (unfold hs, h2; rewrite lookup_insert_eq, <-Hsame, Hr by lia; done).
  assert (hp h2 bp = hp h bp) as Hpp by (unfold hp; rewrite Hx1 by lia; done).
  assert (after bp [(n', true)] = after bp [(n', false)]) as Ea by (by rewrite !after_one).
  split; cbn [hdrs freep brk set_freep].
  - rewrite part_app. rewrite <-Ebp. split; [eapply part_relink; [exact Hpt|done|lia|done|]; intros x ? ?; apply Hx2; [done|lia]|].
    cbn [part]. fold pr. split_and!.
    + unfold hp, h2. by rewrite lookup_insert_eq.
    + unfold hs. rewrite Hx1, Hbp by lia. done.
    + rewrite Ea. eapply part_change; [exact Hpu|done|done|]. intros x ?. apply Hx1. lia.
  - rewrite lastf_app. cbn [lastf]. rewrite <-Ebp, Ea, (last_change h h2 bp); [exact Hlu|done|done|]. intros x ?. apply Hx1. lia.
  - destruct (decide (base = pr)) as [Ebase|Hne]; [by rewrite Ebase, Hsp, <-Ebase|]. unfold hs. rewrite Hx2 by (done || lia). exact Hb0.
  - apply list.Forall_app. split; [done|]. by constructor.
  - rewrite after_app, after_cons, <-Ebp, Ea. lia.
  - rewrite after_app, after_cons, <-Ebp, Ea. lia.
  - destruct (lastf_split base hstart t) as [[El _]|(t0 & k & t1 & E1 & El & _)]; [left; exact El|right].
    exists t0, k, (t1 ++ (n', true) :: u'). split; [by rewrite E1, <-app_assoc|exact El].
Qed.
End join_left.

Lemma free_ok s t n u fuel : rep s (t ++ (n, false) :: u) → (2 * length (t ++ (n, false) :: u) + 2 ≤ fuel)%nat →
  ∃ s', free fuel (after hstart t + 8) s = Ok (tt, s') ∧ rep s' (free_tiles t n u) ∧ brk s' = brk s.
Proof.
  intros Hrep Hf. pose proof (free_find_ok s t n u fuel Hrep Hf) as Efind.
  destruct Hrep as [Hp Hl Hb Hs Hk Hlim Hfp]. unfold SIZEOF_HEADER in Hstart.
  rewrite part_app in Hp. destruct Hp as [Hpt Hpu]. cbn [part] in Hpu. destruct Hpu as [Hsz Hpu].
  rewrite lastf_app in Hl. cbn [lastf] in Hl. apply list.Forall_app in Hs as [Hst [Hn Hsu]%Forall_cons_1]. cbn [fst] in Hn.
  rewrite after_app in Hlim, Hk. pose proof (after_le hstart t Hst).
  assert (after hstart t ≤ after (after hstart t) ((n, false) :: u)) as Hge by (apply after_le; by constructor).
  unfold Umalloc.free, SIZEOF_HEADER. rewrite u32_small by (unfold is_u32; unfold USER_MAX in *; lia).
  replace (after hstart t + 8 - 8) with (after hstart t) by lia.
  rewrite (bind_Ok get _ s s s) by done. step Efind. pose proof (lastf_range base hstart t Hst) as Hrange.
  remember (after hstart t) as bp eqn:Ebp.
  assert (∃ q0, hdrs s !! bp = Some (mkHeader q0 n)) as [q0 Hbp].
  { unfold hs in Hsz. destruct (hdrs s !! bp) as [[q0 sz]|]; cbn in Hsz; [|done]. injection Hsz as ->. eauto. }
  assert (base ≤ lastf base hstart t < bp) as Hpr by (destruct Hrange as [-> | ?]; lia).
  destruct (join_right_ok s (lastf base hstart t) bp q0 n u) as (h & q & Ej & Hj); [done..|lia|lia|lia|done|lia|done|done|].
  step Ej. unfold free_tiles. destruct (merge_right n u) as [n' u']. destruct Hj as (Hbp' & Hsame & Hn' & Hu' & Eaf & Hpu' & Hlu').
  destruct (ends_free false t) eqn:Ef.
  - destruct t as [|[m fr] t0 _] using rev_ind; [done|]. rewrite ends_free_app in Ef. cbn in Ef. subst fr. rewrite merge_left_free.
    rewrite Hk, <-Eaf. eapply (join_left_free h (hdrs s)); try done. by rewrite Eaf.
  - rewrite merge_left_plain by done. rewrite Hk, <-Eaf. eapply (join_left_plain h (hdrs s)); try done. by rewrite Eaf.
Qed.

(** *** The search *)

(** One round of the search, from the block after [prev] to [freep]. *)
Lemma malloc_scan s nunits R : ∀ fuel prev p0,
  path (hdrs s) prev R → hp (hdrs s) prev = Some p0 → R ≠ [] → lastp prev R = freep s →
  (∀ A x n B, R = A ++ (x, n) :: B → B ≠ [] → x ≠ freep s) → (length R ≤ fuel)%nat →
  (∃ A x n B h, R = A ++ (x, n) :: B ∧ nunits ≤ n ∧ hdrs s !! x = Some h ∧ h_size h = n ∧
    malloc_loop fuel nunits prev p0 s = take_block nunits (lastp prev A) x h s) ∨
  (Forall (λ y, y.2 < nunits) R ∧ ∃ fuel', (fuel ≤ fuel' + length R)%nat ∧
    malloc_loop fuel nunits prev p0 s =
      (p ← morecore fuel' nunits;
       if p =? 0 then mret 0 else h ← load p; malloc_loop fuel' nunits p (h_ptr h)) s).
Proof.
  induction R as [|[x n] R IH]; intros [|fuel] prev p0 Hp Hp0 Hne Hl Hx Hf; cbn [length] in Hf; try done; try lia.
  destruct Hp as (P1 & P2 & P3). rewrite P1 in Hp0. injection Hp0 as <-.
  unfold hs in P2. destruct (hdrs s !! x) as [h|] eqn:Eh; cbn in P2; [|done]. injection P2 as Eh2.
  cbn [Umalloc.malloc_loop]. step (load_Ok s x _ Eh). destruct (h_size h >=? nunits) eqn:En.
  { left. exists [], x, n, R, h. split_and!; try done. lia. }
  rewrite (bind_Ok get _ s s s) by done. destruct R as [|y R].
  - cbn [lastp] in Hl. rewrite Hl, Z.eqb_refl. right. split; [repeat constructor; cbn; lia|]. exists fuel. split; [cbn; lia|]. done.
  - assert (x ≠ freep s) as Hxf by (by apply (Hx [] x n (y :: R))). rewrite (proj2 (Z.eqb_neq _ _) Hxf).
    assert (hp (hdrs s) x = Some (h_ptr h)) as Hpx by (unfold hp; by rewrite Eh).
    destruct (IH fuel x (h_ptr h) P3 Hpx) as [(A & x' & n' & B & h' & E & ? & ? & ? & E')|(Hsm & f & Hf' & E')]; try done; [|lia|..].
    + intros A x' n' B E. apply (Hx ((x, n) :: A) x' n' B). by rewrite E.
    + left. exists ((x, n) :: A), x', n', B, h'. rewrite E. split_and!; try done.
    + right. split; [constructor; [cbn; lia|done]|]. exists f. split; [cbn [length] in *; lia|]. done.
Qed.

(** The round that the search makes: every free block, and [base], once; [rd_prev]
    says that what it goes through before a block ends in the one that links it. *)
Record round (s : heap) (ts : list tile) (R : list (Z * Z)) : Prop := {
  rd_path : path (hdrs s) (freep s) R;
  rd_some : R ≠ [];
  rd_last : lastp (freep s) R = freep s;
  rd_length : (length R ≤ S (length ts))%nat;
  rd_once A x n B : R = A ++ (x, n) :: B → B ≠ [] → x ≠ freep s;
  rd_prev A x n B : R = A ++ (x, n) :: B → 1 ≤ n → ∃ t u, ts = t ++ (n, true) :: u ∧ x = after hstart t ∧
    lastp (freep s) A = lastf base hstart t;
  rd_all t n u : ts = t ++ (n, true) :: u → (after hstart t, n) ∈ R
}.

Lemma snoc_split {A} (R : list A) z l x r : R ++ [z] = l ++ x :: r →
  (r = [] ∧ l = R ∧ x = z) ∨ ∃ r', r = r' ++ [z] ∧ R = l ++ x :: r'.
Proof.
  destruct r as [|y r _] using rev_ind; intros E.
  - apply app_inj_tail in E as [-> ->]. by left.
  - rewrite app_comm_cons, app_assoc in E. apply app_inj_tail in E as [-> ->]. right. by exists r.
Qed.

Lemma round_base s ts : rep s ts → freep s = base → round s ts (blocks true hstart ts ++ [(base, 0)]).
Proof.
  intros [Hp Hl Hb Hs Hk Hlim _] Efp. unfold SIZEOF_HEADER in Hstart. split; rewrite ?Efp.
  - rewrite path_app, lastp_blocks. split; [by apply part_path|by cbn].
  - by destruct (blocks true hstart ts).
  - by rewrite lastp_app.
  - rewrite length_app. pose proof (length_blocks true hstart ts). cbn. lia.
  - intros A x n B [(-> & _)|(r & -> & E)]%snoc_split HB; [done|].
    destruct (blocks_range true hstart ts x n Hs); [rewrite E; set_solver|]. lia.
  - intros A x n B [(_ & _ & E)|(r & -> & E)]%snoc_split Hn; [injection E; lia|].
    apply blocks_split in E as (t & u & -> & -> & -> & _). exists t, u. by rewrite lastp_blocks.
  - intros t n u ->. apply elem_of_app. left. apply blocks_in.
Qed.

Lemma round_free s t k u : rep s (t ++ (k, true) :: u) → freep s = after hstart t →
  round s (t ++ (k, true) :: u)
    (blocks true (after (after hstart t) [(k, true)]) u ++ (base, 0) :: blocks true hstart t ++ [(after hstart t, k)]).
Proof.
  intros [Hp Hl Hb Hs Hk Hlim _] Efp. unfold SIZEOF_HEADER in Hstart.
  destruct (from_free _ _ _ _ _ Hp) as (P1 & P2 & El). rewrite El in Hl. rewrite part_app in Hp. destruct Hp as (Hpt & P3 & _).
  apply list.Forall_app in Hs as [Hst [Hk' Hsu]%Forall_cons_1]. cbn [fst] in Hk'. pose proof (after_le hstart t Hst) as Hx0.
  pose proof (after_lt (after hstart t) k true Hk').
  assert (∀ y n, (y, n) ∈ blocks true (after (after hstart t) [(k, true)]) u → after hstart t < y) as Hu.
  { intros y n Hy. pose proof (blocks_range _ _ _ _ _ Hsu Hy). lia. }
  assert (∀ y n, (y, n) ∈ blocks true hstart t → hstart ≤ y < after hstart t) as Ht.
  { intros y n Hy. pose proof (blocks_range _ _ _ _ _ Hst Hy). lia. }
  split; rewrite ?Efp.
  - rewrite path_app. cbn [path]. rewrite path_app, !lastp_blocks. split_and!; try done; by apply part_path.
  - by destruct (blocks true _ u).
  - rewrite lastp_app. cbn [lastp]. by rewrite lastp_app.
  - rewrite !length_app. cbn [length]. rewrite length_app.
    pose proof (length_blocks true hstart t). pose proof (length_blocks true (after (after hstart t) [(k, true)]) u). cbn. lia.
  - intros A x n B E HB. rewrite app_comm_cons, app_assoc in E. apply snoc_split in E as [(-> & _)|(r & -> & E)]; [done|].
    assert ((x, n) ∈ blocks true (after (after hstart t) [(k, true)]) u ++ (base, 0) :: blocks true hstart t) as Hin by (rewrite E; set_solver).
    apply elem_of_app in Hin as [Hin|[Hin|Hin]%elem_of_cons]; [specialize (Hu x n Hin)|injection Hin|specialize (Ht x n Hin)]; lia.
  - intros A x n B E Hn. rewrite app_comm_cons, app_assoc in E. apply snoc_split in E as [(_ & -> & E)|(r & -> & E)].
    { injection E as -> ->. exists t, u. rewrite lastp_app. cbn [lastp]. by rewrite lastp_blocks. }
    apply app_eq_inv in E as [(v & E & E')|(v & -> & E)].
    + destruct v as [|y v]; [injection E' as _ E'; lia|]. injection E' as <- E'.
      apply blocks_split in E as (t' & u' & -> & -> & -> & _).
      exists (t ++ (k, true) :: t'), u'. split_and!; [by rewrite <-app_assoc| |].
      * by rewrite after_app, (after_cons _ (k, true) t').
      * rewrite lastf_app. cbn [lastf]. apply lastp_blocks.
    + destruct v as [|y v]; [injection E as _ E; lia|]. injection E as <- E. apply blocks_split in E as (t' & u' & -> & -> & -> & _).
      exists t', (u' ++ (k, true) :: u). split_and!; [by rewrite <-app_assoc|done|].
      rewrite lastp_app. apply lastp_blocks.
  - intros t' n u' E. apply (f_equal (blocks true hstart)) in E. pose proof (blocks_in true hstart t' n u') as Hin. rewrite <-E in Hin.
    rewrite blocks_app in Hin. cbn [blocks Bool.eqb app] in Hin. clear -Hin.
    rewrite !elem_of_app, !elem_of_cons, !elem_of_app, !elem_of_cons in *. tauto.
Qed.

Lemma rep_round s ts : rep s ts → ∃ R, round s ts R.
Proof.
  intros Hr. destruct (rp_freep _ _ Hr) as [E|(t & k & u & -> & E)]; [eauto using round_base|].
  eauto using round_free.
Qed.

(** *** A block is taken *)

Lemma freep_behind t r : lastf base hstart t = base ∨ ∃ t0 k u, t ++ r = t0 ++ (k, true) :: u ∧ lastf base hstart t = after hstart t0.
Proof.
  destruct (lastf_split base hstart t) as [[El _]|(t0 & k & t1 & -> & El & _)]; [by left|right].
  exists t0, k, (t1 ++ r). by rewrite <-app_assoc.
Qed.

Section take.
Context (s : heap) (t u : list tile) (n nunits : Z) (h : Header).
Context (x prev : Z) (Ex : after hstart t = x) (Eprev : lastf base hstart t = prev).
Context (Hrep : rep s (t ++ (n, true) :: u)) (Hh : hdrs s !! x = Some h) (Hsz : h_size h = n).

Lemma take_facts : part (hdrs s) base hstart t ∧ hp (hdrs s) prev = Some x ∧ part (hdrs s) x (x + 8 * n) u ∧
  hp (hdrs s) (lastf x (x + 8 * n) u) = Some base ∧ sizes_ok t ∧ 1 ≤ n ∧ sizes_ok u ∧ hstart ≤ x ∧
  x + 8 * n ≤ after (x + 8 * n) u ∧ after (x + 8 * n) u ≤ USER_MAX ∧ brk s = after (x + 8 * n) u ∧ base ≤ prev < x ∧
  (prev = base ∨ hstart ≤ prev).
Proof.
  destruct Hrep as [Hp Hl Hb Hs Hk Hlim _]. unfold SIZEOF_HEADER in Hstart.
  destruct (from_free _ _ _ _ _ Hp) as (_ & Hpu & El). rewrite El in Hl. rewrite part_app in Hp. destruct Hp as (Hpt & P1 & _).
  rewrite Ex in P1, Hpu, Hl. rewrite Eprev in P1. rewrite after_one in Hpu, Hl. apply list.Forall_app in Hs as [Hst [Hn Hsu]%Forall_cons_1]. cbn [fst] in Hn.
  rewrite after_app, after_cons, after_one in Hk, Hlim. rewrite Ex in Hk, Hlim.
  pose proof (after_le hstart t Hst) as Hx. rewrite Ex in Hx. pose proof (after_le (x + 8 * n) u Hsu).
  assert (base ≤ prev < x ∧ (prev = base ∨ hstart ≤ prev)) as [? ?].
  { destruct (lastf_range base hstart t Hst) as [E|E]; rewrite Eprev, ?Ex in E; lia. }
  split_and!; try done; lia.
Qed.

Lemma take_all : n = nunits → ∃ s', take_block nunits prev x h s = Ok (x + 8, s') ∧ rep s' (t ++ (n, false) :: u) ∧ brk s' = brk s.
Proof.
  intros <-. destruct take_facts as (Hpt & P1 & Hpu & Hl & Hst & Hn & Hsu & Hx & Hu & Hlim & Hk & Hprev & Hor).
  destruct Hrep as [_ _ Hb _ _ _ _]. unfold SIZEOF_HEADER in Hstart. unfold Umalloc.take_block. rewrite Hsz, Z.eqb_refl.
  assert (∃ m, hdrs s !! prev = Some (mkHeader x m)) as [m Hpr].
  { unfold hp in P1. destruct (hdrs s !! prev) as [[q m]|]; cbn in P1; [|done]. injection P1 as ->. eauto. }
  assert (prev = base ∨ 0 < prev ∧ prev + 8 ≤ brk s) as Hv by lia.
  rewrite bind_assoc. step (store_ptr_Ok s prev (h_ptr h) _ Hv Hpr). rewrite bind_ret. cbn [h_size].
  assert (plus x 1 = x + 8) as Ex8 by (rewrite (plus_after x 1 true), after_one by (rewrite ?after_one; lia); lia).
  rewrite Ex8. set (h2 := <[prev := mkHeader (h_ptr h) m]> (hdrs s)). eexists. split; [done|]. split; [|done].
  assert (∀ y, y ≠ prev → h2 !! y = hdrs s !! y) as Hy by (intros y ?; unfold h2; by rewrite lookup_insert_ne).
  assert (hs h2 prev = hs (hdrs s) prev) as Hsp by (unfold hs, h2; by rewrite lookup_insert_eq, Hpr).
  assert (hp h2 prev = hp (hdrs s) x) as Hpp by (unfold hp, h2; by rewrite lookup_insert_eq, Hh).
  split; cbn [hdrs freep brk set_freep].
  - rewrite part_app. cbn [part]. rewrite Ex, Eprev, after_one. split_and!.
    + eapply part_relink; rewrite ?Eprev; [exact Hpt|done|lia|exact Hsp|]. intros y _ ?. by apply Hy.
    + unfold hs. rewrite Hy, Hh by lia. cbn. by rewrite Hsz.
    + eapply part_change; [exact Hpu|done|exact Hpp|]. intros y ?. apply Hy. lia.
  - rewrite lastf_app. cbn [lastf]. rewrite Ex, Eprev, after_one, (last_change (hdrs s) h2 x); [exact Hl|done|done|]. intros y ?. apply Hy. lia.
  - destruct (decide (base = prev)) as [Eb|Hne]; [by rewrite Eb, Hsp, <-Eb|]. unfold hs. by rewrite Hy.
  - apply list.Forall_app. split; [done|]. constructor; [done|done].
  - rewrite after_app, after_cons, after_one, Ex. lia.
  - rewrite after_app, after_cons, after_one, Ex. lia.
  - rewrite <-Eprev. apply freep_behind.
Qed.

Lemma take_end : 1 ≤ nunits < n → ∃ s', take_block nunits prev x h s = Ok (x + 8 * (n - nunits) + 8, s') ∧
  rep s' ((t ++ [(n - nunits, true)]) ++ (nunits, false) :: u) ∧ brk s' = brk s.
Proof.
  intros E. destruct take_facts as (Hpt & P1 & Hpu & Hl & Hst & Hn & Hsu & Hx & Hu & Hlim & Hk & Hprev & Hor).
  destruct Hrep as [_ _ Hb _ _ _ _]. unfold SIZEOF_HEADER in Hstart. unfold Umalloc.take_block. rewrite Hsz.
  rewrite (proj2 (Z.eqb_neq n nunits)) by lia. cbv zeta. rewrite u32_small by (unfold is_u32; unfold USER_MAX in *; lia).
  set (y := x + 8 * (n - nunits)).
  assert (plus x (n - nunits) = y) as -> by (rewrite (plus_after x _ true), after_one by (rewrite ?after_one; lia); done).
  assert (x = base ∨ 0 < x ∧ x + 8 ≤ brk s) as Hv by lia. assert (y = base ∨ 0 < y ∧ y + 8 ≤ brk s) as Hvy by lia.
  rewrite !bind_assoc. step (store_size_Ok s x (n - nunits) h Hv Hh). rewrite bind_assoc.
  set (s1 := mkHeap (<[x := mkHeader (h_ptr h) (n - nunits)]> (hdrs s)) (freep s) (brk s)).
  unfold Umalloc.store_size. rewrite bind_assoc, (bind_Ok get _ s1 s1 s1) by done.
  step (store_Ok s1 y (mkHeader (from_option h_ptr 0 (hdrs s1 !! y)) nunits) Hvy). rewrite bind_ret.
  assert (plus y 1 = y + 8) as -> by (rewrite (plus_after y 1 true), after_one by (rewrite ?after_one; lia); lia).
  unfold s1. cbn [hdrs freep brk]. set (h2 := <[y := _]> _). eexists. split; [done|]. split; [|done].
  assert (∀ z, z ≠ x → z ≠ y → h2 !! z = hdrs s !! z) as Hz by (intros z ? ?; unfold h2; by rewrite !lookup_insert_ne).
  assert (h2 !! x = Some (mkHeader (h_ptr h) (n - nunits))) as H2x by (unfold h2; rewrite lookup_insert_ne by lia; by rewrite lookup_insert_eq).
  assert (hs h2 y = Some nunits) as H2y by (unfold hs, h2; by rewrite lookup_insert_eq).
  assert (hp h2 x = hp (hdrs s) x) as Hpp by (unfold hp; by rewrite H2x, Hh).
  assert (after hstart (t ++ [(n - nunits, true)]) = y) as Ey by (by rewrite after_app, after_one, Ex).
  split; cbn [hdrs freep brk set_freep].
  - rewrite part_app, part_app, Ey, lastf_app. cbn [part lastf]. rewrite Ex, Eprev, after_one.
    replace (y + 8 * nunits) with (x + 8 * n) by lia. split_and!; try done.
    + eapply part_change; [exact Hpt|done|unfold hp; by rewrite Hz by lia|]. intros z ?. apply Hz; lia.
    + unfold hp. rewrite Hz by lia. exact P1.
    + unfold hs. by rewrite H2x.
    + eapply part_change; [exact Hpu|done|exact Hpp|]. intros z ?. apply Hz; lia.
  - rewrite lastf_app, Ey, lastf_app. cbn [lastf]. rewrite Ex, after_one. replace (y + 8 * nunits) with (x + 8 * n) by lia.
    rewrite (last_change (hdrs s) h2 x); [exact Hl|done|done|]. intros z ?. apply Hz; lia.
  - unfold hs. by rewrite Hz by lia.
  - apply list.Forall_app. split; [apply list.Forall_app; split; [done|]; repeat constructor; cbn; lia|]. constructor; [cbn; lia|done].
  - rewrite after_app, Ey, after_cons, after_one. replace (y + 8 * nunits) with (x + 8 * n) by lia. done.
  - rewrite after_app, Ey, after_cons, after_one. replace (y + 8 * nunits) with (x + 8 * n) by lia. done.
  - rewrite <-Eprev, <-app_assoc. apply freep_behind.
Qed.
End take.

Lemma take_ok s t u n nunits h : rep s (t ++ (n, true) :: u) → hdrs s !! after hstart t = Some h → h_size h = n → 1 ≤ nunits ≤ n →
  ∃ s', take_block nunits (lastf base hstart t) (after hstart t) h s = Ok (after hstart (take_before t n nunits) + 8, s') ∧
    rep s' (take_before t n nunits ++ (nunits, false) :: u) ∧ brk s' = brk s.
Proof.
  intros Hrep Hh Hsz Hn. unfold take_before. destruct (Z.eqb_spec n nunits) as [<-|Hne].
  - by apply (take_all s t u n n h).
  - destruct (take_end s t u n nunits h (after hstart t) (lastf base hstart t)) as (s' & E & Hr & Hb); try done; [lia|].
    exists s'. rewrite after_app, after_one, E. done.
Qed.

(** *** More memory *)

(** The size that [morecore] asks for. *)
Definition core_units (nunits : Z) : Z := if nunits <? 4096 then 4096 else nunits.

Lemma morecore_ok s ts nunits fuel : rep s ts → 1 ≤ nunits → 8 * nunits < 2147483648 → (2 * length ts + 4 ≤ fuel)%nat →
  if sbrk_ok (brk s) (8 * core_units nunits) then
    ∃ s', morecore fuel nunits s = Ok (freep s', s') ∧ rep s' (free_tiles ts (core_units nunits) []) ∧
      brk s' = brk s + 8 * core_units nunits
  else morecore fuel nunits s = Ok (0, s).
Proof.
  intros Hrep Hn Hlt Hf. unfold Umalloc.morecore. fold (core_units nunits). set (nu := core_units nunits).
  assert (1 ≤ nu ∧ 8 * nu < 2147483648) as [Hnu Hnu'] by (unfold nu, core_units; destruct (nunits <? 4096); lia).
  rewrite u32_small, i32_small by (unfold is_u32, is_i32, SIZEOF_HEADER in *; lia). replace (nu * SIZEOF_HEADER) with (8 * nu) by (unfold SIZEOF_HEADER; lia).
  unfold sbrk. rewrite bind_assoc, (bind_Ok get _ s s s) by done. destruct (sbrk_ok (brk s) (8 * nu)) eqn:Eg; [|done].
  pose proof (grants _ _ Eg ltac:(lia)) as Hmax. destruct Hrep as [Hp Hl Hb Hs Hk Hlim Hfp]. pose proof (after_le hstart ts Hs).
  unfold SIZEOF_HEADER in Hstart. rewrite bind_assoc. set (s1 := mkHeap (hdrs s) (freep s) (brk s + 8 * nu)).
  rewrite (bind_Ok (put s1) _ s tt s1) by done. rewrite bind_ret. replace (brk s =? -1) with false by lia.
  unfold Umalloc.store_size. rewrite bind_assoc, (bind_Ok get _ s1 s1 s1) by done.
  step (store_Ok s1 (brk s) (mkHeader (from_option h_ptr 0 (hdrs s1 !! brk s)) nu) ltac:(cbn; lia)). unfold s1. cbn [hdrs freep brk].
  set (s2 := mkHeap (<[brk s := _]> (hdrs s)) (freep s) (brk s + 8 * nu)).
  assert (∀ x, x ≠ brk s → hdrs s2 !! x = hdrs s !! x) as Hx by (intros x ?; cbn; by rewrite lookup_insert_ne).
  assert (rep s2 (ts ++ [(nu, false)])) as Hrep2.
  { split.
    - rewrite part_app, <-Hk. split; [eapply part_change; [exact Hp|done|unfold hp; by rewrite Hx by lia|intros x ?; apply Hx; lia]|].
      cbn [part]. split; [|done]. unfold hs. cbn. by rewrite lookup_insert_eq.
    - rewrite lastf_app. cbn [lastf]. rewrite (last_change (hdrs s) _ base);
        [exact Hl|done|unfold hp; by rewrite Hx by lia|intros x ?; apply Hx; lia].
    - unfold hs. by rewrite Hx by lia.
    - apply list.Forall_app. split; [done|]. by repeat constructor.
    - rewrite after_app, after_one, <-Hk. done.
    - rewrite after_app, after_one, <-Hk. done.
    - destruct Hfp as [?|(t & k & u & -> & ?)]; [by left|right]. exists t, k, (u ++ [(nu, false)]). by rewrite <-app_assoc. }
  assert (plus (brk s) 1 = after hstart ts + 8) as ->.
  { rewrite (plus_after _ _ true), after_one by (rewrite ?after_one; lia). lia. }
  destruct (free_ok s2 ts nu [] fuel Hrep2) as (s3 & E & Hr3 & Hb3); [rewrite length_app; cbn; lia|]. step E.
  exists s3. split; [done|]. split; [done|]. by rewrite Hb3.
Qed.

(** *** The allocated blocks *)

Definition used (ts : list tile) : list (Z * Z) := blocks false hstart ts.

Lemma used_merge_left t n u : used (merge_left t n u) = used t ++ blocks false (after (after hstart t) [(n, true)]) u ∧
  (length (merge_left t n u) ≤ S (length t + length u))%nat ∧
  ∃ t' k u', merge_left t n u = t' ++ (k, true) :: u' ∧ (sizes_ok t → n ≤ k).
Proof.
  destruct (ends_free false t) eqn:Ef.
  - destruct t as [|[m fr] t _] using rev_ind; [done|]. rewrite ends_free_app in Ef. cbn in Ef. subst fr. rewrite merge_left_free.
    unfold used. rewrite !blocks_app, !length_app. cbn [blocks Bool.eqb app length]. rewrite app_nil_r, after_app, !after_one.
    split; [do 2 f_equal; lia|]. split; [lia|]. exists t, (m + n), u. split; [done|].
    intros [_ [Hm _]%Forall_cons_1]%list.Forall_app. cbn in Hm. lia.
  - rewrite merge_left_plain by done. unfold used. rewrite blocks_app, length_app. cbn [blocks Bool.eqb app length].
    split; [done|]. split; [lia|]. by exists t, n, u.
Qed.
Lemma used_free t n u : used (free_tiles t n u) = used t ++ blocks false (after (after hstart t) [(n, true)]) u ∧
  (length (free_tiles t n u) ≤ S (length t + length u))%nat.
Proof.
  unfold free_tiles. destruct u as [|[k []] u]; cbn [merge_right].
  - destruct (used_merge_left t n []) as (-> & ? & _). done.
  - destruct (used_merge_left t (n + k) u) as (-> & ? & _). split; [|cbn [length] in *; lia].
    cbn [blocks Bool.eqb app]. rewrite !after_one. do 2 f_equal. lia.
  - destruct (used_merge_left t n ((k, false) :: u)) as (-> & ? & _). done.
Qed.
Lemma free_tiles_core t n : sizes_ok t → ∃ t' k u', free_tiles t n [] = t' ++ (k, true) :: u' ∧ n ≤ k.
Proof. intros Ht. destruct (used_merge_left t n []) as (_ & _ & t' & k & u' & E & Hk). exists t', k, u'. split; [done|auto]. Qed.

Lemma used_take t n nunits u : ∀ b, b ∈ used (take_before t n nunits ++ (nunits, false) :: u) ↔
  b = (after hstart (take_before t n nunits), nunits) ∨ b ∈ used (t ++ (n, true) :: u).
Proof.
  intros b. unfold used, take_before. rewrite !blocks_app, !elem_of_app. cbn [blocks Bool.eqb app].
  destruct (Z.eqb_spec n nunits) as [->|Hne].
  - rewrite (after_size _ nunits false), elem_of_cons. tauto.
  - rewrite blocks_app, elem_of_app, after_app. cbn [blocks Bool.eqb app]. rewrite elem_of_cons, !after_one.
    replace (after hstart t + 8 * (n - nunits) + 8 * nunits) with (after hstart t + 8 * n) by lia.
    assert (b ∉ @nil (Z * Z)) by apply not_elem_of_nil. tauto.
Qed.
Lemma used_freed t n u b : sizes_ok (t ++ (n, false) :: u) →
  b ∈ used (free_tiles t n u) ↔ b ∈ used (t ++ (n, false) :: u) ∧ b.1 ≠ after hstart t.
Proof.
  intros Hs. destruct (used_free t n u) as [-> _]. unfold used. rewrite blocks_app, !elem_of_app. cbn [blocks Bool.eqb app].
  rewrite elem_of_cons, (after_size _ n false). apply list.Forall_app in Hs as [Ht [Hn Hu]%Forall_cons_1]. cbn [fst] in Hn.
  destruct b as [x k]. cbn [fst]. pose proof (after_lt (after hstart t) n true Hn).
  assert ((x, k) ∈ blocks false hstart t → x ≠ after hstart t) as H1.
  { intros Hb ->. pose proof (blocks_range _ _ _ _ _ Ht Hb). lia. }
  assert ((x, k) ∈ blocks false (after (after hstart t) [(n, true)]) u → x ≠ after hstart t) as H2.
  { intros Hb ->. pose proof (blocks_range _ _ _ _ _ Hu Hb). lia. }
  assert ((x, k) = (after hstart t, n) → x = after hstart t) by congruence. tauto.
Qed.

(** Two blocks are the same or apart. *)
Lemma used_apart ts x n y k : sizes_ok ts → (x, n) ∈ used ts → (y, k) ∈ used ts → (x = y ∧ n = k) ∨ x + 8 * n ≤ y ∨ y + 8 * k ≤ x.
Proof.
  intros Hs (A & B & E)%list_elem_of_split Hy. rewrite E in Hy. apply blocks_split in E as (t & u & -> & -> & -> & ->).
  apply list.Forall_app in Hs as [Ht [Hn Hu]%Forall_cons_1]. rewrite after_one in Hy.
  apply elem_of_app in Hy as [Hy|[[= -> ->]|Hy]%elem_of_cons]; [|by left|].
  - pose proof (blocks_range _ _ _ _ _ Ht Hy). right. right. lia.
  - pose proof (blocks_range _ _ _ _ _ Hu Hy). right. left. lia.
Qed.

(** *** The calls *)

Lemma freep_pos s ts : rep s ts → 0 < freep s.
Proof.
  intros Hr. unfold SIZEOF_HEADER in Hstart. destruct (rp_freep _ _ Hr) as [->|(t & k & u & E & ->)]; [done|].
  pose proof (rp_sizes _ _ Hr) as Hs. rewrite E in Hs. apply list.Forall_app in Hs as [Ht _]. pose proof (after_le hstart t Ht). lia.
Qed.
Lemma freep_link s ts : rep s ts → ∃ h, load (freep s) s = Ok (h, s) ∧ hp (hdrs s) (freep s) = Some (h_ptr h).
Proof.
  intros Hr. destruct (rep_round s ts Hr) as [R [Hp Hne _ _ _ _ _]]. destruct R as [|[x k] R]; [done|]. destruct Hp as (P1 & _).
  destruct (load_hp s _ _ P1) as (n & E & _). by eexists.
Qed.

(** One search over the tiles: it takes a block, or there is none and it asks
    for more memory. *)
Lemma search_ok s ts nunits fuel h : rep s ts → 1 ≤ nunits → (length ts < fuel)%nat → hp (hdrs s) (freep s) = Some (h_ptr h) →
  (∃ t n u s', ts = t ++ (n, true) :: u ∧ nunits ≤ n ∧
    malloc_loop fuel nunits (freep s) (h_ptr h) s = Ok (after hstart (take_before t n nunits) + 8, s') ∧
    rep s' (take_before t n nunits ++ (nunits, false) :: u) ∧ brk s' = brk s) ∨
  ((∀ t n u, ts = t ++ (n, true) :: u → n < nunits) ∧ ∃ fuel', (fuel ≤ fuel' + S (length ts))%nat ∧
    malloc_loop fuel nunits (freep s) (h_ptr h) s =
      (p ← morecore fuel' nunits;
       if p =? 0 then mret 0 else h ← load p; malloc_loop fuel' nunits p (h_ptr h)) s).
Proof.
  intros Hr Hn Hf Hh. destruct (rep_round s ts Hr) as [R [Hp Hne Hl Hlen Hone Hprev Hall]].
  destruct (malloc_scan s nunits R fuel (freep s) (h_ptr h) Hp Hh Hne Hl Hone ltac:(lia))
    as [(A & x & n & B & hx & E & Hle & Hx & Hsz & ->)|(Hsm & fuel' & Hf' & ->)].
  - left. destruct (Hprev A x n B E ltac:(lia)) as (t & u & -> & -> & ->).
    destruct (take_ok s t u n nunits hx) as (s' & E' & Hr' & Hb); try done. exists t, n, u, s'. auto.
  - right. split; [|exists fuel'; split; [lia|done]]. intros t n u E. rewrite list.Forall_forall in Hsm.
    apply (Hsm _ (Hall t n u E)).
Qed.

(** What a call of [malloc] does. *)
Inductive malloc_result (s : heap) (ts : list tile) (nunits : Z) : Z → heap → list tile → Prop :=
  | MallocRefused : sbrk_ok (brk s) (8 * core_units nunits) = false → (∀ t n u, ts = t ++ (n, true) :: u → n < nunits) →
      malloc_result s ts nunits 0 s ts
  | MallocTook ts1 t n u s' :
      (ts1 = ts ∨ ts1 = free_tiles ts (core_units nunits) []) → ts1 = t ++ (n, true) :: u → nunits ≤ n →
      rep s' (take_before t n nunits ++ (nunits, false) :: u) →
      malloc_result s ts nunits (after hstart (take_before t n nunits) + 8) s' (take_before t n nunits ++ (nunits, false) :: u).

Lemma malloc_loop_ok s ts nunits fuel h : rep s ts → 1 ≤ nunits → 8 * nunits < 2147483648 → (4 * length ts + 8 ≤ fuel)%nat →
  hp (hdrs s) (freep s) = Some (h_ptr h) →
  ∃ r s' ts', malloc_loop fuel nunits (freep s) (h_ptr h) s = Ok (r, s') ∧ malloc_result s ts nunits r s' ts'.
Proof.
  intros Hr Hn Hlt Hf Hh.
  destruct (search_ok s ts nunits fuel h Hr Hn ltac:(lia) Hh) as [(t & n & u & s' & E & Hle & -> & Hr' & _)|(Hsm & f & Hf' & ->)].
  { eexists _, _, _. split; [done|]. apply (MallocTook _ _ _ _ t n u s' (or_introl eq_refl)); done. }
  pose proof (morecore_ok s ts nunits f Hr Hn Hlt ltac:(lia)) as Hm. destruct (sbrk_ok _ _) eqn:Eg.
  - destruct Hm as (s1 & E1 & Hr1 & _). step E1. rewrite (proj2 (Z.eqb_neq _ 0)) by (pose proof (freep_pos _ _ Hr1); lia).
    destruct (freep_link s1 _ Hr1) as (h1 & El & Hh1). step El. destruct (used_free ts (core_units nunits) []) as [_ Hlen]. cbn [length] in Hlen.
    destruct (free_tiles_core ts (core_units nunits) (rp_sizes _ _ Hr)) as (t' & k & u' & Ek & Hk).
    destruct (search_ok s1 _ nunits f h1 Hr1 Hn ltac:(lia) Hh1) as [(t & n & u & s' & Ets & Hle & E & Hr' & _)|(Hsm1 & _)].
    + eexists _, _, _. split; [exact E|]. apply (MallocTook _ _ _ _ t n u s' (or_intror eq_refl)); done.
    + specialize (Hsm1 _ _ _ Ek). unfold core_units in Hk. destruct (nunits <? 4096) eqn:?; lia.
  - step Hm. eexists _, _, _. split; [done|]. by apply MallocRefused.
Qed.

(** *** A process that allocates *)

(** The live blocks: their sizes in bytes by the addresses [malloc] gave. *)
Definition live_ok (live : gmap Z Z) (ts : list tile) : Prop :=
  (∀ p n, live !! p = Some n → ∃ k, (p - 8, k) ∈ used ts ∧ n ≤ 8 * (k - 1)) ∧
  (∀ x k, (x, k) ∈ used ts → is_Some (live !! (x + 8))).
Definition heap_ok (s : heap) (live : gmap Z Z) : Prop :=
  (freep s = 0 ∧ brk s = hstart ∧ live = ∅) ∨ ∃ ts, rep s ts ∧ apart false ts ∧ live_ok live ts.

(** Enough for a heap that fills the address space with the smallest blocks. *)
Definition MALLOC_FUEL : nat := Z.to_nat (4 * (USER_MAX / 8) + 8).
Definition MALLOC_MAX : Z := 2147483648 - 16.

Lemma rep_fuel s ts : rep s ts → (4 * length ts + 8 ≤ MALLOC_FUEL)%nat.
Proof.
  intros [_ _ _ Hs _ Hlim _]. pose proof (length_span ts Hs). unfold after, SIZEOF_HEADER, MALLOC_FUEL, USER_MAX in *.
  change (0xA0000 / 8) with 81920. lia.
Qed.

Lemma nunits_fit nbytes : 0 ≤ nbytes < MALLOC_MAX → 1 ≤ nunits_of nbytes ∧ 8 * nunits_of nbytes < 2147483648 ∧ nbytes ≤ 8 * (nunits_of nbytes - 1).
Proof.
  unfold MALLOC_MAX, nunits_of, SIZEOF_HEADER. intros H. rewrite (u32_small (nbytes + 8 - 1)) by (unfold is_u32; lia).
  pose proof (Z.div_mod (nbytes + 8 - 1) 8). pose proof (Z.mod_pos_bound (nbytes + 8 - 1) 8).
  rewrite u32_small by (unfold is_u32; lia). lia.
Qed.

Lemma malloc_first s : freep s = 0 → brk s = hstart → ∃ s1, rep s1 [] ∧ brk s1 = brk s ∧ ∀ fuel nbytes, malloc fuel nbytes s = malloc fuel nbytes s1.
Proof.
  intros Hf Hk. unfold SIZEOF_HEADER in Hstart. set (s1 := mkHeap (<[base := mkHeader base 0]> (hdrs s)) base (brk s)).
  exists s1. split; [split|split; [done|]].
  - done.
  - cbn. unfold hp. by rewrite lookup_insert_eq.
  - cbn. unfold hs. by rewrite lookup_insert_eq.
  - constructor.
  - by rewrite after_nil.
  - by rewrite after_nil.
  - by left.
  - intros fuel nbytes. unfold Umalloc.malloc. rewrite (bind_Ok get _ s s s), (bind_Ok get _ s1 s1 s1) by done. rewrite Hf. cbn [Z.eqb].
    rewrite (proj2 (Z.eqb_neq (freep s1) 0)) by (cbn; lia). rewrite bind_assoc. step (store_Ok s base (mkHeader base 0) ltac:(by left)). done.
Qed.

Lemma malloc_ok s ts nbytes : rep s ts → 0 ≤ nbytes < MALLOC_MAX →
  ∃ r s' ts', malloc MALLOC_FUEL nbytes s = Ok (r, s') ∧ malloc_result s ts (nunits_of nbytes) r s' ts'.
Proof.
  intros Hr Hn. destruct (nunits_fit nbytes Hn) as (H1 & H8 & _). unfold Umalloc.malloc.
  rewrite (bind_Ok get _ s s s) by done. rewrite (proj2 (Z.eqb_neq _ 0)) by (pose proof (freep_pos _ _ Hr); lia).
  rewrite bind_ret, (bind_Ok get _ s s s) by done. destruct (freep_link s ts Hr) as (h & El & Hh). step El.
  apply malloc_loop_ok; try done. by apply (rep_fuel s).
Qed.

(** The blocks a result of [malloc] leaves, and the one it gives. *)
Lemma result_ok s ts nbytes r s' ts' live : rep s ts → apart false ts → live_ok live ts → 0 ≤ nbytes < MALLOC_MAX →
  malloc_result s ts (nunits_of nbytes) r s' ts' →
  rep s' ts' ∧ apart false ts' ∧
  ((r = 0 ∧ s' = s ∧ ts' = ts ∧ sbrk_ok (brk s) (8 * core_units (nunits_of nbytes)) = false) ∨
   (r - 8, nunits_of nbytes) ∈ used ts' ∧ live !! r = None ∧ live_ok (<[r := nbytes]> live) ts').
Proof.
  intros Hr Ha [Hl1 Hl2] Hn Hm. destruct (nunits_fit nbytes Hn) as (_ & _ & Hfit).
  destruct Hm as [Hg _|ts1 t n u s' Hts1 E Hle Hr']; [split_and!; auto|]. split; [done|].
  assert (apart false ts1) as Ha1.
  { destruct Hts1 as [->| ->]; [done|]. apply apart_free. rewrite apart_app. cbn. by rewrite andb_false_r. }
  assert (∀ b, b ∈ used ts1 ↔ b ∈ used ts) as Hu1.
  { destruct Hts1 as [->| ->]; [done|]. intros b. destruct (used_free ts (core_units (nunits_of nbytes)) []) as [-> _].
    cbn [blocks]. by rewrite app_nil_r. }
  split; [by apply apart_take; rewrite <-E|right]. set (x := after hstart (take_before t n (nunits_of nbytes))) in *.
  assert (∀ b, b ∈ used (take_before t n (nunits_of nbytes) ++ (nunits_of nbytes, false) :: u) ↔ b = (x, nunits_of nbytes) ∨ b ∈ used ts) as Hu.
  { intros b. by rewrite used_take, <-E, Hu1. }
  replace (x + 8 - 8) with x by lia. split; [apply Hu; by left|].
  assert (live !! (x + 8) = None) as Hnone.
  { destruct (live !! (x + 8)) as [m|] eqn:Em; [exfalso|done]. destruct (Hl1 _ _ Em) as (k & Hk & _).
    replace (x + 8 - 8) with x in Hk by lia.
    assert ((x, k) ∉ used ts) as Hno; [|done]. rewrite <-Hu1, E. unfold used. rewrite blocks_app. cbn [blocks Bool.eqb app].
    pose proof (rp_sizes _ _ Hr') as Hs'. apply list.Forall_app in Hs' as [Hst [Hk1 Hsu]%Forall_cons_1]. cbn [fst] in Hk1.
    unfold x, take_before in *. destruct (Z.eqb_spec n (nunits_of nbytes)) as [En|En].
    - rewrite elem_of_app. intros [H|H].
      + pose proof (blocks_range _ _ _ _ _ Hst H). lia.
      + pose proof (blocks_range _ _ _ _ _ Hsu H). rewrite after_one in *. lia.
    - apply list.Forall_app in Hst as [Hst _]. rewrite after_app, after_one, elem_of_app in *. intros [H|H].
      + pose proof (blocks_range _ _ _ _ _ Hst H). lia.
      + pose proof (blocks_range _ _ _ _ _ Hsu H). rewrite after_one in *. lia. }
  split; [done|]. split.
  - intros p m. destruct (decide (p = x + 8)) as [->|Hp].
    + rewrite lookup_insert_eq. intros [= <-]. exists (nunits_of nbytes). replace (x + 8 - 8) with x by lia. split; [apply Hu; by left|lia].
    + rewrite lookup_insert_ne by done. intros Hpm. destruct (Hl1 _ _ Hpm) as (k & Hk & ?). exists k. split; [apply Hu; by right|done].
  - intros y k [[= -> ->]|Hy]%Hu; [by rewrite lookup_insert_eq|]. apply lookup_insert_is_Some'. right. by apply Hl2 with k.
Qed.

Lemma free_live_ok s ts live p n : rep s ts → apart false ts → live_ok live ts → live !! p = Some n →
  ∃ s' ts', free MALLOC_FUEL p s = Ok (tt, s') ∧ rep s' ts' ∧ apart false ts' ∧ live_ok (delete p live) ts'.
Proof.
  intros Hr Ha [Hl1 Hl2] Hp. destruct (Hl1 _ _ Hp) as (k & Hk & _). apply list_elem_of_split in Hk as (A & B & E).
  apply blocks_split in E as (t & u & -> & Ex & _). pose proof (rep_fuel s _ Hr) as Hfuel.
  destruct (free_ok s t k u MALLOC_FUEL Hr ltac:(lia)) as (s' & E & Hr' & _). rewrite <-Ex in E. replace (p - 8 + 8) with p in E by lia.
  pose proof (used_freed t k u) as Hu. rewrite <-Ex in Hu. pose proof (rp_sizes _ _ Hr) as Hs.
  exists s', (free_tiles t k u). split; [done|]. split; [done|]. split; [by apply apart_free|]. split; [intros q m|intros x j].
  - intros [Hq Hm]%lookup_delete_Some. destruct (Hl1 _ _ Hm) as (j & Hj & ?). exists j. split; [|done].
    apply Hu; [done|]. cbn [fst]. split; [done|lia].
  - intros [Hx Hne]%Hu; [|done]. cbn [fst] in Hne. rewrite lookup_delete_ne by lia. by apply Hl2 with j.
Qed.

(** Stores between the headers. *)
Lemma part_ext h h' p a ts : (∀ fr x n, (x, n) ∈ blocks fr a ts → h' !! x = h !! x) → hp h' p = hp h p →
  part h p a ts → part h' p a ts ∧ hp h' (lastf p a ts) = hp h (lastf p a ts).
Proof.
  revert p a. induction ts as [|[n fr] ts IH]; intros p a Hx Hpp; cbn [part lastf]; [done|].
  assert (h' !! a = h !! a) as Ha by (apply (Hx fr a n); cbn [blocks]; rewrite Bool.eqb_reflx; by left).
  assert (∀ f x m, (x, m) ∈ blocks f (after a [(n, fr)]) ts → h' !! x = h !! x) as Hx'.
  { intros f x m Hin. apply (Hx f x m). cbn [blocks]. apply elem_of_app. by right. }
  destruct fr.
  - intros (P1 & P2 & P3). rewrite Hpp. unfold hs. rewrite Ha. destruct (IH a _ Hx' ltac:(unfold hp; by rewrite Ha) P3). by split_and!.
  - intros (P2 & P3). unfold hs. rewrite Ha. destruct (IH p _ Hx' Hpp P3). by split_and!.
Qed.

Lemma rep_user_store s ts live p n h' : rep s ts → live_ok live ts → live !! p = Some n →
  (∀ x, x + 8 ≤ p ∨ p + n ≤ x → h' !! x = hdrs s !! x) → rep (mkHeap h' (freep s) (brk s)) ts.
Proof.
  intros [Hp Hl Hb Hs Hk Hlim Hfp] [Hl1 _] Hpn Hx. destruct (Hl1 _ _ Hpn) as (k & Hk' & Hn).
  unfold SIZEOF_HEADER in Hstart. apply list_elem_of_split in Hk' as (A & B & E). apply blocks_split in E as (t & u & -> & Ex & _).
  pose proof Hs as Hs'. apply list.Forall_app in Hs' as [Hst [Hk1 Hsu]%Forall_cons_1]. cbn [fst] in Hk1.
  pose proof (after_le hstart t Hst).
  assert (∀ fr x m, (x, m) ∈ blocks fr hstart (t ++ (k, false) :: u) → h' !! x = hdrs s !! x) as Hx'.
  { intros fr x m Hin. apply Hx. rewrite blocks_app in Hin. cbn [blocks] in Hin. rewrite after_one in Hin.
    apply elem_of_app in Hin as [Hin|[Hin|Hin]%elem_of_app].
    - pose proof (blocks_range _ _ _ _ _ Hst Hin). left. lia.
    - destruct fr; cbn in Hin; [by apply elem_of_nil in Hin|]. apply list_elem_of_singleton in Hin as [= -> _]. left. lia.
    - pose proof (blocks_range _ _ _ _ _ Hsu Hin). right. lia. }
  assert (h' !! base = hdrs s !! base) as Hbb by (apply Hx; lia).
  destruct (part_ext (hdrs s) h' base hstart _ Hx' ltac:(unfold hp; by rewrite Hbb) Hp) as [Hp' Hl'].
  split; cbn [hdrs freep brk]; try done; [by rewrite Hl'|]. unfold hs. by rewrite Hbb.
Qed.

(** The calls of a process, and its stores into the blocks it holds: a store
    may leave anything where a header would overlap the block. *)
Inductive heap_runs : heap → gmap Z Z → Prop :=
  | RunStart h : heap_runs (mkHeap h 0 hstart) ∅
  | RunMalloc s live nbytes p s' : heap_runs s live → 0 ≤ nbytes < MALLOC_MAX →
      malloc MALLOC_FUEL nbytes s = Ok (p, s') → heap_runs s' (if p =? 0 then live else <[p := nbytes]> live)
  | RunFree s live p n s' : heap_runs s live → live !! p = Some n →
      free MALLOC_FUEL p s = Ok (tt, s') → heap_runs s' (delete p live)
  | RunStore s live p n h : heap_runs s live → live !! p = Some n →
      (∀ x, x + 8 ≤ p ∨ p + n ≤ x → h !! x = hdrs s !! x) → heap_runs (mkHeap h (freep s) (brk s)) live.

(** A fresh heap behaves as the empty one its first call makes. *)
Lemma heap_ok_rep s live : heap_ok s live →
  ∃ s1 ts, rep s1 ts ∧ apart false ts ∧ live_ok live ts ∧ brk s1 = brk s ∧ (∀ fuel n, malloc fuel n s = malloc fuel n s1) ∧
    (live = ∅ ∨ s1 = s).
Proof.
  intros [(Hf & Hk & ->)|(ts & ? & ? & ?)]; [|exists s, ts; auto 10].
  destruct (malloc_first s Hf Hk) as (s1 & Hr & Hb & E). exists s1, []. split_and!; try done; [|by left].
  split; [intros p n; by rewrite lookup_empty|]. intros x k Hx. by apply elem_of_nil in Hx.
Qed.

Lemma malloc_step s live nbytes : heap_ok s live → 0 ≤ nbytes < MALLOC_MAX →
  ∃ p s', malloc MALLOC_FUEL nbytes s = Ok (p, s') ∧ heap_ok s' (if p =? 0 then live else <[p := nbytes]> live) ∧
    ((p = 0 ∧ brk s' = brk s ∧ sbrk_ok (brk s) (8 * core_units (nunits_of nbytes)) = false) ∨
     ∃ ts, rep s' ts ∧ (p - 8, nunits_of nbytes) ∈ used ts ∧ live !! p = None ∧ live_ok (<[p := nbytes]> live) ts).
Proof.
  intros Hok Hn. destruct (heap_ok_rep s live Hok) as (s1 & ts & Hr & Ha & Hl & Hb & E & _).
  destruct (malloc_ok s1 ts nbytes Hr Hn) as (p & s' & ts' & Em & Hm). exists p, s'. rewrite E. split; [done|].
  destruct (result_ok s1 ts nbytes p s' ts' live Hr Ha Hl Hn Hm) as (Hr' & Ha' & [(-> & -> & -> & Hg)|(Hu & Hnone & Hl')]).
  - split; [right; by exists ts|]. left. rewrite <-Hb. auto.
  - assert ((p =? 0) = false) as ->.
    { unfold SIZEOF_HEADER in Hstart. pose proof (blocks_range _ _ _ _ _ (rp_sizes _ _ Hr') Hu). lia. }
    split; [right; by exists ts'|]. right. by exists ts'.
Qed.

Lemma heap_runs_ok s live : heap_runs s live → heap_ok s live.
Proof.
  induction 1 as [h|s live nbytes p s' _ IH Hn E|s live p n s' _ IH Hp E|s live p n h _ IH Hp Hx].
  - left. done.
  - destruct (malloc_step s live nbytes IH Hn) as (p' & s1 & E' & Hok & _). rewrite E in E'. injection E' as <- <-. done.
  - destruct IH as [(_ & _ & ->)|(ts & Hr & Ha & Hl)]; [by rewrite lookup_empty in Hp|].
    destruct (free_live_ok s ts live p n Hr Ha Hl Hp) as (s1 & ts' & E' & Hr' & Ha' & Hl'). rewrite E in E'. injection E' as <-.
    right. by exists ts'.
  - destruct IH as [(_ & _ & ->)|(ts & Hr & Ha & Hl)]; [by rewrite lookup_empty in Hp|]. right. exists ts.
    split; [|done]. by apply (rep_user_store s ts live p n).
Qed.

(** ** Properties *)

(** C7: Blocks are kept apart: whatever a process has allocated, freed and stored
    in the blocks it holds, [malloc] returns, and its result is null, only when
    the kernel refuses more memory, or an aligned block of the heap with room
    for the bytes asked for, which shares nothing with a live block or its
    header; and every live block can be freed. *)
Theorem malloc_keeps_blocks_apart s live nbytes : heap_runs s live → 0 ≤ nbytes < MALLOC_MAX →
  (∃ p s', malloc MALLOC_FUEL nbytes s = Ok (p, s') ∧
    ((p = 0 ∧ brk s' = brk s ∧ sbrk_ok (brk s) (8 * core_units (nunits_of nbytes)) = false) ∨
     (live !! p = None ∧ (p - hstart) `mod` 8 = 0 ∧ hstart + 8 ≤ p ∧ p + nbytes ≤ brk s' ∧
      ∀ q m, live !! q = Some m → p + nbytes ≤ q - 8 ∨ q + m ≤ p - 8))) ∧
  (∀ p n, live !! p = Some n → ∃ s', free MALLOC_FUEL p s = Ok (tt, s')).
Proof.
  intros Hruns Hn. pose proof (heap_runs_ok s live Hruns) as Hok. split.
  - destruct (malloc_step s live nbytes Hok Hn) as (p & s' & E & _ & Hp). exists p, s'. split; [done|].
    destruct Hp as [Hp|(ts & Hr & Hu & Hnone & Hl & _)]; [by left|right]. split; [done|].
    pose proof (rp_sizes _ _ Hr) as Hs. pose proof (blocks_range _ _ _ _ _ Hs Hu) as (Hlo & _ & Hhi).
    destruct (nunits_fit nbytes Hn) as (_ & _ & Hfit). rewrite (rp_brk _ _ Hr). split; [|split; [lia|split; [lia|]]].
    { pose proof Hu as (A & B & Esp)%list_elem_of_split. apply blocks_split in Esp as (t & u & _ & Ex & _).
      unfold after, SIZEOF_HEADER in Ex. replace (p - hstart) with ((span t + 1) * 8) by lia. by apply Z.mod_mul. }
    intros q m Hq. assert (q ≠ p) as Hne by (intros ->; congruence).
    destruct (Hl q m) as (k & Hk & Hm); [by rewrite lookup_insert_ne|].
    destruct (used_apart ts _ _ _ _ Hs Hu Hk) as [[? _]|[?|?]]; lia.
  - intros p n Hp. destruct Hok as [(_ & _ & ->)|(ts & Hr & Ha & Hl)]; [by rewrite lookup_empty in Hp|].
    destruct (free_live_ok s ts live p n Hr Ha Hl Hp) as (s1 & _ & E & _). by exists s1.
Qed.

(** C35: Nothing is lost: once a process has freed all it allocated, its heap is
    one free block from the first address to the end of memory, whatever the
    order of the calls was. *)
Theorem heap_comes_back s : heap_runs s ∅ → brk s ≠ hstart →
  hdrs s !! base = Some (mkHeader hstart 0) ∧ hdrs s !! hstart = Some (mkHeader base ((brk s - hstart) / 8)).
Proof.
  intros Hruns Hne. destruct (heap_runs_ok s ∅ Hruns) as [(_ & Hk & _)|(ts & Hr & Ha & _ & Hl)]; [done|].
  assert (used ts = []) as Hu.
  { destruct (used ts) as [|[x k] l] eqn:E; [done|]. destruct (Hl x k) as [n Hn]; [by left|]. by rewrite lookup_empty in Hn. }
  destruct Hr as [Hp Hlast Hb Hs Hk _ _]. destruct ts as [|[n fr] ts]; [by rewrite after_nil in Hk|].
  unfold used in Hu. cbn [blocks] in Hu. destruct fr; [|done].
  destruct ts as [|[n' fr'] ts]; [|destruct fr'; [by destruct Ha as (_ & Ha & _)|done]].
  cbn [part lastf] in Hp, Hlast. destruct Hp as (P1 & P2 & _). rewrite after_one in Hk.
  split; [by apply hp_hs|]. replace ((brk s - hstart) / 8) with n; [by apply hp_hs|].
  rewrite Hk. replace (hstart + 8 * n - hstart) with (n * 8) by lia. by rewrite Z.div_mul.
Qed.

(** The largest requests wrap around: what is asked for is not what is got. *)
Lemma malloc_wraps fuel nbytes s : 4294967289 ≤ nbytes < 4294967296 → malloc fuel nbytes s = malloc fuel 0 s.
Proof.
  intros H. unfold Umalloc.malloc. replace (nunits_of nbytes) with (nunits_of 0); [done|].
  unfold nunits_of, SIZEOF_HEADER. change (u32 (u32 (0 + 8 - 1) / 8 + 1)) with 1.
  replace (u32 (nbytes + 8 - 1)) with (nbytes + 8 - 1 - 4294967296).
  - rewrite Z.div_small by lia. done.
  - unfold u32. replace (nbytes + 8 - 1) with ((nbytes + 8 - 1 - 4294967296) + 1 * 4294967296) at 2 by lia.
    rewrite Z.mod_add, Z.mod_small; lia.
Qed.
End umalloc.

(** *** A process *)

Definition ex_base : Z := 0x800.
Definition ex_start : Z := 0x4000.
Definition ex_sbrk (b n : Z) : bool := b + n <=? USER_MAX.

Lemma ex_grants b n : ex_sbrk b n = true → 0 ≤ n → b + n ≤ USER_MAX.
Proof. unfold ex_sbrk. lia. Qed.

Definition ex_state (n : Z) (s : heap) : heap :=
  match malloc ex_base ex_sbrk MALLOC_FUEL n s with Ok (_, s') => s' | _ => s end.
Definition ex0 : heap := mkHeap ∅ 0 ex_start.
Definition ex1 : heap := ex_state 100 ex0.
Definition ex_p1 : Z := 0xbf98.

Lemma ex_run1 : heap_runs ex_base ex_start ex_sbrk ex1 {[ ex_p1 := 100 ]}.
Proof.
  change ({[ ex_p1 := 100 ]}) with (if ex_p1 =? 0 then ∅ else <[ex_p1 := 100]> (∅ : gmap Z Z)).
  apply (RunMalloc _ _ _ ex0); [constructor|unfold MALLOC_MAX; lia|]. vm_compute. reflexivity.
Qed.

Lemma malloc_keeps_blocks_apart_witness :
  (∃ p s', malloc ex_base ex_sbrk MALLOC_FUEL 33 ex1 = Ok (p, s') ∧
    ((p = 0 ∧ brk s' = brk ex1 ∧ ex_sbrk (brk ex1) (8 * core_units (nunits_of 33)) = false) ∨
     (({[ ex_p1 := 100 ]} : gmap Z Z) !! p = None ∧ (p - ex_start) `mod` 8 = 0 ∧ ex_start + 8 ≤ p ∧ p + 33 ≤ brk s' ∧
      ∀ q m, ({[ ex_p1 := 100 ]} : gmap Z Z) !! q = Some m → p + 33 ≤ q - 8 ∨ q + m ≤ p - 8))) ∧
  (∀ p n, ({[ ex_p1 := 100 ]} : gmap Z Z) !! p = Some n → ∃ s', free ex_base MALLOC_FUEL p ex1 = Ok (tt, s')).
Proof.
  apply (malloc_keeps_blocks_apart ex_base ex_start ex_sbrk); [done|by unfold ex_base, ex_start, SIZEOF_HEADER; lia|done|
    exact ex_grants|exact ex_run1|unfold MALLOC_MAX; lia].
Defined.

Definition ex2 : heap :=
  match free ex_base MALLOC_FUEL ex_p1 ex1 with Ok (_, s') => s' | _ => ex1 end.
Lemma ex_run2 : heap_runs ex_base ex_start ex_sbrk ex2 ∅.
Proof.
  assert (delete ex_p1 ({[ ex_p1 := 100 ]} : gmap Z Z) = ∅) as <- by (vm_compute; reflexivity).
  apply (RunFree _ _ _ ex1 _ ex_p1 100); [exact ex_run1|by rewrite lookup_singleton_eq|]. vm_compute. reflexivity.
Qed.
Lemma heap_comes_back_witness :
  hdrs ex2 !! ex_base = Some (mkHeader ex_start 0) ∧
  hdrs ex2 !! ex_start = Some (mkHeader ex_base ((brk ex2 - ex_start) / 8)).
Proof.
  apply (heap_comes_back ex_base ex_start ex_sbrk); [done|by unfold ex_base, ex_start, SIZEOF_HEADER; lia|done|exact ex_grants|
    exact ex_run2|]. assert (brk ex2 = 49152) as -> by (vm_compute; reflexivity). done.
Defined.
