(* ===== verification/VmUser.v ===== *)
(** User memory: an address space as the bytes a program sees. What growing,
    shrinking, loading, copying and freeing it do to those bytes and to the
    pages of the allocator. *)

From S2P Require Import Prelude UnixFile Kalloc Vm VmProofs.

Section user.
Context (kend : Z) (Hend : 0 < kend).

(** ** Pages that hold neither tables nor free-list links *)

Definition owned (k : kmem_t) (pgdir : Z) (l : list Z) (f : Z) : Prop :=
  page kend f ∧ f ∉ l ∧ f ≠ pgdir ∧
  ∀ i, 0 ≤ i < 1024 → present (pde_at (kram k) pgdir i) → frame (pde_at (kram k) pgdir i) ≠ f.

Lemma put_other_page m p f o bs i : page kend p → page kend f → p ≠ f → p ≤ o → o + Z.of_nat (length bs) ≤ p + PGSIZE →
  0 ≤ i < PGSIZE → put_bytes m o bs !! (f + i) = m !! (f + i).
Proof.
  intros Hp Hf Hne Ho Hb Hi. rewrite lookup_put_bytes. rewrite decide_False; [done|].
  destruct (page_apart kend p f Hp Hf Hne); lia.
Qed.

Lemma word_ext m m' a : (∀ i, a ≤ i < a + 4 → m' !! i = m !! i) → word m' a = word m a.
Proof. intros H. unfold word. by rewrite (bytes_at_ext m m'). Qed.

(** The directory is the same after a store into another page. *)
Lemma pde_other m p pgdir o bs i : page kend p → page kend pgdir → p ≠ pgdir → p ≤ o → o + Z.of_nat (length bs) ≤ p + PGSIZE →
  0 ≤ i < 1024 → pde_at (put_bytes m o bs) pgdir i = pde_at m pgdir i.
Proof. intros. unfold pde_at. apply (word_other_page kend _ p pgdir); try done; unfold PGSIZE; lia. Qed.

Lemma owned_same k k' pgdir l f : (∀ i, 0 ≤ i < 1024 → pde_at (kram k') pgdir i = pde_at (kram k) pgdir i) →
  owned k pgdir l f → owned k' pgdir l f.
Proof. intros E (? & ? & ? & H). split_and!; try done. intros i Hi. rewrite E by done. by apply H. Qed.

(** A store into a page that is not a table. *)
Lemma store_owned k pgdir l f o bs : vm_ok kend k pgdir l → owned k pgdir l f → f ≤ o → o + Z.of_nat (length bs) ≤ f + PGSIZE →
  Forall is_byte bs → let k' := with_bytes o bs k in
  vm_ok kend k' pgdir l ∧ (∀ w, 0 ≤ w < 1048576 → translate (kram k') pgdir w = translate (kram k) pgdir w) ∧
  (∀ g, owned k pgdir l g → owned k' pgdir l g) ∧ (∀ i, 0 ≤ i < 1024 → pde_at (kram k') pgdir i = pde_at (kram k) pgdir i).
Proof.
  intros I (Hf & Hfl & Hfd & Hft) Ho Hlen Hb k'. destruct I as [Hm Hby [Hd Hdl] Ht Hinj].
  assert (∀ i, 0 ≤ i < 1024 → pde_at (kram k') pgdir i = pde_at (kram k) pgdir i) as E.
  { intros i Hi. by apply (pde_other _ f). }
  split_and!.
  - constructor.
    + by apply (kmem_ok_store _ _ _ f).
    + by apply bytes_ok_put.
    + done.
    + intros i Hi. rewrite E by done. by apply Ht.
    + intros i j Hi Hj. rewrite !E by done. by apply Hinj.
  - intros w Hw. destruct (index_range w Hw) as [Hwd Hwm]. unfold translate, pte_at. rewrite E by done.
    case_decide as Hp; [|done]. destruct (Ht _ Hwd Hp) as (Hpg & _ & _).
    assert (word (kram k') (frame (pde_at (kram k) pgdir (w `div` 1024)) + 4 * (w `mod` 1024)) =
      word (kram k) (frame (pde_at (kram k) pgdir (w `div` 1024)) + 4 * (w `mod` 1024))) as ->; [|done].
    apply (word_other_page kend _ f (frame (pde_at (kram k) pgdir (w `div` 1024)))); try done; unfold PGSIZE; try lia.
    intros Ef. by apply (Hft _ Hwd Hp).
  - intros g. by apply owned_same.
  - done.
Qed.

(** Writing a table's entry. *)
Lemma pte_spares k pgdir l v e : vm_ok kend k pgdir l → 0 ≤ v < 1048576 → present (pde_at (kram k) pgdir (v `div` 1024)) →
  let k' := with_bytes (frame (pde_at (kram k) pgdir (v `div` 1024)) + 4 * (v `mod` 1024)) (le_bytes 4 e) k in
  (∀ i, 0 ≤ i < 1024 → pde_at (kram k') pgdir i = pde_at (kram k) pgdir i) ∧
  ∀ f o, owned k pgdir l f → 0 ≤ o < PGSIZE → kram k' !! (f + o) = kram k !! (f + o).
Proof.
  intros [Hm Hby [Hd Hdl] Ht Hinj] Hv Hp k'. destruct (index_range v Hv) as [Hvd Hvm].
  destruct (Ht _ Hvd Hp) as (Hpg & Hne & Hnl). split.
  - intros i Hi. apply (pde_other _ (frame (pde_at (kram k) pgdir (v `div` 1024)))); try done; rewrite ?length_le_bytes; unfold PGSIZE; lia.
  - intros f o (Hf & _ & _ & Hft) Ho. apply (put_other_page _ (frame (pde_at (kram k) pgdir (v `div` 1024)))); try done;
      rewrite ?length_le_bytes; unfold PGSIZE; try lia. by apply Hft.
Qed.

(** ** What a program sees *)

(** [write um a bs]: the bytes [bs] are stored from [a] on. *)
Definition write (um : Z → Z) (a : Z) (bs : list Z) : Z → Z :=
  λ x, if decide (a ≤ x < a + Z.of_nat (length bs)) then default 0 (bs !! Z.to_nat (x - a)) else um x.

(** The program's memory is the pages of [D] with the bytes [um]; their frames
    are its own, and nothing else is mapped below [USERTOP]. *)
Record user_ok (k : kmem_t) (pgdir : Z) (l : list Z) (D : Z → Prop) (um : Z → Z) : Prop := {
  uo_vm : vm_ok kend k pgdir l;
  uo_table : present (pde_at (kram k) pgdir 0);
  uo_range v : D v → 0 ≤ v < 160;
  uo_page v : D v → ∃ f, translate (kram k) pgdir v = Some (f, 7) ∧ owned k pgdir l f ∧
    ∀ o, 0 ≤ o < PGSIZE → default 0 (kram k !! (f + o)) = um (v * PGSIZE + o);
  uo_inj v w f : D v → D w → translate (kram k) pgdir v = Some (f, 7) → translate (kram k) pgdir w = Some (f, 7) → v = w;
  uo_none v : 0 ≤ v < 160 → D v ∨ translate (kram k) pgdir v = None
}.

(** The pages of the address space: directory, tables and frames. *)
Definition uses (k : kmem_t) (pgdir : Z) (D : Z → Prop) (p : Z) : Prop :=
  p = pgdir ∨ (∃ i, 0 ≤ i < 1024 ∧ present (pde_at (kram k) pgdir i) ∧ frame (pde_at (kram k) pgdir i) = p) ∨
  (∃ v, D v ∧ translate (kram k) pgdir v = Some (p, 7)).

Lemma uses_same k k' pgdir D p : (∀ i, 0 ≤ i < 1024 → pde_at (kram k') pgdir i = pde_at (kram k) pgdir i) →
  (∀ v, D v → translate (kram k') pgdir v = translate (kram k) pgdir v) → uses k' pgdir D p ↔ uses k pgdir D p.
Proof.
  intros Hd Ht. unfold uses. split; (intros [?|[(i & Hi & Hp & Hf)|(v & Hv & Hf)]]; [by left|right; left; exists i|right; right; exists v]).
  - by rewrite <-Hd.
  - by rewrite <-Ht.
  - by rewrite Hd.
  - by rewrite Ht.
Qed.

(** The first [n] pages. *)
Definition below (n v : Z) : Prop := 0 ≤ v < n.

Lemma uses_add k pgdir D n p : uses k pgdir (λ v, D v ∨ v = n) p ↔ uses k pgdir D p ∨ translate (kram k) pgdir n = Some (p, 7).
Proof.
  unfold uses. split.
  - intros [?|[?|(v & [Hv| ->] & E)]]; [tauto|tauto| |tauto]. left. right. right. by exists v.
  - intros [[?|[?|(v & Hv & E)]]|E]; [tauto|tauto| |]; right; right; [exists v|exists n]; tauto.
Qed.

Lemma user_ext k pgdir l D D' um um' : user_ok k pgdir l D um → (∀ v, D' v ↔ D v) →
  (∀ v o, D v → 0 ≤ o < PGSIZE → um' (v * PGSIZE + o) = um (v * PGSIZE + o)) → user_ok k pgdir l D' um'.
Proof.
  intros [? ? Hr Hp Hinj Hnone] ED E. split; try done.
  - intros v. rewrite ED. apply Hr.
  - intros v Hv%ED. destruct (Hp v Hv) as (f & ? & ? & Hb). exists f. split_and!; try done.
    intros o Ho. rewrite E by done. by apply Hb.
  - intros v w f. rewrite !ED. apply Hinj.
  - intros v Hv. rewrite ED. by apply Hnone.
Qed.
Lemma uses_ext k pgdir D D' p : (∀ v, D' v ↔ D v) → uses k pgdir D' p ↔ uses k pgdir D p.
Proof. intros E. unfold uses. by setoid_rewrite E. Qed.

(** Storing into one of the pages. *)
Lemma user_store k pgdir l D um v f o bs : user_ok k pgdir l D um → D v → translate (kram k) pgdir v = Some (f, 7) →
  0 ≤ o → o + Z.of_nat (length bs) ≤ PGSIZE → Forall is_byte bs →
  user_ok (with_bytes (f + o) bs k) pgdir l D (write um (v * PGSIZE + o) bs) ∧
  ∀ p, uses (with_bytes (f + o) bs k) pgdir D p ↔ uses k pgdir D p.
Proof.
  intros [Hvm Ht Hr Hp Hinj Hnone] Hv Ef Ho Hlen Hb. destruct (Hp v Hv) as (f' & Ef' & Hof & _). rewrite Ef in Ef'. injection Ef' as <-.
  destruct (store_owned k pgdir l f (f + o) bs Hvm Hof ltac:(lia) ltac:(lia) Hb) as (Hvm' & Htr & Hown & Hpde). set (k' := with_bytes _ _ k) in *.
  assert (∀ w, D w → translate (kram k') pgdir w = translate (kram k) pgdir w) as HtD by (intros w Hw; specialize (Hr w Hw); apply Htr; lia).
  split; [|intros p; by apply uses_same]. split; try done.
  - by rewrite Hpde.
  - intros w Hw. destruct (Hp w Hw) as (g & Eg & Hog & Hbg). exists g. rewrite HtD by done. split_and!; [done|by apply Hown|].
    intros i Hi. unfold write. destruct (decide (w = v)) as [->|Hne].
    + assert (g = f) as -> by congruence. unfold k', with_bytes. cbn [kram]. rewrite lookup_put_bytes.
      destruct (decide (o ≤ i < o + Z.of_nat (length bs))).
      * rewrite !decide_True by lia. do 2 f_equal. f_equal. lia.
      * rewrite !decide_False by lia. by apply Hbg.
    + rewrite decide_False by (unfold PGSIZE in *; lia). unfold k', with_bytes. cbn [kram].
      assert (g ≠ f) as Hgf by (intros ->; apply Hne; by eapply Hinj).
      rewrite (put_other_page _ f); [by apply Hbg|apply Hof|apply Hog|done|lia|lia|done].
  - intros w1 w2 g H1 H2. rewrite !HtD by done. by apply Hinj.
  - intros w Hw. rewrite Htr by lia. by apply Hnone.
Qed.

(** Storing into a page that the program does not see. *)
Lemma user_store_other k pgdir l D um f o bs : user_ok k pgdir l D um → owned k pgdir l f →
  (∀ v, D v → translate (kram k) pgdir v ≠ Some (f, 7)) → f ≤ o → o + Z.of_nat (length bs) ≤ f + PGSIZE → Forall is_byte bs →
  user_ok (with_bytes o bs k) pgdir l D um ∧ owned (with_bytes o bs k) pgdir l f ∧
  (∀ w, 0 ≤ w < 1048576 → translate (kram (with_bytes o bs k)) pgdir w = translate (kram k) pgdir w) ∧
  ∀ p, uses (with_bytes o bs k) pgdir D p ↔ uses k pgdir D p.
Proof.
  intros [Hvm Ht Hr Hp Hinj Hnone] Hof Hnew Ho Hlen Hb.
  destruct (store_owned k pgdir l f o bs Hvm Hof Ho Hlen Hb) as (Hvm' & Htr & Hown & Hpde). set (k' := with_bytes _ _ k) in *.
  assert (∀ w, D w → translate (kram k') pgdir w = translate (kram k) pgdir w) as HtD by (intros w Hw; specialize (Hr w Hw); apply Htr; lia).
  split_and!; [|by apply Hown|done|intros p; by apply uses_same]. split; try done.
  - by rewrite Hpde.
  - intros w Hw. destruct (Hp w Hw) as (g & Eg & Hog & Hbg). exists g. rewrite HtD by done. split_and!; [done|by apply Hown|].
    intros i Hi. unfold k', with_bytes. cbn [kram]. rewrite (put_other_page _ f); [by apply Hbg|apply Hof|apply Hog| |lia|lia|done].
    intros ->. by apply (Hnew w).
  - intros w1 w2 g H1 H2. rewrite !HtD by done. by apply Hinj.
  - intros w Hw. rewrite Htr by lia. by apply Hnone.
Qed.

(** The entry of a user page, whose table is there. *)
Lemma walk_user k pgdir l D um v c : user_ok k pgdir l D um → 0 ≤ v < 1024 →
  walkpgdir pgdir (v * 4096) c k = Ok (Some (frame (pde_at (kram k) pgdir 0) + 4 * v), k) ∧
  readw (frame (pde_at (kram k) pgdir 0) + 4 * v) k = Ok (pte_at (kram k) pgdir v, k).
Proof.
  intros I Hv. assert (v `div` 1024 = 0 ∧ v `mod` 1024 = v) as [Ed Em] by (split; [apply Z.div_small|apply Z.mod_small]; lia).
  split; [|unfold pte_at; by rewrite Ed, Em].
  unfold walkpgdir. rewrite (PDX_div (v * 4096)), (PTX_div (v * 4096)), Z.div_mul, Ed, Em by (done || unfold is_u32; lia).
  assert (readw (pgdir + 4 * 0) k = Ok (pde_at (kram k) pgdir 0, k)) as Er by done. step Er.
  rewrite has_P, bool_decide_eq_true_2 by apply (uo_table _ _ _ _ _ I).
  by rewrite PTE_ADDR_frame by (apply word_range, (uo_vm _ _ _ _ _ I)).
Qed.

(** What an entry says about a page. *)
Lemma pte_user k pgdir l D um v : user_ok k pgdir l D um → 0 ≤ v < 1024 → is_u32 (pte_at (kram k) pgdir v) ∧
  translate (kram k) pgdir v = if decide (present (pte_at (kram k) pgdir v))
    then Some (frame (pte_at (kram k) pgdir v), pte_at (kram k) pgdir v `mod` 4096) else None.
Proof.
  intros I Hv. split; [apply word_range, (uo_vm _ _ _ _ _ I)|]. unfold translate.
  rewrite (Z.div_small v 1024) by lia. by rewrite (decide_True (P := present (pde_at _ _ _))) by apply (uo_table _ _ _ _ _ I).
Qed.

Lemma tables_kalloc k k1 pgdir l l1 : vm_ok kend k pgdir l → kram k1 = kram k → kmem_ok kend k1 l1 → (∀ p, p ∈ l1 → p ∈ l) → vm_ok kend k1 pgdir l1.
Proof.
  intros [Hm Hby [Hd Hdl] Ht Hinj] E Hm1 Hsub. split; rewrite ?E; try done.
  - split; [done|]. by intros Hin%Hsub.
  - intros i Hi Hp. destruct (Ht i Hi Hp) as (? & ? & Hl). split_and!; try done. by intros Hin%Hsub.
Qed.

Lemma user_kalloc k pgdir t l D um : user_ok k pgdir (t :: l) D um → ∃ k1, kalloc k = Ok (t, k1) ∧ user_ok k1 pgdir l D um ∧
  owned k1 pgdir l t ∧ (∀ v, D v → translate (kram k1) pgdir v ≠ Some (t, 7)) ∧ kram k1 = kram k.
Proof.
  intros [Hvm Ht Hr Hp Hinj Hnone]. destruct (kalloc_run kend Hend k (t :: l) (vo_mem _ _ _ _ Hvm)) as (k1 & E & Hm1 & Er).
  cbn [hd tl] in *. pose proof (vo_mem _ _ _ _ Hvm) as [_ Hnd Hpg]. apply NoDup_cons_1_1 in Hnd. apply Forall_cons_1 in Hpg as [Hpt _].
  exists k1. split; [done|]. assert (vm_ok kend k1 pgdir l) as Hvm1 by (apply (tables_kalloc k k1 pgdir (t :: l)); [done..|set_solver]).
  split_and!; [split; rewrite ?Er; try done| | |done].
  - intros v Hv. destruct (Hp v Hv) as (f & Ef & Hof & Hb). exists f. split_and!; try done.
    destruct Hof as (? & Hfl & ? & Hft). unfold owned. rewrite Er. split_and!; try done. set_solver.
  - destruct (vo_dir _ _ _ _ Hvm) as [_ Hdl]. split_and!; try done; [set_solver|]. rewrite Er. intros i Hi Hpr Eq.
    destruct (vo_tab _ _ _ _ Hvm i Hi Hpr) as (_ & _ & Hl). rewrite Eq in Hl. set_solver.
  - intros v Hv. rewrite Er. destruct (Hp v Hv) as (f & -> & (_ & Hfl & _) & _). intros [= ->]. set_solver.
Qed.

(** The entry of user page [v] is written: [x] is 0 or a frame with flags. *)
Lemma user_pte k pgdir l v x : vm_ok kend k pgdir l → present (pde_at (kram k) pgdir 0) → 0 ≤ v < 160 → is_u32 x →
  let k' := with_bytes (frame (pde_at (kram k) pgdir 0) + 4 * v) (le_bytes 4 x) k in
  vm_ok kend k' pgdir l ∧ (∀ i, 0 ≤ i < 1024 → pde_at (kram k') pgdir i = pde_at (kram k) pgdir i) ∧
  (∀ w, 0 ≤ w < 1048576 → translate (kram k') pgdir w =
    if decide (w = v) then if decide (present x) then Some (frame x, x `mod` 4096) else None else translate (kram k) pgdir w) ∧
  (∀ p o, page kend p → p ≠ frame (pde_at (kram k) pgdir 0) → 0 ≤ o < PGSIZE → kram k' !! (p + o) = kram k !! (p + o)).
Proof.
  intros Hvm Ht Hv Hx k'. assert (v `div` 1024 = 0 ∧ v `mod` 1024 = v) as [Ed Em] by (split; [apply Z.div_small|apply Z.mod_small]; lia).
  destruct (write_pte kend k pgdir l v x Hvm ltac:(lia)) as [Hvm' Htr]; [by rewrite Ed|done|].
  destruct (pte_spares k pgdir l v x Hvm ltac:(lia)) as [Hpde _]; [by rewrite Ed|]. rewrite Ed, Em in *.
  split_and!; try done. intros p o Hp Hne Ho.
  apply (put_other_page _ (frame (pde_at (kram k) pgdir 0))); rewrite ?length_le_bytes; unfold PGSIZE; try done; try lia.
  by apply (vo_tab _ _ _ _ Hvm 0).
Qed.

(** A page of its own becomes a page of the program. *)
Lemma user_map k pgdir l D um n f : user_ok k pgdir l D um → 0 ≤ n < 160 → ¬ D n → owned k pgdir l f →
  (∀ v, D v → translate (kram k) pgdir v ≠ Some (f, 7)) →
  (∀ o, 0 ≤ o < PGSIZE → default 0 (kram k !! (f + o)) = um (n * PGSIZE + o)) →
  ∃ k', mappages pgdir (n * PGSIZE) PGSIZE (PADDR f) (Z.lor PTE_W PTE_U) k = Ok (0, k') ∧ user_ok k' pgdir l (λ v, D v ∨ v = n) um ∧
    (∀ p, uses k' pgdir (λ v, D v ∨ v = n) p ↔ uses k pgdir D p ∨ p = f) ∧
    ∀ p o, page kend p → ¬ uses k pgdir D p → 0 ≤ o < PGSIZE → kram k' !! (p + o) = kram k !! (p + o).
Proof.
  intros I Hlt HnD Hof Hnew Hb. pose proof I as [Hvm Ht Hr Hp Hinj Hnone]. pose proof (proj1 Hof) as [Hfm Hfr].
  unfold mappages, PGSIZE in *. rewrite !PGROUNDDOWN_frame by (unfold is_u32; lia). unfold frame.
  replace (n * 4096 + 4096 - 1) with (4095 + n * 4096) by lia. rewrite Z.div_add, Z.div_mul by done. change (4095 `div` 4096) with 0.
  rewrite Z.add_0_l. assert (∃ m, MAP_FUEL = S m) as (m & ->) by (exists (Z.to_nat 1048576); unfold MAP_FUEL; lia).
  cbn [mappages_loop]. destruct (walk_user k pgdir l D um n true I ltac:(lia)) as [Ew Er]. step Ew. step Er.
  destruct (pte_user k pgdir l D um n I ltac:(lia)) as [Hu Etr]. destruct (Hnone n Hlt) as [|En0]; [done|]. rewrite En0 in Etr.
  rewrite has_P. case_bool_decide as Hpr; [by rewrite decide_True in Etr|].
  assert (Z.lor (Z.lor (PADDR f) (Z.lor PTE_W PTE_U)) PTE_P = f + 7) as ->.
  { unfold PADDR. rewrite u32_small by (unfold is_u32, PHYSTOP in *; lia). rewrite <-Z.lor_assoc. apply lor_aligned; [done|cbn; lia]. }
  rewrite Z.eqb_refl. destruct (user_pte k pgdir l n (f + 7) Hvm Ht Hlt) as (Hvm' & Hpde & Htr & Hoth); [unfold is_u32, PHYSTOP in *; lia|].
  set (k' := with_bytes _ _ k) in *.
  destruct (frame_flags f 7 Hfm ltac:(lia)) as [Ef Ef7]. pose proof (proj2 (present_flags f 7 Hfm) eq_refl) as Hp7.
  assert (∀ w, 0 ≤ w < 1048576 → translate (kram k') pgdir w = if decide (w = n) then Some (f, 7) else translate (kram k) pgdir w) as Htr'.
  { intros w Hw. rewrite Htr by done. by rewrite (decide_True (P := present _)), Ef, Ef7 by done. }
  assert (∀ w, D w → translate (kram k') pgdir w = translate (kram k) pgdir w) as HtD.
  { intros w Hw. pose proof (Hr w Hw). rewrite Htr' by lia. apply decide_False. by intros ->. }
  assert (∀ p o, owned k pgdir l p → 0 ≤ o < PGSIZE → kram k' !! (p + o) = kram k !! (p + o)) as Hsp.
  { intros p o (Hpp & _ & _ & Hpt) Ho. apply Hoth; [done| |done]. intros E. by apply (Hpt 0). }
  exists k'. split; [done|]. split; [|split].
  2: { intros p. rewrite uses_add, (uses_same k k' pgdir D p Hpde HtD).
    rewrite Htr', decide_True by lia. split; (intros [?|E]; [by left|right; congruence]). }
  2: { intros p o Hpg Hu' Ho. apply Hoth; try done. intros ->. apply Hu'. right. left. by exists 0. }
  split; try done.
  - by rewrite Hpde.
  - intros v [Hv| ->]; [by apply Hr|lia].
  - intros w [Hw| ->].
    + destruct (Hp w Hw) as (g & Eg & Hog & Hbg). exists g. rewrite HtD by done. split_and!; [done|by apply (owned_same k)|].
      intros o Ho. rewrite Hsp by done. by apply Hbg.
    + exists f. rewrite Htr', decide_True by lia. split_and!; [done|by apply (owned_same k)|]. intros o Ho. rewrite Hsp by done. by apply Hb.
  - assert (translate (kram k') pgdir n = Some (f, 7)) as En by (rewrite Htr' by lia; by apply decide_True).
    intros w1 w2 g [H1| ->] [H2| ->] E1 E2; rewrite ?HtD in E1 by done; rewrite ?HtD in E2 by done; [by eapply Hinj|..|done].
    + rewrite En in E2. injection E2 as <-. by destruct (Hnew w1 H1).
    + rewrite En in E1. injection E1 as <-. by destruct (Hnew w2 H2).
  - intros w Hw. destruct (decide (w = n)) as [->|Hne]; [left; by right|]. rewrite Htr', decide_False by (done || lia). destruct (Hnone w Hw); [left; by left|by right].
Qed.

(** The byte at address [a] as the processor reads it in user mode. *)
Definition uread (k : kmem_t) (pgdir a : Z) : option Z :=
  match translate (kram k) pgdir (a `div` 4096) with
  | Some (f, flags) => if Z.testbit flags 2 then Some (default 0 (kram k !! (f + a `mod` 4096))) else None
  | None => None
  end.

Lemma uread_user k pgdir l D um a : user_ok k pgdir l D um → D (a `div` 4096) → uread k pgdir a = Some (um a).
Proof.
  intros I Hv. destruct (uo_page _ _ _ _ _ I _ Hv) as (f & Ef & _ & Hb). unfold uread. rewrite Ef. cbn [Z.testbit Pos.testbit].
  pose proof (Z.mod_pos_bound a 4096 eq_refl). pose proof (Z.div_mod a 4096 ltac:(done)). rewrite Hb by done. unfold PGSIZE. do 2 f_equal. lia.
Qed.
Lemma uread_none k pgdir l D um a : user_ok k pgdir l D um → 0 ≤ a < 160 * 4096 → ¬ D (a `div` 4096) → uread k pgdir a = None.
Proof.
  intros I Ha Hn. unfold uread. pose proof (Z.div_pos a 4096). pose proof (Z.div_lt_upper_bound a 4096 160).
  destruct (uo_none _ _ _ _ _ I (a `div` 4096)) as [|E]; [lia|done|]. by rewrite E.
Qed.

(** ** Pages change hands *)

(** The free pages and the pages of the address space. *)
Definition mine (k : kmem_t) (pgdir : Z) (l : list Z) (D : Z → Prop) (p : Z) : Prop := p ∈ l ∨ uses k pgdir D p.

(** An operation loses none of these pages, takes no other, and leaves the
    other pages as they are. *)
Record within (k : kmem_t) (pgdir : Z) (l : list Z) (D : Z → Prop) (k' : kmem_t) (l' : list Z) (D' : Z → Prop) : Prop := {
  wi_mine p : mine k' pgdir l' D' p ↔ mine k pgdir l D p;
  wi_others p o : page kend p → ¬ mine k pgdir l D p → 0 ≤ o < PGSIZE → kram k' !! (p + o) = kram k !! (p + o)
}.

(** The directory, the [n] pages and the free pages are all different. *)
Lemma user_pages_count k pgdir l n um all : user_ok k pgdir l (below n) um → 0 ≤ n →
  (∀ p, mine k pgdir l (below n) p → p ∈ all) → n + 1 + Z.of_nat (length l) ≤ Z.of_nat (length all).
Proof.
  intros [[[_ Hnd _] _ [_ Hdl] _ _] _ _ Hp Hinj _] Hn Hall.
  set (fr v := match translate (kram k) pgdir v with Some (f, _) => f | None => 0 end).
  assert (∀ v, below n v → translate (kram k) pgdir v = Some (fr v, 7) ∧ owned k pgdir l (fr v)) as Hfr.
  { intros v Hv. destruct (Hp v Hv) as (f & E & Ho & _). unfold fr. by rewrite E. }
  assert (∀ f, f ∈ fr <$> seqZ 0 n → ∃ v, below n v ∧ f = fr v) as Hin.
  { intros f (v & -> & Hv)%list_elem_of_fmap. apply elem_of_seqZ in Hv. exists v. unfold below. split; [lia|done]. }
  assert (NoDup (pgdir :: (fr <$> seqZ 0 n) ++ l)) as Hd.
  { apply list.NoDup_cons. split.
    - intros [(v & Hv & E)%Hin|?]%elem_of_app; [|done]. destruct (Hfr v Hv) as [_ (_ & _ & Hne & _)]. congruence.
    - apply list.NoDup_app. split; [|split; [|done]].
      + apply NoDup_fmap_2_strong; [|apply NoDup_seqZ]. intros v w Hv%elem_of_seqZ Hw%elem_of_seqZ E.
        assert (below n v ∧ below n w) as [Bv Bw] by (unfold below; lia).
        apply (Hinj v w (fr v) Bv Bw); [by apply Hfr|]. rewrite E. by apply Hfr.
      + intros f (v & Hv & ->)%Hin. by destruct (Hfr v Hv) as [_ (_ & ? & _)]. }
  assert ((pgdir :: (fr <$> seqZ 0 n) ++ l) ⊆+ all) as Hs%submseteq_length.
  { apply NoDup_submseteq; [done|]. intros f [->|[(v & Hv & ->)%Hin|Hl]%elem_of_app]%elem_of_cons; apply Hall.
    - right. by left.
    - right. right. right. exists v. split; [done|]. by apply Hfr.
    - by left. }
  cbn [length] in Hs. rewrite length_app, length_fmap, length_seqZ in Hs. lia.
Qed.

Lemma within_refl k pgdir l D : within k pgdir l D k l D.
Proof. by split. Qed.
Lemma within_trans k pgdir l D k1 l1 D1 k2 l2 D2 : within k pgdir l D k1 l1 D1 → within k1 pgdir l1 D1 k2 l2 D2 → within k pgdir l D k2 l2 D2.
Proof.
  intros [H1 O1] [H2 O2]. split.
  - intros p. by rewrite H2, H1.
  - intros p o Hp Hm Ho. rewrite O2, O1; try done. by rewrite H1.
Qed.
Lemma within_ext k pgdir l D k' l' D' D'' : within k pgdir l D k' l' D' → (∀ v, D'' v ↔ D' v) → within k pgdir l D k' l' D''.
Proof. intros [H1 O1] E. split; [|done]. intros p. rewrite <-H1. unfold mine. by rewrite (uses_ext k' pgdir D' D'' p E). Qed.

Lemma uses_ram k k' pgdir D p : kram k' = kram k → uses k' pgdir D p ↔ uses k pgdir D p.
Proof. intros E. apply uses_same; intros; by rewrite E. Qed.

Lemma store_within k pgdir l D um v f o bs : user_ok k pgdir l D um → D v → translate (kram k) pgdir v = Some (f, 7) →
  0 ≤ o → o + Z.of_nat (length bs) ≤ PGSIZE → Forall is_byte bs → within k pgdir l D (with_bytes (f + o) bs k) l D.
Proof.
  intros I Hv Ef Ho Hlen Hb. destruct (user_store k pgdir l D um v f o bs I Hv Ef Ho Hlen Hb) as [_ Hu]. split.
  - intros p. unfold mine. by rewrite Hu.
  - intros p i Hp Hm Hi. unfold with_bytes. cbn [kram]. destruct (uo_page _ _ _ _ _ I v Hv) as (f' & Ef' & Hof & _).
    rewrite Ef in Ef'. injection Ef' as <-. apply (put_other_page _ f); [apply Hof|done| |lia|lia|done].
    intros <-. apply Hm. right. right. right. by exists v.
Qed.

(** Memory that an address space does not use may change. *)
Lemma user_other k k' pgdir l l' D um : user_ok k pgdir l D um → kmem_ok kend k' l' → bytes_ok (kram k') →
  (∀ p, uses k pgdir D p → p ∉ l') → (∀ p o, uses k pgdir D p → 0 ≤ o < PGSIZE → kram k' !! (p + o) = kram k !! (p + o)) →
  user_ok k' pgdir l' D um ∧ ∀ p, uses k' pgdir D p ↔ uses k pgdir D p.
Proof.
  intros [[Hm Hby [Hd Hdl] Ht Hinj'] Htab Hr Hp Hinj Hnone] Hm' Hby' Hfree Hs.
  assert (∀ p i, uses k pgdir D p → 0 ≤ i < 1024 → word (kram k') (p + 4 * i) = word (kram k) (p + 4 * i)) as Hw.
  { intros p i Hu Hi. apply word_ext. intros j Hj. replace j with (p + (j - p)) by lia. apply Hs; [done|unfold PGSIZE; lia]. }
  assert (∀ i, 0 ≤ i < 1024 → pde_at (kram k') pgdir i = pde_at (kram k) pgdir i) as E by (intros i Hi; apply Hw; [by left|done]).
  assert (∀ w, 0 ≤ w < 1048576 → translate (kram k') pgdir w = translate (kram k) pgdir w) as Etr.
  { intros w Hwr. destruct (index_range w Hwr) as [Hwd Hwm]. unfold translate, pte_at. rewrite E by done.
    case_decide as Hpr; [|done]. rewrite Hw; [done| |done]. right. left. by exists (w `div` 1024). }
  assert (∀ w, D w → translate (kram k') pgdir w = translate (kram k) pgdir w) as HtD by (intros w Hw'; pose proof (Hr w Hw'); apply Etr; lia).
  split; [|intros p; by apply uses_same]. split; try done.
  - split; try done.
    + split; [done|]. apply Hfree. by left.
    + intros i Hi. rewrite E by done. intros Hpr. destruct (Ht i Hi Hpr) as (? & ? & _). split_and!; try done.
      apply Hfree. right. left. by exists i.
    + intros i j Hi Hj. rewrite !E by done. by apply Hinj'.
  - by rewrite E.
  - intros w Hw'. destruct (Hp w Hw') as (f & Ef & (Hf & Hfl & Hfd & Hft) & Hb). exists f. rewrite HtD by done.
    assert (uses k pgdir D f) as Hu by (right; right; by exists w). split_and!; [done| |].
    + split_and!; try done; [by apply Hfree|]. intros i Hi. rewrite E by done. by apply Hft.
    + intros o Ho. rewrite Hs by done. by apply Hb.
  - intros v w f Hv Hw'. rewrite !HtD by done. by apply Hinj.
  - intros v Hv. rewrite Etr by lia. by apply Hnone.
Qed.

(** A free page is filled and becomes a page of the program. *)
Lemma fill_page k pgdir t l D um n bs : user_ok k pgdir (t :: l) D um → 0 ≤ n < 160 → ¬ D n → length bs = Z.to_nat PGSIZE → Forall is_byte bs →
  (∀ o, 0 ≤ o < PGSIZE → default 0 (bs !! Z.to_nat o) = um (n * PGSIZE + o)) →
  ∃ k1 k', kalloc k = Ok (t, k1) ∧ t ≠ 0 ∧ kram k1 = kram k ∧
    mappages pgdir (n * PGSIZE) PGSIZE (PADDR t) (Z.lor PTE_W PTE_U) (with_bytes t bs k1) = Ok (0, k') ∧
    user_ok k' pgdir l (λ v, D v ∨ v = n) um ∧ within k pgdir (t :: l) D k' l (λ v, D v ∨ v = n).
Proof.
  intros I Hlt HnD Hlen Hby Hbs. destruct (user_kalloc k pgdir t l D um I) as (k1 & E & I1 & Ho1 & Hnew & Er).
  assert (t + Z.of_nat (length bs) ≤ t + PGSIZE) as Hle by (rewrite Hlen; unfold PGSIZE; lia).
  destruct (user_store_other k1 pgdir l D um t t bs I1 Ho1 Hnew) as (I2 & Ho2 & Htr & Hu2); [lia|done..|]. set (k2 := with_bytes t bs k1) in *.
  destruct (user_map k2 pgdir l D um n t I2 Hlt HnD Ho2) as (k' & Em & I' & Hu' & Hoth).
  { intros v Hv. rewrite Htr; [by apply Hnew|]. pose proof (uo_range _ _ _ _ _ I v Hv). lia. }
  { intros o Ho. unfold k2, with_bytes. cbn [kram]. rewrite lookup_put_bytes, decide_True by (rewrite Hlen; unfold PGSIZE in *; lia).
    rewrite <-Hbs by done. do 2 f_equal. lia. }
  destruct Ho1 as ([_ ?] & _). exists k1, k'. split_and!; try done; [lia|]. split.
  - intros p. unfold mine. rewrite Hu', Hu2, (uses_ram k k1 pgdir D p Er). rewrite elem_of_cons. tauto.
  - intros p o Hp Hm Ho. unfold mine in Hm. rewrite elem_of_cons in Hm. rewrite Hoth; try done.
    + unfold k2, with_bytes. cbn [kram]. rewrite (put_other_page _ t); try done; [by rewrite Er|apply Ho2|intros ->; tauto].
    + rewrite Hu2, (uses_ram k k1 pgdir D p Er). tauto.
Qed.

(** ** Growing *)

Definition pages (sz : Z) : Z := (sz + 4095) `div` 4096.
Lemma pages_bounds sz : (pages sz - 1) * 4096 < sz ≤ pages sz * 4096.
Proof. unfold pages. pose proof (Z.div_mod (sz + 4095) 4096). pose proof (Z.mod_pos_bound (sz + 4095) 4096). lia. Qed.
Lemma pages_mono a b : a ≤ b → pages a ≤ pages b.
Proof. intros. unfold pages. apply Z.div_le_mono; lia. Qed.
Lemma pages_mul n : pages (n * 4096) = n.
Proof. unfold pages. rewrite Z.div_add_l by lia. change (4095 `div` 4096) with 0. lia. Qed.
Lemma PGROUNDUP_pages sz : 0 ≤ sz ≤ USERTOP → PGROUNDUP sz = pages sz * PGSIZE.
Proof.
  intros H. pose proof (pages_bounds sz). destruct (PGROUNDUP_spec sz) as [Hm Hr]; [lia|unfold USERTOP, PGSIZE in *; lia|].
  unfold PGSIZE in *. pose proof (Z.div_mod (PGROUNDUP sz) 4096). lia.
Qed.

Lemma allocuvm_loop_ok cnt : ∀ fuel k pgdir l n um oldsz newsz, (cnt < fuel)%nat → user_ok k pgdir l (below n) um → 0 ≤ n →
  (∀ a, n * PGSIZE ≤ a → um a = 0) → pages newsz = n + Z.of_nat cnt → newsz ≤ USERTOP → (cnt ≤ length l)%nat →
  ∃ k', allocuvm_loop kend fuel pgdir (n * PGSIZE) oldsz newsz k = Ok (newsz, k') ∧
    user_ok k' pgdir (drop cnt l) (below (n + Z.of_nat cnt)) um ∧
    within k pgdir l (below n) k' (drop cnt l) (below (n + Z.of_nat cnt)).
Proof.
  induction cnt as [|cnt IH]; intros [|fuel] k pgdir l n um oldsz newsz Hfu I Hn Hz Hpg Htop Hlen; try lia; cbn [allocuvm_loop];
    pose proof (pages_bounds newsz) as Hpb; unfold USERTOP in *.
  - unfold PGSIZE in *. rewrite (proj2 (Z.ltb_ge _ _)) by lia. exists k. rewrite drop_0, Z.add_0_r. split; [done|]. split; [done|apply within_refl].
  - destruct l as [|t l]; [cbn in Hlen; lia|]. unfold PGSIZE at 1. rewrite (proj2 (Z.ltb_lt _ _)) by lia.
    destruct (fill_page k pgdir t l (below n) um n (replicate (Z.to_nat PGSIZE) 0) I) as (k1 & k2 & E1 & Ht & _ & E2 & I2 & W2).
    { lia. } { unfold below. lia. } { by rewrite length_replicate. } { apply Forall_replicate. unfold is_byte. lia. }
    { intros o Ho. rewrite Hz by lia. by rewrite lookup_replicate_2 by lia. }
    step E1. rewrite (proj2 (Z.eqb_neq _ _)) by done.
    assert (clear_page t k1 = Ok (tt, with_bytes t (replicate (Z.to_nat PGSIZE) 0) k1)) as Ec by done. step Ec. step E2.
    rewrite u32_small by (unfold is_u32, PGSIZE; lia). replace (n * PGSIZE + PGSIZE) with ((n + 1) * PGSIZE) by lia.
    assert (∀ v, below (n + 1) v ↔ below n v ∨ v = n) as Eb by (unfold below; lia).
    destruct (IH fuel k2 pgdir l (n + 1) um oldsz newsz) as (k' & E & I' & W'); [lia| |lia| |lia|done|cbn in Hlen; lia|].
    { by eapply user_ext. }
    { intros a Ha. apply Hz. unfold PGSIZE in *. lia. }
    exists k'. cbn [drop]. replace (n + Z.of_nat (S cnt)) with (n + 1 + Z.of_nat cnt) by lia. split; [done|]. split; [done|].
    eapply within_trans; [|exact W']. by eapply within_ext.
Qed.

(** Growing from [oldsz] to [newsz] bytes: the new pages are zero. *)
Lemma allocuvm_ok k pgdir l um oldsz newsz : user_ok k pgdir l (below (pages oldsz)) um → 0 ≤ oldsz ≤ newsz → newsz ≤ USERTOP →
  pages newsz - pages oldsz ≤ Z.of_nat (length l) →
  let l' := drop (Z.to_nat (pages newsz - pages oldsz)) l in
  ∃ k', allocuvm kend pgdir oldsz newsz k = Ok (newsz, k') ∧
    user_ok k' pgdir l' (below (pages newsz)) (λ a, if decide (a < pages oldsz * PGSIZE) then um a else 0) ∧
    within k pgdir l (below (pages oldsz)) k' l' (below (pages newsz)).
Proof.
  intros I Ho Htop Hlen l'. pose proof (pages_bounds oldsz) as Hpo. pose proof (pages_bounds newsz) as Hpn.
  unfold allocuvm. rewrite Z.gtb_ltb, !(proj2 (Z.ltb_ge _ _)) by lia. rewrite PGROUNDUP_pages by lia.
  pose proof (pages_mono oldsz newsz ltac:(lia)) as Hmono.
  destruct (allocuvm_loop_ok (Z.to_nat (pages newsz - pages oldsz)) (S (Z.to_nat (newsz / PGSIZE) + 1)) k pgdir l (pages oldsz)
    (λ a, if decide (a < pages oldsz * PGSIZE) then um a else 0) oldsz newsz) as (k' & E & I' & W').
  - unfold pages, PGSIZE in *. pose proof (Z.div_le_mono (newsz + 4095) (newsz + 1 * 4096) 4096). rewrite Z.div_add in * by done.
    pose proof (Z.div_pos (oldsz + 4095) 4096). pose proof (Z.div_pos newsz 4096). lia.
  - eapply user_ext; [done|done|]. intros v o Hv Ho'. rewrite decide_True; [done|]. unfold below, PGSIZE in *. lia.
  - lia.
  - intros a Ha. by rewrite decide_False by lia.
  - lia.
  - done.
  - lia.
  - exists k'. rewrite Z2Nat.id in * by lia. replace (pages oldsz + (pages newsz - pages oldsz)) with (pages newsz) in * by lia. done.
Qed.

(** ** Shrinking *)

(** When only page [f] changes, and the free list. *)
Lemma vm_ok_frame k k1 pgdir l l1 f : vm_ok kend k pgdir l → owned k pgdir l f → kmem_ok kend k1 l1 → bytes_ok (kram k1) →
  (∀ p, p ∈ l1 → p = f ∨ p ∈ l) → (∀ p o, page kend p → p ≠ f → 0 ≤ o < PGSIZE → kram k1 !! (p + o) = kram k !! (p + o)) →
  vm_ok kend k1 pgdir l1 ∧ (∀ i, 0 ≤ i < 1024 → pde_at (kram k1) pgdir i = pde_at (kram k) pgdir i) ∧
  (∀ w, 0 ≤ w < 1048576 → translate (kram k1) pgdir w = translate (kram k) pgdir w).
Proof.
  intros [Hm Hby [Hd Hdl] Ht Hinj] (Hf & Hfl & Hfd & Hft) Hm1 Hby1 Hsub Hsame.
  assert (∀ p i, page kend p → p ≠ f → 0 ≤ i < 1024 → word (kram k1) (p + 4 * i) = word (kram k) (p + 4 * i)) as Hw.
  { intros p i Hp Hne Hi. apply word_ext. intros j Hj. replace j with (p + (j - p)) by lia. apply Hsame; [done..|unfold PGSIZE; lia]. }
  assert (∀ i, 0 ≤ i < 1024 → pde_at (kram k1) pgdir i = pde_at (kram k) pgdir i) as E by (intros i Hi; by apply Hw).
  split_and!; [|done|].
  - split; try done.
    + split; [done|]. intros [->|?]%Hsub; done.
    + intros i Hi. rewrite E by done. intros Hp. destruct (Ht i Hi Hp) as (? & ? & ?). split_and!; try done.
      intros [Ef|?]%Hsub; [by apply (Hft i)|done].
    + intros i j Hi Hj. rewrite !E by done. by apply Hinj.
  - intros w Hwr. destruct (index_range w Hwr) as [Hwd Hwm]. unfold translate, pte_at. rewrite E by done.
    case_decide as Hp; [|done]. destruct (Ht _ Hwd Hp) as (Hpg & _ & _). rewrite Hw; [done|done|by apply Hft|done].
Qed.

Lemma kfree_frame k f k1 : kfree kend f k = Ok (tt, k1) → page kend f → bytes_ok (kram k) →
  bytes_ok (kram k1) ∧ ∀ p o, page kend p → p ≠ f → 0 ≤ o < PGSIZE → kram k1 !! (p + o) = kram k !! (p + o).
Proof.
  intros E Hf Hby. pose proof Hf as [Hf1 Hf2]. unfold kfree in E. set (ones := replicate (Z.to_nat PGSIZE) 1) in E.
  assert (Forall is_byte ones ∧ Z.of_nat (length ones) = PGSIZE) as [Ho1 Ho2].
  { split; [apply Forall_replicate; unfold is_byte; lia|unfold ones; by rewrite length_replicate]. }
  clearbody ones.
  rewrite Hf1, (proj2 (Z.ltb_ge _ _)), Z.geb_leb, (proj2 (Z.leb_gt _ _)) in E by lia. cbn [Z.eqb negb orb] in E. injection E as <-. cbn [kram].
  split.
  - apply bytes_ok_put; [|apply le_bytes_bytes]. by apply bytes_ok_put.
  - intros p o Hp Hne Ho. rewrite !(put_other_page _ f); try done; rewrite ?length_le_bytes, ?Ho2; unfold PGSIZE; lia.
Qed.

(** A page of the program goes back to the free list. *)
Lemma user_unmap k pgdir l D um v f : user_ok k pgdir l D um → D v → translate (kram k) pgdir v = Some (f, 7) →
  ∃ k1 k', kfree kend f k = Ok (tt, k1) ∧ writew (frame (pde_at (kram k) pgdir 0) + 4 * v) 0 k1 = Ok (tt, k') ∧
    user_ok k' pgdir (f :: l) (λ w, D w ∧ w ≠ v) um ∧ within k pgdir l D k' (f :: l) (λ w, D w ∧ w ≠ v).
Proof.
  intros I Hv Ef. pose proof I as [Hvm Ht Hr Hp Hinj Hnone]. pose proof (Hr v Hv) as Hvr.
  destruct (Hp v Hv) as (f' & Ef' & Hof & _). rewrite Ef in Ef'. injection Ef' as <-.
  destruct (kfree_run kend Hend k l f (vo_mem _ _ _ _ Hvm)) as (k1 & E & Hm1); [apply Hof..|].
  destruct (kfree_frame k f k1 E (proj1 Hof) (vo_bytes _ _ _ _ Hvm)) as [Hby1 Hs1].
  destruct (vm_ok_frame k k1 pgdir l (f :: l) f Hvm Hof Hm1 Hby1) as (Hvm1 & Hd1 & Htr1); [intros p ?%elem_of_cons; tauto|done|].
  destruct (user_pte k1 pgdir (f :: l) v 0 Hvm1) as (Hvm' & Hd' & Htr' & Hs'); [by rewrite Hd1|done|by split|].
  rewrite (Hd1 0) in * by lia. set (k' := with_bytes _ _ k1) in *. exists k1, k'. split; [done|]. split; [done|].
  assert (∀ i, 0 ≤ i < 1024 → pde_at (kram k') pgdir i = pde_at (kram k) pgdir i) as Hd2 by (intros i Hi; by rewrite Hd', Hd1).
  assert (∀ w, 0 ≤ w < 1048576 → translate (kram k') pgdir w = if decide (w = v) then None else translate (kram k) pgdir w) as Htr2.
  { intros w Hw. rewrite Htr', Htr1 by done. repeat case_decide; try done. }
  assert (∀ p o, page kend p → p ≠ f → p ≠ frame (pde_at (kram k) pgdir 0) → 0 ≤ o < PGSIZE → kram k' !! (p + o) = kram k !! (p + o)) as Hs2.
  { intros p o Hpp H1 H2 Ho. by rewrite Hs', Hs1. }
  assert (∀ w, D w ∧ w ≠ v → translate (kram k') pgdir w = translate (kram k) pgdir w) as HtD.
  { intros w [Hw Hne]. pose proof (Hr w Hw). rewrite Htr2 by lia. by apply decide_False. }
  split.
  - split; try done.
    + by rewrite Hd2.
    + intros w [Hw _]. by apply Hr.
    + intros w Hw. destruct (Hp w (proj1 Hw)) as (g & Eg & (Hg & Hgl & Hgd & Hgt) & Hbg). exists g. rewrite HtD by done.
      assert (g ≠ f) as Hgf by (intros ->; apply (proj2 Hw); eapply Hinj; try done; apply Hw).
      split_and!; [done| |].
      * split_and!; [done|rewrite elem_of_cons; tauto|done|]. intros i Hi. rewrite Hd2 by done. by apply Hgt.
      * intros o Ho. rewrite Hs2; [by apply Hbg|done|done| |done]. intros Eq. by apply (Hgt 0).
    + intros w1 w2 g H1 H2. rewrite !HtD by done. apply Hinj; tauto.
    + intros w Hw. destruct (decide (w = v)) as [->|Hne]; [right; by rewrite Htr2, decide_True by lia|].
      rewrite Htr2, decide_False by (done || lia). destruct (Hnone w Hw); [by left|by right].
  - split.
    + intros p. unfold mine. rewrite elem_of_cons. unfold uses. split.
      * intros [[->|?]|[?|[(i & Hi & Hpr & Efr)|(w & Hw & Ew)]]].
        -- right. right. right. by exists v.
        -- by left.
        -- right. by left.
        -- rewrite Hd2 in * by done. right. right. left. by exists i.
        -- rewrite HtD in Ew by done. right. right. right. exists w. tauto.
      * intros [?|[?|[(i & Hi & Hpr & Efr)|(w & Hw & Ew)]]].
        -- tauto.
        -- right. by left.
        -- right. right. left. exists i. by rewrite Hd2.
        -- destruct (decide (w = v)) as [->|Hne]; [left; left; congruence|]. right. right. right. exists w. by rewrite HtD.
    + intros p o Hpp Hm Ho. apply Hs2; try done; intros ->; apply Hm; right; right; [right; by exists v|left; by exists 0].
Qed.

Lemma deallocuvm_loop_ok cnt : ∀ fuel k pgdir l D um v oldsz, (cnt < fuel)%nat → user_ok k pgdir l D um → 0 ≤ v → oldsz ≤ USERTOP →
  pages oldsz = v + Z.of_nat cnt → ∃ k' l', deallocuvm_loop kend fuel pgdir (v * PGSIZE) oldsz k = Ok (tt, k') ∧
    user_ok k' pgdir l' (λ w, D w ∧ ¬ (v ≤ w < v + Z.of_nat cnt)) um ∧ within k pgdir l D k' l' (λ w, D w ∧ ¬ (v ≤ w < v + Z.of_nat cnt)).
Proof.
  induction cnt as [|cnt IH]; intros [|fuel] k pgdir l D um v oldsz Hfu I Hv Htop Hpg; try lia; cbn [deallocuvm_loop];
    pose proof (pages_bounds oldsz) as Hpb; unfold USERTOP in *.
  - unfold PGSIZE in *. rewrite (proj2 (Z.ltb_ge _ _)) by lia. exists k, l. split; [done|].
    assert (∀ w, D w ∧ ¬ (v ≤ w < v + Z.of_nat 0) ↔ D w) as E by (intros w; split; [tauto|split; [done|lia]]).
    split; [by eapply user_ext|]. eapply within_ext; [apply within_refl|done].
  - unfold PGSIZE in *. rewrite (proj2 (Z.ltb_lt _ _)) by lia. assert (v < 160) as Hv160 by lia.
    destruct (walk_user k pgdir l D um v false I ltac:(lia)) as [Ew Er]. step Ew.
    destruct (pte_user k pgdir l D um v I ltac:(lia)) as [Hu Etr].
    set (D1 := λ w, D w ∧ w ≠ v). assert (∀ w, D w ∧ ¬ (v ≤ w < v + Z.of_nat (S cnt)) ↔ D1 w ∧ ¬ (v + 1 ≤ w < v + 1 + Z.of_nat cnt)) as ED.
    { intros w. unfold D1. split; (intros [??]; split; [|lia] || split); try tauto; try lia. split; [done|lia]. }
    assert (∃ k1 l1, (e ← readw (frame (pde_at (kram k) pgdir 0) + 4 * v);
        when (has_flag e PTE_P) (if PTE_ADDR e =? 0 then panic "kfree" else kfree kend (PTE_ADDR e);; writew (frame (pde_at (kram k) pgdir 0) + 4 * v) 0)) k = Ok (tt, k1) ∧
      user_ok k1 pgdir l1 D1 um ∧ within k pgdir l D k1 l1 D1) as (k1 & l1 & E1 & I1 & W1).
    { step Er. rewrite has_P. case_bool_decide as Hp; [rewrite decide_True in Etr by done|rewrite decide_False in Etr by done]; cbn [when].
      - destruct (uo_none _ _ _ _ _ I v ltac:(lia)) as [HD|En]; [|congruence].
        destruct (uo_page _ _ _ _ _ I v HD) as (f & Ef & Hof & _). rewrite Etr in Ef. injection Ef as Ef E7.
        rewrite PTE_ADDR_frame, Ef by done. destruct Hof as ([_ ?] & _). rewrite (proj2 (Z.eqb_neq _ _)) by lia.
        destruct (user_unmap k pgdir l D um v f I HD) as (k1 & k2 & E1 & E2 & I2 & W2); [rewrite Etr; congruence|].
        exists k2, (f :: l). step E1. rewrite E2. done.
      - exists k, l. split; [done|]. assert (∀ w, D1 w ↔ D w) as E.
        { intros w. unfold D1. split; [tauto|]. intros Hw. split; [done|]. intros ->.
          destruct (uo_page _ _ _ _ _ I v Hw) as (f & Ef & _). congruence. }
        split; [by eapply user_ext|]. eapply within_ext; [apply within_refl|done]. }
    step E1. rewrite u32_small by (unfold is_u32; lia). replace (v * 4096 + 4096) with ((v + 1) * 4096) by lia.
    destruct (IH fuel k1 pgdir l1 D1 um (v + 1) oldsz) as (k' & l' & E & I' & W'); [lia|done|lia|done|lia|].
    exists k', l'. split; [done|]. split; [by eapply user_ext|]. eapply within_trans; [exact W1|]. by eapply within_ext.
Qed.

Lemma deallocuvm_ok k pgdir l D um oldsz newsz : user_ok k pgdir l D um → 0 ≤ newsz < oldsz → oldsz ≤ USERTOP →
  let D' := λ w, D w ∧ ¬ (pages newsz ≤ w < pages oldsz) in
  ∃ k' l', deallocuvm kend pgdir oldsz newsz k = Ok (newsz, k') ∧ user_ok k' pgdir l' D' um ∧ within k pgdir l D k' l' D'.
Proof.
  intros I Hn Htop D'. pose proof (pages_bounds oldsz). pose proof (pages_bounds newsz). pose proof (pages_mono newsz oldsz ltac:(lia)).
  unfold deallocuvm. rewrite Z.geb_leb, (proj2 (Z.leb_gt _ _)) by lia. rewrite PGROUNDUP_pages by lia.
  destruct (deallocuvm_loop_ok (Z.to_nat (pages oldsz - pages newsz)) (S (Z.to_nat (oldsz / PGSIZE) + 1)) k pgdir l D um (pages newsz) oldsz)
    as (k' & l' & E & I' & W'); [|done|lia|done|lia|].
  { unfold pages, PGSIZE in *. pose proof (Z.div_le_mono (oldsz + 4095) (oldsz + 1 * 4096) 4096). rewrite Z.div_add in * by done.
    pose proof (Z.div_pos (newsz + 4095) 4096). pose proof (Z.div_pos oldsz 4096). lia. }
  rewrite Z2Nat.id in * by lia. replace (pages newsz + (pages oldsz - pages newsz)) with (pages oldsz) in * by lia.
  exists k', l'. step E. done.
Qed.

(** Out of memory: the pages taken so far go back. *)
Lemma allocuvm_loop_fails l : ∀ fuel k pgdir n um oldsz newsz, (length l < fuel)%nat → user_ok k pgdir l (below n) um →
  0 ≤ oldsz < newsz → newsz ≤ USERTOP → pages oldsz ≤ n → (∀ a, n * PGSIZE ≤ a → um a = 0) → n + Z.of_nat (length l) < pages newsz →
  ∃ k' l', allocuvm_loop kend fuel pgdir (n * PGSIZE) oldsz newsz k = Ok (0, k') ∧
    user_ok k' pgdir l' (below (pages oldsz)) um ∧ within k pgdir l (below n) k' l' (below (pages oldsz)).
Proof.
  induction l as [|t l IH]; intros [|fuel] k pgdir n um oldsz newsz Hfu I Ho Htop Hn Hz Hlen; cbn [length] in *; try lia; cbn [allocuvm_loop];
    pose proof (pages_bounds newsz) as Hpb; pose proof (pages_bounds oldsz) as Hpo; unfold USERTOP in *; unfold PGSIZE at 1;
    rewrite (proj2 (Z.ltb_lt _ _)) by lia.
  - destruct (kalloc_run kend Hend k [] (vo_mem _ _ _ _ (uo_vm _ _ _ _ _ I))) as (k1 & E & Hm1 & Er). cbn [hd tl] in *. step E. cbn [Z.eqb].
    assert (k1 = k) as ->.
    { unfold kalloc, gets, mbind, M_bind in E. pose proof (ko_chain _ _ _ (vo_mem _ _ _ _ (uo_vm _ _ _ _ _ I))) as Hc. cbn in Hc. rewrite Hc in E. by injection E as <-. }
    destruct (deallocuvm_ok k pgdir [] (below n) um newsz oldsz I) as (k' & l' & E' & I' & W'); [lia|done|].
    assert (∀ w, below (pages oldsz) w ↔ below n w ∧ ¬ (pages oldsz ≤ w < pages newsz)) as ED by (unfold below; lia).
    exists k', l'. step E'. split; [done|]. split; [by eapply user_ext|by eapply within_ext].
  - destruct (fill_page k pgdir t l (below n) um n (replicate (Z.to_nat PGSIZE) 0) I) as (k1 & k2 & E1 & Ht & _ & E2 & I2 & W2).
    { lia. } { unfold below. lia. } { by rewrite length_replicate. } { apply Forall_replicate. unfold is_byte. lia. }
    { intros o Ho'. rewrite Hz by lia. by rewrite lookup_replicate_2 by lia. }
    step E1. rewrite (proj2 (Z.eqb_neq _ _)) by done.
    assert (clear_page t k1 = Ok (tt, with_bytes t (replicate (Z.to_nat PGSIZE) 0) k1)) as Ec by done. step Ec. step E2.
    rewrite u32_small by (unfold is_u32, PGSIZE; lia). replace (n * PGSIZE + PGSIZE) with ((n + 1) * PGSIZE) by lia.
    assert (∀ v, below (n + 1) v ↔ below n v ∨ v = n) as Eb by (unfold below; lia).
    destruct (IH fuel k2 pgdir (n + 1) um oldsz newsz) as (k' & l' & E & I' & W'); [lia|by eapply user_ext|done|done|lia| |lia|].
    { intros a Ha. apply Hz. unfold PGSIZE in *. lia. }
    exists k', l'. split; [done|]. split; [done|]. eapply within_trans; [|exact W']. by eapply within_ext.
Qed.

Lemma allocuvm_fails k pgdir l um oldsz newsz : user_ok k pgdir l (below (pages oldsz)) um → 0 ≤ oldsz < newsz → newsz ≤ USERTOP →
  Z.of_nat (length l) < pages newsz - pages oldsz →
  ∃ k' l', allocuvm kend pgdir oldsz newsz k = Ok (0, k') ∧ user_ok k' pgdir l' (below (pages oldsz)) um ∧
    within k pgdir l (below (pages oldsz)) k' l' (below (pages oldsz)).
Proof.
  intros I Ho Htop Hlen. pose proof (pages_bounds oldsz) as Hpo. pose proof (pages_bounds newsz) as Hpn.
  unfold allocuvm. rewrite Z.gtb_ltb, !(proj2 (Z.ltb_ge _ _)) by lia. rewrite PGROUNDUP_pages by lia.
  set (um' := λ a, if decide (a < pages oldsz * PGSIZE) then um a else 0).
  assert (∀ v o, below (pages oldsz) v → 0 ≤ o < PGSIZE → um (v * PGSIZE + o) = um' (v * PGSIZE + o)) as Eum.
  { intros v o Hv Ho'. unfold um'. rewrite decide_True; [done|]. unfold below, PGSIZE in *. lia. }
  destruct (allocuvm_loop_fails l (S (Z.to_nat (newsz / PGSIZE) + 1)) k pgdir (pages oldsz) um' oldsz newsz) as (k' & l' & E & I' & W').
  - unfold pages, PGSIZE in *. pose proof (Z.div_le_mono (newsz + 4095) (newsz + 1 * 4096) 4096). rewrite Z.div_add in * by done.
    pose proof (Z.div_pos (oldsz + 4095) 4096). pose proof (Z.div_pos newsz 4096). lia.
  - eapply user_ext; [done|done|]. intros v o Hv Ho'. by rewrite Eum.
  - done.
  - done.
  - lia.
  - intros a Ha. unfold um'. by rewrite decide_False by lia.
  - lia.
  - exists k', l'. split; [done|]. split; [by eapply user_ext|done].
Qed.

(** ** Freeing *)

Lemma free_tables_ok n : ∀ k pgdir l i, kmem_ok kend k l → bytes_ok (kram k) → page kend pgdir → pgdir ∉ l → 0 ≤ i → i + Z.of_nat n ≤ 1024 →
  (∀ j, i ≤ j < i + Z.of_nat n → present (pde_at (kram k) pgdir j) →
    page kend (frame (pde_at (kram k) pgdir j)) ∧ frame (pde_at (kram k) pgdir j) ≠ pgdir ∧ frame (pde_at (kram k) pgdir j) ∉ l) →
  (∀ j1 j2, i ≤ j1 < i + Z.of_nat n → i ≤ j2 < i + Z.of_nat n → present (pde_at (kram k) pgdir j1) → present (pde_at (kram k) pgdir j2) →
    frame (pde_at (kram k) pgdir j1) = frame (pde_at (kram k) pgdir j2) → j1 = j2) →
  ∃ k' l', free_tables kend n pgdir i k = Ok (tt, k') ∧ kmem_ok kend k' l' ∧ bytes_ok (kram k') ∧
    (∀ p, p ∈ l' ↔ p ∈ l ∨ ∃ j, i ≤ j < i + Z.of_nat n ∧ present (pde_at (kram k) pgdir j) ∧ frame (pde_at (kram k) pgdir j) = p) ∧
    ∀ p o, page kend p → p ∉ l' → 0 ≤ o < PGSIZE → kram k' !! (p + o) = kram k !! (p + o).
Proof.
  induction n as [|n IH]; intros k pgdir l i Hm Hby Hd Hdl Hi Hn Ht Hinj; cbn [free_tables].
  { exists k, l. split_and!; try done. intros p. split; [by left|]. intros [?|(j & Hj & _)]; [done|lia]. }
  assert (readw (pgdir + 4 * i) k = Ok (pde_at (kram k) pgdir i, k)) as Er by done. step Er. rewrite has_P.
  case_bool_decide as Hp; cbn [when].
  - destruct (Ht i ltac:(lia) Hp) as (Hf & Hne & Hnl). rewrite PTE_ADDR_frame by by apply word_range. set (f := frame _) in *.
    destruct (kfree_run kend Hend k l f Hm Hf Hnl) as (k1 & E & Hm1). destruct (kfree_frame k f k1 E Hf Hby) as [Hby1 Hs1]. step E.
    assert (∀ j, 0 ≤ j < 1024 → pde_at (kram k1) pgdir j = pde_at (kram k) pgdir j) as Hpde.
    { intros j Hj. apply word_ext. intros a Ha. replace a with (pgdir + (a - pgdir)) by lia. apply Hs1; [done|done|unfold PGSIZE; lia]. }
    destruct (IH k1 pgdir (f :: l) (i + 1) Hm1 Hby1 Hd) as (k' & l' & E' & Hm' & Hby' & Hl' & Hs'); [set_solver|lia|lia| | |].
    + intros j Hj. rewrite Hpde by lia. intros Hpj. destruct (Ht j ltac:(lia) Hpj) as (? & ? & ?). split_and!; try done.
      rewrite elem_of_cons. intros [Eq|?]; [|done]. assert (j = i) by (apply Hinj; (done || lia)). lia.
    + intros j1 j2 H1 H2. rewrite !Hpde by lia. apply Hinj; lia.
    + exists k', l'. split_and!; try done.
      * intros p. rewrite Hl', elem_of_cons. split.
        -- intros [[->|?]|(j & Hj & Hpj & Efj)]; [right; exists i; (split; [lia|done])|by left|].
           right. exists j. rewrite Hpde in * by lia. split; [lia|done].
        -- intros [?|(j & Hj & Hpj & Efj)]; [tauto|]. destruct (decide (j = i)) as [->|Hji]; [left; left; exact (eq_sym Efj)|].
           right. exists j. rewrite Hpde by lia. split; [lia|done].
      * intros p o Hpp Hpl Ho. rewrite Hs' by done. apply Hs1; [done| |done]. intros ->. apply Hpl, Hl'. left. by left.
  - rewrite bind_ret. destruct (IH k pgdir l (i + 1) Hm Hby Hd Hdl) as (k' & l' & E' & Hm' & Hby' & Hl' & Hs'); [lia|lia| | |].
    + intros j Hj. apply Ht. lia.
    + intros j1 j2 H1 H2. apply Hinj; lia.
    + exists k', l'. split_and!; try done. intros p. rewrite Hl'. split; (intros [?|(j & Hj & Hpj & Efj)]; [by left|]).
      * right. exists j. split; [lia|done].
      * right. exists j. split; [|done]. destruct (decide (j = i)) as [->|]; [done|lia].
Qed.

(** [freevm]: every page of the address space is free again, and no other. *)
Lemma freevm_ok k pgdir l D um : user_ok k pgdir l D um → ∃ k' l', freevm kend pgdir k = Ok (tt, k') ∧ kmem_ok kend k' l' ∧
  bytes_ok (kram k') ∧ (∀ p, p ∈ l' ↔ mine k pgdir l D p) ∧
  ∀ p o, page kend p → ¬ mine k pgdir l D p → 0 ≤ o < PGSIZE → kram k' !! (p + o) = kram k !! (p + o).
Proof.
  intros I. pose proof (vo_dir _ _ _ _ (uo_vm _ _ _ _ _ I)) as [Hd _]. unfold freevm. rewrite (proj2 (Z.eqb_neq pgdir 0)) by (destruct Hd; lia).
  destruct (deallocuvm_ok k pgdir l D um USERTOP 0 I) as (k1 & l1 & E1 & I1 & [Hmine1 Hoth1]); [done|done|]. step E1.
  assert (∀ w, ¬ (D w ∧ ¬ (pages 0 ≤ w < pages USERTOP))) as Hnone.
  { intros w [Hw Hn]. apply Hn. pose proof (uo_range _ _ _ _ _ I w Hw). change (pages 0) with 0. change (pages USERTOP) with 160. lia. }
  destruct I1 as [[Hm1 Hby1 [_ Hdl1] Ht1 Hinj1] _ _ _ _ _].
  destruct (free_tables_ok NPDENTRIES k1 pgdir l1 0 Hm1 Hby1 Hd Hdl1) as (k2 & l2 & E2 & Hm2 & Hby2 & Hl2 & Hs2);
    [lia|by unfold NPDENTRIES|intros j Hj; apply Ht1, Hj|intros j1 j2 Hj1 Hj2; apply Hinj1; [apply Hj1|apply Hj2]|]. step E2.
  assert (pgdir ∉ l2) as Hdl2.
  { rewrite Hl2. intros [?|(j & Hj & Hp & Ef)]; [done|]. by destruct (Ht1 j Hj Hp) as (_ & Hne & _). }
  destruct (kfree_run kend Hend k2 l2 pgdir Hm2 Hd Hdl2) as (k3 & E3 & Hm3). destruct (kfree_frame k2 pgdir k3 E3 Hd Hby2) as [Hby3 Hs3].
  assert (∀ p, p ∈ pgdir :: l2 ↔ mine k pgdir l D p) as Hmine.
  { intros p. rewrite <-Hmine1. unfold mine, uses. rewrite elem_of_cons, Hl2. split.
    - intros [?|[?|(j & Hj & ?)]]; [right; by left|by left|right; right; left; exists j; split; [|done]]. unfold NPDENTRIES in Hj. lia.
    - intros [?|[?|[(j & Hj & ?)|(w & Hw & _)]]]; [tauto|tauto| |by destruct (Hnone w)]. right. right. exists j. split; [|done]. unfold NPDENTRIES. lia. }
  exists k3, (pgdir :: l2). rewrite E3. split_and!; try done.
  intros p o Hp Hn Ho. rewrite <-Hmine in Hn. rewrite elem_of_cons in Hn. rewrite Hs3, Hs2, Hoth1; try tauto.
  rewrite <-Hmine. by rewrite elem_of_cons.
Qed.
End user.
