(* ===== verification/VmSetup.v ===== *)
(** New address spaces: [setupkvm] and what a program's memory holds after
    [copyuvm], [loaduvm] and [copyout]. *)

From S2P Require Import Prelude UnixFile Kalloc Vm VmProofs VmUser.

Section setup.
Context (kend data : Z) (Hend : 0 < kend).

(** ** The kernel's mappings *)

Definition nothing (v : Z) : Prop := False.

(** [walkpgdir] with [create] when a table can be had. *)
Lemma walk_create k pgdir l v : vm_ok kend k pgdir l → 0 ≤ v < 1048576 → present (pde_at (kram k) pgdir (v `div` 1024)) ∨ l ≠ [] →
  ∃ k' l', walkpgdir pgdir (v * 4096) true k =
      Ok (Some (frame (pde_at (kram k') pgdir (v `div` 1024)) + 4 * (v `mod` 1024)), k') ∧
    vm_ok kend k' pgdir l' ∧ present (pde_at (kram k') pgdir (v `div` 1024)) ∧
    (∀ w, 0 ≤ w < 1048576 → translate (kram k') pgdir w = translate (kram k) pgdir w) ∧
    within kend k pgdir l nothing k' l' nothing ∧
    Z.of_nat (length l) = Z.of_nat (length l') + (if decide (present (pde_at (kram k) pgdir (v `div` 1024))) then 0 else 1).
Proof.
  intros I Hv Hl. destruct (index_range v Hv) as [Hvd Hvm].
  assert (is_u32 (v * 4096)) as Hu by (unfold is_u32; lia).
  unfold walkpgdir. rewrite (PDX_div (v * 4096)), (PTX_div (v * 4096)), Z.div_mul by done.
  assert (readw (pgdir + 4 * (v `div` 1024)) k = Ok (pde_at (kram k) pgdir (v `div` 1024), k)) as Er by done.
  step Er. rewrite has_P. case_bool_decide as Hp.
  - exists k, l. rewrite PTE_ADDR_frame by (apply word_range, I). rewrite decide_True by done.
    split_and!; try done. lia.
  - destruct Hl as [|Hl]; [done|]. destruct l as [|t l]; [done|]. rewrite decide_False by done. cbn [negb].
    destruct (kalloc_run kend Hend k (t :: l) (vo_mem _ _ _ _ I)) as (k1 & E1 & Hm1 & Ek1). cbn [hd tl] in *. step E1.
    destruct (add_table kend Hend k k1 pgdir l t (v `div` 1024) I Ek1 Hm1 Hvd Hp) as (I' & Epde & Htr).
    pose proof (ko_pages _ _ _ (vo_mem _ _ _ _ I)) as Hpl. apply Forall_cons_1 in Hpl as [Ht _].
    destruct (vo_dir _ _ _ _ I) as [Hd Hdl]. apply not_elem_of_cons in Hdl as [Hne _].
    exists (with_table pgdir (v `div` 1024) t k1), l. destruct (frame_t7 kend t Ht) as [Ef Epr].
    assert (∀ j, 0 ≤ j < 1024 → pde_at (kram (with_table pgdir (v `div` 1024) t k1)) pgdir j =
      if decide (j = v `div` 1024) then t + 7 else pde_at (kram k) pgdir j) as Hpde.
    { intros j Hj. rewrite (with_table_pde kend) by done. unfold pde_at. by rewrite Ek1. }
    split_and!; [|done|by rewrite Epde|done| |cbn; lia].
    + rewrite Epde, Ef. pose proof Ht as [Ht1 Ht2]. rewrite (proj2 (Z.eqb_neq t 0)) by lia.
      assert (Z.lor (Z.lor (Z.lor (PADDR t) PTE_P) PTE_W) PTE_U = t + 7) as Elor.
      { unfold PADDR. rewrite u32_small by (unfold is_u32, PHYSTOP in *; lia).
        rewrite <-!Z.lor_assoc. change (Z.lor PTE_P (Z.lor PTE_W PTE_U)) with 7. apply lor_aligned; [done|lia]. }
      rewrite Elor. reflexivity.
    + split.
      * intros p. unfold mine, uses. rewrite elem_of_cons. split.
        -- intros [?|[?|[(j & Hj & Hpj & Efj)|(? & [] & _)]]]; [tauto|tauto|]. rewrite Hpde in * by done.
           case_decide; [left; left; congruence|]. right. right. left. by exists j.
        -- intros [[->|?]|[?|[(j & Hj & Hpj & Efj)|(? & [] & _)]]]; [|tauto|tauto|].
           ++ right. right. left. exists (v `div` 1024). rewrite Hpde, decide_True by done. split; [exact Hvd|by split].
           ++ right. right. left. exists j. destruct (decide (j = v `div` 1024)) as [->|Hji]; [by destruct (Hp Hpj)|].
              rewrite (Hpde j Hj), decide_False by exact Hji. split; [exact Hj|split; [exact Hpj|exact Efj]].
      * intros p o Hpp Hm Ho. unfold mine, uses in Hm. rewrite elem_of_cons in Hm. unfold with_table, with_bytes. cbn [kram].
        assert (pgdir ≠ p ∧ t ≠ p) as [Hpd Hpt] by (split; intros <-; apply Hm; tauto).
        rewrite (put_other_page kend _ pgdir p) by first [exact Hd|exact Hpp|exact Hpd|exact Ho|rewrite length_le_bytes; unfold PGSIZE; lia|lia].
        rewrite (put_other_page kend _ t p) by first [exact Ht|exact Hpp|exact Hpt|exact Ho|rewrite length_replicate; unfold PGSIZE; lia|lia].
        by rewrite Ek1.
Qed.

(** One entry is written. *)
Lemma entry_within k pgdir l v e : vm_ok kend k pgdir l → 0 ≤ v < 1048576 → present (pde_at (kram k) pgdir (v `div` 1024)) →
  let k' := with_bytes (frame (pde_at (kram k) pgdir (v `div` 1024)) + 4 * (v `mod` 1024)) (le_bytes 4 e) k in
  (∀ i, 0 ≤ i < 1024 → pde_at (kram k') pgdir i = pde_at (kram k) pgdir i) ∧ within kend k pgdir l nothing k' l nothing.
Proof.
  intros I Hv Hp k'. destruct (index_range v Hv) as [Hvd Hvm]. destruct (pte_spares kend k pgdir l v e I Hv Hp) as [Hpde _].
  split; [done|]. split.
  - intros p. unfold mine. by rewrite (uses_same k k' pgdir nothing p Hpde).
  - intros p o Hpp Hm Ho. unfold k', with_bytes. cbn [kram]. destruct (vo_tab _ _ _ _ I _ Hvd Hp) as (Hpg & _ & _).
    apply (put_other_page kend _ (frame (pde_at (kram k) pgdir (v `div` 1024)))); try done; rewrite ?length_le_bytes; unfold PGSIZE; try lia.
    intros <-. apply Hm. right. right. left. by exists (v `div` 1024).
Qed.

(** Mapping a range whose pages are not mapped, with enough free pages. *)
Lemma map_range n : ∀ fuel k l pgdir v u pa perm, (n < fuel)%nat → u = v + Z.of_nat n → vm_ok kend k pgdir l → 0 ≤ v → u < 1048576 →
  pa `mod` 4096 = 0 → 0 ≤ pa → pa + (u - v + 1) * 4096 ≤ 4294967296 → 0 ≤ perm < 4096 →
  (∀ w, v ≤ w ≤ u → translate (kram k) pgdir w = None) →
  (if decide (present (pde_at (kram k) pgdir (v `div` 1024))) then 0 else 1) + (u `div` 1024 - v `div` 1024) ≤ Z.of_nat (length l) →
  ∃ k' l', mappages_loop fuel pgdir (v * 4096) (u * 4096) pa perm k = Ok (0, k') ∧ vm_ok kend k' pgdir l' ∧
    maps_to (kram k) (kram k') pgdir v (u - v + 1) pa perm ∧ within kend k pgdir l nothing k' l' nothing ∧
    Z.of_nat (length l) ≤ Z.of_nat (length l') + (if decide (present (pde_at (kram k) pgdir (v `div` 1024))) then 0 else 1) +
      (u `div` 1024 - v `div` 1024).
Proof.
  induction n as [|n IH]; intros [|fuel] k l pgdir v u pa perm Hfu Hu I Hv Hvn Hpa H0 Hpa2 Hperm Hnone Hlen; try lia; cbn [mappages_loop].
  all: pose proof (Z.div_le_mono v u 1024 ltac:(lia) ltac:(lia)) as Hdm.
  all: destruct (walk_create k pgdir l v I ltac:(lia)) as (k1 & l1 & E & I1 & Hp & Htr & W1 & Hl1);
    [case_decide; [by left|right; intros ->; cbn in Hlen]; try lia|step E].
  all: destruct (map_page kend k1 pgdir l1 v pa perm I1 ltac:(lia) Hp Hpa H0 ltac:(lia) Hperm) as (Ef & I2 & Hm).
  all: destruct (entry_within k1 pgdir l1 v (Z.lor (Z.lor pa perm) PTE_P) I1 ltac:(lia) Hp) as [Hpde W2].
  all: set (o := frame _ + _) in *.
  all: assert (readw o k1 = Ok (word (kram k1) o, k1)) as Er by reflexivity; step Er; rewrite Ef, Htr, Hnone by lia; clear Ef.
  all: rewrite bool_decide_eq_false_2 by (intros Hn; by apply Hn).
  all: set (k2 := with_bytes o _ k1) in *.
  all: assert (writew o (Z.lor (Z.lor pa perm) PTE_P) k1 = Ok (tt, k2)) as Ew by reflexivity; step Ew.
  all: assert (maps_to (kram k) (kram k2) pgdir v 1 pa perm) as Hm' by (intros w Hw; rewrite (Hm w Hw), Htr by done; done).
  all: pose proof (within_trans kend _ _ _ _ _ _ _ _ _ _ W1 W2) as W.
  - rewrite (proj2 (Z.eqb_eq _ _)) by lia. exists k2, l1. split_and!; try done; [by replace (u - v + 1) with 1 by lia|lia].
  - rewrite (proj2 (Z.eqb_neq _ _)) by lia. unfold PGSIZE. rewrite !u32_small by (unfold is_u32; lia).
    replace (v * 4096 + 4096) with ((v + 1) * 4096) by lia.
    assert ((pa + 4096) `mod` 4096 = 0) as Hpa' by (rewrite <-Z.add_mod_idemp_l, Hpa by lia; done).
    assert ((v + 1) `div` 1024 = v `div` 1024 ∨ (v + 1) `div` 1024 = v `div` 1024 + 1) as Hnext.
    { pose proof (Z.div_mod v 1024). pose proof (Z.mod_pos_bound v 1024). pose proof (Z.div_mod (v + 1) 1024). pose proof (Z.mod_pos_bound (v + 1) 1024). lia. }
    assert ((v + 1) `div` 1024 = v `div` 1024 → present (pde_at (kram k2) pgdir ((v + 1) `div` 1024))) as Hsame.
    { intros ->. rewrite Hpde; [done|apply index_range; lia]. }
    destruct (IH fuel k2 l1 pgdir (v + 1) u (pa + 4096) perm) as (k' & l' & E' & I' & Hm2 & W' & Hl');
      [lia|lia|done|lia|lia|done|lia|lia|done| | |].
    + intros w Hw. rewrite (Hm' w) by lia. rewrite decide_False by lia. apply Hnone. lia.
    + set (absent := if decide (present (pde_at (kram k) _ _)) then 0 else 1) in *. clearbody absent.
      destruct Hnext as [Hx|Hx]; [rewrite decide_True by auto; lia|case_decide; lia].
    + exists k', l'. split_and!; try done.
      * replace (u - v + 1) with (u - (v + 1) + 1 + 1) by lia. eapply maps_to_cons; [lia|done..].
      * by eapply within_trans.
      * set (absent := if decide (present (pde_at (kram k) _ _)) then 0 else 1) in *. clearbody absent.
        destruct Hnext as [Hx|Hx]; [rewrite (decide_True (P := present (pde_at (kram k2) _ _))) in Hl' by auto; lia|].
        revert Hl'. case_decide; lia.
Qed.

(** A range of pages mapped to itself. *)
Lemma map_self k l pgdir v u perm : vm_ok kend k pgdir l → 1 ≤ v ≤ u → u < 1048576 → 0 ≤ perm < 4096 →
  (∀ w, v ≤ w ≤ u → translate (kram k) pgdir w = None) → u `div` 1024 - v `div` 1024 + 1 ≤ Z.of_nat (length l) →
  ∃ k' l', mappages pgdir (v * 4096) (u32 ((u + 1) * 4096 - v * 4096)) (v * 4096) perm k = Ok (0, k') ∧ vm_ok kend k' pgdir l' ∧
    maps_to (kram k) (kram k') pgdir v (u - v + 1) (v * 4096) perm ∧ within kend k pgdir l nothing k' l' nothing ∧
    Z.of_nat (length l) ≤ Z.of_nat (length l') + (u `div` 1024 - v `div` 1024 + 1).
Proof.
  intros I Hv Hu Hperm Hnone Hlen.
  destruct (map_range (Z.to_nat (u - v)) MAP_FUEL k l pgdir v u (v * 4096) perm) as (k' & l' & E & I' & Hm & W & Hl');
    try done; try lia; [unfold MAP_FUEL; lia|by apply Z.mod_mul|case_decide; lia|].
  exists k', l'. split; [|split; [exact I'|split; [exact Hm|split; [exact W|revert Hl'; case_decide; lia]]]].
  rewrite <-E. unfold mappages. rewrite u32_small by (unfold is_u32; lia).
  rewrite !PGROUNDDOWN_frame by (unfold is_u32; lia). unfold frame. rewrite Z.div_mul by done.
  replace (v * 4096 + ((u + 1) * 4096 - v * 4096) - 1) with (4095 + u * 4096) by lia. rewrite Z.div_add by done. reflexivity.
Qed.

Context (Hdata : data `mod` 4096 = 0 ∧ 0x100000 < data < PHYSTOP).

Lemma setupkvm_ok k l um : kmem_ok kend k l → bytes_ok (kram k) → (18 ≤ length l)%nat →
  ∃ pgdir k' l', setupkvm data k = Ok (pgdir, k') ∧ pgdir ≠ 0 ∧ user_ok kend k' pgdir l' nothing um ∧
    (∀ p, mine k' pgdir l' nothing p ↔ p ∈ l) ∧ Z.of_nat (length l) ≤ Z.of_nat (length l') + 18 ∧
    ∀ p o, page kend p → p ∉ l → 0 ≤ o < PGSIZE → kram k' !! (p + o) = kram k !! (p + o).
Proof.
  intros Hm Hby Hlen. destruct l as [|t l]; [cbn in Hlen; lia|]. cbn [length] in Hlen.
  destruct (kalloc_run kend Hend k (t :: l) Hm) as (k1 & E1 & Hm1 & Er). cbn [hd tl] in *.
  pose proof Hm as [_ Hnd Hpg]. apply NoDup_cons_1_1 in Hnd. apply Forall_cons_1 in Hpg as [Ht _]. pose proof Ht as [_ Htr].
  unfold setupkvm. step E1. rewrite (proj2 (Z.eqb_neq t 0)) by lia. 
  assert (∃ k2, clear_page t k1 = Ok (tt, k2) ∧ kmem_ok kend k2 l ∧ bytes_ok (kram k2) ∧ (∀ i, 0 ≤ i < 1024 → pde_at (kram k2) t i = 0) ∧
    ∀ p o, page kend p → p ≠ t → 0 ≤ o < PGSIZE → kram k2 !! (p + o) = kram k !! (p + o)) as (k2 & Ec & Hm2 & Hby2 & Hpde & Hs2).
  { exists (with_bytes t (replicate (Z.to_nat PGSIZE) 0) k1). split; [reflexivity|]. split; [|split; [|split]].
    - apply (kmem_ok_store kend _ _ t); try assumption; try rewrite length_replicate; unfold PGSIZE; lia.
    - apply bytes_ok_put; [by rewrite Er|]. apply Forall_replicate. unfold is_byte. lia.
    - intros i Hi. apply word_cleared; lia.
    - intros p o Hp Hne Ho. cbn [kram with_bytes]. rewrite (put_other_page kend _ t p); [by rewrite Er|exact Ht|exact Hp|congruence|lia| |exact Ho].
      rewrite length_replicate. unfold PGSIZE. lia. }
  step Ec.
  assert (∀ i, 0 ≤ i < 1024 → ¬ present (pde_at (kram k2) t i)) as Habs by (intros i Hi; by rewrite Hpde).
  assert (vm_ok kend k2 t l) as I2.
  { split; [exact Hm2|exact Hby2|by split| |].
    - intros i Hi Hp. by destruct (Habs i Hi).
    - intros i j Hi Hj Hp. by destruct (Habs i Hi). }
  assert (∀ w, 0 ≤ w < 1048576 → translate (kram k2) t w = None) as Hnone.
  { intros w Hw. apply translate_absent. apply Habs. by apply index_range. }
  assert (∀ p, mine k2 t l nothing p ↔ p ∈ t :: l) as Hmine.
  { intros p. unfold mine, uses. rewrite elem_of_cons. split; [|tauto]. intros [?|[?|[(i & Hi & Hp & _)|(w & [] & _)]]]; [tauto|tauto|by destruct (Habs i Hi)]. }
  set (d := data `div` 4096). destruct Hdata as [Hd0 Hdr]. assert (data = d * 4096) as Hd by (unfold d; pose proof (Z.div_mod data 4096); lia).
  assert (257 ≤ d ≤ 4095) as Hdb by (unfold PHYSTOP in *; lia). assert (0 ≤ (d - 1) `div` 1024 ≤ 3 ∧ 0 ≤ d `div` 1024 ≤ 3) as Hdt.
  { pose proof (Z.div_mod d 1024). pose proof (Z.mod_pos_bound d 1024). pose proof (Z.div_mod (d - 1) 1024). pose proof (Z.mod_pos_bound (d - 1) 1024). lia. }
  assert (160 `div` 1024 = 0 ∧ 255 `div` 1024 = 0 ∧ 256 `div` 1024 = 0 ∧ 4095 `div` 1024 = 3 ∧ 1040384 `div` 1024 = 1016 ∧ 1048575 `div` 1024 = 1023) as Hq by done.
  destruct (map_self k2 l t 160 255 PTE_W I2) as (k3 & l3 & E3 & I3 & M3 & W3 & L3); [lia|lia|done|intros w Hw; apply Hnone; lia|lia|].
  destruct (map_self k3 l3 t 256 (d - 1) 0 I3) as (k4 & l4 & E4 & I4 & M4 & W4 & L4); [lia|lia|done| |lia|].
  { intros w Hw. rewrite (M3 w), decide_False by lia. apply Hnone. lia. }
  destruct (map_self k4 l4 t d 4095 PTE_W I4) as (k5 & l5 & E5 & I5 & M5 & W5 & L5); [lia|lia|done| |lia|].
  { intros w Hw. rewrite (M4 w), decide_False, (M3 w), decide_False by lia. apply Hnone. lia. }
  destruct (map_self k5 l5 t 1040384 1048575 PTE_W I5) as (k6 & l6 & E6 & I6 & M6 & W6 & L6); [lia|lia|done| |lia|].
  { intros w Hw. rewrite (M5 w), decide_False, (M4 w), decide_False, (M3 w), decide_False by lia. apply Hnone. lia. }
  assert (∀ w, 0 ≤ w < 160 → translate (kram k6) t w = None) as Hn6.
  { intros w Hw. rewrite (M6 w), decide_False, (M5 w), decide_False, (M4 w), decide_False, (M3 w), decide_False by lia. apply Hnone. lia. }
  assert (within kend k2 t l nothing k6 l6 nothing) as [Wm Wo] by (repeat (eapply within_trans; [eassumption|]); apply within_refl).
  exists t, k6, l6. split; [|split; [lia|split; [|split; [|split]]]].
  - unfold map_all, kmap. change USERTOP with (160 * 4096). change 0x100000 with (256 * 4096).
    replace (u32 (256 * 4096 - 160 * 4096)) with (u32 ((255 + 1) * 4096 - 160 * 4096)) by reflexivity. step E3. cbn [Z.ltb Z.compare].
    rewrite Hd. replace (u32 (d * 4096 - 256 * 4096)) with (u32 ((d - 1 + 1) * 4096 - 256 * 4096)) by (f_equal; lia). step E4. cbn [Z.ltb Z.compare].
    change PHYSTOP with ((4095 + 1) * 4096). step E5. cbn [Z.ltb Z.compare].
    change 0xFE000000 with (1040384 * 4096). replace (u32 (0 - 1040384 * 4096)) with (u32 ((1048575 + 1) * 4096 - 1040384 * 4096)) by reflexivity. step E6. reflexivity.
  - split; try done.
    + assert (translate (kram k6) t 160 ≠ None) as H160.
      { rewrite (M6 160), decide_False, (M5 160), decide_False, (M4 160), decide_False, (M3 160), decide_True by lia. done. }
      unfold translate in H160. change (160 `div` 1024) with 0 in H160. destruct (decide (present (pde_at (kram k6) t 0))); done.
    + intros w Hw. right. by apply Hn6.
  - intros p. rewrite Wm. apply Hmine.
  - cbn [length]. lia.
  - intros p o Hp Hpl Ho. rewrite Wo; [|done|by rewrite Hmine|done]. apply Hs2; [done| |done]. intros ->. apply Hpl. by left.
Qed.
End setup.

(** ** Right after boot *)

Lemma kfree_bytes kend v k k' : kfree kend v k = Ok (tt, k') → bytes_ok (kram k) → bytes_ok (kram k').
Proof.
  intros E Hby. unfold kfree in E. set (ones := replicate (Z.to_nat PGSIZE) 1) in E.
  assert (Forall is_byte ones) as Ho by (apply Forall_replicate; unfold is_byte; lia). clearbody ones.
  destruct (_ || _); [done|]. injection E as <-. cbn [kram freelist]. apply bytes_ok_put; [|apply le_bytes_bytes]. by apply bytes_ok_put.
Qed.
Lemma kinit_loop_bytes kend fuel : ∀ p k k', kinit_loop kend fuel p k = Ok (tt, k') → bytes_ok (kram k) → bytes_ok (kram k').
Proof.
  induction fuel as [|fuel IH]; intros p k k' E Hby; cbn [kinit_loop] in E; [done|]. destruct (_ <=? _); [|by injection E as <-].
  minv E. destruct r. eapply IH; [exact E|]. by eapply kfree_bytes.
Qed.

(** All memory above the kernel is free. *)
Lemma boot_memory kend : 0 < kend < PHYSTOP →
  ∃ k, kinit kend (mkKmem 0 ∅) = Ok (tt, k) ∧ kmem_ok kend k (reverse (all_pages kend)) ∧ bytes_ok (kram k).
Proof.
  intros Hk. destruct (kinit_run kend ltac:(lia) (mkKmem 0 ∅) ltac:(lia) eq_refl) as (k & E & Hok). exists k. split; [done|]. split; [done|].
  apply (kinit_loop_bytes _ _ _ _ _ E). intros a. cbn [kram]. rewrite lookup_empty. cbn. unfold is_byte. lia.
Qed.

(** One hundred pages, and an address space that has no memory yet. *)
Definition demo_end : Z := 0xF9C000.
Definition demo_data : Z := 0x110000.
Lemma demo_data_ok : demo_data `mod` 4096 = 0 ∧ 0x100000 < demo_data < PHYSTOP.
Proof. by vm_compute. Qed.
Lemma boot_setup : ∃ k0 k d l, kinit demo_end (mkKmem 0 ∅) = Ok (tt, k0) ∧ setupkvm demo_data k0 = Ok (d, k) ∧
  user_ok demo_end k d l nothing (λ _, 0) ∧ 82 ≤ Z.of_nat (length l) ≤ 100.
Proof.
  destruct (boot_memory demo_end) as (k0 & E0 & Hm & Hb); [by split|].
  assert (length (reverse (all_pages demo_end)) = 100%nat) as Hl by (vm_compute; reflexivity).
  set (l0 := reverse (all_pages demo_end)) in *. clearbody l0.
  destruct (setupkvm_ok demo_end demo_data eq_refl demo_data_ok k0 l0 (λ _, 0) Hm Hb) as (d & k & l & E & _ & I & Hmine & Hlen & _); [lia|].
  assert (l ⊆+ l0) as Hs%submseteq_length.
  { apply NoDup_submseteq; [apply (ko_nodup _ _ _ (vo_mem _ _ _ _ (uo_vm _ _ _ _ _ _ I)))|]. intros p Hp. apply Hmine. by left. }
  exists k0, k, d, l. split; [exact E0|]. split; [exact E|]. split; [exact I|]. lia.
Qed.
