(* ===== verification/VmCopy.v ===== *)
(** Bytes go into a program's memory: [copyout], [loaduvm], and the copy that
    [fork] makes. *)

From S2P Require Import Prelude UnixFile Kalloc Vm VmProofs VmUser VmSetup.

Section copy.
Context (kend data : Z) (Hend : 0 < kend).

(** ** Writing to user memory *)

Lemma write_app um a b1 b2 x : write (write um a b1) (a + Z.of_nat (length b1)) b2 x = write um a (b1 ++ b2) x.
Proof.
  unfold write. rewrite length_app. repeat case_decide; try lia; try done.
  - rewrite lookup_app_r by lia. do 2 f_equal. lia.
  - by rewrite lookup_app_l by lia.
Qed.
Lemma write_nil um a x : write um a [] x = um x.
Proof. unfold write. cbn. by rewrite decide_False by lia. Qed.

Lemma flag_U e : e `mod` 4096 = 7 → has_flag e PTE_U = true.
Proof.
  intros H. unfold has_flag, PTE_U. replace (Z.land e 4) with (Z.land (e `mod` 4096) 4); [by rewrite H|].
  change 4096 with (2 ^ 12). rewrite <-Z.land_ones, <-Z.land_assoc by lia. done.
Qed.

Lemma uva2ka_user k pgdir l D um v : user_ok kend k pgdir l D um → D v → ∃ f, uva2ka pgdir (v * 4096) k = Ok (f, k) ∧
  translate (kram k) pgdir v = Some (f, 7) ∧ f ≠ 0.
Proof.
  intros I Hv. pose proof (uo_range _ _ _ _ _ _ I v Hv) as Hvr. destruct (uo_page _ _ _ _ _ _ I v Hv) as (f & Ef & ([_ ?] & _) & _).
  destruct (walk_user kend k pgdir l D um v false I ltac:(lia)) as [Ew Er]. destruct (pte_user kend k pgdir l D um v I ltac:(lia)) as [Hu Etr].
  exists f. split; [|split; [done|lia]]. rewrite Ef in Etr. case_decide as Hp; [|done]. injection Etr as Ef' E7.
  unfold uva2ka. step Ew. cbn [need]. rewrite bind_ret. step Er. rewrite has_P, bool_decide_eq_true_2 by done. rewrite flag_U by done. cbn [negb].
  by rewrite PTE_ADDR_frame, Ef'.
Qed.

(** The pages that the bytes from [a] on lie in. *)
Definition covers (D : Z → Prop) (a n : Z) : Prop := ∀ x, a ≤ x < a + n → D (x `div` 4096).

Lemma copyout_loop_ok fuel : ∀ k pgdir l D um va buf, (length buf < fuel)%nat → user_ok kend k pgdir l D um → 0 ≤ va →
  covers D va (Z.of_nat (length buf)) → Forall is_byte buf →
  ∃ k', copyout_loop fuel pgdir va buf k = Ok (0, k') ∧ user_ok kend k' pgdir l D (write um va buf) ∧ within kend k pgdir l D k' l D.
Proof.
  induction fuel as [|fuel IH]; intros k pgdir l D um va buf Hfu I Hva Hc Hb; [lia|]. cbn [copyout_loop].
  destruct buf as [|b buf]; [|set (bs := b :: buf) in *].
  { exists k. split; [done|]. split; [|apply within_refl]. eapply user_ext; [done|done|]. intros. apply write_nil. }
  assert (0 < Z.of_nat (length bs)) as Hpos by (cbn; lia). pose proof (Hc va ltac:(lia)) as HD.
  pose proof (uo_range _ _ _ _ _ _ I _ HD) as Hvr. pose proof (Z.div_mod va 4096 ltac:(done)) as Hdm. pose proof (Z.mod_pos_bound va 4096 eq_refl) as Hmb.
  rewrite PGROUNDDOWN_frame by (unfold is_u32; lia). unfold frame.
  destruct (uva2ka_user k pgdir l D um (va `div` 4096) I HD) as (f & Eu & Ef & Hnz). step Eu. rewrite (proj2 (Z.eqb_neq _ _)) by done.
  replace (va - va `div` 4096 * 4096) with (va `mod` 4096) by lia. set (n := Z.min (PGSIZE - va `mod` 4096) (Z.of_nat (length bs))).
  assert (0 < n ≤ Z.of_nat (length bs) ∧ va `mod` 4096 + n ≤ PGSIZE) as [Hn Hnp] by (unfold n, PGSIZE; lia).
  set (ch := take (Z.to_nat n) bs). assert (Z.of_nat (length ch) = n) as Hch by (unfold ch; rewrite length_take; lia).
  assert (Forall is_byte ch) as Hbc by by apply Forall_take.
  assert (store (f + va `mod` 4096) ch k = Ok (tt, with_bytes (f + va `mod` 4096) ch k)) as Es by reflexivity. step Es.
  destruct (user_store kend k pgdir l D um (va `div` 4096) f (va `mod` 4096) ch I HD Ef) as [I1 _]; [lia|lia|done|].
  pose proof (store_within kend k pgdir l D um (va `div` 4096) f (va `mod` 4096) ch I HD Ef ltac:(lia) ltac:(lia) Hbc) as W1.
  set (k1 := with_bytes _ _ k) in *. unfold PGSIZE in I1. replace (va `div` 4096 * 4096 + va `mod` 4096) with va in I1 by lia.
  set (rest := drop (Z.to_nat n) bs). assert (Z.of_nat (length rest) = Z.of_nat (length bs) - n) as Hrest by (unfold rest; rewrite length_drop; lia).
  destruct (decide (rest = [])) as [Er|Hne].
  { rewrite Er. destruct fuel as [|fuel]; [unfold bs in Hfu; cbn in Hfu; lia|]. cbn [copyout_loop]. exists k1. split; [done|]. split; [|done].
    eapply user_ext; [done|done|]. intros. rewrite <-(take_drop (Z.to_nat n) bs). fold ch rest. by rewrite Er, app_nil_r. }
  assert (0 < Z.of_nat (length rest)) as Hrp by (destruct rest; [done|cbn; lia]).
  assert (va `div` 4096 * 4096 + 4096 = va + n) as Enext by (unfold n, PGSIZE in *; lia).
  rewrite u32_small by (unfold is_u32, PGSIZE; lia). unfold PGSIZE. rewrite Enext.
  destruct (IH k1 pgdir l D (write um va ch) (va + n) rest) as (k' & E & I' & W'); [unfold bs in *; cbn [length] in *; lia|done|lia| |by apply Forall_drop|].
  { intros x Hx. apply Hc. lia. }
  exists k'. split; [done|]. split; [|by eapply within_trans]. eapply user_ext; [done|done|]. intros.
  rewrite <-Hch, write_app. unfold ch, rest. by rewrite take_drop.
Qed.

Lemma copyout_ok k pgdir l D um va buf : user_ok kend k pgdir l D um → 0 ≤ va → covers D va (Z.of_nat (length buf)) → Forall is_byte buf →
  ∃ k', copyout pgdir va buf k = Ok (0, k') ∧ user_ok kend k' pgdir l D (write um va buf) ∧ within kend k pgdir l D k' l D.
Proof. intros. apply copyout_loop_ok; (done || lia). Qed.

(** ** Loading a program *)

Section load.
Context {R : Type} (readi : Z → Z → M R (Z * list Z)) (r : R) (c : list Z).

(** Reading inside the file gives its bytes. *)
Definition reads : Prop := ∀ off n, 0 ≤ off → 0 ≤ n → off + n ≤ Z.of_nat (length c) →
  readi off n r = Ok ((n, take (Z.to_nat n) (drop (Z.to_nat off) c)), r).
Context (Hreads : reads) (Hbytes : Forall is_byte c) (Hsmall : Z.of_nat (length c) < 2147483648).

Definition part (off n : Z) : list Z := take (Z.to_nat n) (drop (Z.to_nat off) c).
Lemma length_part off n : 0 ≤ off → 0 ≤ n → off + n ≤ Z.of_nat (length c) → Z.of_nat (length (part off n)) = n.
Proof. intros. unfold part. rewrite length_take, length_drop. lia. Qed.
Lemma part_join off i n : 0 ≤ off → 0 ≤ i → 0 ≤ n → part off i ++ part (off + i) n = part off (i + n).
Proof. intros. unfold part. rewrite !Z2Nat.inj_add, <-drop_drop by lia. by rewrite take_take_drop. Qed.

Lemma loaduvm_loop_ok fuel : ∀ k pgdir l D um addr i offset sz, (0 < fuel)%nat → (i < sz → (sz - i) `div` 4096 + 1 < Z.of_nat fuel) →
  user_ok kend k pgdir l D (write um addr (part offset (Z.min i sz))) → addr `mod` 4096 = 0 → 0 ≤ addr → i `mod` 4096 = 0 → 0 ≤ i → covers D addr sz →
  0 ≤ offset → 0 ≤ sz → offset + sz ≤ Z.of_nat (length c) →
  ∃ k', loaduvm_loop readi fuel pgdir addr i offset sz (r, k) = Ok (0, (r, k')) ∧
    user_ok kend k' pgdir l D (write um addr (part offset sz)) ∧ within kend k pgdir l D k' l D.
Proof.
  induction fuel as [|fuel IH]; intros k pgdir l D um addr i offset sz Hf0 Hf I Ha Ha0 Hi Hi0 Hc Ho Hs Hoc; [lia|]. cbn [loaduvm_loop].
  destruct (Z.ltb_spec i sz) as [Hlt|Hge]; [|rewrite Z.min_r in I by lia; exists k; split; [done|split; [done|apply within_refl]]].
  specialize (Hf Hlt). rewrite Z.min_l in I by lia. pose proof (Hc (addr + i) ltac:(lia)) as HD. pose proof (uo_range _ _ _ _ _ _ I _ HD) as Hvr.
  assert ((addr + i) `mod` 4096 = 0) as Hm by (rewrite Z.add_mod, Ha, Hi by done; done).
  pose proof (Z.div_mod (addr + i) 4096 ltac:(done)) as Hdm. rewrite (u32_small (addr + i)) by (unfold is_u32; lia).
  set (v := (addr + i) `div` 4096) in *. assert (addr + i = v * 4096) as Ev by lia. rewrite Ev.
  destruct (walk_user kend k pgdir l D _ v false I ltac:(lia)) as [Ew Er]. step (on_snd_Ok _ r _ _ _ Ew). step (on_snd_Ok _ r _ _ _ Er).
  destruct (uo_page _ _ _ _ _ _ I v HD) as (f & Ef & ([? ?] & _) & _). destruct (pte_user kend k pgdir l D _ v I ltac:(lia)) as [Hu Etr].
  rewrite Ef in Etr. case_decide as Hp; [|done]. injection Etr as Ef' E7. rewrite PTE_ADDR_frame, <-Ef' by done.
  set (n := if sz - i <? PGSIZE then sz - i else PGSIZE). assert (n = Z.min (sz - i) 4096) as En.
  { unfold n, PGSIZE. destruct (Z.ltb_spec (sz - i) 4096); lia. }
  cbv zeta. rewrite (u32_small (offset + i)) by (unfold is_u32; lia). step (on_fst_Ok _ _ k _ _ (Hreads (offset + i) n ltac:(lia) ltac:(lia) ltac:(lia))).
  fold (part (offset + i) n). pose proof (length_part (offset + i) n ltac:(lia) ltac:(lia) ltac:(lia)) as Hlp.
  assert (Forall is_byte (part (offset + i) n)) as Hbp by (apply Forall_take, Forall_drop, Hbytes).
  assert (store f (part (offset + i) n) k = Ok (tt, with_bytes f (part (offset + i) n) k)) as Es by reflexivity. step (on_snd_Ok _ r _ _ _ Es).
  rewrite Z.eqb_refl. cbn [negb].
  destruct (user_store kend k pgdir l D _ v f 0 (part (offset + i) n) I HD Ef) as [I1 _]; [done|unfold PGSIZE; lia|done|].
  pose proof (store_within kend k pgdir l D _ v f 0 (part (offset + i) n) I HD Ef ltac:(done) ltac:(unfold PGSIZE; lia) Hbp) as W1.
  rewrite Z.add_0_r in *. set (k1 := with_bytes _ _ k) in *. unfold PGSIZE in I1.
  destruct (IH k1 pgdir l D um addr (i + 4096) offset sz) as (k' & E & I' & W'); try done; try lia.
  - pose proof (Z.div_pos (sz - i) 4096). lia.
  - intros Hlt'. replace (sz - i) with (sz - (i + 4096) + 1 * 4096) in Hf by lia. rewrite Z.div_add in Hf by done. lia.
  - eapply user_ext; [exact I1|done|]. intros v' o _ _. rewrite Z.add_0_r, <-Ev.
    pose proof (write_app um addr (part offset i) (part (offset + i) n) (v' * PGSIZE + o)) as Hwa.
    rewrite length_part in Hwa by lia. rewrite Hwa, part_join by lia. f_equal. f_equal. lia.
  - by rewrite Z.add_mod, Hi.
  - exists k'. unfold PGSIZE. rewrite u32_small by (unfold is_u32; lia). split; [done|]. split; [done|by eapply within_trans].
Qed.

Lemma loaduvm_ok k pgdir l D um addr offset sz : user_ok kend k pgdir l D um → addr `mod` 4096 = 0 → is_u32 addr → covers D addr sz →
  0 ≤ offset → 0 ≤ sz → offset + sz ≤ Z.of_nat (length c) →
  ∃ k', loaduvm readi pgdir addr offset sz (r, k) = Ok (0, (r, k')) ∧
    user_ok kend k' pgdir l D (write um addr (part offset sz)) ∧ within kend k pgdir l D k' l D.
Proof.
  intros I Ha Hu Hc Ho Hs Hoc. unfold loaduvm. unfold PGSIZE. rewrite u32_small, Ha by done. cbn [Z.eqb negb].
  apply loaduvm_loop_ok; try done; try apply Hu; try lia.
  - intros _. pose proof (Z.div_pos sz 4096). rewrite Z.sub_0_r. lia.
  - rewrite Z.min_l by lia. eapply user_ext; [done|done|]. intros. apply write_nil.
Qed.
End load.

(** ** [fork]'s copy *)

Lemma uses_page k pgdir l D um p : user_ok kend k pgdir l D um → uses k pgdir D p → page kend p ∧ p ∉ l.
Proof.
  intros I [->|[(i & Hi & Hp & <-)|(v & Hv & E)]].
  - apply (vo_dir _ _ _ _ (uo_vm _ _ _ _ _ _ I)).
  - destruct (vo_tab _ _ _ _ (uo_vm _ _ _ _ _ _ I) i Hi Hp) as (? & _ & ?). done.
  - destruct (uo_page _ _ _ _ _ _ I v Hv) as (f & Ef & (? & ? & _) & _). rewrite E in Ef. injection Ef as <-. done.
Qed.

(** Two address spaces with no page in common. *)
Definition apart (k : kmem_t) (pg d : Z) (D D' : Z → Prop) : Prop := ∀ p, uses k pg D p → ¬ uses k d D' p.

(** What is done to one of them leaves the other alone. *)
Lemma other_keeps k k' pg d l l' D D1 D2 um um' : user_ok kend k pg l D um → user_ok kend k' d l' D2 um' →
  within kend k d l D1 k' l' D2 → apart k pg d D D1 → user_ok kend k' pg l' D um ∧ apart k' pg d D D2 ∧ ∀ p, uses k' pg D p ↔ uses k pg D p.
Proof.
  intros I I' [Hm Ho] Hap. assert (∀ p, uses k pg D p → ¬ mine k d l D1 p) as Hnm.
  { intros p Hu [?|?]; [|by apply (Hap p)]. by destruct (uses_page _ _ _ _ _ _ I Hu). }
  destruct (user_other kend k k' pg l l' D um I) as [I2 Hu2].
  - apply (vo_mem _ _ _ _ (uo_vm _ _ _ _ _ _ I')).
  - apply (vo_bytes _ _ _ _ (uo_vm _ _ _ _ _ _ I')).
  - intros p Hu Hin. apply (Hnm p Hu), Hm. by left.
  - intros p o Hu Hor. apply Ho; [by destruct (uses_page _ _ _ _ _ _ I Hu)|by apply Hnm|done].
  - split; [done|]. split; [|done]. intros p Hu%Hu2 Hd. apply (Hnm p Hu), Hm. by right.
Qed.

(** A page that is not the program's is freed. *)
Lemma kfree_beside k pg l D um f : user_ok kend k pg l D um → page kend f → f ∉ l → ¬ uses k pg D f →
  ∃ k', kfree kend f k = Ok (tt, k') ∧ user_ok kend k' pg (f :: l) D um ∧ ∀ p, uses k' pg D p ↔ uses k pg D p.
Proof.
  intros I Hf Hl Hu. pose proof (uo_vm _ _ _ _ _ _ I) as Hvm. destruct (kfree_run kend Hend k l f (vo_mem _ _ _ _ Hvm) Hf Hl) as (k' & E & Hm').
  destruct (kfree_frame kend k f k' E Hf (vo_bytes _ _ _ _ Hvm)) as [Hby' Hs]. exists k'. split; [done|].
  apply (user_other kend k k' pg l (f :: l) D um I Hm' Hby').
  - intros p Hp [->|Hin]%elem_of_cons; [done|]. by destruct (uses_page _ _ _ _ _ _ I Hp).
  - intros p o Hp Ho. apply Hs; [by destruct (uses_page _ _ _ _ _ _ I Hp)|by intros ->|done].
Qed.

(** A new address space beside another. *)
Context (Hdata : data `mod` 4096 = 0 ∧ 0x100000 < data < PHYSTOP).
Lemma setup_beside k pg l D um um' : user_ok kend k pg l D um → (18 ≤ length l)%nat →
  ∃ d k' l', setupkvm data k = Ok (d, k') ∧ d ≠ 0 ∧ user_ok kend k' d l' nothing um' ∧ user_ok kend k' pg l' D um ∧
    apart k' pg d D nothing ∧ Z.of_nat (length l) ≤ Z.of_nat (length l') + 18 ∧
    (∀ p, p ∈ l ↔ mine k' d l' nothing p) ∧ (∀ p, uses k' pg D p ↔ uses k pg D p).
Proof.
  intros I Hlen. pose proof (uo_vm _ _ _ _ _ _ I) as Hvm.
  destruct (setupkvm_ok kend data Hend Hdata k l um') as (d & k' & l' & E & Hd & I' & Hm & Hl & Ho); [apply Hvm..|done|].
  pose proof (uo_vm _ _ _ _ _ _ I') as Hvm'. destruct (user_other kend k k' pg l l' D um I) as [I2 Hu].
  - apply Hvm'.
  - apply Hvm'.
  - intros p Hu Hin. destruct (uses_page _ _ _ _ _ _ I Hu) as [_ Hn]. apply Hn, Hm. by left.
  - intros p o Hu Hor. destruct (uses_page _ _ _ _ _ _ I Hu) as [Hp Hn]. by apply Ho.
  - exists d, k', l'. split; [done|]. split; [done|]. split; [done|]. split; [done|]. split; [|by split].
    intros p Hu1%Hu Hu2. destruct (uses_page _ _ _ _ _ _ I Hu1) as [_ Hn]. apply Hn, Hm. by right.
Qed.

(** One of two address spaces is freed. *)
Lemma freevm_beside k pg d l D D' um um' : user_ok kend k pg l D um → user_ok kend k d l D' um' → apart k pg d D D' →
  ∃ k' l', freevm kend pg k = Ok (tt, k') ∧ user_ok kend k' d l' D' um' ∧ (∀ p, p ∈ l' ↔ mine k pg l D p) ∧
    (∀ p, uses k' d D' p ↔ uses k d D' p).
Proof.
  intros I I' Hap. destruct (freevm_ok kend Hend k pg l D um I) as (k' & l' & E & Hm & Hby & Hl & Ho).
  assert (∀ p, uses k d D' p → ¬ mine k pg l D p) as Hn.
  { intros p Hu [Hin|Hu2]; [by destruct (uses_page _ _ _ _ _ _ I' Hu)|by apply (Hap p)]. }
  destruct (user_other kend k k' d l l' D' um' I' Hm Hby) as [I2 Hu].
  - intros p Hu Hin%Hl. by apply (Hn p).
  - intros p o Hu Hor. apply Ho; [by destruct (uses_page _ _ _ _ _ _ I' Hu)|by apply Hn|done].
  - by exists k', l'.
Qed.

Definition copy_result (k : kmem_t) (pg d sz : Z) (l : list Z) (i : Z) (um : Z → Z) (r : outcome (Z * kmem_t)) : Prop :=
  (∃ k' l', r = Ok (d, k') ∧ pages sz - i ≤ Z.of_nat (length l) ∧ user_ok kend k' d l' (below (pages sz)) um ∧
    user_ok kend k' pg l' (below (pages sz)) um ∧ apart k' pg d (below (pages sz)) (below (pages sz)) ∧
    within kend k d l (below i) k' l' (below (pages sz))) ∨
  (∃ k' l', r = Ok (0, k') ∧ Z.of_nat (length l) < pages sz - i ∧ user_ok kend k' pg l' (below (pages sz)) um ∧
    (∀ p, p ∈ l' ↔ mine k d l (below i) p) ∧ ∀ p, uses k' pg (below (pages sz)) p ↔ uses k pg (below (pages sz)) p).

Lemma copyuvm_loop_ok cnt : ∀ fuel k pg d l i um sz, (cnt < fuel)%nat → user_ok kend k d l (below i) um →
  user_ok kend k pg l (below (pages sz)) um → apart k pg d (below (pages sz)) (below i) → 0 ≤ i → pages sz = i + Z.of_nat cnt → sz ≤ USERTOP →
  copy_result k pg d sz l i um (copyuvm_loop kend fuel pg d (i * 4096) sz k).
Proof.
  induction cnt as [|cnt IH]; intros [|fuel] k pg d l i um sz Hfu Id Ip Hap Hi Hpg Htop; try lia; cbn [copyuvm_loop];
    pose proof (pages_bounds sz) as Hpb; unfold USERTOP in *.
  { rewrite (proj2 (Z.ltb_ge _ _)) by lia. left. exists k, l. assert (i = pages sz) as -> by lia.
    split; [done|]. split; [lia|]. split; [done|]. split; [done|]. split; [done|apply within_refl]. }
  rewrite (proj2 (Z.ltb_lt _ _)) by lia. destruct (walk_user kend k pg l _ um i false Ip ltac:(lia)) as [Ew Er]. step Ew. step Er.
  assert (below (pages sz) i) as HDi by (unfold below; lia). destruct (uo_page _ _ _ _ _ _ Ip i HDi) as (f & Ef & Hof & Hb).
  destruct (pte_user kend k pg l _ um i Ip ltac:(lia)) as [Hu Etr]. rewrite Ef in Etr. case_decide as Hp; [|done]. injection Etr as Ef' E7.
  rewrite has_P, bool_decide_eq_true_2 by done. cbn [negb]. rewrite PTE_ADDR_frame, <-Ef' by done.
  destruct l as [|t l].
  - destruct (kalloc_run kend Hend k [] (vo_mem _ _ _ _ (uo_vm _ _ _ _ _ _ Id))) as (k1 & E & Hm1 & Er1). cbn [hd tl] in *.
    assert (k1 = k) as ->.
    { unfold kalloc, gets, mbind, M_bind in E. pose proof (ko_chain _ _ _ (vo_mem _ _ _ _ (uo_vm _ _ _ _ _ _ Id))) as Hc. cbn in Hc. rewrite Hc in E. by injection E as <-. }
    step E. cbn [Z.eqb]. right. destruct (freevm_ok kend Hend k d [] _ um Id) as (k' & l' & Ev & Hm' & Hby' & Hl' & Ho'). step Ev.
    exists k', l'. split; [done|]. split; [cbn; lia|]. destruct (user_other kend k k' pg [] l' _ um Ip Hm' Hby') as [Ip' Hu']; [| |by split].
    + intros p Hup. rewrite Hl'. intros [Hin|?]; [by apply elem_of_nil in Hin|by apply (Hap p)].
    + intros p o Hup Ho. apply Ho'; [by destruct (uses_page _ _ _ _ _ _ Ip Hup)| |done]. intros [Hin|?]; [by apply elem_of_nil in Hin|by apply (Hap p)].
  - set (bs := bytes_at (kram k) f PGSIZE).
    assert (∀ o, 0 ≤ o < PGSIZE → default 0 (bs !! Z.to_nat o) = um (i * PGSIZE + o)) as Hbs.
    { intros o Ho. unfold bs. rewrite lookup_bytes_at, decide_True by lia. cbn [default from_option id]. rewrite Z2Nat.id by lia. by apply Hb. }
    destruct (fill_page kend Hend k d t l (below i) um i bs Id) as (k1 & k2 & E1 & Ht & Er1 & E2 & I2 & W2); [lia|unfold below; lia|apply length_bytes_at| |done|].
    { apply list.Forall_forall. intros x Hx. apply list_elem_of_lookup in Hx as [j Hj]. unfold bs in Hj. rewrite lookup_bytes_at in Hj.
      case_decide; [|done]. injection Hj as <-. apply (vo_bytes _ _ _ _ (uo_vm _ _ _ _ _ _ Id)). }
    step E1. rewrite (proj2 (Z.eqb_neq _ _)) by done.
    assert (load f PGSIZE k1 = Ok (bs, k1)) as El by (unfold load, gets, bs; by rewrite Er1). step El.
    assert (store t bs k1 = Ok (tt, with_bytes t bs k1)) as Es by reflexivity. step Es. unfold PGSIZE in E2. step E2. cbn [Z.ltb Z.compare].
    assert (∀ v, below (i + 1) v ↔ below i v ∨ v = i) as Eb by (unfold below; lia).
    assert (user_ok kend k2 d l (below (i + 1)) um) as Id2 by by eapply user_ext.
    assert (within kend k d (t :: l) (below i) k2 l (below (i + 1))) as W2' by by eapply within_ext.
    destruct (other_keeps k k2 pg d (t :: l) l _ _ _ um um Ip Id2 W2' Hap) as (Ip2 & Hap2 & Hu2).
    unfold PGSIZE. rewrite u32_small by (unfold is_u32; lia). replace (i * 4096 + 4096) with ((i + 1) * 4096) by lia.
    clear E1 E2 El Es Er1 k1 bs Hbs.
    destruct (IH fuel k2 pg d l (i + 1) um sz ltac:(lia) Id2 Ip2 Hap2 ltac:(lia) ltac:(lia) Htop)
      as [(k' & l' & E & Hlen & Hd & Hpar & Ha & W)|(k' & l' & E & Hlen & Hpar & Hl & Hu3)]; rewrite E.
    + left. exists k', l'. split; [done|]. split; [cbn [length]; lia|]. split; [done|]. split; [done|]. split; [done|by eapply within_trans].
    + right. exists k', l'. split; [done|]. split; [cbn [length]; lia|]. split; [done|]. split; intros p; [rewrite Hl; apply W2'|by rewrite Hu3, Hu2].
Qed.

(** [copyuvm]: the same bytes in pages of their own, or nothing at all. *)
Lemma copyuvm_ok k pg l um sz : user_ok kend k pg l (below (pages sz)) um → 0 ≤ sz ≤ USERTOP → (18 ≤ length l)%nat →
  ∃ d k' l', copyuvm kend data pg sz k = Ok (d, k') ∧ user_ok kend k' pg l' (below (pages sz)) um ∧
    ((d ≠ 0 ∧ user_ok kend k' d l' (below (pages sz)) um ∧ apart k' pg d (below (pages sz)) (below (pages sz)) ∧
      ∀ p, p ∈ l ↔ mine k' d l' (below (pages sz)) p) ∨
     (d = 0 ∧ Z.of_nat (length l) < 18 + pages sz ∧ (∀ p, p ∈ l' ↔ p ∈ l) ∧
      ∀ p, uses k' pg (below (pages sz)) p ↔ uses k pg (below (pages sz)) p)).
Proof.
  intros I Hsz Hl. destruct (setup_beside k pg l _ um um I Hl) as (d & k1 & l1 & E1 & Hd & I1 & Ip & Hap & Hlen & Hm & Hu).
  unfold copyuvm. step E1. rewrite (proj2 (Z.eqb_neq d 0)) by done.
  assert (∀ v, below 0 v ↔ nothing v) as Eb by (intros v; unfold below, nothing; lia).
  assert (∀ q, uses k1 d (below 0) q ↔ uses k1 d nothing q) as Eu by (intros q; by apply uses_ext).
  assert (user_ok kend k1 d l1 (below 0) um) as I0 by by eapply user_ext.
  assert (apart k1 pg d (below (pages sz)) (below 0)) as Hap0 by (intros q Hq; rewrite Eu; by apply Hap).
  assert (∀ q, q ∈ l ↔ mine k1 d l1 (below 0) q) as Hm0 by (intros q; unfold mine; rewrite Eu; apply Hm).
  pose proof (pages_bounds sz) as Hpb. pose proof (pages_mono 0 sz) as Hp0. change (pages 0) with 0 in Hp0.
  pose proof (Z.div_mod sz 4096). pose proof (Z.mod_pos_bound sz 4096).
  destruct (copyuvm_loop_ok (Z.to_nat (pages sz)) (S (Z.to_nat (sz `div` PGSIZE) + 1)) k1 pg d l1 0 um sz) as [HC|HC];
    [unfold PGSIZE; lia|done|done|done|lia|lia|lia| |]; cbn [Z.mul] in HC.
  - destruct HC as (k' & l' & E & Hle & Id & Ipg & Ha & W). exists d, k', l'. split; [done|]. split; [done|]. left.
    split; [done|]. split; [done|]. split; [done|]. intros q. by rewrite Hm0, (wi_mine _ _ _ _ _ _ _ _ W).
  - destruct HC as (k' & l' & E & Hle & Ipg & Hm' & Hu'). exists 0, k', l'. split; [done|]. split; [done|]. right.
    split; [done|]. split; [lia|]. split; intros q; [by rewrite Hm', Hm0|by rewrite Hu', Hu].
Qed.
End copy.
