(* ===== verification/Exec.v ===== *)
(** [exec] ([xv6/kernel/exec.c]): a program's file becomes the memory of the
    process that calls it, over the file system of [Fs.v] and the address
    spaces of [Vm.v]. *)

From S2P Require Import Prelude UnixFile CString Kalloc Fs Vm.
From S2P Require Proc.

(** ** Definitions *)

Definition ELF_MAGIC : Z := 0x464C457F.
Definition ELF_PROG_LOAD : Z := 1.
Definition MAXARG : Z := 32.

(** The fields of the two headers that [exec] looks at. *)
Record elfhdr := mkElfhdr { e_magic : Z; e_entry : Z; e_phoff : Z; e_phnum : Z }.
Record proghdr := mkProghdr { ph_type : Z; ph_offset : Z; ph_va : Z; ph_filesz : Z; ph_memsz : Z }.
Definition SIZEOF_ELFHDR : Z := 52.
Definition SIZEOF_PROGHDR : Z := 32.
Definition dec_elfhdr (bs : list Z) : elfhdr := mkElfhdr (wordk bs 0) (wordk bs 6) (wordk bs 7) (le_val (slice 44 2 bs)).
Definition dec_proghdr (bs : list Z) : proghdr := mkProghdr (wordk bs 0) (wordk bs 1) (wordk bs 2) (wordk bs 4) (wordk bs 5).

(** The file system and memory, and the calling process. *)
Abbreviation kernel := (fs * kmem_t)%type.
Abbreviation xstate := (kernel * Proc.proc)%type.

Section exec.
Context `{Devsw}.
(** [end] and [data], from the linker; what [namex]'s name buffer and the
    uninitialised [elf] hold. *)
Context (kend data : Z) (junk junk_elf : list Z).

Definition on_fs {A} (m : M fs A) : M kernel A := on_fst m.
Definition on_mem {A} (m : M kmem_t A) : M kernel A := on_snd m.

(** The loop over the program headers; [None] is [goto bad]. *)
Fixpoint load_segments (n : nat) (pgdir : Z) (ip : nat) (off sz : Z) : M kernel (option Z) :=
  match n with
  | O => mret (Some sz)
  | S n' =>
      '(r, bs) ← on_fs (readi ip (u32 off) SIZEOF_PROGHDR);
      if negb (r =? SIZEOF_PROGHDR) then mret None else
      let ph := dec_proghdr bs in
      if negb (ph_type ph =? ELF_PROG_LOAD) then load_segments n' pgdir ip (i32 (off + SIZEOF_PROGHDR)) sz else
      if ph_memsz ph <? ph_filesz ph then mret None else
      sz ← on_mem (allocuvm kend pgdir sz (u32 (ph_va ph + ph_memsz ph)));
      if sz =? 0 then mret None else
      r ← loaduvm (readi ip) pgdir (ph_va ph) (ph_offset ph) (ph_filesz ph);
      if r <? 0 then mret None else
      load_segments n' pgdir ip (i32 (off + SIZEOF_PROGHDR)) sz
  end.

(** The argument strings go on the stack, each below the one before: how many,
    the stack pointer and the addresses. *)
Fixpoint push_args (args : list (list Z)) (pgdir argc sp : Z) (ptrs : list Z) : M kmem_t (option (Z * Z * list Z)) :=
  match args with
  | [] => mret (Some (argc, sp, ptrs))
  | s :: args' =>
      if argc >=? MAXARG then mret None else
      let sp := Z.land (u32 (sp - (Z.of_nat (length s) + 1))) (u32 (Z.lnot 3)) in
      r ← copyout pgdir sp (s ++ [0]);
      if r <? 0 then mret None else push_args args' pgdir (argc + 1) sp (ptrs ++ [sp])
  end.

(** [ustack], word by word: the return address, [argc], [argv], and the array. *)
Definition ustack (argc sp : Z) (ptrs : list Z) : list Z :=
  [0xffffffff; argc; u32 (sp - (argc + 1) * 4)] ++ ptrs ++ [0].
Definition push_stack (args : list (list Z)) (pgdir sz : Z) : M kmem_t (option Z) :=
  r ← push_args args pgdir 0 sz [];
  match r with
  | None => mret None
  | Some (argc, sp, ptrs) =>
      let us := ustack argc sp ptrs in
      let sp := u32 (sp - (3 + argc + 1) * 4) in
      r ← copyout pgdir sp (mjoin (le_bytes 4 <$> us));
      if r <? 0 then mret None else mret (Some sp)
  end.

(** [for(last=s=path; *s; s++)] *)
Fixpoint last_elem (last path : list Z) : list Z :=
  match path with
  | [] => last
  | c :: path' => if c =? SLASH then last_elem path' path' else last_elem last path'
  end.

(** From the header on; [None] is [goto bad] with the page directory and the
    inode that the labels see. *)
Definition load_program (ip : nat) : M kernel (Z * option nat * option (Z * Z)) :=
  '(r, bs) ← on_fs (readi ip 0 SIZEOF_ELFHDR);
  if u32 r <? SIZEOF_ELFHDR then mret (0, Some ip, None) else
  let elf := dec_elfhdr (overlay junk_elf bs) in
  if negb (e_magic elf =? ELF_MAGIC) then mret (0, Some ip, None) else
  pgdir ← on_mem (setupkvm data);
  if pgdir =? 0 then mret (0, Some ip, None) else
  sz ← load_segments (Z.to_nat (e_phnum elf)) pgdir ip (i32 (e_phoff elf)) 0;
  match sz with
  | None => mret (pgdir, Some ip, None)
  | Some sz => on_fs (iunlockput ip);; mret (pgdir, None, Some (sz, e_entry elf))
  end.

(** The label [bad]: what the call has so far is given back. *)
Definition exec_bad (pgdir : Z) (ip : option nat) : M xstate Z :=
  when (negb (pgdir =? 0)) (on_fst (on_mem (freevm kend pgdir)));;
  match ip with Some ip => on_fst (on_fs (iunlockput ip)) | None => mret tt end;;
  mret (-1).

(** From the stack to the new image. *)
Definition exec_image (path : list Z) (argv : list (list Z)) (pgdir sz entry : Z) : M xstate Z :=
  let sz := PGROUNDUP sz in
  sz ← on_fst (on_mem (allocuvm kend pgdir sz (u32 (sz + PGSIZE))));
  if sz =? 0 then exec_bad pgdir None else
  sp ← on_fst (on_mem (push_stack argv pgdir sz));
  match sp with
  | None => exec_bad pgdir None
  | Some sp =>
      s ← get;
      name ← need (safestrcpy (Proc.p_name s.2) (last_elem path path ++ [0]) 16);
      put (s.1, Proc.set_image sz pgdir (Proc.mkTf (Proc.tf_eax (Proc.p_tf s.2)) entry sp (Proc.tf_rest (Proc.p_tf s.2))) (Proc.set_name name s.2));;
      on_fst (on_mem (freevm kend (Proc.p_pgdir s.2)));;
      mret 0
  end.

Definition exec (path : list Z) (argv : list (list Z)) : M xstate Z :=
  s ← get;
  cwd ← need (Proc.p_cwd s.2);
  ip ← on_fst (on_fs (namei junk cwd path));
  match ip with
  | None => mret (-1)
  | Some ip =>
      on_fst (on_fs (ilock ip));;
      '(pgdir, ip, prog) ← on_fst (load_program ip);
      match prog with
      | None => exec_bad pgdir ip
      | Some (sz, entry) => exec_image path argv pgdir sz entry
      end
  end.
End exec.
