(* ===== verification/ExecProofs.v ===== *)
(** What a program finds when [exec] has run: its segments, its arguments on
    the stack, and no page lost. *)

From S2P Require Import Prelude UnixFile CString Kalloc Fs Vm VmProofs VmUser VmSetup VmCopy Exec.
From S2P Require Proc.

(** ** Program files *)

Lemma wordk_u32 bs k : Forall is_byte bs → is_u32 (wordk bs k).
Proof.
  intros H. unfold wordk. assert (Forall is_byte (slice (Z.to_nat (4 * k)) 4 bs)) as Hs by by apply Forall_take, Forall_drop.
  pose proof (le_val_range _ Hs) as [H0 H1]. split; [done|]. eapply Z.lt_le_trans; [exact H1|].
  change 4294967296 with (256 ^ 4). apply Z.pow_le_mono_r; [lia|]. unfold slice. rewrite length_take. lia.
Qed.

Section image.
(** The bytes of the file. *)
Context (c : list Z) (Hbytes : Forall is_byte c).

Fixpoint phdrs (n : nat) (off : Z) : list proghdr :=
  match n with O => [] | S n' => dec_proghdr (part c off SIZEOF_PROGHDR) :: phdrs n' (off + SIZEOF_PROGHDR) end.

(** A segment that can be loaded. *)
Definition loadable (ph : proghdr) : Prop := ph_type ph = ELF_PROG_LOAD →
  ph_va ph `mod` PGSIZE = 0 ∧ 0 < ph_va ph + ph_memsz ph ≤ USERTOP ∧ ph_filesz ph ≤ ph_memsz ph ∧
  ph_offset ph + ph_filesz ph ≤ Z.of_nat (length c).

(** The size and the bytes of the image after one more segment. *)
Definition seg_size (sz : Z) (ph : proghdr) : Z := if ph_type ph =? ELF_PROG_LOAD then Z.max sz (ph_va ph + ph_memsz ph) else sz.
Definition seg_mem (um : Z → Z) (ph : proghdr) : Z → Z :=
  if ph_type ph =? ELF_PROG_LOAD then write um (ph_va ph) (part c (ph_offset ph) (ph_filesz ph)) else um.
Definition image_size (phs : list proghdr) : Z := foldl seg_size 0 phs.
Definition image_mem (phs : list proghdr) : Z → Z := foldl seg_mem (λ _, 0) phs.

Lemma phdr_fields off : let ph := dec_proghdr (part c off SIZEOF_PROGHDR) in
  is_u32 (ph_offset ph) ∧ is_u32 (ph_va ph) ∧ is_u32 (ph_filesz ph) ∧ is_u32 (ph_memsz ph).
Proof. split_and!; apply wordk_u32, Forall_take, Forall_drop, Hbytes. Qed.

Lemma seg_size_ge phs : ∀ sz, sz ≤ foldl seg_size sz phs.
Proof.
  induction phs as [|ph phs IH]; intros sz; cbn [foldl]; [done|]. specialize (IH (seg_size sz ph)).
  unfold seg_size in *. destruct (ph_type ph =? ELF_PROG_LOAD); lia.
Qed.
Lemma image_pages phs : 0 ≤ pages (image_size phs).
Proof. apply (pages_mono 0), seg_size_ge. Qed.
Lemma seg_size_le phs : ∀ sz, Forall loadable phs → sz ≤ USERTOP → foldl seg_size sz phs ≤ USERTOP.
Proof.
  induction phs as [|ph phs IH]; intros sz Hl Hs; cbn [foldl]; [done|]. apply Forall_cons_1 in Hl as [Hp Hl]. apply IH; [done|].
  unfold seg_size. destruct (Z.eqb_spec (ph_type ph) ELF_PROG_LOAD) as [E|]; [|done]. specialize (Hp E). lia.
Qed.

Section load.
Context `{Devsw} (kend : Z) (Hend : 0 < kend) (ip : nat) (f : fs).
Context (Hreads : reads (readi ip) f c) (Hsmall : Z.of_nat (length c) < 2147483648).

Definition zero_above (sz : Z) (um : Z → Z) : Prop := ∀ a, pages sz * PGSIZE ≤ a → um a = 0.

(** One segment. *)
Lemma load_segment k d l sz um ph : user_ok kend k d l (below (pages sz)) um → zero_above sz um → 0 ≤ sz ≤ USERTOP →
  loadable ph → ph_type ph = ELF_PROG_LOAD → is_u32 (ph_offset ph) → is_u32 (ph_va ph) → is_u32 (ph_filesz ph) →
  pages (seg_size sz ph) - pages sz ≤ Z.of_nat (length l) →
  ∃ k' k'' l', allocuvm kend d sz (u32 (ph_va ph + ph_memsz ph)) k = Ok (seg_size sz ph, k') ∧ seg_size sz ph ≠ 0 ∧
    loaduvm (readi ip) d (ph_va ph) (ph_offset ph) (ph_filesz ph) (f, k') = Ok (0, (f, k'')) ∧
    user_ok kend k'' d l' (below (pages (seg_size sz ph))) (seg_mem um ph) ∧ zero_above (seg_size sz ph) (seg_mem um ph) ∧
    within kend k d l (below (pages sz)) k'' l' (below (pages (seg_size sz ph))) ∧
    Z.of_nat (length l') = Z.of_nat (length l) - (pages (seg_size sz ph) - pages sz).
Proof.
  intros I Hz Hs Hl Et Ho Hv Hf Hlen. destruct (Hl Et) as (Hva & Hm & Hfm & Hof). unfold seg_size, seg_mem in *. rewrite Et, Z.eqb_refl in *.
  set (top := ph_va ph + ph_memsz ph) in *. rewrite u32_small by (unfold is_u32, USERTOP in *; lia).
  destruct Hv as [Hv0 Hv1]. destruct Ho as [Ho0 _]. destruct Hf as [Hf0 _].
  assert (∃ k' l', allocuvm kend d sz top k = Ok (Z.max sz top, k') ∧ user_ok kend k' d l' (below (pages (Z.max sz top))) um ∧
    within kend k d l (below (pages sz)) k' l' (below (pages (Z.max sz top))) ∧
    Z.of_nat (length l') = Z.of_nat (length l) - (pages (Z.max sz top) - pages sz)) as (k' & l' & E & I' & W & Hl').
  { destruct (decide (top < sz)) as [Hlt|Hge].
    - rewrite Z.max_l by lia. exists k, l. unfold allocuvm. rewrite Z.gtb_ltb, (proj2 (Z.ltb_ge _ _)), (proj2 (Z.ltb_lt _ _)) by lia.
      split; [done|]. split; [done|]. split; [apply within_refl|lia].
    - rewrite Z.max_r in * by lia. destruct (allocuvm_ok kend Hend k d l um sz top I) as (k' & E & I' & W); [lia|lia|done|].
      exists k', (drop (Z.to_nat (pages top - pages sz)) l). split; [done|]. split; [|split; [done|]].
      + eapply user_ext; [exact I'|done|]. intros v o _ _. cbn beta. case_decide; [done|]. apply Hz. lia.
      + rewrite length_drop. pose proof (pages_mono sz top). lia. }
  pose proof (pages_bounds (Z.max sz top)) as Hpb.
  assert (covers (below (pages (Z.max sz top))) (ph_va ph) (ph_filesz ph)) as Hc.
  { intros x Hx. unfold below. split; [apply Z.div_pos; lia|apply Z.div_lt_upper_bound; lia]. }
  destruct (loaduvm_ok kend (readi ip) f c Hreads Hbytes Hsmall k' d l' _ um (ph_va ph) (ph_offset ph) (ph_filesz ph) I' Hva) as (k'' & E' & I'' & W');
    [by split|done|lia|lia|lia|].
  exists k', k'', l'. split; [done|]. split; [lia|]. split; [done|]. split; [done|]. split; [|split; [by eapply within_trans|done]].
  intros a Ha. unfold write. rewrite length_part by lia. rewrite decide_False by (unfold PGSIZE in *; lia). apply Hz.
  pose proof (pages_mono sz (Z.max sz top)). unfold PGSIZE in *. lia.
Qed.

Lemma load_segments_ok n : ∀ k d l off sz um, user_ok kend k d l (below (pages sz)) um → zero_above sz um → 0 ≤ sz ≤ USERTOP →
  0 ≤ off → off + SIZEOF_PROGHDR * Z.of_nat n ≤ Z.of_nat (length c) → Forall loadable (phdrs n off) →
  let sz' := foldl seg_size sz (phdrs n off) in pages sz' - pages sz ≤ Z.of_nat (length l) →
  ∃ k' l', load_segments kend n d ip off sz (f, k) = Ok (Some sz', (f, k')) ∧
    user_ok kend k' d l' (below (pages sz')) (foldl seg_mem um (phdrs n off)) ∧ zero_above sz' (foldl seg_mem um (phdrs n off)) ∧
    within kend k d l (below (pages sz)) k' l' (below (pages sz')) ∧
    Z.of_nat (length l') = Z.of_nat (length l) - (pages sz' - pages sz).
Proof.
  change SIZEOF_PROGHDR with 32. induction n as [|n IH]; intros k d l off sz um I Hz Hs Ho Hoc Hl sz' Hlen; cbn [load_segments].
  { exists k, l. subst sz'. cbn [phdrs foldl] in *. split; [done|]. split; [done|]. split; [done|]. split; [apply within_refl|lia]. }
  unfold on_fs, on_mem. rewrite u32_small by (unfold is_u32; lia). unfold SIZEOF_PROGHDR at 1 2.
  pose proof (Hreads off 32 Ho ltac:(lia) ltac:(lia)) as Er. fold (part c off 32) in Er. step (on_fst_Ok _ _ k _ _ Er). rewrite Z.eqb_refl. cbn [negb].
  cbn [phdrs foldl] in sz', Hl |- *. unfold SIZEOF_PROGHDR in *. apply Forall_cons_1 in Hl as [Hph Hl].
  destruct (phdr_fields off) as (Hu1 & Hu2 & Hu3 & Hu4). unfold SIZEOF_PROGHDR in *. set (ph := dec_proghdr (part c off 32)) in *.
  replace (i32 (off + 32)) with (off + 32) by (rewrite i32_small; [done|unfold is_i32; lia]).
  pose proof (seg_size_ge (phdrs n (off + 32)) (seg_size sz ph)) as Hge.
  destruct (Z.eqb_spec (ph_type ph) ELF_PROG_LOAD) as [Et|Et]; cbn [negb].
  - destruct (load_segment k d l sz um ph I Hz Hs Hph Et Hu1 Hu2 Hu3) as (k1 & k2 & l2 & Ea & Hnz & El & I2 & Hz2 & W2 & Hl2).
    { pose proof (pages_mono _ _ Hge). unfold sz' in Hlen. lia. }
    destruct (Hph Et) as (_ & Htop & Hfm & _). rewrite (proj2 (Z.ltb_ge _ _)) by lia.
    step (on_snd_Ok _ f _ _ _ Ea). rewrite (proj2 (Z.eqb_neq _ _)) by done. step El. cbn [Z.ltb Z.compare].
    assert (0 ≤ seg_size sz ph ≤ USERTOP) as Hss by (unfold seg_size; rewrite Et, Z.eqb_refl; lia).
    destruct (IH k2 d l2 (off + 32) (seg_size sz ph) (seg_mem um ph) I2 Hz2 Hss) as (k' & l' & E & I' & Hz' & W' & Hl'); [lia|lia|done|unfold sz' in *; lia|].
    exists k', l'. split; [done|]. split; [done|]. split; [done|]. split; [by eapply within_trans|]. unfold sz'. lia.
  - assert (seg_size sz ph = sz ∧ seg_mem um ph = um) as [Es Em] by (unfold seg_size, seg_mem; by rewrite (proj2 (Z.eqb_neq _ _))).
    unfold sz' in *. rewrite Es, Em in *. apply IH; try done; lia.
Qed.

(** Not enough pages: the loop stops, and the pages that it took are still
    those of the new address space. *)
Lemma load_segments_fails n : ∀ k d l off sz um, user_ok kend k d l (below (pages sz)) um → zero_above sz um → 0 ≤ sz ≤ USERTOP →
  0 ≤ off → off + SIZEOF_PROGHDR * Z.of_nat n ≤ Z.of_nat (length c) → Forall loadable (phdrs n off) →
  Z.of_nat (length l) < pages (foldl seg_size sz (phdrs n off)) - pages sz →
  ∃ k' l' m um', load_segments kend n d ip off sz (f, k) = Ok (None, (f, k')) ∧ user_ok kend k' d l' (below m) um' ∧
    within kend k d l (below (pages sz)) k' l' (below m).
Proof.
  change SIZEOF_PROGHDR with 32. induction n as [|n IH]; intros k d l off sz um I Hz Hs Ho Hoc Hl Hlen; cbn [load_segments].
  { cbn [phdrs foldl] in Hlen. lia. }
  unfold on_fs, on_mem. rewrite u32_small by (unfold is_u32; lia). unfold SIZEOF_PROGHDR at 1 2.
  pose proof (Hreads off 32 Ho ltac:(lia) ltac:(lia)) as Er. fold (part c off 32) in Er. step (on_fst_Ok _ _ k _ _ Er). rewrite Z.eqb_refl. cbn [negb].
  cbn [phdrs foldl] in Hlen, Hl. unfold SIZEOF_PROGHDR in *. apply Forall_cons_1 in Hl as [Hph Hl].
  destruct (phdr_fields off) as (Hu1 & Hu2 & Hu3 & Hu4). unfold SIZEOF_PROGHDR in *. set (ph := dec_proghdr (part c off 32)) in *.
  replace (i32 (off + 32)) with (off + 32) by (rewrite i32_small; [done|unfold is_i32; lia]).
  destruct (Z.eqb_spec (ph_type ph) ELF_PROG_LOAD) as [Et|Et]; cbn [negb].
  - destruct (Hph Et) as (_ & Htop & Hfm & _). rewrite (proj2 (Z.ltb_ge _ _)) by lia.
    destruct (decide (pages (seg_size sz ph) - pages sz ≤ Z.of_nat (length l))) as [Hfit|Hno].
    + destruct (load_segment k d l sz um ph I Hz Hs Hph Et Hu1 Hu2 Hu3 Hfit) as (k1 & k2 & l2 & Ea & Hnz & El & I2 & Hz2 & W2 & Hl2).
      step (on_snd_Ok _ f _ _ _ Ea). rewrite (proj2 (Z.eqb_neq _ _)) by done. step El. cbn [Z.ltb Z.compare].
      assert (0 ≤ seg_size sz ph ≤ USERTOP) as Hss by (unfold seg_size; rewrite Et, Z.eqb_refl; lia).
      destruct (IH k2 d l2 (off + 32) (seg_size sz ph) (seg_mem um ph) I2 Hz2 Hss) as (k' & l' & m & um' & E & I' & W'); [lia|lia|done|lia|].
      exists k', l', m, um'. split; [done|]. split; [done|]. by eapply within_trans.
    + unfold seg_size in Hno. rewrite Et, Z.eqb_refl in Hno.
      assert (sz < ph_va ph + ph_memsz ph) as Hgt by (destruct (decide (sz < ph_va ph + ph_memsz ph)); [done|rewrite Z.max_l in Hno by lia; lia]).
      rewrite Z.max_r in Hno by lia. destruct (allocuvm_fails kend Hend k d l um sz (ph_va ph + ph_memsz ph) I) as (k' & l' & E & I' & W'); [lia|lia|lia|].
      rewrite (u32_small (ph_va ph + ph_memsz ph)) by (unfold is_u32, USERTOP in *; lia). step (on_snd_Ok _ f _ _ _ E). cbn [Z.eqb].
      exists k', l', (pages sz), um. by split.
  - assert (seg_size sz ph = sz) as Es by (unfold seg_size; by rewrite (proj2 (Z.eqb_neq _ _))).
    rewrite Es in Hlen. by apply (IH k d l (off + 32) sz um); try done; lia.
Qed.
End load.
End image.

(** ** The stack *)

(** Where the strings go when they are pushed from [sp] down. *)
Definition push_sp (sp : Z) (s : list Z) : Z := (sp - (Z.of_nat (length s) + 1)) / 4 * 4.
Fixpoint arg_ptrs (sp : Z) (args : list (list Z)) : list Z :=
  match args with [] => [] | s :: args' => push_sp sp s :: arg_ptrs (push_sp sp s) args' end.
Definition arg_bottom (sp : Z) (args : list (list Z)) : Z := foldl push_sp sp args.

Lemma land_align sp : is_u32 sp → Z.land sp (u32 (Z.lnot 3)) = sp / 4 * 4.
Proof.
  unfold is_u32. intros Hz. change (u32 (Z.lnot 3)) with (Z.ldiff (Z.ones 32) (Z.ones 2)).
  change 4 with (2 ^ 2). rewrite <-Z.shiftl_mul_pow2, <-Z.shiftr_div_pow2 by lia.
  apply Z.bits_inj'. intros i Hi. rewrite Z.land_spec, Z.ldiff_spec, Z.shiftl_spec by lia. destruct (Z.ltb_spec i 2).
  - rewrite (Z.ones_spec_low 2), !andb_false_r by lia. symmetry. apply Z.testbit_neg_r. lia.
  - rewrite (Z.ones_spec_high 2), Z.shiftr_spec, Z.sub_add, andb_true_r by lia. destruct (Z.ltb_spec i 32).
    + rewrite Z.ones_spec_low by lia. apply andb_true_r.
    + rewrite Z.ones_spec_high, andb_false_r by lia. symmetry. destruct (decide (sp = 0)) as [->|]; [apply Z.testbit_0_l|].
      apply Z.bits_above_log2; [lia|]. apply Z.log2_lt_pow2; [lia|]. apply Z.lt_le_trans with (2 ^ 32); [lia|].
      apply Z.pow_le_mono_r; lia.
Qed.

Lemma push_sp_lt sp s : push_sp sp s + (Z.of_nat (length s) + 1) ≤ sp.
Proof. unfold push_sp. pose proof (Z.div_mod (sp - (Z.of_nat (length s) + 1)) 4). pose proof (Z.mod_pos_bound (sp - (Z.of_nat (length s) + 1)) 4). lia. Qed.
Lemma arg_bottom_le args : ∀ sp, arg_bottom sp args ≤ sp.
Proof.
  induction args as [|s args IH]; intros sp; cbn [arg_bottom foldl]; [done|]. pose proof (push_sp_lt sp s). pose proof (IH (push_sp sp s)) as Hi.
  unfold arg_bottom in Hi. lia.
Qed.
Lemma length_arg_ptrs args : ∀ sp, length (arg_ptrs sp args) = length args.
Proof. induction args as [|s args IH]; intros sp; [done|]. cbn. by rewrite IH. Qed.

Lemma arg_ptrs_bound args : ∀ top i s q, args !! i = Some s → arg_ptrs top args !! i = Some q →
  arg_bottom top args ≤ q ∧ q + (Z.of_nat (length s) + 1) ≤ top.
Proof.
  induction args as [|s0 args IH]; intros top i s q; [done|]. cbn [arg_ptrs arg_bottom foldl]. fold (arg_bottom (push_sp top s0) args).
  pose proof (push_sp_lt top s0). destruct i as [|i]; cbn.
  - intros [= <-] [= <-]. split; [apply arg_bottom_le|done].
  - intros Hi Hq. destruct (IH _ _ _ _ Hi Hq). lia.
Qed.

(** The bytes [bs] are in memory from [a] on. *)
Definition at_bytes (um : Z → Z) (a : Z) (bs : list Z) : Prop := ∀ i b, bs !! i = Some b → um (a + Z.of_nat i) = b.

Lemma write_at um a bs : at_bytes (write um a bs) a bs.
Proof.
  intros i b Hi. pose proof (lookup_lt_Some _ _ _ Hi). unfold write. rewrite decide_True by lia.
  by replace (Z.to_nat (a + Z.of_nat i - a)) with i by lia; rewrite Hi.
Qed.
Lemma write_out um a bs x : x < a ∨ a + Z.of_nat (length bs) ≤ x → write um a bs x = um x.
Proof. intros. unfold write. by rewrite decide_False by lia. Qed.

Section stack.
Context (kend : Z) (Hend : 0 < kend).

Lemma push_args_ok args : ∀ k d l n um argc sp ptrs, user_ok kend k d l (below n) um → 0 ≤ argc → argc + Z.of_nat (length args) ≤ MAXARG →
  Forall (Forall is_byte) args → 0 ≤ arg_bottom sp args → sp ≤ n * 4096 →
  ∃ k' um', push_args args d argc sp ptrs k = Ok (Some (argc + Z.of_nat (length args), arg_bottom sp args, ptrs ++ arg_ptrs sp args), k') ∧
    user_ok kend k' d l (below n) um' ∧ within kend k d l (below n) k' l (below n) ∧
    (∀ x, x < arg_bottom sp args ∨ sp ≤ x → um' x = um x) ∧
    ∀ i s p, args !! i = Some s → arg_ptrs sp args !! i = Some p → at_bytes um' p (s ++ [0]).
Proof.
  induction args as [|s args IH]; intros k d l n um argc sp ptrs I Ha Hmax Hby Hbot Hsp; cbn [push_args].
  { exists k, um. cbn [length arg_ptrs arg_bottom foldl]. rewrite app_nil_r, Z.add_0_r. split; [done|]. split; [done|]. split; [apply within_refl|]. by split. }
  cbn [length] in Hmax. rewrite Z.geb_leb, (proj2 (Z.leb_gt _ _)) by lia. cbn [arg_bottom foldl arg_ptrs] in *. fold (arg_bottom (push_sp sp s) args) in *.
  apply Forall_cons_1 in Hby as [Hs Hby]. pose proof (arg_bottom_le args (push_sp sp s)) as Hle. pose proof (push_sp_lt sp s) as Hlt.
  pose proof I as [_ _ Hrange _ _ _]. assert (n ≤ 160) as Hn.
  { destruct (decide (1 ≤ n)); [|lia]. pose proof (Hrange (n - 1) ltac:(unfold below; lia)). lia. }
  assert (0 ≤ sp - (Z.of_nat (length s) + 1)) as Hp by lia.
  rewrite u32_small, land_align by (unfold is_u32; lia). fold (push_sp sp s).
  assert (Z.of_nat (length (s ++ [0])) = Z.of_nat (length s) + 1) as Hls by (rewrite length_app; cbn; lia).
  destruct (copyout_ok kend Hend k d l (below n) um (push_sp sp s) (s ++ [0]) I) as (k1 & E1 & I1 & W1); [lia| | |].
  { intros x Hx. unfold below. split; [apply Z.div_pos; lia|apply Z.div_lt_upper_bound; lia]. }
  { apply list.Forall_app. split; [done|]. repeat constructor; unfold is_byte; lia. }
  step E1. cbn [Z.ltb Z.compare].
  destruct (IH k1 d l n _ (argc + 1) (push_sp sp s) (ptrs ++ [push_sp sp s]) I1) as (k' & um' & E & I' & W' & Hout & Hstr); [lia|lia|done|done|lia|].
  exists k', um'. rewrite E, <-app_assoc. cbn [app length]. replace (argc + 1 + Z.of_nat (length args)) with (argc + Z.of_nat (S (length args))) by lia. split; [done|]. split; [done|]. split; [by eapply within_trans|]. split.
  - intros x Hx. rewrite Hout by lia. apply write_out. lia.
  - intros [|i] s' p Hi Hp'; cbn in Hi, Hp'; [|by apply (Hstr i)]. injection Hi as <-. injection Hp' as <-.
    intros j b Hj. rewrite Hout by lia. by apply write_at.
Qed.

(** The top of the stack, as [main] finds it. *)
Definition stack_sp (top : Z) (args : list (list Z)) : Z := arg_bottom top args - (Z.of_nat (length args) + 4) * 4.

Lemma length_word_bytes l : length (mjoin (le_bytes 4 <$> l)) = (4 * length l)%nat.
Proof. induction l as [|x l IH]; [done|]. change (length (le_bytes 4 x ++ mjoin (le_bytes 4 <$> l)) = (4 * S (length l))%nat). rewrite length_app, length_le_bytes, IH. lia. Qed.
Lemma word_bytes_byte l : Forall is_byte (mjoin (le_bytes 4 <$> l)).
Proof. induction l as [|x l IH]; [constructor|]. change (Forall is_byte (le_bytes 4 x ++ mjoin (le_bytes 4 <$> l))).
  apply list.Forall_app. split; [apply le_bytes_bytes|done]. Qed.

Lemma push_stack_ok k d l n um args : user_ok kend k d l (below n) um → Z.of_nat (length args) ≤ MAXARG → Forall (Forall is_byte) args →
  0 ≤ stack_sp (n * 4096) args →
  let sp := stack_sp (n * 4096) args in let ptrs := arg_ptrs (n * 4096) args in
  ∃ k' um', push_stack args d (n * 4096) k = Ok (Some sp, k') ∧ user_ok kend k' d l (below n) um' ∧ within kend k d l (below n) k' l (below n) ∧
    (∀ x, x < sp → um' x = um x) ∧
    at_bytes um' sp (mjoin (le_bytes 4 <$> [0xffffffff; Z.of_nat (length args); sp + 12] ++ ptrs ++ [0])) ∧
    ∀ i s p, args !! i = Some s → ptrs !! i = Some p → at_bytes um' p (s ++ [0]).
Proof.
  intros I Hmax Hby Hsp sp ptrs. unfold stack_sp in *. set (bot := arg_bottom (n * 4096) args) in *. set (na := Z.of_nat (length args)) in *.
  pose proof (arg_bottom_le args (n * 4096)) as Hle. fold bot in Hle. pose proof I as [_ _ Hrange _ _ _].
  assert (0 ≤ na) as Hna by lia. assert (n ≤ 160) as Hn.
  { destruct (decide (1 ≤ n)); [|lia]. pose proof (Hrange (n - 1) ltac:(unfold below; lia)). lia. }
  unfold push_stack. destruct (push_args_ok args k d l n um 0 (n * 4096) [] I) as (k1 & um1 & E1 & I1 & W1 & Hout & Hstr); [lia|lia|done|lia|lia|].
  step E1. rewrite Z.add_0_l. fold bot na ptrs. cbv zeta. unfold ustack. cbn [app].
  replace (bot - (3 + na + 1) * 4) with sp by (unfold sp; lia). rewrite (u32_small sp) by (unfold is_u32, sp; lia).
  replace (u32 (bot - (na + 1) * 4)) with (sp + 12) by (rewrite u32_small; unfold is_u32, sp; lia).
  set (us := [0xffffffff; na; sp + 12] ++ ptrs ++ [0]). change (4294967295 :: na :: sp + 12 :: ptrs ++ [0]) with us.
  assert (Z.of_nat (length (mjoin (le_bytes 4 <$> us))) = bot - sp) as Hus.
  { rewrite length_word_bytes. unfold us. rewrite !length_app. cbn [length]. unfold ptrs. rewrite length_arg_ptrs. unfold sp, na. lia. }
  destruct (copyout_ok kend Hend k1 d l (below n) um1 sp (mjoin (le_bytes 4 <$> us)) I1) as (k' & E' & I' & W'); [unfold sp; lia| |apply word_bytes_byte|].
  { intros x Hx. unfold below. split; [apply Z.div_pos; unfold sp in *; lia|apply Z.div_lt_upper_bound; lia]. }
  step E'. cbn [Z.ltb Z.compare]. exists k', (write um1 sp (mjoin (le_bytes 4 <$> us))). split; [done|]. split; [done|]. split; [by eapply within_trans|]. split; [|split].
  - intros x Hx. rewrite write_out by lia. apply Hout. unfold sp in Hx. lia.
  - apply write_at.
  - intros i s p Hi Hp j b Hj. rewrite write_out; [exact (Hstr i s p Hi Hp j b Hj)|]. right. destruct (arg_ptrs_bound args _ _ _ _ Hi Hp) as [Hb _].
    fold bot in Hb. lia.
Qed.
End stack.
