(* ===== verification/ExecRuns.v ===== *)
(** [exec] as a whole: it runs a well-formed executable, and when memory runs
    short nothing has changed. *)

From S2P Require Import Prelude UnixFile CString Kalloc Fs FsFile Vm VmProofs VmUser VmSetup VmCopy Exec ExecProofs.
From S2P Require Proc.

(** ** The whole call *)

Lemma safestrcpy_bytes_some t : ∀ n, 0 ∈ t → ∃ bs, safestrcpy_bytes t n = Some bs.
Proof.
  induction t as [|b t IH]; intros n Hin; [by apply elem_of_nil in Hin|]. destruct n as [|n]; cbn [safestrcpy_bytes]; [by eexists|].
  case_decide; [by eexists|]. destruct (Z.eqb_spec b 0) as [->|Hb]; [by eexists|].
  apply elem_of_cons in Hin as [Hin|Hin]; [done|]. destruct (IH n Hin) as [bs ->]. by eexists.
Qed.
Lemma safestrcpy_some s t n : 0 ∈ t → (n ≤ length s)%nat → ∃ r, safestrcpy s t n = Some r.
Proof.
  intros Hin Hn. unfold safestrcpy. destruct (safestrcpy_bytes_some t n Hin) as [bs ->]. cbn. rewrite decide_True by done. by eexists.
Qed.

(** The bytes [c] are a program: the header, its segments and its entry. *)
Record program (c : list Z) (phs : list proghdr) (entry : Z) : Prop := {
  pr_bytes : Forall is_byte c;
  pr_length : SIZEOF_ELFHDR ≤ Z.of_nat (length c) < 2147483648;
  pr_magic : e_magic (dec_elfhdr c) = ELF_MAGIC;
  pr_entry : e_entry (dec_elfhdr c) = entry;
  pr_phdrs : phs = phdrs c (Z.to_nat (e_phnum (dec_elfhdr c))) (e_phoff (dec_elfhdr c));
  pr_inside : e_phoff (dec_elfhdr c) + SIZEOF_PROGHDR * e_phnum (dec_elfhdr c) ≤ Z.of_nat (length c);
  pr_loadable : Forall (loadable c) phs
}.

Lemma dec_elfhdr_take junk c : (52 ≤ length c)%nat → dec_elfhdr (overlay junk (take 52 c)) = dec_elfhdr c.
Proof.
  intros Hc. assert (∀ a n, (a + n ≤ 52)%nat → slice a n (overlay junk (take 52 c)) = slice a n c) as Hs.
  { intros a n Han. apply list_eq. intros j. rewrite !lookup_slice. case_decide; [|done]. unfold overlay. rewrite lookup_app_l, lookup_take by (rewrite ?length_take; lia).
    by rewrite decide_True by lia. }
  unfold dec_elfhdr, wordk. by rewrite !Hs by lia.
Qed.

(** The program reads the bytes [bs] from [a] on. *)
Definition shows (k : kmem_t) (pgdir a : Z) (bs : list Z) : Prop := ∀ i b, bs !! i = Some b → uread k pgdir (a + Z.of_nat i) = Some b.

Lemma shows_at kend k d l n um a bs : user_ok kend k d l (below n) um → 0 ≤ a → a + Z.of_nat (length bs) ≤ n * 4096 → at_bytes um a bs → shows k d a bs.
Proof.
  intros I Ha Hn Hb i b Hi. pose proof (lookup_lt_Some _ _ _ Hi). rewrite (uread_user kend k d l (below n) um) by (done || (unfold below; split; [apply Z.div_pos; lia|apply Z.div_lt_upper_bound; lia])).
  f_equal. by apply Hb.
Qed.

Section run.
Context `{Devsw} (kend data : Z) (Hend : 0 < kend) (Hdata : data `mod` 4096 = 0 ∧ 0x100000 < data < PHYSTOP).
Context (junk junk_elf : list Z).

(** The header is a program's, and the new address space is beside the old. *)
Lemma load_program_setup ip f c phs entry k pg l D um : program c phs entry → reads (readi ip) f c →
  user_ok kend k pg l D um → (18 ≤ length l)%nat →
  ∃ d k' l', load_program kend data junk_elf ip (f, k) = (sz ← load_segments kend (Z.to_nat (e_phnum (dec_elfhdr c))) d ip (e_phoff (dec_elfhdr c)) 0;
      match sz with
      | None => mret (d, Some ip, None)
      | Some sz => on_fs (iunlockput ip);; mret (d, None, Some (sz, entry))
      end) (f, k') ∧ d ≠ 0 ∧
    user_ok kend k' d l' (below (pages 0)) (λ _, 0) ∧ user_ok kend k' pg l' D um ∧ apart k' pg d D (below (pages 0)) ∧
    (∀ p, p ∈ l ↔ mine k' d l' (below (pages 0)) p) ∧ (∀ p, uses k' pg D p ↔ uses k pg D p) ∧
    Z.of_nat (length l) ≤ Z.of_nat (length l') + 18.
Proof.
  intros [Hby [Hlen1 Hlen2] Hmg He Hph Hin Hld] Hr I Hl. unfold SIZEOF_ELFHDR in Hlen1.
  assert (is_u32 (e_phoff (dec_elfhdr c))) as [Hpo _] by by apply wordk_u32.
  assert (0 ≤ e_phnum (dec_elfhdr c)) as Hpn by by apply le_val_range, Forall_take, Forall_drop.
  unfold SIZEOF_PROGHDR in Hin. unfold load_program, on_fs at 1, on_mem, SIZEOF_ELFHDR.
  pose proof (Hr 0 52 ltac:(lia) ltac:(lia) ltac:(lia)) as E0. rewrite drop_0 in E0. change (Z.to_nat 52) with 52%nat in E0.
  step (on_fst_Ok _ _ k _ _ E0). rewrite (u32_small 52) by done. rewrite Z.ltb_irrefl, dec_elfhdr_take by lia. rewrite Hmg, Z.eqb_refl. cbn [negb].
  destruct (setup_beside kend data Hend Hdata k pg l D um (λ _, 0) I) as (d & k1 & l1 & E1 & Hd & I1 & Io & Hap & Hl1 & Hm1 & Hu1); [lia|].
  step (on_snd_Ok _ f _ _ _ E1). rewrite (proj2 (Z.eqb_neq _ _)) by done.
  rewrite i32_small by (unfold is_i32; lia). rewrite He.
  assert (∀ v, below (pages 0) v ↔ nothing v) as Eb by (intros v; unfold below, nothing; change (pages 0) with 0; lia).
  assert (∀ q, uses k1 d (below (pages 0)) q ↔ uses k1 d nothing q) as Eu by (intros q; by apply uses_ext).
  exists d, k1, l1. split; [done|]. split; [done|]. split; [by eapply user_ext|]. split; [done|].
  split; [intros q Hq; rewrite Eu; by apply Hap|]. split; [intros q; unfold mine; rewrite Eu; apply Hm1|]. by split.
Qed.

(** The program is in its own memory, or there were too few pages and nothing
    of the old address space has changed. *)
Lemma load_program_cases ip f f' c phs entry k pg l D um : program c phs entry → reads (readi ip) f c → iunlockput ip f = Ok (tt, f') →
  user_ok kend k pg l D um → (18 ≤ length l)%nat →
  ∃ d k' l', d ≠ 0 ∧ user_ok kend k' pg l' D um ∧ (∀ p, uses k' pg D p ↔ uses k pg D p) ∧
   ((load_program kend data junk_elf ip (f, k) = Ok ((d, None, Some (image_size phs, entry)), (f', k')) ∧
     user_ok kend k' d l' (below (pages (image_size phs))) (image_mem c phs) ∧ zero_above (image_size phs) (image_mem c phs) ∧
     apart k' pg d D (below (pages (image_size phs))) ∧ (∀ p, p ∈ l ↔ mine k' d l' (below (pages (image_size phs))) p) ∧
     Z.of_nat (length l) ≤ Z.of_nat (length l') + 18 + pages (image_size phs)) ∨
    (Z.of_nat (length l) < 18 + pages (image_size phs) ∧ load_program kend data junk_elf ip (f, k) = Ok ((d, Some ip, None), (f, k')) ∧
     ∃ m um', user_ok kend k' d l' (below m) um' ∧ apart k' pg d D (below m) ∧ ∀ p, p ∈ l ↔ mine k' d l' (below m) p)).
Proof.
  intros Hpr Hr Hiu I Hl. destruct (load_program_setup ip f c phs entry k pg l D um Hpr Hr I Hl) as (d & k1 & l1 & E1 & Hd & I1 & Io & Hap & Hm1 & Hu1 & Hl1).
  destruct Hpr as [Hby [Hlen1 Hlen2] Hmg He Hph Hin Hld].
  assert (is_u32 (e_phoff (dec_elfhdr c))) as [Hpo _] by by apply wordk_u32.
  assert (0 ≤ e_phnum (dec_elfhdr c)) as Hpn by by apply le_val_range, Forall_take, Forall_drop.
  rewrite Hph in Hld |- *. set (n := Z.to_nat (e_phnum (dec_elfhdr c))) in *. set (off := e_phoff (dec_elfhdr c)) in *.
  assert (off + SIZEOF_PROGHDR * Z.of_nat n ≤ Z.of_nat (length c)) as Hin' by (unfold SIZEOF_PROGHDR, n in *; lia).
  assert (zero_above 0 (λ _, 0)) as Hz0 by by intros a _.
  destruct (decide (pages (image_size (phdrs c n off)) - pages 0 ≤ Z.of_nat (length l1))) as [Hfit|Hno].
  - destruct (load_segments_ok c Hby kend Hend ip f Hr Hlen2 n k1 d l1 off 0 (λ _, 0) I1 Hz0) as (k' & l' & E & I' & Hz & W & Hl'); [done..|].
    destruct (other_keeps kend k1 k' pg d l1 l' D _ _ um _ Io I' W Hap) as (Io' & Hap' & Hu').
    exists d, k', l'. split; [done|]. split; [done|]. split; [intros p; by rewrite Hu'|]. left. rewrite E1. step E.
    rewrite (bind_Ok (on_fs _) _ _ _ _ (on_fst_Ok _ _ k' _ _ Hiu)). split; [done|]. split; [done|]. split; [done|]. split; [done|].
    split; [intros p; by rewrite Hm1, (wi_mine _ _ _ _ _ _ _ _ W)|]. change (pages 0) with 0 in Hl'. unfold image_size in *. lia.
  - destruct (load_segments_fails c Hby kend Hend ip f Hr Hlen2 n k1 d l1 off 0 (λ _, 0) I1 Hz0) as (k' & l' & m & um' & E & I' & W); [done..|unfold image_size in Hno; lia|].
    destruct (other_keeps kend k1 k' pg d l1 l' D _ _ um _ Io I' W Hap) as (Io' & Hap' & Hu').
    exists d, k', l'. split; [done|]. split; [done|]. split; [intros p; by rewrite Hu'|]. right. change (pages 0) with 0 in *. split; [lia|].
    rewrite E1. step E. split; [done|]. exists m, um'. split; [done|]. split; [done|]. intros p. by rewrite Hm1, (wi_mine _ _ _ _ _ _ _ _ W).
Qed.

(** The stack page, and the arguments on it. *)
Lemma program_stack k d l sz um args : user_ok kend k d l (below (pages sz)) um → zero_above sz um → 0 ≤ sz → pages sz < 160 → l ≠ [] →
  Z.of_nat (length args) ≤ MAXARG → Forall (Forall is_byte) args →
  let top := (pages sz + 1) * 4096 in let sp := stack_sp top args in 0 ≤ sp →
  ∃ k1 k' um', allocuvm kend d (PGROUNDUP sz) (u32 (PGROUNDUP sz + PGSIZE)) k = Ok (top, k1) ∧
    push_stack args d top k1 = Ok (Some sp, k') ∧ user_ok kend k' d (tl l) (below (pages sz + 1)) um' ∧
    within kend k d l (below (pages sz)) k' (tl l) (below (pages sz + 1)) ∧ (∀ x, x < sp → um' x = um x) ∧
    at_bytes um' sp (mjoin (le_bytes 4 <$> [0xffffffff; Z.of_nat (length args); sp + 12] ++ arg_ptrs top args ++ [0])) ∧
    ∀ i s p, args !! i = Some s → arg_ptrs top args !! i = Some p → at_bytes um' p (s ++ [0]).
Proof.
  intros I Hz Hs Hp Hl Hmax Hby top sp Hsp. pose proof (pages_bounds sz) as Hpb.
  rewrite PGROUNDUP_pages by (unfold USERTOP; lia). unfold PGSIZE.
  assert (pages (pages sz * 4096) = pages sz ∧ pages top = pages sz + 1) as [Ep Et]. by (unfold top; by rewrite !pages_mul).
  replace (u32 (pages sz * 4096 + 4096)) with top by (unfold top; rewrite u32_small; unfold is_u32; lia).
  destruct l as [|t l]; [done|]. destruct (allocuvm_ok kend Hend k d (t :: l) um (pages sz * 4096) top) as (k1 & E1 & I1 & W1);
    [by rewrite Ep|unfold top; lia|unfold top, USERTOP; lia|rewrite Ep, Et; cbn [length]; lia|].
  rewrite Ep, Et in *. replace (pages sz + 1 - pages sz) with 1 in * by lia. cbn [Z.to_nat Pos.to_nat Pos.iter_op Init.Nat.add drop] in *.
  assert (user_ok kend k1 d l (below (pages sz + 1)) um) as I1'.
  { eapply user_ext; [exact I1|done|]. intros v o _ _. cbn beta. case_decide; [done|]. apply Hz. lia. }
  destruct (push_stack_ok kend Hend k1 d l (pages sz + 1) um args I1' Hmax Hby Hsp) as (k' & um' & E2 & I2 & W2 & H1 & H2 & H3).
  exists k1, k', um'. split; [done|]. split; [done|]. split; [done|]. split; [by eapply within_trans|]. by split.
Qed.

(** Up to the loading. *)
Lemma exec_start path argv f f1 f2 f3 ip k p cwd d ip' prog k' :
  Proc.p_cwd p = Some cwd → namei junk cwd path f = Ok (Some ip, f1) → ilock ip f1 = Ok (tt, f2) →
  load_program kend data junk_elf ip (f2, k) = Ok ((d, ip', prog), (f3, k')) →
  exec kend data junk junk_elf path argv ((f, k), p) = match prog with
    | None => exec_bad kend d ip'
    | Some (sz, entry) => exec_image kend path argv d sz entry
    end ((f3, k'), p).
Proof.
  intros Hcwd Hni Hil E. unfold exec, on_fs. rewrite (bind_Ok get _ _ _ _ eq_refl). cbn [snd fst]. rewrite Hcwd. step (need_Some cwd (f, k, p)).
  step (on_fst_Ok _ _ p _ _ (on_fst_Ok _ _ k _ _ Hni)). step (on_fst_Ok _ _ p _ _ (on_fst_Ok _ _ k _ _ Hil)). by step (on_fst_Ok _ _ p _ _ E).
Qed.

(** From there on, when the stack can be had. *)
Lemma exec_image_ok path argv f k p d sz entry top sp k1 k2 k3 : (16 ≤ length (Proc.p_name p))%nat → top ≠ 0 →
  allocuvm kend d (PGROUNDUP sz) (u32 (PGROUNDUP sz + PGSIZE)) k = Ok (top, k1) → push_stack argv d top k1 = Ok (Some sp, k2) →
  freevm kend (Proc.p_pgdir p) k2 = Ok (tt, k3) →
  ∃ name, exec_image kend path argv d sz entry ((f, k), p) =
    Ok (0, ((f, k3), Proc.set_image top d (Proc.mkTf (Proc.tf_eax (Proc.p_tf p)) entry sp (Proc.tf_rest (Proc.p_tf p))) (Proc.set_name name p))).
Proof.
  intros Hnm Ht E2 E3 E4.
  destruct (safestrcpy_some (Proc.p_name p) (last_elem path path ++ [0]) 16) as [name Ename]; [apply elem_of_app; right; by left|done|].
  exists name. unfold exec_image, on_mem. cbv zeta. step (on_fst_Ok _ _ p _ _ (on_snd_Ok _ f _ _ _ E2)). rewrite (proj2 (Z.eqb_neq top 0)) by done.
  step (on_fst_Ok _ _ p _ _ (on_snd_Ok _ f _ _ _ E3)). rewrite (bind_Ok get _ _ _ _ eq_refl). cbn [snd fst]. rewrite Ename.
  step (need_Some name (f, k2, p)). rewrite (bind_Ok (put _) _ _ _ _ eq_refl).
  pose proof (on_fst_Ok _ _ (Proc.set_image top d (Proc.mkTf (Proc.tf_eax (Proc.p_tf p)) entry sp (Proc.tf_rest (Proc.p_tf p))) (Proc.set_name name p))
    _ _ (on_snd_Ok _ f _ _ _ E4)) as E. by step E.
Qed.

(** The label [bad]: the new pages are free again, and the old space is as it
    was. *)
Lemma exec_bad_ok f f' ip k p d l D D' um um' : d ≠ 0 → user_ok kend k (Proc.p_pgdir p) l D um → user_ok kend k d l D' um' →
  apart k (Proc.p_pgdir p) d D D' → match ip with Some ip => iunlockput ip f = Ok (tt, f') | None => f' = f end →
  ∃ k' l', exec_bad kend d ip ((f, k), p) = Ok (-1, ((f', k'), p)) ∧ user_ok kend k' (Proc.p_pgdir p) l' D um ∧
    ∀ q, q ∈ l' ↔ mine k d l D' q.
Proof.
  intros Hd I I' Hap Hip. assert (apart k d (Proc.p_pgdir p) D' D) as Hap' by (intros q H1 H2; by apply (Hap q)).
  destruct (freevm_beside kend Hend k d _ l D' D um' um I' I Hap') as (k' & l' & E & I2 & Hl & _). exists k', l'. split; [|by split].
  unfold exec_bad, on_fs, on_mem. rewrite (proj2 (Z.eqb_neq d 0)) by done. cbn [negb when].
  step (on_fst_Ok _ _ p _ _ (on_snd_Ok _ f _ _ _ E)). destruct ip as [ip|]; [|by subst f'].
  by step (on_fst_Ok _ _ p _ _ (on_fst_Ok _ _ k' _ _ Hip)).
Qed.

(** The stack page cannot be had. *)
Lemma stack_fails k d sz um : user_ok kend k d [] (below (pages sz)) um → 0 ≤ sz → pages sz < 160 →
  ∃ k' l', allocuvm kend d (PGROUNDUP sz) (u32 (PGROUNDUP sz + PGSIZE)) k = Ok (0, k') ∧ user_ok kend k' d l' (below (pages sz)) um ∧
    within kend k d [] (below (pages sz)) k' l' (below (pages sz)).
Proof.
  intros I Hs Hp. pose proof (pages_bounds sz) as Hpb. rewrite PGROUNDUP_pages by (unfold USERTOP; lia). unfold PGSIZE.
  pose proof (pages_mono 0 sz Hs) as Hp0. change (pages 0) with 0 in Hp0.
  replace (pages sz * 4096 + 4096) with ((pages sz + 1) * 4096) by lia. rewrite u32_small by (unfold is_u32; lia).
  destruct (allocuvm_fails kend Hend k d [] um (pages sz * 4096) ((pages sz + 1) * 4096)) as (k' & l' & E & I' & W);
    rewrite ?pages_mul in *; [done|lia|unfold USERTOP; lia|cbn [length]; lia|]. by exists k', l'.
Qed.

(** C9: [exec] runs a program: for a file that holds a well-formed executable
    (its loadable segments page-aligned, inside the file and below [USERTOP])
    and arguments that fit, the call succeeds; every byte below the stack
    pointer is the one that the segments put there, zero where they put none;
    the stack pointer points to the return address, [argc], [argv] and the
    array, whose entries point to the strings; the program counter is the
    header's entry. The old address space is gone, and the free pages and the
    pages of the new one are the pages there were before. *)
Theorem exec_runs path argv f f1 f2 f3 ip k p cwd l D um c phs entry :
  Proc.p_cwd p = Some cwd → namei junk cwd path f = Ok (Some ip, f1) → ilock ip f1 = Ok (tt, f2) → reads (readi ip) f2 c →
  iunlockput ip f2 = Ok (tt, f3) → program c phs entry → (16 ≤ length (Proc.p_name p))%nat →
  user_ok kend k (Proc.p_pgdir p) l D um → 19 + pages (image_size phs) ≤ Z.of_nat (length l) → pages (image_size phs) < 160 →
  Z.of_nat (length argv) ≤ MAXARG → Forall (Forall is_byte) argv →
  let n := pages (image_size phs) + 1 in let top := n * 4096 in let sp := stack_sp top argv in 0 ≤ sp →
  ∃ d k' l' um' name, exec kend data junk junk_elf path argv ((f, k), p) =
      Ok (0, ((f3, k'), Proc.set_image top d (Proc.mkTf (Proc.tf_eax (Proc.p_tf p)) entry sp (Proc.tf_rest (Proc.p_tf p))) (Proc.set_name name p))) ∧
    user_ok kend k' d l' (below n) um' ∧
    (∀ a, 0 ≤ a < sp → uread k' d a = Some (image_mem c phs a)) ∧
    shows k' d sp (mjoin (le_bytes 4 <$> [0xffffffff; Z.of_nat (length argv); sp + 12] ++ arg_ptrs top argv ++ [0])) ∧
    (∀ i s q, argv !! i = Some s → arg_ptrs top argv !! i = Some q → shows k' d q (s ++ [0])) ∧
    ∀ q, mine k' d l' (below n) q ↔ mine k (Proc.p_pgdir p) l D q.
Proof.
  intros Hcwd Hni Hil Hr Hiu Hpr Hnm I Hl Hpg Hmax Hby n top sp Hsp. pose proof (image_pages phs) as Hp0.
  destruct (load_program_cases ip f2 f3 c phs entry k (Proc.p_pgdir p) l D um Hpr Hr Hiu I ltac:(lia))
    as (d & k1 & l1 & Hd & Io1 & Hu1 & [(E1 & I1 & Hz & Hap & Hm1 & Hl1)|[Hno _]]); [|lia].
  destruct (program_stack k1 d l1 (image_size phs) _ argv I1 Hz (seg_size_ge phs 0) Hpg) as (k2 & k3 & um' & E2 & E3 & I3 & W3 & H1 & H2 & H3);
    [destruct l1; [cbn [length] in Hl1; lia|done]|done|done|done|].
  fold n top sp in E2, E3, I3, W3, H1, H2, H3. pose proof (arg_bottom_le argv top) as Hbt. assert (sp = arg_bottom top argv - (Z.of_nat (length argv) + 4) * 4) as Esp by done.
  destruct (other_keeps kend k1 k3 _ d l1 _ D _ _ um _ Io1 I3 W3 Hap) as (Io3 & Hap3 & Hu3).
  destruct (freevm_beside kend Hend k3 _ d (tl l1) D _ _ _ Io3 I3 Hap3) as (k4 & l4 & E4 & I4 & Hm4 & Hu4).
  destruct (exec_image_ok path argv f3 k1 p d (image_size phs) entry top sp k2 k3 k4 Hnm) as [name E5]; [unfold top; lia|done|done|done|].
  exists d, k4, l4, um', name. split; [by rewrite (exec_start path argv f f1 f2 f3 ip k p cwd _ _ _ _ Hcwd Hni Hil E1)|]. split; [done|]. split; [|split; [|split]].
  - intros a Ha. rewrite (uread_user _ _ _ _ _ _ _ I4); [|unfold below; split; [apply Z.div_pos; lia|apply Z.div_lt_upper_bound; lia]].
    f_equal. apply H1, Ha.
  - eapply shows_at; [exact I4|done| |done]. rewrite length_word_bytes, !length_app, length_arg_ptrs. cbn [length]. lia.
  - intros i s q Hi Hq. destruct (arg_ptrs_bound argv _ _ _ _ Hi Hq). eapply shows_at; [exact I4|lia| |by apply (H3 i)].
    rewrite length_app. cbn [length]. lia.
  - intros q. pose proof (Hm4 q) as G1. pose proof (Hu4 q) as G2. pose proof (wi_mine _ _ _ _ _ _ _ _ W3 q) as G3. pose proof (Hm1 q) as G4.
    pose proof (Hu3 q) as G5. pose proof (Hu1 q) as G6.
    rewrite <-G3 in G4. unfold mine in *. rewrite G1, G2. clear -G4 G5 G6. tauto.
Qed.
(** C18: [exec] is all or nothing when memory runs short, with at least 18 pages
    free (enough for a page directory and its kernel tables; with fewer,
    [setupkvm] may fail half-way and does not free what it has). The call on a
    well-formed executable, with arguments that fit, succeeds, and then there
    were pages for the image, a stack and a directory; or it returns -1 for
    want of pages, and then the process, its address space and its bytes are as
    before, the file is unlocked, and the free pages are the ones that were
    free. *)
Theorem exec_all_or_nothing path argv f f1 f2 f3 ip k p cwd l D um c phs entry :
  Proc.p_cwd p = Some cwd → namei junk cwd path f = Ok (Some ip, f1) → ilock ip f1 = Ok (tt, f2) → reads (readi ip) f2 c →
  iunlockput ip f2 = Ok (tt, f3) → program c phs entry → (16 ≤ length (Proc.p_name p))%nat →
  user_ok kend k (Proc.p_pgdir p) l D um → (18 ≤ length l)%nat → pages (image_size phs) < 160 →
  Z.of_nat (length argv) ≤ MAXARG → Forall (Forall is_byte) argv → 0 ≤ stack_sp ((pages (image_size phs) + 1) * 4096) argv →
  ∃ r k' p', exec kend data junk junk_elf path argv ((f, k), p) = Ok (r, ((f3, k'), p')) ∧
    (r = 0 ∧ pages (image_size phs) + 2 ≤ Z.of_nat (length l) ∨
     r = -1 ∧ Z.of_nat (length l) < 19 + pages (image_size phs) ∧ p' = p ∧
      ∃ l', user_ok kend k' (Proc.p_pgdir p) l' D um ∧ ∀ q, q ∈ l' ↔ q ∈ l).
Proof.
  intros Hcwd Hni Hil Hr Hiu Hpr Hnm I Hl Hpg Hmax Hby Hsp. pose proof (image_pages phs) as Hp0.
  destruct (load_program_cases ip f2 f3 c phs entry k (Proc.p_pgdir p) l D um Hpr Hr Hiu I Hl)
    as (d & k1 & l1 & Hd & Io1 & Hu1 & [(E1 & I1 & Hz & Hap & Hm1 & Hl1)|(Hno & E1 & m & um' & I1 & Hap & Hm1)]);
    rewrite (exec_start path argv f f1 f2 _ ip k p cwd _ _ _ _ Hcwd Hni Hil E1).
  - pose proof (seg_size_ge phs 0) as Hs0. destruct (decide (l1 = [])) as [->|Hl0].
    + destruct (stack_fails k1 d (image_size phs) _ I1 Hs0 Hpg) as (k2 & l2 & E2 & I2 & W2).
      destruct (other_keeps kend k1 k2 _ d [] l2 D _ _ um _ Io1 I2 W2 Hap) as (Io2 & Hap2 & _).
      destruct (exec_bad_ok f3 f3 None k2 p d l2 D _ um _ Hd Io2 I2 Hap2 eq_refl) as (k3 & l3 & E3 & I3 & Hl3).
      exists (-1), k3, p. split; [unfold exec_image, on_mem; cbv zeta; by step (on_fst_Ok _ _ p _ _ (on_snd_Ok _ f3 _ _ _ E2))|].
      right. split; [done|]. split; [cbn [length] in Hl1; lia|]. split; [done|]. exists l3. split; [done|]. intros q. by rewrite Hl3, (wi_mine _ _ _ _ _ _ _ _ W2), Hm1.
    + destruct (program_stack k1 d l1 (image_size phs) _ argv I1 Hz Hs0 Hpg Hl0 Hmax Hby Hsp) as (k2 & k3 & um' & E2 & E3 & I3 & W3 & _).
      destruct (other_keeps kend k1 k3 _ d l1 _ D _ _ um _ Io1 I3 W3 Hap) as (Io3 & Hap3 & _).
      destruct (freevm_beside kend Hend k3 _ d (tl l1) D _ _ _ Io3 I3 Hap3) as (k4 & l4 & E4 & _).
      assert ((pages (image_size phs) + 1) * 4096 ≠ 0) as Hnz by lia.
      destruct (exec_image_ok path argv f3 k1 p d (image_size phs) entry _ _ _ _ _ Hnm Hnz E2 E3 E4) as [name E5].
      rewrite E5. do 3 eexists. split; [done|]. left. split; [done|].
      pose proof (user_pages_count kend k3 d (tl l1) (pages (image_size phs) + 1) um' l I3 ltac:(lia)) as Hcount.
      enough (pages (image_size phs) + 1 + 1 + Z.of_nat (length (tl l1)) ≤ Z.of_nat (length l)) by lia.
      apply Hcount. intros q. by rewrite (wi_mine _ _ _ _ _ _ _ _ W3), Hm1.
  - destruct (exec_bad_ok f2 f3 (Some ip) k1 p d l1 D _ um _ Hd Io1 I1 Hap Hiu) as (k3 & l3 & E3 & I3 & Hl3).
    exists (-1), k3, p. split; [done|]. right. split; [done|]. split; [lia|]. split; [done|]. exists l3. split; [done|]. intros q. by rewrite Hl3, Hm1.
Qed.
End run.

(** ** A program on the disk *)

(** A file whose blocks are good can be read as [exec] reads it. *)
Lemma reads_file `{Devsw} ip i s d : icache s !! ip = Some i → i_type i ≠ T_DEV → 0 ≤ i_size i < 2147483648 →
  (∀ k, 0 ≤ k → k * BSIZE < i_size i → block_good s ip i d k) → reads (readi ip) s (content d 0 (i_size i)).
Proof.
  intros Hi Ht Hs Hg off n Ho Hn Hc. assert (Z.of_nat (length (content d 0 (i_size i))) = i_size i) as Hl.
  { unfold content. rewrite length_fmap, length_seqZ. lia. }
  rewrite Hl in Hc. rewrite (readi_run ip i off n s Hi Ht) by lia. cbv zeta. rewrite Z.min_l by lia.
  rewrite (readi_loop_all ip i s d off n Ho Hn) by (intros k Hk Hkn; apply Hg; [done|lia]). rewrite i32_small by (unfold is_i32; lia).
  do 3 f_equal. replace (i_size i) with (off + (n + (i_size i - off - n))) by lia.
  rewrite <-content_app, drop_app_length' by (unfold content; rewrite ?length_fmap, ?length_seqZ; lia). rewrite Z.add_0_l.
  rewrite <-content_app, take_app_length' by (unfold content; rewrite ?length_fmap, ?length_seqZ; lia). done.
Qed.

(** [/init]: one segment of five bytes in the file and 5000 in memory. *)
#[local] Instance no_devices : Devsw := {| dev_read _ := None; dev_write _ := None |}.
Definition init_bytes (memsz : Z) : list Z :=
  le_bytes 4 ELF_MAGIC ++ replicate 20 0 ++ le_bytes 4 3 ++ le_bytes 4 52 ++ replicate 12 0 ++ le_bytes 4 1 ++ replicate 4 0 ++
  mjoin (le_bytes 4 <$> [1; 84; 0; 0; 5; memsz; 7; 4096]) ++ [104; 101; 108; 108; 111].
Definition init_block (memsz : Z) : list Z := init_bytes memsz ++ replicate (512 - length (init_bytes memsz)) 0.
Definition root_block : list Z := le_bytes 2 2 ++ zstr "init" ++ replicate (510 - length (zstr "init")) 0.
Definition root_inode : inode := mkInode 1 1 1 2 T_DIR 0 0 1 512 (60 :: replicate 12 0).
Definition init_inode : inode := mkInode 1 2 1 2 T_FILE 0 0 1 89 (50 :: replicate 12 0).
Definition init_fs (memsz : Z) : fs := mkFs {[ (1, 50) := init_block memsz; (1, 60) := root_block ]} ∅ [root_inode; init_inode].
Definition init_argv : list (list Z) := [[105]; [104; 105]].
Definition init_path : list Z := SLASH :: zstr "init".
Definition init_name : list Z := replicate 14 0.
Definition init_looked (memsz : Z) : fs := match namei init_name 0 init_path (init_fs memsz) with Ok (_, s) => s | _ => init_fs memsz end.
Definition init_locked (memsz : Z) : fs := match ilock 1 (init_looked memsz) with Ok (_, s) => s | _ => init_fs memsz end.
Definition init_put (memsz : Z) : fs := match iunlockput 1 (init_locked memsz) with Ok (_, s) => s | _ => init_fs memsz end.
Definition init_phdrs (memsz : Z) : list proghdr := phdrs (init_bytes memsz) 1 52.

(** A program of two pages, and one of 150, more than there are. *)
Definition small_size : Z := 5000.
Definition large_size : Z := 614400.
Definition demo_size (z : Z) : Prop := z = small_size ∨ z = large_size.

Lemma init_lookups z : demo_size z →
  namei init_name 0 init_path (init_fs z) = Ok (Some 1%nat, init_looked z) ∧ ilock 1 (init_looked z) = Ok (tt, init_locked z) ∧
  iunlockput 1 (init_locked z) = Ok (tt, init_put z).
Proof. intros [-> | ->]; split_and!; vm_compute; reflexivity. Qed.

Lemma init_reads z : demo_size z → reads (readi 1) (init_locked z) (init_bytes z).
Proof.
  intros Hz. assert (init_bytes z = content (λ _, init_block z) 0 89) as -> by (destruct Hz as [-> | ->]; vm_compute; reflexivity).
  apply (reads_file 1 (set_flags 3 (set_ref 2 init_inode)) (init_locked z) (λ _, init_block z)); [by destruct Hz as [-> | ->]; vm_compute|done|by vm_compute|].
  unfold BSIZE. intros k Hk Hs. assert (k = 0) as -> by (change (i_size _) with 89 in Hs; lia).
  assert (mapped (init_locked z) 1 (set_flags 3 (set_ref 2 init_inode)) 0 50) as Hm.
  { constructor; [by destruct Hz as [-> | ->]; vm_compute|lia| |done| |done].
    - eexists. split; [vm_compute; reflexivity|]. by vm_compute.
    - by vm_compute. }
  exists 50, 50. split; [exact Hm|]. destruct Hz as [-> | ->]; (split; [by vm_compute|]); (split; [by vm_compute|]); (split; [by vm_compute|]); by intros ?.
Qed.

Lemma init_program z : demo_size z → program (init_bytes z) (init_phdrs z) 3.
Proof.
  intros [-> | ->]; (split; [apply (bool_decide_unpack _); vm_compute; exact Logic.I|split; by vm_compute|by vm_compute|by vm_compute|reflexivity|by vm_compute|]);
    unfold init_phdrs; cbn [phdrs]; apply Forall_singleton; intros _; by vm_compute.
Qed.

(** A process that has no memory yet. *)
Definition init_proc (pgdir : Z) : Proc.proc :=
  Proc.mkProc 0 pgdir 0 Proc.RUNNING 1 None (Proc.mkTf 0 0 4096 []) 0 0 [] (Some 0%nat) (replicate 16 0).

(** The first page holds the file's bytes, then zeroes; the registers are the
    entry's and the stack's. *)
Lemma exec_runs_witness : ∃ k d s, setupkvm demo_data k = Ok (d, s) ∧ ∃ k' p',
  exec demo_end demo_data init_name [] init_path init_argv (((init_fs small_size), s), init_proc d) = Ok (0, (((init_put small_size), k'), p')) ∧
  uread k' (Proc.p_pgdir p') 0 = Some 104 ∧ uread k' (Proc.p_pgdir p') 4999 = Some 0 ∧ Proc.tf_eip (Proc.p_tf p') = 3 ∧
  shows k' (Proc.p_pgdir p') 12284 [105; 0] ∧ shows k' (Proc.p_pgdir p') 12280 [104; 105; 0].
Proof.
  destruct boot_setup as (k0 & k & d & l & _ & E & I & Hl). exists k0, d, k. split; [exact E|]. destruct (init_lookups small_size ltac:(by left)) as (L1 & L2 & L3).
  assert (pages (image_size (init_phdrs small_size)) = 2) as Hp by (vm_compute; reflexivity).
  assert (stack_sp ((2 + 1) * 4096) init_argv = 12256) as Hsp by (vm_compute; reflexivity).
  assert (image_mem (init_bytes small_size) (init_phdrs small_size) 0 = 104 ∧ image_mem (init_bytes small_size) (init_phdrs small_size) 4999 = 0) as [Hi1 Hi2] by (split; vm_compute; reflexivity).
  assert (Forall (Forall is_byte) init_argv) as Hby by (apply (bool_decide_unpack _); vm_compute; exact Logic.I).
  assert (arg_ptrs ((2 + 1) * 4096) init_argv = [12284; 12280]) as Hptr by (vm_compute; reflexivity).
  destruct (exec_runs demo_end demo_data eq_refl demo_data_ok init_name [] init_path init_argv (init_fs small_size) (init_looked small_size) (init_locked small_size) (init_put small_size) 1 k (init_proc d) 0 l
    nothing (λ _, 0) (init_bytes small_size) (init_phdrs small_size) 3 eq_refl L1 L2 (init_reads small_size ltac:(by left)) L3 (init_program small_size ltac:(by left)) (le_n 16) I) as (d' & k' & l' & um' & name & Ex & _ & Hb & _ & Ha & _);
    rewrite ?Hp, ?Hsp in *; [lia|lia|by compute|exact Hby|lia|].
  pose proof (Hb 0 ltac:(lia)) as H0. rewrite Hi1 in H0. pose proof (Hb 4999 ltac:(lia)) as H1. rewrite Hi2 in H1. rewrite Hptr in Ha.
  exists k'. eexists. split; [exact Ex|]. split; [exact H0|]. split; [exact H1|]. split; [reflexivity|].
  split; [exact (Ha 0%nat _ _ eq_refl eq_refl)|exact (Ha 1%nat _ _ eq_refl eq_refl)].
Defined.

(** With 100 pages the large program does not fit. *)
Lemma exec_all_or_nothing_witness : ∃ k d s (l : list Z), setupkvm demo_data k = Ok (d, s) ∧ user_ok demo_end s d l nothing (λ _, 0) ∧ ∃ k' l',
  exec demo_end demo_data init_name [] init_path init_argv ((init_fs large_size, s), init_proc d) = Ok (-1, ((init_put large_size, k'), init_proc d)) ∧
  user_ok demo_end k' d l' nothing (λ _, 0) ∧ ∀ q, q ∈ l' ↔ q ∈ l.
Proof.
  destruct boot_setup as (k0 & k & d & l & _ & E & I & Hl). exists k0, d, k, l. split; [exact E|]. split; [exact I|]. destruct (init_lookups large_size ltac:(by right)) as (L1 & L2 & L3).
  assert (pages (image_size (init_phdrs large_size)) = 150) as Hp by (vm_compute; reflexivity).
  assert (stack_sp ((150 + 1) * 4096) init_argv = 618464) as Hsp by (vm_compute; reflexivity).
  assert (Forall (Forall is_byte) init_argv) as Hby by (apply (bool_decide_unpack _); vm_compute; exact Logic.I).
  destruct (exec_all_or_nothing demo_end demo_data eq_refl demo_data_ok init_name [] init_path init_argv (init_fs large_size) (init_looked large_size) (init_locked large_size)
    (init_put large_size) 1 k (init_proc d) 0 l nothing (λ _, 0) (init_bytes large_size) (init_phdrs large_size) 3 eq_refl L1 L2 (init_reads large_size ltac:(by right)) L3
    (init_program large_size ltac:(by right)) (le_n 16) I) as (r & k' & p' & Ex & Hr);
    rewrite ?Hp, ?Hsp in *; [lia|lia|by compute|exact Hby|lia|].
  destruct Hr as [(_ & Hno)|(-> & _ & -> & l' & I' & Hl')]; [lia|].
  exists k', l'. split; [exact Ex|]. split; [exact I'|exact Hl'].
Defined.
