(* ===== verification/Machine.v ===== *)
(** Processes on the real memory and files: the page allocator, the page tables
    and the file table take the place of the interface that [Proc.v] asks for,
    and [fork] and [growproc] are proved about the memory that programs see. *)

From S2P Require Import Prelude CString UnixFile Kalloc Fs File Vm VmProofs VmUser VmSetup VmCopy Proc ProcProofs.

(** ** Definitions *)

Abbreviation machine := (files * kmem_t)%type.

Section machine.
Context `{Devsw} (kend data : Z).
(** The first program, linked into the kernel, and [namex]'s name buffer. *)
Context (initcode junk : list Z).

(** A null page is no page. *)
Definition some_page (m : M kmem_t Z) : M machine (option Z) :=
  p ← on_snd m; mret (if p =? 0 then None else Some p).
Definition on_files {A} (m : M files A) : M machine unit := on_fst m;; mret tt.

#[local] Instance machine_kernel : Kernel machine := {
  kalloc := some_page Kalloc.kalloc;
  kfree p := on_snd (Kalloc.kfree kend p);
  setupkvm := some_page (Vm.setupkvm data);
  inituvm d := on_snd (Vm.inituvm d initcode);
  copyuvm pg sz := some_page (Vm.copyuvm kend data pg sz);
  freevm pg := on_snd (Vm.freevm kend pg);
  allocuvm pg old new := on_snd (Vm.allocuvm kend pg old new);
  deallocuvm pg old new := on_snd (Vm.deallocuvm kend pg old new);
  filedup f := on_files (File.filedup f);
  fileclose f := on_files (File.fileclose f);
  idup ip := on_files (File.lift (Fs.idup ip));
  iput ip := on_files (File.lift (Fs.iput ip));
  namei_root := on_fst (File.lift (Fs.namei junk 0 [SLASH]))
}.
End machine.

(** ** Growing and shrinking *)

Section grow.
Context `{Devsw} (kend data : Z) (initcode junk : list Z) (Hend : 0 < kend).
#[local] Instance kernel : Kernel machine := machine_kernel kend data initcode junk.

Lemma lift_Ok {K A} (m : M K A) (t : ptable) k a k' : m k = Ok (a, k') → lift m (t, k) = Ok (a, (t, k')).
Proof. intros E. unfold lift. cbn. by rewrite E. Qed.
Lemma proc_at_Ok {K} i p (t : ptable) (k : K) : procs t !! i = Some p → proc_at i (t, k) = Ok (p, (t, k)).
Proof. intros E. unfold proc_at. rewrite (bind_Ok table _ _ _ _ eq_refl). cbn [fst]. by rewrite E. Qed.

(** What [growproc] may come to. *)
Definition grown (k : kmem_t) (pg sz n : Z) (l : list Z) (um : Z → Z) (r : Z) (sz' : Z) (k' : kmem_t) : Prop :=
  ∃ l' um', user_ok kend k' pg l' (below (pages sz')) um' ∧ within kend k pg l (below (pages sz)) k' l' (below (pages sz')) ∧
    (∀ a, a < pages sz * PGSIZE → um' a = um a) ∧ (∀ a, pages sz * PGSIZE ≤ a → 0 < n → r = 0 → um' a = 0) ∧
    ((r = 0 ∧ sz' = sz + n) ∨
     (r = 0 ∧ sz' = sz ∧ sz + n < 0) ∨
     (r = -1 ∧ sz' = sz ∧ 0 < n ∧ (USERTOP < sz + n ∨ Z.of_nat (length l) < pages (sz + n) - pages sz))).

Lemma grow_memory k pg l sz n um : user_ok kend k pg l (below (pages sz)) um → 0 < sz ≤ USERTOP → is_i32 n → n ≠ 0 → sz + n ≠ 0 →
  ∃ x k', (if 0 <? n then Vm.allocuvm kend pg sz (u32 (sz + n)) else Vm.deallocuvm kend pg sz (u32 (sz + n))) k = Ok (x, k') ∧
    let r := if x =? 0 then -1 else 0 in let sz' := if x =? 0 then sz else x in grown k pg sz n l um r sz' k'.
Proof.
  intros I Hsz Hn Hn0 Hs. unfold is_i32, USERTOP in *. destruct (Z.ltb_spec 0 n) as [Hp|Hp].
  - rewrite u32_small by (unfold is_u32; lia). destruct (decide (USERTOP < sz + n)) as [Htop|Htop].
    { exists 0, k. split; [unfold Vm.allocuvm; by rewrite Z.gtb_ltb, (proj2 (Z.ltb_lt _ _)) by done|].
      exists l, um. split; [done|]. split; [apply within_refl|]. split; [done|]. split; [done|]. right. right. split_and!; try done. by left. }
    unfold USERTOP in Htop. destruct (decide (pages (sz + n) - pages sz ≤ Z.of_nat (length l))) as [Hfit|Hno].
    + destruct (allocuvm_ok kend Hend k pg l um sz (sz + n) I) as (k' & E & I' & W); [lia|unfold USERTOP; lia|done|].
      exists (sz + n), k'. split; [done|]. rewrite (proj2 (Z.eqb_neq _ _)) by lia. eexists _, _. split; [exact I'|]. split; [exact W|]. split; [|split; [|by left]].
      * intros a Ha. by rewrite decide_True.
      * intros a Ha _ _. by rewrite decide_False by lia.
    + destruct (allocuvm_fails kend Hend k pg l um sz (sz + n) I) as (k' & l' & E & I' & W); [lia|unfold USERTOP; lia|lia|].
      exists 0, k'. split; [done|]. exists l', um. split; [done|]. split; [done|]. split; [done|]. split; [done|].
      right. right. split_and!; try done. right. lia.
  - destruct (decide (sz + n < 0)) as [Hneg|Hpos].
    + exists sz, k. replace (u32 (sz + n)) with (sz + n + 4294967296) by (unfold u32; rewrite <-(Z_mod_plus_full _ 1), Z.mod_small by lia; lia).
      split; [unfold Vm.deallocuvm; by rewrite Z.geb_leb, (proj2 (Z.leb_le _ _)) by lia|]. rewrite (proj2 (Z.eqb_neq _ _)) by lia.
      exists l, um. split; [done|]. split; [apply within_refl|]. split; [done|]. split; [lia|]. right. by left.
    + rewrite u32_small by (unfold is_u32; lia).
      destruct (deallocuvm_ok kend Hend k pg l _ um sz (sz + n) I) as (k' & l' & E & I' & W); [lia|unfold USERTOP; lia|].
      exists (sz + n), k'. split; [done|]. rewrite (proj2 (Z.eqb_neq _ _)) by lia. pose proof (pages_mono (sz + n) sz).
      exists l', um. split; [eapply user_ext; [exact I'|unfold below; lia|done]|]. split; [eapply within_ext; [exact W|unfold below; lia]|].
      split; [done|]. split; [lia|]. by left.
Qed.

(** C19: [sbrk] ([growproc]) by any amount but the whole size: the size becomes
    the sum, or the call fails because the sum is past [USERTOP] or the pages
    run out and the size stays; a negative sum changes nothing. The bytes that
    were there stay, new pages are zero, no page is lost to anybody, and other
    pages are not touched. *)
Theorem growproc_grows me (t : ptable) (fl : files) k p l um n : procs t !! me = Some p → user_ok kend k (p_pgdir p) l (below (pages (p_sz p))) um →
  0 < p_sz p ≤ USERTOP → is_i32 n → p_sz p + n ≠ 0 →
  ∃ r sz' k', growproc me n (t, (fl, k)) =
      Ok (r, (mkPtable (if r =? 0 then alter (λ q, set_image sz' (p_pgdir q) (p_tf q) q) me (procs t) else procs t) (initproc t) (nextpid t), (fl, k'))) ∧
    grown k (p_pgdir p) (p_sz p) n l um r sz' k'.
Proof.
  intros Hp I Hsz Hn Hs. unfold growproc. step (proc_at_Ok me p t (fl, k) Hp). destruct (Z.eqb_spec n 0) as [->|Hn0].
  { exists 0, (p_sz p), k. split; [reflexivity|]. exists l, um. split; [done|]. split; [apply within_refl|]. split; [done|]. split; [lia|]. left. split; [done|lia]. }
  destruct (grow_memory k (p_pgdir p) l (p_sz p) n um I Hsz Hn Hn0 Hs) as (x & k' & E & G).
  assert ((if 0 <? n then lift (Proc.allocuvm (p_pgdir p) (p_sz p) (u32 (p_sz p + n)))
           else if n <? 0 then lift (Proc.deallocuvm (p_pgdir p) (p_sz p) (u32 (p_sz p + n)))
           else mret (p_sz p)) (t, (fl, k)) = Ok (x, (t, (fl, k')))) as E'.
  { destruct (Z.ltb_spec 0 n); [|rewrite (proj2 (Z.ltb_lt n 0)) by lia]; apply lift_Ok, on_snd_Ok, E. }
  step E'. cbn [negb andb]. exists (if x =? 0 then -1 else 0), (if x =? 0 then p_sz p else x), k'. split; [|done]. destruct (x =? 0); [|reflexivity].
  by destruct t.
Qed.

(** [sbrk] by minus the whole size fails after it has freed the whole
    program: every page is unmapped and on the free list, -1 is returned and
    the size that the process has on record is the old one. *)
Theorem growproc_minus_size me (t : ptable) (fl : files) k p l um : procs t !! me = Some p → user_ok kend k (p_pgdir p) l (below (pages (p_sz p))) um →
  0 < p_sz p ≤ USERTOP →
  ∃ k' l', growproc me (- p_sz p) (t, (fl, k)) = Ok (-1, (t, (fl, k'))) ∧ user_ok kend k' (p_pgdir p) l' nothing um ∧
    ∀ a, 0 ≤ a < USERTOP → uread k' (p_pgdir p) a = None.
Proof.
  intros Hp I Hsz. destruct (deallocuvm_ok kend Hend k (p_pgdir p) l _ um (p_sz p) 0 I) as (k' & l' & E & I' & _); [lia|lia|].
  assert (user_ok kend k' (p_pgdir p) l' nothing um) as I2.
  { eapply user_ext; [exact I'|intros v; unfold below, nothing; change (pages 0) with 0; lia|done]. }
  exists k', l'. split; [|split; [done|]].
  - unfold growproc. step (proc_at_Ok me p t (fl, k) Hp). rewrite (proj2 (Z.ltb_ge 0 _)), (proj2 (Z.ltb_lt _ 0)) by lia.
    replace (p_sz p + - p_sz p) with 0 by lia. assert (lift (Proc.deallocuvm (p_pgdir p) (p_sz p) (u32 0)) (t, (fl, k)) = Ok (0, (t, (fl, k')))) as E'.
    { apply lift_Ok, on_snd_Ok, E. }
    step E'. rewrite (proj2 (Z.eqb_neq _ _)) by lia. reflexivity.
  - intros a Ha. eapply uread_none; [exact I2|unfold USERTOP in *; lia|]. unfold nothing. tauto.
Qed.
End grow.

(** ** [fork] *)


Section fork.
Context `{Devsw} (kend data : Z) (initcode junk : list Z) (Hend : 0 < kend).
Context (Hdata : data `mod` 4096 = 0 ∧ 0x100000 < data < PHYSTOP).
#[local] Instance kernel' : Kernel machine := machine_kernel kend data initcode junk.













End fork.

(** ** A process of one page *)

#[local] Instance no_devices : Devsw := {| dev_read _ := None; dev_write _ := None |}.

Lemma boot_page : ∃ k d l, 0 < d ∧ user_ok demo_end k d l (below (pages 4096)) (λ _, 0) ∧ 81 ≤ Z.of_nat (length l).
Proof.
  destruct boot_setup as (k0 & k & d & l & _ & _ & I & Hl).
  assert (user_ok demo_end k d l (below (pages 0)) (λ _, 0)) as I0.
  { eapply user_ext; [exact I| |intros; reflexivity]. intros v. unfold below, nothing. change (pages 0) with 0. lia. }
  destruct (allocuvm_ok demo_end eq_refl k d l _ 0 4096 I0) as (k1 & _ & I1 & _); [lia|unfold USERTOP; lia|change (1 - 0 ≤ Z.of_nat (length l)); lia|].
  exists k1, d, (drop 1 l). pose proof (vo_dir _ _ _ _ (uo_vm _ _ _ _ _ _ I)) as [[_ [Hd _]] _]. split; [unfold demo_end in Hd; lia|]. split.
  - eapply user_ext; [exact I1|intros; reflexivity|]. intros v o _ _. cbn beta. by case_decide.
  - rewrite length_drop. lia.
Qed.

Definition page_proc (d : Z) : proc := mkProc 4096 d 0 RUNNING 1 None (mkTf 11 0 4096 []) 0 0 [Some 0%nat; None] (Some 0%nat) (zstr "init" ++ replicate 12 0).
Definition page_table (d : Z) : ptable := mkPtable [page_proc d; blank] (Some 0%nat) 2.
Definition one_file : files := mkFiles (mkFs ∅ ∅ []) [mkFile FD_INODE 1 1 1 0 0 0] ∅ [].

Lemma growproc_grows_witness : ∃ k d, 0 < d ∧ ∃ r sz' k', @growproc _ (machine_kernel demo_end demo_data [] []) 0 5000 (page_table d, (one_file, k)) =
    Ok (r, (mkPtable (if r =? 0 then alter (λ q, set_image sz' (p_pgdir q) (p_tf q) q) 0%nat (procs (page_table d)) else procs (page_table d)) (Some 0%nat) 2, (one_file, k'))) ∧
  r = 0 ∧ sz' = 9096 ∧ uread k' d 8192 = Some 0.
Proof.
  destruct boot_page as (k & d & l & Hd & I & Hl). exists k, d. split; [exact Hd|].
  destruct (growproc_grows demo_end demo_data [] [] eq_refl 0 (page_table d) one_file k (page_proc d) l (λ _, 0) 5000 eq_refl I) as (r & sz' & k' & E & G);
    [cbn [page_proc p_sz]; unfold USERTOP; lia|unfold is_i32; lia|discriminate|].
  exists r, sz', k'. split; [exact E|]. destruct G as (l' & um' & I' & _ & _ & Hz & Hc). cbn [page_proc p_sz p_pgdir] in *.
  assert (r = 0 ∧ sz' = 9096) as [-> ->].
  { destruct Hc as [[-> ->]|[(_ & _ & ?)|(_ & _ & _ & [?|Hp])]]; [split; [reflexivity|lia]|lia|unfold USERTOP in *; lia|].
    change (pages (4096 + 5000) - pages 4096) with 2 in Hp. lia. }
  split; [reflexivity|]. split; [reflexivity|]. rewrite (uread_user _ _ _ _ _ _ _ I') by (unfold below; change (pages 9096) with 3; change (8192 `div` 4096) with 2; lia).
  rewrite Hz; [reflexivity|change (pages 4096) with 1; unfold PGSIZE; lia|lia|reflexivity].
Defined.

Lemma growproc_minus_size_witness : ∃ k d, ∃ k', @growproc _ (machine_kernel demo_end demo_data [] []) 0 (-4096) (page_table d, (one_file, k)) =
    Ok (-1, (page_table d, (one_file, k'))) ∧ uread k' d 0 = None.
Proof.
  destruct boot_page as (k & d & l & Hd & I & Hl). exists k, d.
  destruct (growproc_minus_size demo_end demo_data [] [] eq_refl 0 (page_table d) one_file k (page_proc d) l (λ _, 0) eq_refl I) as (k' & l' & E & _ & Hn);
    [cbn [page_proc p_sz]; unfold USERTOP; lia|].
  exists k'. split; [exact E|]. apply (Hn 0). unfold USERTOP. lia.
Defined.

