(* ===== verification/Trap.v ===== *)
(** Traps ([xv6/kernel/trap.c]) and the system calls on processes
    ([xv6/kernel/sysproc.c]): every entry to the kernel from its dispatch to
    the return, with the points where the process is switched out. *)

From S2P Require Import Prelude Syscall Proc ProcProofs.

(** ** Definitions *)

Definition T_SYSCALL : Z := 64.
Definition T_IRQ0 : Z := 32.
Definition IRQ_TIMER : Z := 0.
Definition IRQ_KBD : Z := 1.
Definition IRQ_COM1 : Z := 4.
Definition IRQ_IDE : Z := 14.
Definition IRQ_SPURIOUS : Z := 31.
Definition DPL_USER : Z := 3.

(** The trap frame: the trap, the code segment and the registers that
    [Proc.v] keeps. *)
Record frame := mkFrame { f_trapno : Z; f_cs : Z; f_regs : trapframe }.
Definition from_user (f : frame) : bool := Z.land (f_cs f) 3 =? DPL_USER.

(** The handlers of the devices and the end-of-interrupt signal. *)
Class Devices (D : Type) := {
  ideintr : M D unit;
  kbdintr : M D unit;
  uartintr : M D unit;
  lapiceoi : M D unit
}.

Record tstate (K D : Type) := mkT { t_procs : ptable * K; ticks : Z; t_dev : D }.
Arguments mkT {K D} _ _ _.
Arguments t_procs {K D} _.
Arguments ticks {K D} _.
Arguments t_dev {K D} _.

(** Where a process that was switched out in the kernel goes on: in [trap]
    after [yield], in the loop of [sys_sleep] or of [wait], or in another call
    that sleeps. *)
Inductive kont := KYield | KSleep (ticks0 n : Z) | KWait | KOther (c : sysname).
(** How a stay in the kernel ends. *)
Inductive ending := Returns | Exits | Switched (k : kont).
(** How a system call ends. *)
Inductive result := Value (v : Z) | Exited | Asleep (k : kont).

Section trap.
Context {K D : Type} `{Kernel K} `{Devices D}.
(** [&ticks]; the user memory of a process; the calls of the other files, whose
    second run is after a sleep ([None]: asleep). *)
Context (tick_chan : Z) (view : K → proc → uproc).
Context (others : bool → sysname → nat → M (tstate K D) (option Z)).
#[local] Abbreviation MT := (M (tstate K D)).

Definition on_procs {A} (m : M (ptable * K) A) : MT A := λ s,
  match m (t_procs s) with
  | Ok (a, p) => Ok (a, mkT p (ticks s) (t_dev s))
  | Panic e => Panic e | Blocked => Blocked | Undef => Undef | NoFuel => NoFuel
  end.
Definition on_dev {A} (m : M D A) : MT A := λ s,
  match m (t_dev s) with
  | Ok (a, d) => Ok (a, mkT (t_procs s) (ticks s) d)
  | Panic e => Panic e | Blocked => Blocked | Undef => Undef | NoFuel => NoFuel
  end.
Definition this_proc (me : nat) : MT proc := on_procs (proc_at me).

(** *** System calls *)

(** Argument 0 of the caller. *)
Definition arg0 (me : nat) : MT (option Z) :=
  s ← get; p ← this_proc me; mret (argint (view (t_procs s).2 p) 0).

Definition sys_fork (me : nat) : MT Z := on_procs (fork me).
Definition sys_wait (me : nat) : MT (option Z) := on_procs (wait me).
Definition sys_kill (me : nat) : MT Z :=
  a ← arg0 me;
  match a with None => mret (-1) | Some pid => on_procs (kill pid) end.
Definition sys_getpid (me : nat) : MT Z := p ← this_proc me; mret (p_pid p).
Definition sys_sbrk (me : nat) : MT Z :=
  a ← arg0 me;
  match a with
  | None => mret (-1)
  | Some n =>
      p ← this_proc me;
      r ← on_procs (growproc me n);
      if r <? 0 then mret (-1) else mret (i32 (p_sz p))
  end.
(** The loop of [sys_sleep], up to the next sleep; the comparison is unsigned. *)
Definition sleep_loop (me : nat) (ticks0 n : Z) : MT (option Z) :=
  s ← get;
  if u32 (ticks s - ticks0) <? u32 n then
    p ← this_proc me;
    if ctrue (p_killed p) then mret (Some (-1)) else
    on_procs (sleep me tick_chan);; mret None
  else mret (Some 0).
Definition sys_sleep (me : nat) : MT result :=
  a ← arg0 me;
  match a with
  | None => mret (Value (-1))
  | Some n =>
      s ← get;
      r ← sleep_loop me (ticks s) n;
      mret (match r with Some v => Value v | None => Asleep (KSleep (ticks s) n) end)
  end.
Definition sys_uptime : MT Z := s ← get; mret (i32 (ticks s)).

Definition value (m : MT Z) : MT result := v ← m; mret (Value v).
Definition or_sleep (k : kont) (m : MT (option Z)) : MT result :=
  r ← m; mret (match r with Some v => Value v | None => Asleep k end).
Definition handler (me : nat) (c : sysname) : MT result :=
  match c with
  | SYS_fork => value (sys_fork me)
  | SYS_exit => on_procs (exit me);; mret Exited
  | SYS_wait => or_sleep KWait (sys_wait me)
  | SYS_kill => value (sys_kill me)
  | SYS_getpid => value (sys_getpid me)
  | SYS_sbrk => value (sys_sbrk me)
  | SYS_sleep => sys_sleep me
  | SYS_uptime => value sys_uptime
  | c => or_sleep (KOther c) (others false c me)
  end.
(** A call that was asleep goes on. *)
Definition go_on (me : nat) (k : kont) : MT result :=
  on_procs (sleep_resume me);;
  match k with
  | KSleep ticks0 n => or_sleep k (sleep_loop me ticks0 n)
  | KWait => or_sleep k (sys_wait me)
  | KOther c => or_sleep k (others true c me)
  | KYield => undef
  end.

Definition set_eax (v : Z) (p : proc) : proc :=
  set_image (p_sz p) (p_pgdir p) (mkTf (u32 v) (tf_eip (p_tf p)) (tf_esp (p_tf p)) (tf_rest (p_tf p))) p.

(** *** The trap *)

Definition exit_now (me : nat) : MT ending := on_procs (exit me);; mret Exits.

(** The end of a system call, [proc->tf->eax] and the second look at
    [proc->killed]. *)
Definition syscall_end (me : nat) (r : result) : MT ending :=
  match r with
  | Value v =>
      on_procs (upd me (set_eax v));;
      p ← this_proc me;
      if ctrue (p_killed p) then exit_now me else mret Returns
  | Exited => mret Exits
  | Asleep k => mret (Switched k)
  end.
Definition trap_syscall (me : nat) (f : frame) : MT ending :=
  p ← this_proc me;
  if ctrue (p_killed p) then exit_now me else
  on_procs (upd me (λ p, set_image (p_sz p) (p_pgdir p) (f_regs f) p));;
  r ← (match syscalls (tf_eax (f_regs f)) with Some c => handler me c | None => mret (Value (-1)) end);
  syscall_end me r.

(** [proc && proc->killed && (tf->cs&3) == DPL_USER] *)
Definition doomed (me : option nat) (f : frame) : MT bool :=
  match me with
  | None => mret false
  | Some i => p ← this_proc i; mret (ctrue (p_killed p) && from_user f)
  end.
Definition exit_if_doomed (me : option nat) (f : frame) (rest : MT ending) : MT ending :=
  d ← doomed me f;
  match me with
  | Some i => if (d : bool) then exit_now i else rest
  | None => rest
  end.
Definition is_timer (f : frame) : bool := f_trapno f =? T_IRQ0 + IRQ_TIMER.

(** From the first look at [proc->killed] to the end. *)
Definition trap_end (me : option nat) (f : frame) : MT ending :=
  exit_if_doomed me f (
    match me with
    | None => mret Returns
    | Some i =>
        p ← this_proc i;
        if bool_decide (p_state p = RUNNING) && is_timer f
        then on_procs (yield i);; mret (Switched KYield)
        else exit_if_doomed me f (mret Returns)
    end).

Definition timer_tick (cpu_id : Z) : MT unit :=
  when (cpu_id =? 0)
    (modify (λ s, mkT (t_procs s) (u32 (ticks s + 1)) (t_dev s));;
     on_procs (wakeup tick_chan)).

(** The [switch] on the trap's number; messages are left out. *)
Definition trap_switch (cpu_id : Z) (me : option nat) (f : frame) : MT unit :=
  let n := f_trapno f in
  if n =? T_IRQ0 + IRQ_TIMER then timer_tick cpu_id;; on_dev lapiceoi else
  if n =? T_IRQ0 + IRQ_IDE then on_dev ideintr;; on_dev lapiceoi else
  if n =? T_IRQ0 + IRQ_IDE + 1 then mret tt else
  if n =? T_IRQ0 + IRQ_KBD then on_dev kbdintr;; on_dev lapiceoi else
  if n =? T_IRQ0 + IRQ_COM1 then on_dev uartintr;; on_dev lapiceoi else
  if (n =? T_IRQ0 + 7) || (n =? T_IRQ0 + IRQ_SPURIOUS) then on_dev lapiceoi else
  match me with
  | None => panic "trap"
  | Some i => if Z.land (f_cs f) 3 =? 0 then panic "trap" else on_procs (upd i (set_killed 1))
  end.

(** [me]: the process that the processor runs, if any. *)
Definition trap (cpu_id : Z) (me : option nat) (f : frame) : MT ending :=
  if f_trapno f =? T_SYSCALL then
    match me with Some i => trap_syscall i f | None => undef end
  else
    trap_switch cpu_id me f;; trap_end me f.

(** The scheduler has switched back to the process. *)
Definition resume (me : nat) (f : frame) (k : kont) : MT ending :=
  match k with
  | KYield => exit_if_doomed (Some me) f (mret Returns)
  | k => r ← go_on me k; syscall_end me r
  end.
End trap.

(** ** Killed processes *)

Section killed.
Context {K D : Type} `{Kernel K} `{Devices D}.
Context (tick_chan : Z) (view : K → proc → uproc).
Context (others : bool → sysname → nat → M (tstate K D) (option Z)).

Lemma this_proc_inv me (s s' : tstate K D) p : this_proc me s = Ok (p, s') → s' = s ∧ procs (t_procs s).1 !! me = Some p.
Proof.
  unfold this_proc, on_procs, proc_at. destruct s as [[t k] n d]. unfold mbind, M_bind. cbn.
  destruct (procs t !! me) as [q|] eqn:E; cbn; [|done]. by intros [= <- <-].
Qed.

(** The process is there and nobody has killed it. *)
Definition alive (me : nat) (s : tstate K D) : Prop := ∃ p, procs (t_procs s).1 !! me = Some p ∧ p_killed p = 0.

Lemma alive_intro me (s s' : tstate K D) p : this_proc me s = Ok (p, s') → ctrue (p_killed p) = false → alive me s'.
Proof.
  intros [-> Hp]%this_proc_inv Hk. exists p. split; [done|]. unfold ctrue in Hk. destruct (Z.eqb_spec (p_killed p) 0); done.
Qed.

Lemma syscall_end_alive me r (s s' : tstate K D) : syscall_end me r s = Ok (Returns, s') → alive me s'.
Proof.
  unfold syscall_end. destruct r as [v| |k]; [|done|done]. intros E. minv E. minv E. destruct (ctrue (p_killed r0)) eqn:Hk.
  - unfold exit_now in E. by minv E.
  - injection E as <-. by eapply alive_intro.
Qed.

Lemma exit_if_doomed_alive me f (rest : M (tstate K D) ending) s s' : from_user f = true →
  (∀ s, rest s = Ok (Returns, s') → alive me s → alive me s') →
  exit_if_doomed (Some me) f rest s = Ok (Returns, s') → alive me s'.
Proof.
  intros Hf Hr E. unfold exit_if_doomed in E. minv E. unfold doomed in E0. minv E0. injection E0 as <- <-. rewrite Hf, andb_true_r in E.
  destruct (ctrue (p_killed r0)) eqn:Hk; [unfold exit_now in E; by minv E|]. eapply Hr; [exact E|]. by eapply alive_intro.
Qed.

(** C12: A killed process never gets back to its program: whenever the kernel,
    entered from user mode by a system call, a fault or an interrupt of any
    number, returns there, at once or after the process was switched out at
    whatever point and others ran, its [killed] is 0 at that moment. *)
Theorem killed_never_returns me f cpu_id s s' : from_user f = true →
  trap tick_chan view others cpu_id (Some me) f s = Ok (Returns, s') ∨ (∃ k, resume tick_chan others me f k s = Ok (Returns, s')) →
  alive me s'.
Proof.
  intros Hf [E|[k E]].
  - unfold trap in E. destruct (f_trapno f =? T_SYSCALL).
    + unfold trap_syscall in E. minv E. destruct (ctrue (p_killed r)); [unfold exit_now in E; by minv E|]. minv E. minv E. by eapply syscall_end_alive.
    + minv E. unfold trap_end in E. revert E. apply exit_if_doomed_alive; [done|]. intros s1 E Ha. minv E. destruct (_ && _); [by minv E|].
      revert E. apply exit_if_doomed_alive; [done|]. by intros ? [= ->].
  - destruct k; cbn [resume] in E; [|minv E; by eapply syscall_end_alive..].
    revert E. apply exit_if_doomed_alive; [done|]. by intros ? [= ->].
Qed.
End killed.

(** ** Sleeping on the clock *)

Section clock.
Context {K D : Type} `{Kernel K} `{Devices D}.
Context (tick_chan : Z) (view : K → proc → uproc).
Context (others : bool → sysname → nat → M (tstate K D) (option Z)).
Context (lapiceoi_works : ∀ d, ∃ d', lapiceoi d = Ok (tt, d')).
#[local] Abbreviation MT := (M (tstate K D)).

(** What may happen while a process sleeps: a timer interrupt on the first
    processor, which runs nothing, or the scheduler switches to the process,
    if it can run. *)
Inductive event := Tick | Sched.
Definition idle_frame : frame := mkFrame (T_IRQ0 + IRQ_TIMER) 8 (mkTf 0 0 0 []).
Definition do_event (me : nat) (f : frame) (e : ending) (v : event) : MT ending :=
  match v, e with
  | Tick, e => trap tick_chan view others 0 None idle_frame;; mret e
  | Sched, Switched k =>
      p ← this_proc me;
      if decide (p_state p = RUNNABLE) then on_procs (upd me (set_state RUNNING));; resume tick_chan others me f k else mret e
  | Sched, e => mret e
  end.
Fixpoint do_events (me : nat) (f : frame) (e : ending) (vs : list event) : MT ending :=
  match vs with [] => mret e | v :: vs' => e ← do_event me f e v; do_events me f e vs' end.

(** The scheduler comes by when [m] more ticks have gone. *)
Fixpoint served (m : Z) (vs : list event) : bool :=
  match vs with
  | [] => false
  | Tick :: vs' => served (m - 1) vs'
  | Sched :: vs' => (m <=? 0) || served m vs'
  end.

Lemma tick_run t (k : K) n d : ∃ d', trap tick_chan view others 0 None idle_frame (mkT (t, k) n d) =
  Ok (Returns, mkT (mkPtable (wake tick_chan <$> procs t) (initproc t) (nextpid t), k) (u32 (n + 1)) d').
Proof.
  destruct (lapiceoi_works d) as [d' E]. exists d'. unfold trap. change (f_trapno idle_frame =? T_SYSCALL) with false. cbv iota.
  set (s1 := mkT (mkPtable (wake tick_chan <$> procs t) (initproc t) (nextpid t), k) (u32 (n + 1)) d).
  assert (timer_tick tick_chan 0 (mkT (t, k) n d) = Ok (tt, s1)) as E1 by reflexivity.
  assert (on_dev lapiceoi s1 = Ok (tt, mkT (t_procs s1) (ticks s1) d')) as E2 by (unfold on_dev, s1; cbn; by rewrite E).
  assert (trap_switch tick_chan 0 None idle_frame (mkT (t, k) n d) = Ok (tt, mkT (t_procs s1) (ticks s1) d')) as E3.
  { unfold trap_switch. change (f_trapno idle_frame =? T_IRQ0 + IRQ_TIMER) with true. cbv zeta iota. step E1. exact E2. }
  step E3. reflexivity.
Qed.

(** The sleeper: whether it is still asleep since the last look at the clock. *)
Definition sleeper (me : nat) (s : tstate K D) (asleep : bool) : Prop := ∃ p, procs (t_procs s).1 !! me = Some p ∧ p_killed p = 0 ∧
  if asleep then p_state p = SLEEPING ∧ p_chan p = tick_chan else p_state p = RUNNABLE.

Lemma sleeper_tick me s b : sleeper me s b → ∃ s', trap tick_chan view others 0 None idle_frame s = Ok (Returns, s') ∧
  ticks s' = u32 (ticks s + 1) ∧ sleeper me s' false.
Proof.
  destruct s as [[t k] n d]. intros (p & Hp & Hk & Hb). destruct (tick_run t k n d) as [d' E]. eexists. split; [exact E|]. split; [done|].
  exists (wake tick_chan p). cbn in *. rewrite list_lookup_fmap, Hp. split; [done|]. unfold wake. destruct b.
  - by rewrite decide_True.
  - rewrite decide_False by (rewrite Hb; by intros [? _]). done.
Qed.

Lemma this_proc_Ok me (t : ptable) (k : K) n (d : D) p : procs t !! me = Some p → this_proc me (mkT (t, k) n d) = Ok (p, mkT (t, k) n d).
Proof. intros E. unfold this_proc, on_procs, proc_at, mbind, M_bind. cbn. by rewrite E. Qed.

Lemma upd_Ok me g (t : ptable) (k : K) n (d : D) : on_procs (upd me g) (mkT (t, k) n d) =
  Ok (tt, mkT (mkPtable (alter g me (procs t)) (initproc t) (nextpid t), k) n d).
Proof. done. Qed.

(** One look at the clock. *)
Lemma look t0 n me (t : ptable) (k : K) c (d : D) p : procs t !! me = Some p → p_killed p = 0 →
  let s := mkT (t, k) c d in
  if u32 (c - t0) <? u32 n then ∃ s', sleep_loop tick_chan me t0 n s = Ok (None, s') ∧ ticks s' = c ∧ sleeper me s' true
  else sleep_loop tick_chan me t0 n s = Ok (Some 0, s).
Proof.
  intros Hp Hk s. unfold sleep_loop. rewrite (bind_Ok get _ _ _ _ eq_refl). cbn [ticks s]. destruct (u32 (c - t0) <? u32 n); [|done].
  step (this_proc_Ok me t k c d p Hp). rewrite Hk. cbn [ctrue Z.eqb negb]. eexists. split; [reflexivity|]. split; [done|].
  eexists. cbn. rewrite list_lookup_alter_eq, Hp. split; [reflexivity|]. by split.
Qed.

Lemma u32_next a t0 : u32 (a - t0) + 1 < 4294967296 → u32 (u32 (a + 1) - t0) = u32 (a - t0) + 1.
Proof.
  intros Hm. unfold u32 in *. rewrite Zminus_mod_idemp_l. replace (a + 1 - t0) with (a - t0 + 1) by lia.
  rewrite <-Zplus_mod_idemp_l. pose proof (Z.mod_pos_bound (a - t0) 4294967296 eq_refl). apply Z.mod_small. lia.
Qed.

(** The scheduler switches to the sleeper. *)
Lemma sleeper_runs me f t0 n s : sleeper me s false →
  let k := KSleep t0 n in
  ∃ s', do_event me f (Switched k) Sched s = Ok (if u32 (ticks s - t0) <? u32 n then Switched k else Returns, s') ∧
    (u32 (ticks s - t0) <? u32 n = true → ticks s' = ticks s ∧ sleeper me s' true).
Proof.
  destruct s as [[t k] c d]. intros (p & Hp & Hk & Hst). cbn in Hp. unfold do_event. step (this_proc_Ok me t k c d p Hp).
  rewrite decide_True by done. rewrite (bind_Ok (on_procs _) _ _ _ _ (upd_Ok me _ t k c d)). set (t1 := mkPtable _ _ _).
  assert (procs t1 !! me = Some (set_state RUNNING p)) as Hp1 by (cbn; by rewrite list_lookup_alter_eq, Hp).
  unfold resume, go_on. set (t2 := mkPtable (alter (set_chan 0) me (procs t1)) (initproc t1) (nextpid t1)).
  assert (procs t2 !! me = Some (set_chan 0 (set_state RUNNING p))) as Hp2 by (cbn [t2 procs]; by rewrite list_lookup_alter_eq, Hp1).
  rewrite bind_assoc, (bind_Ok (on_procs (sleep_resume me)) _ _ _ _ (upd_Ok me (set_chan 0) t1 k c d)). fold t2. unfold or_sleep. rewrite bind_assoc.
  pose proof (look t0 n me t2 k c d _ Hp2 Hk) as L. cbv zeta in L. cbn [ticks]. destruct (u32 (c - t0) <? u32 n).
  - destruct L as (s' & E & Ht & Hs). step E. exists s'. split; [done|]. by intros _.
  - step L. rewrite (bind_ret (Value 0)). unfold syscall_end. rewrite (bind_Ok (on_procs _) _ _ _ _ (upd_Ok me (set_eax 0) t2 k c d)).
    set (t3 := mkPtable _ _ _). assert (procs t3 !! me = Some (set_eax 0 (set_chan 0 (set_state RUNNING p)))) as Hp3 by (cbn [t3 procs]; by rewrite list_lookup_alter_eq, Hp2).
    step (this_proc_Ok me t3 k c d _ Hp3). change (p_killed (set_eax 0 _)) with (p_killed p). rewrite Hk. eexists. by split.
Qed.

Lemma after_return me f vs : ∀ s, ∃ s', do_events me f Returns vs s = Ok (Returns, s').
Proof.
  induction vs as [|[] vs IH]; intros [[t k] n d]; cbn [do_events]; [by eexists| |].
  - destruct (tick_run t k n d) as [d' E]. unfold do_event. rewrite bind_assoc. step E. rewrite (bind_ret Returns). apply IH.
  - unfold do_event. rewrite (bind_ret Returns). apply IH.
Qed.

Lemma sleeper_events me f t0 n vs : ∀ s b m, sleeper me s b → u32 (ticks s - t0) = m → (b = true → m < u32 n) → m + Z.of_nat (length vs) < 4294967296 →
  ∃ s', do_events me f (Switched (KSleep t0 n)) vs s = Ok (if served (u32 n - m) vs then Returns else Switched (KSleep t0 n), s').
Proof.
  induction vs as [|[] vs IH]; intros s b m Hs Hm Hb Hlen; cbn [do_events served length] in *; [by eexists| |].
  - destruct (sleeper_tick me s b Hs) as (s1 & E & Ht & Hs1). unfold do_event. rewrite bind_assoc. step E. rewrite (bind_ret (Switched _)).
    destruct (IH s1 false (m + 1) Hs1) as [s' E']; [rewrite Ht, u32_next by lia; lia|done|lia|]. exists s'. rewrite E'. by replace (u32 n - (m + 1)) with (u32 n - m - 1) by lia.
  - destruct b.
    + destruct s as [[t k] c d]. destruct Hs as (p & Hp & Hk & Hst & Hch). cbn in Hp. unfold do_event. rewrite bind_assoc. step (this_proc_Ok me t k c d p Hp).
      rewrite decide_False by (by rewrite Hst). rewrite (bind_ret (Switched _)). specialize (Hb eq_refl). rewrite (proj2 (Z.leb_gt _ _)) by lia. cbn [orb].
      apply (IH _ true); [by exists p|done|done|lia].
    + destruct (sleeper_runs me f t0 n s Hs) as (s1 & E & H1). step E. rewrite Hm in *. destruct (Z.ltb_spec m (u32 n)).
      * destruct (H1 eq_refl) as [Ht Hs1]. rewrite (proj2 (Z.leb_gt _ _)) by lia. apply (IH s1 true); [done|by rewrite Ht|done|lia].
      * rewrite (proj2 (Z.leb_le _ _)) by lia. apply after_return.
Qed.

(** C21: [sleep(n)] sleeps for [n] ticks of the first processor's timer: the
    call is a trap; it goes back to the program at once when [n] is 0, and
    otherwise at the first time the scheduler comes by with [n] timer
    interrupts gone, never sooner, whatever the order of interrupts and
    scheduling, and also when the tick counter wraps. [n] counts as unsigned:
    a negative argument is a sleep of [2^32 + n] ticks. *)
Theorem sleep_counts_ticks cpu_id me f (t : ptable) (k : K) c (d : D) p n vs : procs t !! me = Some p → p_killed p = 0 → p_state p = RUNNING →
  f_trapno f = T_SYSCALL → syscalls (tf_eax (f_regs f)) = Some SYS_sleep →
  argint (view k (set_image (p_sz p) (p_pgdir p) (f_regs f) p)) 0 = Some n → Z.of_nat (length vs) < 4294967296 →
  ∃ s', (e ← trap tick_chan view others cpu_id (Some me) f; do_events me f e vs) (mkT (t, k) c d) =
    Ok (if (u32 n =? 0) || served (u32 n) vs then Returns else Switched (KSleep c n), s').
Proof.
  intros Hp Hk Hst Hf Hc Ha Hlen. unfold trap. rewrite Hf, Z.eqb_refl. unfold trap_syscall. rewrite bind_assoc. step (this_proc_Ok me t k c d p Hp).
  rewrite Hk. cbn [ctrue Z.eqb negb]. rewrite bind_assoc, (bind_Ok (on_procs _) _ _ _ _ (upd_Ok me _ t k c d)). set (t1 := mkPtable _ _ _).
  set (p1 := set_image (p_sz p) (p_pgdir p) (f_regs f) p) in *. assert (procs t1 !! me = Some p1) as Hp1 by (cbn [t1 procs]; by rewrite list_lookup_alter_eq, Hp).
  rewrite Hc. unfold handler, sys_sleep. rewrite !bind_assoc. unfold arg0. rewrite bind_assoc, (bind_Ok get _ _ _ _ eq_refl), bind_assoc.
  step (this_proc_Ok me t1 k c d p1 Hp1). cbn [t_procs snd]. rewrite (bind_ret (argint _ 0)), Ha. rewrite !bind_assoc, (bind_Ok get _ _ _ _ eq_refl), bind_assoc.
  pose proof (look c n me t1 k c d p1 Hp1 Hk) as L. cbv zeta in L. cbn [ticks]. rewrite Z.sub_diag in L. change (u32 0) with 0 in L.
  pose proof (u32_range n) as [Hn _]. destruct (Z.ltb_spec 0 (u32 n)) as [Hpos|Hz].
  - destruct L as (s1 & E & Ht & Hs). step E. rewrite (bind_ret (Asleep _)). unfold syscall_end. rewrite (bind_ret (Switched _)).
    rewrite (proj2 (Z.eqb_neq _ _)) by lia. cbn [orb]. destruct (sleeper_events me f c n vs s1 true 0 Hs) as [s' E']; [by rewrite Ht, Z.sub_diag|done|lia|].
    exists s'. by rewrite E', Z.sub_0_r.
  - step L. rewrite (bind_ret (Value 0)). unfold syscall_end. rewrite bind_assoc, (bind_Ok (on_procs _) _ _ _ _ (upd_Ok me (set_eax 0) t1 k c d)).
    set (t3 := mkPtable _ _ _). assert (procs t3 !! me = Some (set_eax 0 p1)) as Hp3 by (cbn [t3 procs]; by rewrite list_lookup_alter_eq, Hp1).
    rewrite bind_assoc. step (this_proc_Ok me t3 k c d _ Hp3). change (p_killed (set_eax 0 p1)) with (p_killed p). rewrite Hk. cbn [ctrue Z.eqb negb].
    rewrite (bind_ret Returns), (proj2 (Z.eqb_eq _ _)) by lia. apply after_return.
Qed.
End clock.

(** ** One process and its clock *)

#[local] Existing Instance plain_kernel.
#[local] Instance quiet : Devices unit := {| ideintr := mret tt; kbdintr := mret tt; uartintr := mret tt; lapiceoi := mret tt |}.
Definition clock_chan : Z := 77.
(** [sleep(2)]: the argument is above the return address. *)
Definition nap_view (k : Z) (p : proc) : uproc := mkUproc 4096 100 {[ 104 := 2 ]}.
Definition no_others (again : bool) (c : sysname) (me : nat) : M (tstate Z unit) (option Z) := undef.
Definition nap_proc : proc := mkProc 4096 0 0 RUNNING 1 None (mkTf 0 0 100 []) 0 0 [] None [].
Definition nap_table : ptable := mkPtable [nap_proc] None 2.
Definition nap_state : tstate Z unit := mkT (nap_table, 0) 4294967295 tt.
Definition nap_frame : frame := mkFrame T_SYSCALL 0x23 (mkTf 20 0 100 []).
Definition nap_events : list event := [Sched; Tick; Sched; Tick; Sched].

Lemma killed_never_returns_witness : ∃ s s', trap clock_chan nap_view no_others 0 (Some 0%nat) (mkFrame T_IRQ0 0x23 (mkTf 0 0 0 [])) nap_state = Ok (Switched KYield, s) ∧
  resume clock_chan no_others 0 (mkFrame T_IRQ0 0x23 (mkTf 0 0 0 [])) KYield s = Ok (Returns, s') ∧ alive 0 s'.
Proof.
  destruct (trap clock_chan nap_view no_others 0 (Some 0%nat) (mkFrame T_IRQ0 0x23 (mkTf 0 0 0 [])) nap_state) as [[[| |k] s]| | | |] eqn:E; try (vm_compute in E; discriminate E).
  assert (k = KYield) as -> by (vm_compute in E; by injection E).
  destruct (resume clock_chan no_others 0 (mkFrame T_IRQ0 0x23 (mkTf 0 0 0 [])) KYield s) as [[[] s']| | | |] eqn:E'; try (vm_compute in E; injection E as <-; vm_compute in E'; discriminate E').
  exists s, s'. split; [reflexivity|]. split; [exact E'|].
  apply (killed_never_returns clock_chan nap_view no_others 0 (mkFrame T_IRQ0 0x23 (mkTf 0 0 0 [])) 0 s s'); [reflexivity|]. right. by exists KYield.
Defined.

(** Two ticks, the first of which wraps the counter. *)
Lemma sleep_counts_ticks_witness : ∃ s', (e ← trap clock_chan nap_view no_others 0 (Some 0%nat) nap_frame; do_events clock_chan nap_view no_others 0 nap_frame e nap_events) nap_state =
  Ok (Returns, s').
Proof.
  assert (∀ d : unit, ∃ d', lapiceoi d = Ok (tt, d')) as Hw by (intros []; by exists tt).
  destruct (sleep_counts_ticks clock_chan nap_view no_others Hw 0 0 nap_frame nap_table 0 4294967295 tt nap_proc 2 nap_events) as [s' E]; try reflexivity.
  exists s'. exact E.
Defined.
