(* ===== verification/Gates.v ===== *)
(** Descriptors ([xv6/kernel/mmu.h]): the interrupt gates of [trap.c] and the
    segments of [vm.c], with what the processor makes of them. *)

From S2P Require Import Prelude.
From S2P Require Trap.

(** ** Definitions *)

Definition SEG_KCODE : nat := 1.
Definition SEG_KDATA : nat := 2.
Definition SEG_KCPU : nat := 3.
Definition SEG_UCODE : nat := 4.
Definition SEG_UDATA : nat := 5.
Definition SEG_TSS : nat := 6.
Definition NSEGS : nat := 7.
Definition STA_X : Z := 8.
Definition STA_W : Z := 2.
Definition STA_R : Z := 2.
Definition STS_T32A : Z := 9.
Definition STS_IG32 : Z := 14.
Definition STS_TG32 : Z := 15.
Definition DPL_USER : Z := Trap.DPL_USER.
Definition KSTACKSIZE : Z := 4096.

(** The bit fields, each cut to its width when it is stored. *)
Record segdesc := mkSeg {
  lim_15_0 : Z; base_15_0 : Z; base_23_16 : Z; s_type : Z; s_s : Z; s_dpl : Z; s_p : Z;
  lim_19_16 : Z; avl : Z; s_rsv1 : Z; s_db : Z; s_g : Z; base_31_24 : Z
}.
Definition fld (w z : Z) : Z := z `mod` 2 ^ w.

Definition SEG (type base lim dpl : Z) : segdesc :=
  mkSeg (fld 16 (Z.land (Z.shiftr lim 12) 0xffff)) (fld 16 (Z.land (u32 base) 0xffff)) (fld 8 (Z.land (Z.shiftr (u32 base) 16) 0xff))
    (fld 4 type) 1 (fld 2 dpl) 1 (fld 4 (Z.shiftr (u32 lim) 28)) 0 0 1 1 (fld 8 (Z.shiftr (u32 base) 24)).
Definition SEG16 (type base lim dpl : Z) : segdesc :=
  mkSeg (fld 16 (Z.land lim 0xffff)) (fld 16 (Z.land (u32 base) 0xffff)) (fld 8 (Z.land (Z.shiftr (u32 base) 16) 0xff))
    (fld 4 type) 1 (fld 2 dpl) 1 (fld 4 (Z.shiftr (u32 lim) 16)) 0 0 1 0 (fld 8 (Z.shiftr (u32 base) 24)).

Record gatedesc := mkGate {
  off_15_0 : Z; g_cs : Z; g_args : Z; g_rsv1 : Z; g_type : Z; g_s : Z; g_dpl : Z; g_p : Z; off_31_16 : Z
}.
Definition SETGATE (istrap : bool) (sel off d : Z) : gatedesc :=
  mkGate (fld 16 (Z.land (u32 off) 0xffff)) (fld 16 sel) 0 0 (if istrap then STS_TG32 else STS_IG32) 0 (fld 2 d) 1 (fld 16 (Z.shiftr (u32 off) 16)).

(** [tvinit]: the table from the addresses in [vectors]. *)
Definition tvinit (vectors : list Z) : list gatedesc :=
  let sel := Z.shiftl (Z.of_nat SEG_KCODE) 3 in
  let idt := (λ v, SETGATE false sel v 0) <$> take 256 vectors in
  <[Z.to_nat Trap.T_SYSCALL := SETGATE true sel (nth (Z.to_nat Trap.T_SYSCALL) vectors 0) DPL_USER]> idt.

(** A processor: its descriptors, the stack its task state holds for ring 0,
    and the registers that are loaded. *)
Record cpu := mkCpuseg { gdt : list segdesc; ts_ss0 : Z; ts_esp0 : Z; r_gs : Z; r_tr : Z; r_cr3 : Z }.

(** [seginit] for the processor whose [cpu] field is at address [a]. *)
Definition seginit (a : Z) (c : cpu) : cpu :=
  let g := <[SEG_KCODE := SEG (Z.lor STA_X STA_R) 0 0xffffffff 0]> (gdt c) in
  let g := <[SEG_KDATA := SEG STA_W 0 0xffffffff 0]> g in
  let g := <[SEG_UCODE := SEG (Z.lor STA_X STA_R) 0 0xffffffff DPL_USER]> g in
  let g := <[SEG_UDATA := SEG STA_W 0 0xffffffff DPL_USER]> g in
  let g := <[SEG_KCPU := SEG STA_W a 8 0]> g in
  mkCpuseg g (ts_ss0 c) (ts_esp0 c) (Z.shiftl (Z.of_nat SEG_KCPU) 3) (r_tr c) (r_cr3 c).

(** [switchuvm]: the task state is at [ts], of 104 bytes; interrupts are off
    meanwhile. *)
Definition SIZEOF_TASKSTATE : Z := 104.
Definition set_s (s : Z) (d : segdesc) : segdesc :=
  mkSeg (lim_15_0 d) (base_15_0 d) (base_23_16 d) (s_type d) s (s_dpl d) (s_p d) (lim_19_16 d) (avl d) (s_rsv1 d) (s_db d) (s_g d) (base_31_24 d).
Definition switchuvm (ts kstack pgdir : Z) : M cpu unit :=
  modify (λ c,
    let g := <[SEG_TSS := set_s 0 (SEG16 STS_T32A ts (SIZEOF_TASKSTATE - 1) 0)]> (gdt c) in
    mkCpuseg g (Z.shiftl (Z.of_nat SEG_KDATA) 3) (u32 (kstack + KSTACKSIZE)) (r_gs c) (Z.shiftl (Z.of_nat SEG_TSS) 3) (r_cr3 c));;
  if pgdir =? 0 then panic "switchuvm: no pgdir" else
  modify (λ c, mkCpuseg (gdt c) (ts_ss0 c) (ts_esp0 c) (r_gs c) (r_tr c) pgdir).

(** ** What the processor makes of them *)

(** Vector's gate, taken by an [int] instruction at privilege level [cpl] or by
    the hardware: the code segment, the address, and whether interrupts stay
    as they are. *)
Definition int_gate (idt : list gatedesc) (i : nat) (soft : option Z) : option (Z * Z * bool) :=
  match idt !! i with
  | Some g =>
      if (g_p g =? 1) && (g_s g =? 0) && ((g_type g =? STS_IG32) || (g_type g =? STS_TG32)) &&
         match soft with Some cpl => cpl <=? g_dpl g | None => true end
      then Some (g_cs g, off_15_0 g + off_31_16 g * 65536, g_type g =? STS_TG32) else None
  | None => None
  end.

Definition seg_base (d : segdesc) : Z := base_15_0 d + base_23_16 d * 65536 + base_31_24 d * 16777216.
(** The last byte of a segment. *)
Definition seg_limit (d : segdesc) : Z :=
  let lim := lim_15_0 d + lim_19_16 d * 65536 in if s_g d =? 1 then lim * 4096 + 4095 else lim.
(** A data segment register may be loaded at level [cpl]. *)
Definition loadable (d : segdesc) (cpl : Z) : bool := (s_p d =? 1) && (s_s d =? 1) && (cpl <=? s_dpl d).

(** The bytes of the task state: all zero but the two fields that are stored;
    the map of the ports begins at [iomb], which is 0 too. *)
Definition ts_byte (c : cpu) (i : Z) : Z :=
  if decide (4 ≤ i < 8) then nth (Z.to_nat (i - 4)) (le_bytes 4 (ts_esp0 c)) 0 else
  if decide (8 ≤ i < 10) then nth (Z.to_nat (i - 8)) (le_bytes 2 (ts_ss0 c)) 0 else 0.
(** Port instructions of a program whose I/O privilege level is too low look
    at the two bytes of the map that hold the port's bit. *)
Definition port_allowed (c : cpu) (port : Z) : bool :=
  let limit := SIZEOF_TASKSTATE - 1 in
  (port / 8 + 1 <=? limit) && negb (Z.testbit (ts_byte c (port / 8)) (port mod 8)).

(** ** Lemmas *)

Lemma fld_small w z : 0 ≤ w → 0 ≤ z < 2 ^ w → fld w z = z.
Proof. intros. by apply Z.mod_small. Qed.

Lemma land_low w z : 0 ≤ w → Z.land z (2 ^ w - 1) = z mod 2 ^ w.
Proof. intros. rewrite <-Z.land_ones by done. f_equal. rewrite Z.ones_equiv. lia. Qed.

Lemma gate_offset istrap sel off d : is_u32 off → off_15_0 (SETGATE istrap sel off d) + off_31_16 (SETGATE istrap sel off d) * 65536 = off.
Proof.
  intros Ho. cbn. rewrite u32_small by done. unfold fld. change 0xffff with (2 ^ 16 - 1). rewrite land_low by lia. rewrite Zmod_mod.
  rewrite Z.shiftr_div_pow2 by lia. unfold is_u32 in Ho. change (2 ^ 16) with 65536. pose proof (Z.div_lt_upper_bound off 65536 65536). pose proof (Z.div_pos off 65536).
  rewrite (Z.mod_small (off / 65536)) by lia. pose proof (Z.div_mod off 65536). lia.
Qed.

Lemma seg_base_SEG type base lim dpl : is_u32 base → seg_base (SEG type base lim dpl) = base ∧ seg_base (SEG16 type base lim dpl) = base.
Proof.
  intros Ho. split; unfold seg_base; cbn; rewrite u32_small by done; unfold fld; change 0xffff with (2 ^ 16 - 1); change 0xff with (2 ^ 8 - 1);
    rewrite !land_low, !Zmod_mod, !Z.shiftr_div_pow2 by lia; unfold is_u32 in Ho; change (2 ^ 16) with 65536; change (2 ^ 8) with 256; change (2 ^ 24) with 16777216;
    pose proof (Z.div_lt_upper_bound base 16777216 256); pose proof (Z.div_pos base 16777216);
    rewrite (Z.mod_small (base / 16777216)) by lia; pose proof (Z.div_mod base 65536); pose proof (Z.div_mod (base / 65536) 256);
    replace (base / 16777216) with (base / 65536 / 256) by (rewrite Zdiv_Zdiv by lia; done); lia.
Qed.

(** C22: How the kernel is entered: from user mode an [int] instruction gets in
    through gate 64 and no other of the 256, and there it runs the address of
    that vector in the kernel's code segment; a fault or an interrupt runs its
    own vector's address, and interrupts are then off for every one but the
    system call; on the processor that runs a process, the only segments a
    program can load are its own two, flat over the whole address space, and
    the stack that the processor switches to is the top of the process' kernel
    stack. *)
Theorem kernel_entries vectors a ts kstack pgdir c : length vectors = 256%nat → Forall is_u32 vectors → is_u32 a → is_u32 ts → is_u32 (kstack + KSTACKSIZE) →
  pgdir ≠ 0 → length (gdt c) = NSEGS → gdt c !! 0%nat = Some (mkSeg 0 0 0 0 0 0 0 0 0 0 0 0 0) →
  (∀ i v, vectors !! i = Some v →
    int_gate (tvinit vectors) i (Some 3) = (if decide (i = 64%nat) then Some (8, v, true) else None) ∧
    int_gate (tvinit vectors) i None = Some (8, v, bool_decide (i = 64%nat))) ∧
  ∃ c', switchuvm ts kstack pgdir (seginit a c) = Ok (tt, c') ∧ r_cr3 c' = pgdir ∧ ts_esp0 c' = kstack + KSTACKSIZE ∧ r_tr c' = 48 ∧
    ∀ i d, gdt c' !! i = Some d →
      loadable d 3 = bool_decide (i = SEG_UCODE ∨ i = SEG_UDATA) ∧
      (i = SEG_UCODE ∨ i = SEG_UDATA ∨ i = SEG_KCODE ∨ i = SEG_KDATA → seg_base d = 0 ∧ seg_limit d = 0xffffffff) ∧
      (i = SEG_KCPU → seg_base d = a) ∧ (i = SEG_TSS → seg_base d = ts ∧ seg_limit d = 103).
Proof.
  intros Hl Hv Ha Hts Hst Hpg Hg H0. split.
  - intros i v Hi. assert (is_u32 v) as Hu by (rewrite list.Forall_forall in Hv; apply Hv; by eapply list_elem_of_lookup_2).
    assert (tvinit vectors !! i = Some (if decide (i = 64%nat) then SETGATE true 8 v DPL_USER else SETGATE false 8 v 0)) as Ht.
    { unfold tvinit. change (Z.to_nat Trap.T_SYSCALL) with 64%nat. rewrite firstn_all2 by lia. case_decide as Hd.
      - subst i. rewrite list_lookup_insert_eq by (rewrite length_fmap; lia). f_equal. f_equal. by apply nth_lookup_Some.
      - rewrite list_lookup_insert_ne, list_lookup_fmap, Hi by done. done. }
    unfold int_gate. rewrite Ht. case_decide as Hd.
    + rewrite bool_decide_eq_true_2, gate_offset by done. done.
    + rewrite bool_decide_eq_false_2, gate_offset by done. done.
  - destruct c as [g ss esp gs tr cr]. cbn in Hg, H0. do 8 (destruct g as [|? g]; try done). injection H0 as ->.
    eexists. split; [unfold switchuvm, seginit, mbind, M_bind; cbn; rewrite (proj2 (Z.eqb_neq pgdir 0)) by done; reflexivity|].
    split; [done|]. split; [cbn; by apply u32_small|]. split; [done|]. intros i d Hi.
    pose proof (proj1 (seg_base_SEG STA_W a 8 0 Ha)) as Ba. pose proof (proj2 (seg_base_SEG STS_T32A ts (SIZEOF_TASKSTATE - 1) 0 Hts)) as Bt.
    destruct i as [|[|[|[|[|[|[|i]]]]]]]; [cbn in Hi; injection Hi as <-; split; [done|]..|done].
    all: split; [intros Hc; first [by split|exfalso; naive_solver]|].
    all: split; intros Hc; try discriminate Hc; try done.
Qed.

(** A program may use the ports of the disk: the map of ports is the task state
    itself, whose bytes there are zero. *)
Lemma user_reaches_disk c port : 0x1F0 ≤ port ≤ 0x1F7 → port_allowed c port = true.
Proof.
  intros Hp. assert (port / 8 = 62) as Hd by (symmetry; apply (Z.div_unique_pos _ _ _ (port - 496)); lia).
  unfold port_allowed, ts_byte. rewrite Hd, !decide_False by lia. by rewrite Z.testbit_0_l.
Qed.

(** Vectors 4 bytes apart, a processor at [0x110000]. *)
Definition demo_vectors : list Z := (λ i, 0x100000 + 4 * Z.of_nat i) <$> seq 0 256.
Definition demo_cpu : cpu := mkCpuseg (replicate 7 (mkSeg 0 0 0 0 0 0 0 0 0 0 0 0 0)) 0 0 0 0 0.

Lemma kernel_entries_witness : int_gate (tvinit demo_vectors) 64 (Some 3) = Some (8, 0x100100, true) ∧ int_gate (tvinit demo_vectors) 14 (Some 3) = None ∧
  ∃ c', switchuvm 0x110010 0x200000 0x201000 (seginit 0x110000 demo_cpu) = Ok (tt, c') ∧ ts_esp0 c' = 0x201000.
Proof.
  assert (Forall is_u32 demo_vectors) as Hv.
  { apply list.Forall_forall. intros v Hv. unfold demo_vectors in Hv. apply list_elem_of_fmap in Hv as (i & -> & Hi). apply elem_of_seq in Hi. unfold is_u32. lia. }
  destruct (kernel_entries demo_vectors 0x110000 0x110010 0x200000 0x201000 demo_cpu) as (Hg & c' & E & _ & Hs & _ & _);
    [reflexivity|exact Hv|split; [discriminate|reflexivity]|split; [discriminate|reflexivity]|split; [discriminate|reflexivity]|discriminate|reflexivity|reflexivity|].
  split; [exact (proj1 (Hg 64%nat _ eq_refl))|]. split; [exact (proj1 (Hg 14%nat _ eq_refl))|]. exists c'. by split.
Defined.
