(* ===== verification/Dev.v ===== *)
(** The devices that the kernel talks to through ports and registers: the
    interrupt controllers ([xv6/kernel/picirq.c], [ioapic.c], [lapic.c]), the
    interval timer ([timer.c]) and the serial port ([uart.c]). What is written
    is kept in order; what is read comes from a list of answers, any list. *)

From S2P Require Import Prelude Console.
From S2P Require Trap.

(** ** Definitions *)

Record dev := mkDev {
  outs : list (Z * Z);       (* port, byte *)
  answers : list Z;
  irqmask : Z;
  uart : Z;
  ismp : Z;
  ioapicid : Z;
  ioregs : gmap Z Z;         (* the I/O APIC's registers *)
  lapic : Z;                 (* its address, or 0 *)
  lapicws : list (Z * Z)     (* register index, value *)
}.

Definition outb (p v : Z) : M dev unit :=
  modify (λ d, mkDev (outs d ++ [(p, u8 v)]) (answers d) (irqmask d) (uart d) (ismp d) (ioapicid d) (ioregs d) (lapic d) (lapicws d)).
(** A port that nobody answers reads as ones. *)
Definition inb (p : Z) : M dev Z := λ d,
  Ok (u8 (hd 0xff (answers d)), mkDev (outs d) (tl (answers d)) (irqmask d) (uart d) (ismp d) (ioapicid d) (ioregs d) (lapic d) (lapicws d)).

(** *** The 8259A controllers *)

Definition IO_PIC1 : Z := 0x20.
Definition IO_PIC2 : Z := 0xA0.
Definition IRQ_SLAVE : Z := 2.
Definition irqmask_init : Z := u16 (Z.land 0xFFFF (Z.lnot (Z.shiftl 1 IRQ_SLAVE))).

Definition picsetmask (mask : Z) : M dev unit :=
  modify (λ d, mkDev (outs d) (answers d) mask (uart d) (ismp d) (ioapicid d) (ioregs d) (lapic d) (lapicws d));;
  outb (IO_PIC1 + 1) mask;;
  outb (IO_PIC2 + 1) (Z.shiftr mask 8).
Definition picenable (irq : Z) : M dev unit :=
  m ← gets irqmask;
  picsetmask (u16 (Z.land m (Z.lnot (Z.shiftl 1 irq)))).
Definition picinit : M dev unit :=
  outb (IO_PIC1 + 1) 0xFF;;
  outb (IO_PIC2 + 1) 0xFF;;
  outb IO_PIC1 0x11;;
  outb (IO_PIC1 + 1) Trap.T_IRQ0;;
  outb (IO_PIC1 + 1) (Z.shiftl 1 IRQ_SLAVE);;
  outb (IO_PIC1 + 1) 0x3;;
  outb IO_PIC2 0x11;;
  outb (IO_PIC2 + 1) (Trap.T_IRQ0 + 8);;
  outb (IO_PIC2 + 1) IRQ_SLAVE;;
  outb (IO_PIC2 + 1) 0x3;;
  outb IO_PIC1 0x68;;
  outb IO_PIC1 0x0a;;
  outb IO_PIC2 0x68;;
  outb IO_PIC2 0x0a;;
  m ← gets irqmask;
  when (negb (m =? 0xFFFF)) (picsetmask m).

(** *** The I/O APIC *)

Definition REG_ID : Z := 0.
Definition REG_VER : Z := 1.
Definition REG_TABLE : Z := 16.
Definition INT_DISABLED : Z := 0x10000.

(** The register is chosen, then its value read or written. *)
Definition ioapicread (reg : Z) : M dev Z := d ← get; mret (default 0 (ioregs d !! reg)).
Definition ioapicwrite (reg data : Z) : M dev unit :=
  modify (λ d, mkDev (outs d) (answers d) (irqmask d) (uart d) (ismp d) (ioapicid d) (<[reg := u32 data]> (ioregs d)) (lapic d) (lapicws d)).
Fixpoint ioapic_mask (n : nat) (i : Z) : M dev unit :=
  match n with
  | O => mret tt
  | S n' =>
      ioapicwrite (REG_TABLE + 2 * i) (Z.lor INT_DISABLED (Trap.T_IRQ0 + i));;
      ioapicwrite (REG_TABLE + 2 * i + 1) 0;;
      ioapic_mask n' (i + 1)
  end.
Definition ioapicinit : M dev unit :=
  mp ← gets ismp;
  if mp =? 0 then mret tt else
  v ← ioapicread REG_VER;
  let maxintr := Z.land (Z.shiftr v 16) 0xFF in
  ioapicread REG_ID;;           (* only a message depends on it *)
  ioapic_mask (S (Z.to_nat maxintr)) 0.
Definition ioapicenable (irq cpunum : Z) : M dev unit :=
  mp ← gets ismp;
  if mp =? 0 then mret tt else
  ioapicwrite (REG_TABLE + 2 * irq) (Trap.T_IRQ0 + irq);;
  ioapicwrite (REG_TABLE + 2 * irq + 1) (Z.shiftl cpunum 24).

(** *** The interval timer *)

Definition IO_TIMER1 : Z := 0x40.
Definition TIMER_FREQ : Z := 1193182.
Definition TIMER_DIV (x : Z) : Z := (TIMER_FREQ + x / 2) / x.
Definition timerinit : M dev unit :=
  outb (IO_TIMER1 + 3) 0x34;;
  outb IO_TIMER1 (TIMER_DIV 100 mod 256);;
  outb IO_TIMER1 (TIMER_DIV 100 / 256);;
  picenable Trap.IRQ_TIMER.

(** *** The serial port *)

Definition COM1 : Z := 0x3f8.
Definition set_uart (u : Z) (d : dev) : dev :=
  mkDev (outs d) (answers d) (irqmask d) u (ismp d) (ioapicid d) (ioregs d) (lapic d) (lapicws d).
(** [microdelay] does nothing. *)
Fixpoint uart_wait (n : nat) : M dev unit :=
  match n with
  | O => mret tt
  | S n' => s ← inb (COM1 + 5); if ctrue (Z.land s 0x20) then mret tt else uart_wait n'
  end.
Definition uartputc (c : Z) : M dev unit :=
  u ← gets uart;
  if u =? 0 then mret tt else uart_wait 128;; outb COM1 c.
Definition uartgetc : M dev Z :=
  u ← gets uart;
  if u =? 0 then mret (-1) else
  s ← inb (COM1 + 5);
  if negb (ctrue (Z.land s 1)) then mret (-1) else inb COM1.
Fixpoint uartputs (cs : list Z) : M dev unit := match cs with [] => mret tt | c :: cs' => uartputc c;; uartputs cs' end.
Definition uartinit : M dev unit :=
  outb (COM1 + 2) 0;;
  outb (COM1 + 3) 0x80;;
  outb COM1 (115200 / 9600);;
  outb (COM1 + 1) 0;;
  outb (COM1 + 3) 3;;
  outb (COM1 + 4) 0;;
  outb (COM1 + 1) 1;;
  s ← inb (COM1 + 5);
  if s =? 0xff then mret tt else
  modify (set_uart 1);;
  inb (COM1 + 2);;
  inb COM1;;
  picenable Trap.IRQ_COM1;;
  ioapicenable Trap.IRQ_COM1 0;;
  uartputs (zstr "xv6..." ++ [10]).
(** The characters that [consoleintr] gets from [uartgetc]. *)
Fixpoint uart_chars (fuel : nat) : M dev (list Z) :=
  match fuel with
  | O => nofuel
  | S fuel' => c ← uartgetc; if c <? 0 then mret [] else cs ← uart_chars fuel'; mret (c :: cs)
  end.
Definition uartintr (fuel : nat) (s : input) : M dev (option (input * list Z * bool)) :=
  cs ← uart_chars fuel; mret (consoleintr cs s).

(** *** The local APIC *)

Definition ID : Z := 0x20 / 4.
Definition VER : Z := 0x30 / 4.
Definition TPR : Z := 0x80 / 4.
Definition EOI : Z := 0xB0 / 4.
Definition SVR : Z := 0xF0 / 4.
Definition ESR : Z := 0x280 / 4.
Definition ICRLO : Z := 0x300 / 4.
Definition ICRHI : Z := 0x310 / 4.
Definition TIMER : Z := 0x320 / 4.
Definition PCINT : Z := 0x340 / 4.
Definition LINT0 : Z := 0x350 / 4.
Definition LINT1 : Z := 0x360 / 4.
Definition ERROR : Z := 0x370 / 4.
Definition TICR : Z := 0x380 / 4.
Definition TDCR : Z := 0x3E0 / 4.
Definition DELIVS : Z := 0x1000.
Definition IRQ_ERROR : Z := 19.

(** [lapic[index]] *)
Definition lapicr (index : Z) : M dev Z := λ d,
  Ok (u32 (hd 0 (answers d)), mkDev (outs d) (tl (answers d)) (irqmask d) (uart d) (ismp d) (ioapicid d) (ioregs d) (lapic d) (lapicws d)).
Definition lapicw (index value : Z) : M dev unit :=
  modify (λ d, mkDev (outs d) (answers d) (irqmask d) (uart d) (ismp d) (ioapicid d) (ioregs d) (lapic d) (lapicws d ++ [(index, u32 value)]));;
  lapicr ID;; mret tt.
Fixpoint delivered (fuel : nat) : M dev unit :=
  match fuel with
  | O => nofuel
  | S fuel' => v ← lapicr ICRLO; if ctrue (Z.land v DELIVS) then delivered fuel' else mret tt
  end.
Definition lapicinit (fuel : nat) : M dev unit :=
  l ← gets lapic;
  if l =? 0 then mret tt else
  lapicw SVR (Z.lor 0x100 (Trap.T_IRQ0 + Trap.IRQ_SPURIOUS));;
  lapicw TDCR 0xB;;
  lapicw TIMER (Z.lor 0x20000 (Trap.T_IRQ0 + Trap.IRQ_TIMER));;
  lapicw TICR 10000000;;
  lapicw LINT0 0x10000;;
  lapicw LINT1 0x10000;;
  v ← lapicr VER;
  when (4 <=? Z.land (Z.shiftr v 16) 0xFF) (lapicw PCINT 0x10000);;
  lapicw ERROR (Trap.T_IRQ0 + IRQ_ERROR);;
  lapicw ESR 0;;
  lapicw ESR 0;;
  lapicw EOI 0;;
  lapicw ICRHI 0;;
  lapicw ICRLO (Z.lor 0x80000 (Z.lor 0x500 0x8000));;
  delivered fuel;;
  lapicw TPR 0.
(** [cpunum]; its complaint about enabled interrupts is left out. *)
Definition cpunum : M dev Z :=
  l ← gets lapic;
  if l =? 0 then mret 0 else v ← lapicr ID; mret (Z.shiftr v 24).
Definition lapiceoi : M dev unit :=
  l ← gets lapic;
  when (negb (l =? 0)) (lapicw EOI 0).
Definition IO_RTC : Z := 0x70.
(** [lapicstartap]; what it leaves at the warm reset vector, [0x467], is its
    result. *)
Definition lapicstartap (apicid addr : Z) : M dev (Z * Z) :=
  outb IO_RTC 0xF;;
  outb (IO_RTC + 1) 0x0A;;
  lapicw ICRHI (Z.shiftl apicid 24);;
  lapicw ICRLO (Z.lor 0x500 (Z.lor 0x8000 0x4000));;
  lapicw ICRLO (Z.lor 0x500 0x8000);;
  lapicw ICRHI (Z.shiftl apicid 24);;
  lapicw ICRLO (Z.lor 0x600 (Z.shiftr addr 12));;
  lapicw ICRHI (Z.shiftl apicid 24);;
  lapicw ICRLO (Z.lor 0x600 (Z.shiftr addr 12));;
  mret (0, u16 (Z.shiftr addr 4)).

(** ** Which lines are heard *)

Fixpoint enable_all (irqs : list Z) : M dev unit := match irqs with [] => mret tt | i :: l => picenable i;; enable_all l end.

(** The byte that was written to a port last. *)
Definition last_out (p : Z) (d : dev) : option Z := foldl (λ r w, if decide (w.1 = p) then Some w.2 else r) None (outs d).

Lemma last_out_outb p q v d : ∃ d', outb q v d = Ok (tt, d') ∧ irqmask d' = irqmask d ∧ last_out p d' = if decide (q = p) then Some (u8 v) else last_out p d.
Proof.
  eexists. split; [reflexivity|]. split; [done|]. unfold last_out. cbn [outs]. by rewrite foldl_app.
Qed.

(** The mask is what both controllers have been told, and its clear bits are
    the lines of [P]. *)
Record mask_is (P : Z → Prop) (d : dev) : Prop := {
  mi_range : 0 ≤ irqmask d < 65536;
  mi_pic1 : last_out 0x21 d = Some (u8 (irqmask d));
  mi_pic2 : last_out 0xA1 d = Some (u8 (Z.shiftr (irqmask d) 8));
  mi_bits i : 0 ≤ i < 16 → Z.testbit (irqmask d) i = false ↔ P i
}.

Lemma setmask_is (P : Z → Prop) m d : 0 ≤ m < 65536 → (∀ i, 0 ≤ i < 16 → Z.testbit m i = false ↔ P i) → ∃ d', picsetmask m d = Ok (tt, d') ∧ mask_is P d'.
Proof.
  intros Hm Hb. unfold picsetmask. set (d0 := mkDev (outs d) (answers d) m (uart d) (ismp d) (ioapicid d) (ioregs d) (lapic d) (lapicws d)).
  rewrite (bind_Ok (modify _) _ _ tt d0) by done. destruct (last_out_outb 0x21 (IO_PIC1 + 1) m d0) as (d1 & E1 & M1 & _). step E1.
  destruct (last_out_outb 0x21 (IO_PIC2 + 1) (Z.shiftr m 8) d1) as (d2 & E2 & M2 & L2). exists d2. split; [done|]. assert (irqmask d2 = m) as Em by by rewrite M2, M1.
  split; rewrite Em; [done| | |done].
  - rewrite L2, decide_False by done.
    destruct (last_out_outb 0x21 (IO_PIC1 + 1) m d0) as (d1' & E1' & _ & L1). rewrite E1 in E1'. injection E1' as <-. by rewrite L1, decide_True.
  - destruct (last_out_outb 0xA1 (IO_PIC2 + 1) (Z.shiftr m 8) d1) as (d2' & E2' & _ & L2'). rewrite E2 in E2'. injection E2' as <-. by rewrite L2', decide_True.
Qed.

Lemma picenable_is P irq d : mask_is P d → 0 ≤ irq < 16 → ∃ d', picenable irq d = Ok (tt, d') ∧ mask_is (λ i, P i ∨ i = irq) d'.
Proof.
  intros [Hr _ _ Hb] Hi. unfold picenable. rewrite (bind_Ok (gets _) _ _ _ _ eq_refl).
  assert (0 ≤ Z.land (irqmask d) (Z.lnot (Z.shiftl 1 irq)) ≤ irqmask d) as Hl.
  { apply Z.ldiff_le; [lia|]. by rewrite Z.ldiff_land, <-Z.land_assoc, (Z.land_comm (Z.lnot _)), Z.land_assoc, Z.land_lnot_diag. }
  unfold u16. rewrite Z.mod_small by lia. apply setmask_is; [lia|]. intros i Hi'. rewrite Z.land_spec, Z.lnot_spec, Z.shiftl_1_l, Z.pow2_bits_eqb by lia.
  rewrite <-(Hb i Hi'). destruct (Z.eqb_spec irq i); cbn [negb]; [rewrite andb_false_r; split; [intros; right; lia|done]|rewrite andb_true_r; split; [by left|intros [?|?]; [done|lia]]].
Qed.

Lemma enable_all_is irqs : ∀ P d, mask_is P d → Forall (λ i, 0 ≤ i < 16) irqs → ∃ d', enable_all irqs d = Ok (tt, d') ∧ mask_is (λ i, P i ∨ i ∈ irqs) d'.
Proof.
  induction irqs as [|irq irqs IH]; intros P d Hd Hf; cbn [enable_all].
  - exists d. split; [done|]. destruct Hd as [H1 H2 H3 H4]. split; [done..|]. intros i Hi. rewrite (H4 i Hi), elem_of_nil. tauto.
  - apply Forall_cons_1 in Hf as [Hi Hf]. destruct (picenable_is P irq d Hd Hi) as (d1 & E1 & H1). step E1.
    destruct (IH _ d1 H1 Hf) as (d2 & E2 & [G1 G2 G3 G4]). exists d2. split; [done|]. split; [done..|]. intros i Hi'. rewrite (G4 i Hi'), elem_of_cons. tauto.
Qed.

Ltac out_step Hm :=
  match goal with |- context [(outb ?p ?v ≫= _) ?d] =>
    let d' := fresh "d" in let E := fresh "E" in let M := fresh "M" in
    destruct (last_out_outb 0 p v d) as (d' & E & M & _); step E; rewrite <-M in Hm; clear E M
  end.

(** C34: The interrupt lines of the 8259A controllers: after [picinit] and any
    calls of [picenable], in any order and as often as may be, the masks that
    the two controllers were last given let through the lines that were enabled
    and the line that connects them, and no other. *)
Theorem enabled_lines_heard irqs d : irqmask d = irqmask_init → Forall (λ i, 0 ≤ i < 16) irqs →
  ∃ d' m1 m2, (picinit;; enable_all irqs) d = Ok (tt, d') ∧ last_out 0x21 d' = Some m1 ∧ last_out 0xA1 d' = Some m2 ∧
    ∀ i, 0 ≤ i < 16 → Z.testbit (if i <? 8 then m1 else m2) (i mod 8) = false ↔ i ∈ irqs ∨ i = IRQ_SLAVE.
Proof.
  intros Hm Hf. assert (∃ d1, picinit d = picsetmask irqmask_init d1) as [d1 E1].
  { unfold picinit. repeat out_step Hm. rewrite (bind_Ok (gets _) _ _ _ _ eq_refl), Hm. eexists. reflexivity. }
  destruct (setmask_is (λ i, i = IRQ_SLAVE) irqmask_init d1) as (d2 & E2 & H2); [by vm_compute| |].
  { intros i Hi. unfold irqmask_init, u16. rewrite Z.mod_small by (by vm_compute). rewrite Z.land_spec, Z.lnot_spec, Z.shiftl_1_l, Z.pow2_bits_eqb by (unfold IRQ_SLAVE; lia).
    change 0xFFFF with (Z.ones 16). rewrite Z.ones_spec_low by lia. cbn [andb]. destruct (Z.eqb_spec IRQ_SLAVE i); naive_solver. }
  rewrite E2 in E1. step E1. destruct (enable_all_is irqs _ d2 H2 Hf) as (d' & E & [Hr H3 H4 H5]). exists d', (u8 (irqmask d')), (u8 (Z.shiftr (irqmask d') 8)).
  split; [done|]. split; [done|]. split; [done|]. intros i Hi. rewrite (or_comm (i ∈ irqs)), <-(H5 i Hi).
  destruct (Z.ltb_spec i 8); unfold u8; change 256 with (2 ^ 8); rewrite Z.mod_pow2_bits_low by (pose proof (Z.mod_pos_bound i 8); lia).
  - by rewrite Z.mod_small by lia.
  - rewrite Z.shiftr_spec by (apply Z.mod_pos_bound; lia). replace (i mod 8 + 8) with i; [done|]. pose proof (Z.div_mod i 8). 
    assert (i / 8 = 1) by (symmetry; apply (Z.div_unique_pos _ _ _ (i - 8)); lia). lia.
Qed.

Fixpoint route_all (l : list (Z * Z)) : M dev unit := match l with [] => mret tt | (irq, cpu) :: l' => ioapicenable irq cpu;; route_all l' end.
(** The processor that a line goes to: the last one named for it. *)
Definition routed (l : list (Z * Z)) (i : Z) : option Z := foldl (λ r x, if decide (x.1 = i) then Some x.2 else r) None l.

(** The entry of line [i] in the redirection table. *)
Definition entry (d : dev) (i : Z) : option Z * option Z := (ioregs d !! (REG_TABLE + 2 * i), ioregs d !! (REG_TABLE + 2 * i + 1)).
Definition route (i : Z) (o : option Z) : option Z * option Z :=
  match o with
  | Some cpu => (Some (Trap.T_IRQ0 + i), Some (Z.shiftl cpu 24))
  | None => (Some (Z.lor INT_DISABLED (Trap.T_IRQ0 + i)), Some 0)
  end.

Lemma write_entry i a b d : is_u32 a → is_u32 b → ∃ d', (ioapicwrite (REG_TABLE + 2 * i) a;; ioapicwrite (REG_TABLE + 2 * i + 1) b) d = Ok (tt, d') ∧ ismp d' = ismp d ∧
  ∀ j, entry d' j = if decide (j = i) then (Some a, Some b) else entry d j.
Proof.
  intros Ha Hb. eexists. split; [reflexivity|]. split; [done|]. intros j. unfold entry. cbn [ioregs]. rewrite !u32_small by done. case_decide as Hj.
  - subst j. by rewrite lookup_insert_ne, !lookup_insert_eq by lia.
  - by rewrite !lookup_insert_ne by (unfold REG_TABLE; lia).
Qed.

Lemma ioapic_mask_ok n : ∀ i d, 0 ≤ i → i + Z.of_nat n ≤ 256 → ∃ d', ioapic_mask n i d = Ok (tt, d') ∧ ismp d' = ismp d ∧
  ∀ j, entry d' j = if decide (i ≤ j < i + Z.of_nat n) then route j None else entry d j.
Proof.
  induction n as [|n IH]; intros i d Hi Hn; cbn [ioapic_mask].
  { exists d. split; [done|]. split; [done|]. intros j. by rewrite decide_False by lia. }
  assert (is_u32 (Z.lor INT_DISABLED (Trap.T_IRQ0 + i))) as Hu.
  { unfold INT_DISABLED, Trap.T_IRQ0. split; [apply Z.lor_nonneg; lia|]. apply Z.log2_lt_cancel. rewrite Z.log2_lor by lia.
    pose proof (Z.log2_le_mono (32 + i) 65536). change (Z.log2 65536) with 16 in *. change (Z.log2 4294967296) with 32. lia. }
  destruct (write_entry i (Z.lor INT_DISABLED (Trap.T_IRQ0 + i)) 0 d Hu) as (d1 & E1 & M1 & T1); [unfold is_u32; lia|].
  destruct (IH (i + 1) d1) as (d' & E' & M' & T'); [lia|lia|]. exists d'. rewrite <-bind_assoc. step E1. split; [done|]. split; [by rewrite M'|].
  intros j. rewrite T', T1. repeat case_decide; subst; try lia; done.
Qed.

Lemma route_all_ok l : ∀ d r, ismp d ≠ 0 → Forall (λ x, 0 ≤ x.1 < 256 ∧ 0 ≤ x.2 < 256) l → ∃ d', route_all l d = Ok (tt, d') ∧
  ∀ j, entry d j = route j r → entry d' j = route j (foldl (λ r x, if decide (x.1 = j) then Some x.2 else r) r l).
Proof.
  induction l as [|[irq cpu] l IH]; intros d r Hmp Hf; cbn [route_all foldl]; [by exists d|]. apply Forall_cons_1 in Hf as [[Hi Hc] Hf]. cbn [fst snd] in *.
  assert (is_u32 (Trap.T_IRQ0 + irq) ∧ is_u32 (Z.shiftl cpu 24)) as [Hu1 Hu2].
  { unfold Trap.T_IRQ0, is_u32. rewrite Z.shiftl_mul_pow2 by lia. change (2 ^ 24) with 16777216. lia. }
  destruct (write_entry irq _ _ d Hu1 Hu2) as (d1 & E1 & M1 & T1).
  assert (ioapicenable irq cpu d = Ok (tt, d1)) as E.
  { unfold ioapicenable. rewrite (bind_Ok (gets _) _ _ _ _ eq_refl), (proj2 (Z.eqb_neq _ _)) by done. exact E1. }
  step E. destruct (IH d1 (Some cpu)) as (d2 & E2 & T2); [by rewrite M1|done|]. destruct (IH d1 r) as (d3 & E3 & T3); [by rewrite M1|done|].
  rewrite E2 in E3. injection E3 as <-. exists d2. split; [done|]. intros j Hj. case_decide as Hij.
  - subst j. apply T2. by rewrite T1, decide_True.
  - apply T3. by rewrite T1, decide_False.
Qed.

(** The interrupt lines of the I/O APIC: after [ioapicinit] and any calls of
    [ioapicenable], a line that was never enabled is masked and goes nowhere,
    and any other raises its vector, unmasked, on the processor it was enabled
    for last. *)
Theorem ioapic_routes l d : ismp d ≠ 0 → Forall (λ x, 0 ≤ x.1 < 256 ∧ 0 ≤ x.2 < 256) l →
  ∃ d', (ioapicinit;; route_all l) d = Ok (tt, d') ∧
    ∀ i, 0 ≤ i ≤ Z.land (Z.shiftr (default 0 (ioregs d !! REG_VER)) 16) 0xFF → entry d' i = route i (routed l i).
Proof.
  intros Hmp Hf. set (mx := Z.land (Z.shiftr (default 0 (ioregs d !! REG_VER)) 16) 0xFF).
  assert (0 ≤ mx < 256) as Hmx by (unfold mx; change 0xFF with (Z.ones 8); rewrite Z.land_ones by lia; apply Z.mod_pos_bound; lia).
  destruct (ioapic_mask_ok (S (Z.to_nat mx)) 0 d) as (d1 & E1 & M1 & T1); [lia|lia|].
  assert (ioapicinit d = Ok (tt, d1)) as E.
  { unfold ioapicinit. rewrite (bind_Ok (gets _) _ _ _ _ eq_refl), (proj2 (Z.eqb_neq _ _)) by done. exact E1. }
  step E. destruct (route_all_ok l d1 None) as (d' & E' & T'); [by rewrite M1|done|]. exists d'. split; [done|]. intros i Hi. apply T'. by rewrite T1, decide_True by lia.
Qed.

(** ** The serial port *)

Lemma uart_wait_run n : ∀ d, ∃ d' k, uart_wait n d = Ok (tt, d') ∧ (k ≤ n)%nat ∧
  d' = mkDev (outs d) (drop k (answers d)) (irqmask d) (uart d) (ismp d) (ioapicid d) (ioregs d) (lapic d) (lapicws d).
Proof.
  induction n as [|n IH]; intros d; cbn [uart_wait].
  - exists d, 0%nat. split; [done|]. split; [done|]. by destruct d.
  - rewrite (bind_Ok (inb _) _ _ _ _ eq_refl). destruct (ctrue _).
    + eexists _, 1%nat. split; [reflexivity|]. split; [lia|]. cbn [outs answers irqmask uart ismp ioapicid ioregs lapic lapicws]. by destruct (answers d).
    + destruct (IH (mkDev (outs d) (tl (answers d)) (irqmask d) (uart d) (ismp d) (ioapicid d) (ioregs d) (lapic d) (lapicws d))) as (d' & k & E & Hk & Ed).
      exists d', (S k). split; [exact E|]. split; [lia|]. rewrite Ed. cbn [outs answers irqmask uart ismp ioapicid ioregs lapic lapicws]. destruct (answers d); [|done]. cbn [tl drop]. by rewrite drop_nil.
Qed.

(** [uartputc] sends its byte after at most 128 looks at the line, ready or
    not. *)
Lemma uartputc_sends c d : uart d ≠ 0 → ∃ d' k, uartputc c d = Ok (tt, d') ∧ outs d' = outs d ++ [(COM1, u8 c)] ∧ (k ≤ 128)%nat ∧ answers d' = drop k (answers d).
Proof.
  intros Hu. unfold uartputc. rewrite (bind_Ok (gets _) _ _ _ _ eq_refl), (proj2 (Z.eqb_neq _ _)) by done.
  destruct (uart_wait_run 128 d) as (d1 & k & E & Hk & ->). step E. eexists _, k. split; [reflexivity|]. by split.
Qed.

(** ** Two lines *)

Definition demo_dev : dev := mkDev [] [] irqmask_init 0 1 0 {[ REG_VER := 0x170000 ]} 0 [].
Lemma enabled_lines_heard_witness : ∃ d' m1 m2, (picinit;; enable_all [1; 14; 1]) demo_dev = Ok (tt, d') ∧ last_out 0x21 d' = Some m1 ∧ last_out 0xA1 d' = Some m2 ∧
  Z.testbit m1 1 = false ∧ Z.testbit m2 6 = false ∧ Z.testbit m1 0 ≠ false.
Proof.
  destruct (enabled_lines_heard [1; 14; 1] demo_dev eq_refl) as (d' & m1 & m2 & E & L1 & L2 & H); [repeat constructor; lia|].
  exists d', m1, m2. split; [exact E|]. split; [exact L1|]. split; [exact L2|].
  split; [apply (H 1 ltac:(lia)); left; by left|]. split; [apply (H 14 ltac:(lia)); left; right; by left|].
  intros H0. apply (H 0 ltac:(lia)) in H0 as [H0|H0]; [|discriminate H0]. by repeat (apply elem_of_cons in H0 as [H0|H0]; [discriminate H0|]); apply elem_of_nil in H0.
Defined.

Lemma ioapic_routes_witness : ∃ d', (ioapicinit;; route_all [(14, 0); (1, 0); (14, 1)]) demo_dev = Ok (tt, d') ∧
  entry d' 14 = (Some 46, Some 0x1000000) ∧ entry d' 0 = (Some 0x10020, Some 0).
Proof.
  destruct (ioapic_routes [(14, 0); (1, 0); (14, 1)] demo_dev) as (d' & E & H); [discriminate|repeat constructor; cbn [fst snd]; lia|].
  exists d'. split; [exact E|]. split; [apply (H 14); vm_compute; split; discriminate|apply (H 0); vm_compute; split; discriminate].
Defined.
