(* ===== verification/Mp.v ===== *)
(** The multiprocessor tables ([xv6/kernel/mp.c]): the search of the BIOS'
    memory, the checks of the table and what [mpinit] makes of its entries. *)

From S2P Require Import Prelude.

(** ** Definitions *)

Definition NCPU : Z := 8.
Definition MPPROC : Z := 0.
Definition MPBUS : Z := 1.
Definition MPIOAPIC : Z := 2.
Definition MPIOINTR : Z := 3.
Definition MPLINTR : Z := 4.
Definition MPBOOT : Z := 2.
Definition SIZEOF_MPPROC : Z := 20.
Definition SIZEOF_MPIOAPIC : Z := 8.

(** What the search fills in: the processors' identifiers in [cpus], the boot
    processor's index, and the other variables of the file. *)
Record mpstate := mkMp { cpu_ids : list Z; bcpu : Z; ismp : Z; ncpu : Z; ioapicid : Z; lapic : Z; imcr : bool }.

Section mp.
(** Physical memory, byte by byte. *)
Context (mem : Z → Z).






(** The loop over the entries. An unknown type leaves [p] where it is. *)
Fixpoint mpinit_loop (fuel : nat) (p e : Z) : M mpstate unit :=
  match fuel with
  | O => nofuel
  | S fuel' =>
      if negb (p <? e) then mret tt else
      let t := mem p in
      if t =? MPPROC then
        s ← get;
        when (negb (ncpu s =? mem (p + 1)))
          (modify (λ s, mkMp (cpu_ids s) (bcpu s) 0 (ncpu s) (ioapicid s) (lapic s) (imcr s)));;
        when (ctrue (Z.land (mem (p + 3)) MPBOOT))
          (modify (λ s, mkMp (cpu_ids s) (ncpu s) (ismp s) (ncpu s) (ioapicid s) (lapic s) (imcr s)));;
        if NCPU <=? ncpu s then undef else   (* cpus[ncpu] is outside the array *)
        modify (λ s, mkMp (<[Z.to_nat (ncpu s) := u8 (ncpu s)]> (cpu_ids s)) (bcpu s) (ismp s) (ncpu s + 1) (ioapicid s) (lapic s) (imcr s));;
        mpinit_loop fuel' (p + SIZEOF_MPPROC) e
      else if t =? MPIOAPIC then
        modify (λ s, mkMp (cpu_ids s) (bcpu s) (ismp s) (ncpu s) (mem (p + 1)) (lapic s) (imcr s));;
        mpinit_loop fuel' (p + SIZEOF_MPIOAPIC) e
      else if (t =? MPBUS) || (t =? MPIOINTR) || (t =? MPLINTR) then mpinit_loop fuel' (p + 8) e
      else
        modify (λ s, mkMp (cpu_ids s) (bcpu s) 0 (ncpu s) (ioapicid s) (lapic s) (imcr s));;
        mpinit_loop fuel' p e
  end.


(** ** What the specification says

    Stated on the bytes of memory, apart from the code's own helpers. *)

Definition bytes_of (a n : Z) : list Z := mem <$> seqZ a n.
(** The bytes add up to 0, as a byte. *)
Definition adds_up (a n : Z) : Prop := foldr Z.add 0 (bytes_of a n) mod 256 = 0.

(** A floating pointer structure at [p]. *)
Definition is_mp (p : Z) : Prop := bytes_of p 4 = zstr "_MP_" ∧ adds_up p 16.
#[export] Instance is_mp_dec p : Decision (is_mp p).
Proof. unfold is_mp, adds_up. apply _. Defined.











(** *** The search *)

Context (Hbytes : ∀ x, is_byte (mem x)).







Lemma when_modify (b : bool) (k : mpstate → mpstate) s : when b (modify k) s = Ok (tt, if b then k s else s).
Proof. by destruct b. Qed.




(** An entry of another type: the loop never ends. *)
Lemma unknown_type_hangs fuel : ∀ p e s, p < e → mem p ∉ [MPPROC; MPBUS; MPIOAPIC; MPIOINTR; MPLINTR] → mpinit_loop fuel p e s = NoFuel.
Proof.
  induction fuel as [|fuel IH]; intros p e s Hp Hm; [done|]. cbn [mpinit_loop]. rewrite (proj2 (Z.ltb_lt _ _)) by done. cbn [negb].
  rewrite !not_elem_of_cons in Hm. destruct Hm as (H1 & H2 & H3 & H4 & H5 & _). rewrite !(proj2 (Z.eqb_neq _ _)) by done. cbn [orb].
  rewrite (bind_Ok (modify _) _ _ tt _ eq_refl). apply IH; [done|]. rewrite !not_elem_of_cons. by split_and!; try apply not_elem_of_nil.
Qed.
(** A ninth processor: the array of eight is left. *)
Lemma ninth_processor fuel p e s : p < e → mem p = MPPROC → ncpu s = 8 → mpinit_loop (S fuel) p e s = Undef.
Proof.
  intros Hp Hm Hn. cbn [mpinit_loop]. rewrite (proj2 (Z.ltb_lt _ _)), Hm, Z.eqb_refl by done. cbn [negb]. rewrite (bind_Ok get _ _ _ _ eq_refl).
  rewrite (bind_Ok (when _ _) _ _ _ _ (when_modify _ _ s)), (bind_Ok (when _ _) _ _ _ _ (when_modify _ _ _)).
  by rewrite Hn.
Qed.
End mp.

(** ** Two processors *)



