(* ===== verification/Boot.v ===== *)
(** The boot loader ([xv6/kernel/bootmain.c]): the kernel's segments go from the
    disk to memory. *)

From S2P Require Import Prelude.
From S2P Require Exec.
From S2P Require Import ExecProofs.

(** ** Definitions *)

Definition SECTSIZE : Z := 512.

(** Memory, and how often the controller's status was read. *)
Record bstate := mkB { bmem : Z → Z; clock : nat }.
Definition store_at (a : Z) (bs : list Z) (m : Z → Z) : Z → Z :=
  λ x, if decide (a ≤ x < a + Z.of_nat (length bs)) then nth (Z.to_nat (x - a)) bs 0 else m x.

Section boot.
(** The sectors of the disk, and the status that the controller shows each time
    it is asked. *)
Context (disk : Z → list Z) (status : nat → Z).

(** [while((inb(0x1F7) & 0xC0) != 0x40)] *)
Fixpoint waitdisk (fuel : nat) : M bstate unit :=
  match fuel with
  | O => nofuel
  | S fuel' =>
      s ← get;
      modify (λ s, mkB (bmem s) (S (clock s)));;
      if Z.land (status (clock s)) 0xC0 =? 0x40 then mret tt else waitdisk fuel'
  end.
(** The sector that the four registers name. *)
Definition lba_regs (offset : Z) : Z :=
  u8 offset + 2 ^ 8 * u8 (Z.shiftr offset 8) + 2 ^ 16 * u8 (Z.shiftr offset 16) + 2 ^ 24 * Z.land (u8 (Z.lor (Z.shiftr offset 24) 0xE0)) 0xF.
Definition readsect (polls : nat) (dst offset : Z) : M bstate unit :=
  waitdisk polls;;
  let lba := lba_regs offset in
  waitdisk polls;;
  modify (λ s, mkB (store_at dst (disk lba) (bmem s)) (clock s)).

Fixpoint readseg_loop (polls fuel : nat) (va eva offset : Z) : M bstate unit :=
  match fuel with
  | O => nofuel
  | S fuel' =>
      if va <? eva then readsect polls va offset;; readseg_loop polls fuel' (u32 (va + SECTSIZE)) eva (u32 (offset + 1)) else mret tt
  end.
Definition readseg (polls : nat) (va count offset : Z) : M bstate unit :=
  let eva := u32 (va + count) in
  let va := u32 (va - offset mod SECTSIZE) in
  readseg_loop polls (S (S (Z.to_nat (count / SECTSIZE)) + 1)) va eva (offset / SECTSIZE + 1).

Definition mem_bytes (m : Z → Z) (a n : Z) : list Z := m <$> seqZ a n.
Definition stosb (a v n : Z) : M bstate unit := modify (λ s, mkB (store_at a (replicate (Z.to_nat n) v) (bmem s)) (clock s)).

(** The loop over the program headers, in memory from [ph] on. *)
Fixpoint load_phdrs (polls n : nat) (ph : Z) : M bstate unit :=
  match n with
  | O => mret tt
  | S n' =>
      s ← get;
      let h := Exec.dec_proghdr (mem_bytes (bmem s) ph Exec.SIZEOF_PROGHDR) in
      readseg polls (Exec.ph_va h) (Exec.ph_filesz h) (Exec.ph_offset h);;
      when (Exec.ph_filesz h <? Exec.ph_memsz h) (stosb (u32 (Exec.ph_va h + Exec.ph_filesz h)) 0 (Exec.ph_memsz h - Exec.ph_filesz h));;
      load_phdrs polls n' (u32 (ph + Exec.SIZEOF_PROGHDR))
  end.
Definition ELF_SCRATCH : Z := 0x10000.
(** The entry that is called, or [None] when the image is no executable. *)
Definition bootmain (polls : nat) : M bstate (option Z) :=
  readseg polls ELF_SCRATCH 4096 0;;
  s ← get;
  let elf := Exec.dec_elfhdr (mem_bytes (bmem s) ELF_SCRATCH Exec.SIZEOF_ELFHDR) in
  if negb (Exec.e_magic elf =? Exec.ELF_MAGIC) then mret None else
  load_phdrs polls (Z.to_nat (Exec.e_phnum elf)) (u32 (ELF_SCRATCH + Exec.e_phoff elf));;
  s ← get;
  mret (Some (Exec.e_entry (Exec.dec_elfhdr (mem_bytes (bmem s) ELF_SCRATCH Exec.SIZEOF_ELFHDR)))).

(** ** Reading *)

(** The kernel's image is on the disk from sector 1 on, and the controller gets
    ready. *)
Context (img : Z → Z) (polls : nat).
Context (on_disk : ∀ n, 0 ≤ n < 2 ^ 28 - 1 → disk (n + 1) = img <$> seqZ (n * 512) 512).
Context (ready : ∀ t, ∃ k, (k < polls)%nat ∧ Z.land (status (t + k)) 0xC0 = 0x40).

Lemma waitdisk_run s : ∃ c, waitdisk polls s = Ok (tt, mkB (bmem s) c).
Proof.
  destruct (ready (clock s)) as (k & Hk & Hr). revert s Hk Hr. generalize polls. induction k as [|k IH]; intros n s Hk Hr; (destruct n as [|n]; [lia|]); cbn [waitdisk].
  - rewrite Nat.add_0_r in Hr. rewrite (bind_Ok get _ _ _ _ eq_refl), (bind_Ok (modify _) _ _ tt _ eq_refl), Hr. eexists. reflexivity.
  - rewrite (bind_Ok get _ _ _ _ eq_refl), (bind_Ok (modify _) _ _ tt _ eq_refl). destruct (_ =? _); [eexists; reflexivity|].
    apply (IH n (mkB (bmem s) (S (clock s)))); [lia|]. cbn [clock]. by replace (S (clock s) + k)%nat with (clock s + S k)%nat by lia.
Qed.

Lemma lba_regs_small o : 0 ≤ o < 2 ^ 28 → lba_regs o = o.
Proof.
  intros Ho. unfold lba_regs. rewrite !Z.shiftr_div_pow2 by lia.
  assert (0 ≤ o / 2 ^ 24 < 16) as Ht by (split; [apply Z.div_pos; lia|apply Z.div_lt_upper_bound; lia]).
  assert (Z.land (u8 (Z.lor (o / 2 ^ 24) 0xE0)) 0xF = o / 2 ^ 24) as ->.
  { unfold u8. change 256 with (2 ^ 8). rewrite <-Z.land_ones, <-Z.land_assoc by lia. change (Z.land (Z.ones 8) 0xF) with (Z.ones 4).
    rewrite Z.land_lor_distr_l. change (Z.land 0xE0 (Z.ones 4)) with 0. rewrite Z.lor_0_r, Z.land_ones by lia. by apply Z.mod_small. }
  unfold u8. change (2 ^ 8) with 256 in *. change (2 ^ 16) with 65536 in *. change (2 ^ 24) with 16777216 in *.
  pose proof (Z.div_mod o 256). pose proof (Z.div_mod (o / 256) 256). pose proof (Z.div_mod (o / 65536) 256).
  replace (o / 65536) with (o / 256 / 256) in * by (rewrite Zdiv_Zdiv by lia; done).
  replace (o / 16777216) with (o / 256 / 256 / 256) in * by (rewrite !Zdiv_Zdiv by lia; done). lia.
Qed.

Lemma readsect_run s dst n : 0 ≤ n < 2 ^ 28 - 1 → ∃ c, readsect polls dst (n + 1) s = Ok (tt, mkB (store_at dst (img <$> seqZ (n * 512) 512) (bmem s)) c).
Proof.
  intros Hn. unfold readsect. destruct (waitdisk_run s) as [c1 E1]. step E1. cbv zeta. destruct (waitdisk_run (mkB (bmem s) c1)) as [c2 E2]. step E2.
  exists c2. rewrite lba_regs_small, on_disk by lia. reflexivity.
Qed.

Lemma store_sector dst o m x : store_at dst (img <$> seqZ o 512) m x = if decide (dst ≤ x < dst + 512) then img (o + (x - dst)) else m x.
Proof.
  unfold store_at. rewrite length_fmap, length_seqZ. change (Z.of_nat (Z.to_nat 512)) with 512. case_decide; [|done].
  apply nth_lookup_Some. rewrite list_lookup_fmap, lookup_seqZ_lt by lia. cbn. do 2 f_equal. lia.
Qed.

Lemma readseg_loop_run n : ∀ fuel s va o eva, (n < fuel)%nat → 0 ≤ o → (o + Z.of_nat n < 2 ^ 28 - 1) → 0 ≤ va → va + 512 * Z.of_nat n < 4294967296 → eva ≤ va + 512 * Z.of_nat n →
  ∃ m c, readseg_loop polls fuel va eva (o + 1) s = Ok (tt, mkB m c) ∧ (∀ x, va ≤ x < eva → m x = img (o * 512 + (x - va))) ∧ ∀ x, x < va → m x = bmem s x.
Proof.
  induction n as [|n IH]; intros [|fuel] s va o eva Hf Ho Hon Hva Htop Heva; try lia; cbn [readseg_loop].
  { rewrite (proj2 (Z.ltb_ge _ _)) by lia. exists (bmem s), (clock s). split; [by destruct s|]. split; [lia|done]. }
  destruct (Z.ltb_spec va eva) as [Hlt|]; [|exists (bmem s), (clock s); split; [by destruct s|]; split; [lia|done]].
  destruct (readsect_run s va o) as [c1 E1]; [lia|]. step E1. unfold SECTSIZE. rewrite !u32_small by (unfold is_u32; lia).
  destruct (IH fuel (mkB (store_at va (img <$> seqZ (o * 512) 512) (bmem s)) c1) (va + 512) (o + 1) eva) as (m & c & E & Hin & Hout); [lia..|].
  exists m, c. split; [done|]. split.
  - intros x Hx. destruct (decide (x < va + 512)).
    + rewrite Hout by lia. cbn [bmem]. rewrite store_sector, decide_True by lia. done.
    + rewrite Hin by lia. f_equal. lia.
  - intros x Hx. rewrite Hout by lia. cbn [bmem]. by rewrite store_sector, decide_False by lia.
Qed.

Lemma readseg_run s va count off : is_u32 off → 0 ≤ count → off mod 512 ≤ va → va + count + 1024 < 4294967296 →
  ∃ m c, readseg polls va count off s = Ok (tt, mkB m c) ∧ (∀ x, va ≤ x < va + count → m x = img (off + (x - va))) ∧ ∀ x, x < va - off mod 512 → m x = bmem s x.
Proof.
  unfold is_u32. intros Ho Hc Hva Htop. unfold readseg, SECTSIZE. pose proof (Z.mod_pos_bound off 512 eq_refl) as Hm. pose proof (Z.div_mod off 512 ltac:(done)) as Hd.
  pose proof (Z.div_mod count 512 ltac:(done)) as Hcd. pose proof (Z.mod_pos_bound count 512 eq_refl) as Hcm. pose proof (Z.div_pos off 512).
  pose proof (Z.div_lt_upper_bound off 512 8388608). pose proof (Z.div_pos count 512).
  rewrite !u32_small by (unfold is_u32; lia).
  destruct (readseg_loop_run (Z.to_nat (count / 512) + 2) (S (S (Z.to_nat (count / 512)) + 1)) s (va - off mod 512) (off / 512) (va + count)) as (m & c & E & Hin & Hout); [lia..|].
  exists m, c. split; [done|]. split; [|exact Hout]. intros x Hx. rewrite Hin by lia. f_equal. lia.
Qed.

(** ** Loading *)

Fixpoint hdrs (n : nat) (off : Z) : list Exec.proghdr :=
  match n with O => [] | S n' => Exec.dec_proghdr (img <$> seqZ off Exec.SIZEOF_PROGHDR) :: hdrs n' (off + Exec.SIZEOF_PROGHDR) end.

Definition seg_end (h : Exec.proghdr) : Z := Exec.ph_va h + Z.max (Exec.ph_filesz h) (Exec.ph_memsz h).
(** The segments lie above [lo], each above the one before, also where the
    reading begins, at the start of a sector. *)
Fixpoint stacked (lo : Z) (l : list Exec.proghdr) : Prop :=
  match l with
  | [] => True
  | h :: l' => lo ≤ Exec.ph_va h - Exec.ph_offset h mod 512 ∧ seg_end h + 1024 < 4294967296 ∧ stacked (seg_end h) l'
  end.
(** The segment is in memory: its bytes of the image, and zeroes. *)
Definition loaded (m : Z → Z) (h : Exec.proghdr) : Prop := ∀ x, Exec.ph_va h ≤ x < seg_end h →
  m x = if decide (x < Exec.ph_va h + Exec.ph_filesz h) then img (Exec.ph_offset h + (x - Exec.ph_va h)) else 0.

Context (img_bytes : ∀ o, is_byte (img o)).

Lemma hdr_fields off : let h := Exec.dec_proghdr (img <$> seqZ off Exec.SIZEOF_PROGHDR) in
  is_u32 (Exec.ph_offset h) ∧ is_u32 (Exec.ph_va h) ∧ is_u32 (Exec.ph_filesz h) ∧ is_u32 (Exec.ph_memsz h).
Proof.
  assert (Forall is_byte (img <$> seqZ off Exec.SIZEOF_PROGHDR)) as H by (apply list.Forall_fmap, list.Forall_forall; intros x _; apply img_bytes).
  split_and!; by apply wordk_u32.
Qed.

Lemma load_one s h : is_u32 (Exec.ph_offset h) → is_u32 (Exec.ph_va h) → is_u32 (Exec.ph_filesz h) → is_u32 (Exec.ph_memsz h) →
  Exec.ph_offset h mod 512 ≤ Exec.ph_va h → seg_end h + 1024 < 4294967296 →
  ∃ m c, (readseg polls (Exec.ph_va h) (Exec.ph_filesz h) (Exec.ph_offset h);;
          when (Exec.ph_filesz h <? Exec.ph_memsz h) (stosb (u32 (Exec.ph_va h + Exec.ph_filesz h)) 0 (Exec.ph_memsz h - Exec.ph_filesz h))) s = Ok (tt, mkB m c) ∧
    loaded m h ∧ ∀ x, x < Exec.ph_va h - Exec.ph_offset h mod 512 → m x = bmem s x.
Proof.
  unfold seg_end. intros Ho Hv Hf Hm Hva Htop. unfold is_u32 in *.
  destruct (readseg_run s (Exec.ph_va h) (Exec.ph_filesz h) (Exec.ph_offset h)) as (m & c & E & Hin & Hout); [done|lia|lia|lia|]. step E.
  pose proof (Z.mod_pos_bound (Exec.ph_offset h) 512 eq_refl). unfold loaded, seg_end. destruct (Z.ltb_spec (Exec.ph_filesz h) (Exec.ph_memsz h)) as [Hlt|Hge]; cbn [when].
  - eexists _, c. split; [reflexivity|]. unfold stosb, store_at. cbn [bmem clock]. rewrite u32_small, length_replicate by (unfold is_u32; lia). split.
    + intros x Hx. destruct (decide (x < Exec.ph_va h + Exec.ph_filesz h)).
      * rewrite decide_False by lia. apply Hin. lia.
      * rewrite decide_True by lia. apply nth_lookup_Some, lookup_replicate_2. lia.
    + intros x Hx. rewrite decide_False by lia. by apply Hout.
  - exists m, c. split; [reflexivity|]. split; [|done]. intros x Hx. rewrite decide_True by lia. apply Hin. lia.
Qed.

Lemma load_phdrs_run n : ∀ s lo off, ELF_SCRATCH + 4096 ≤ lo → 0 ≤ off → off + 32 * Z.of_nat n ≤ 4096 → stacked lo (hdrs n off) →
  (∀ x, ELF_SCRATCH ≤ x < ELF_SCRATCH + 4096 → bmem s x = img (x - ELF_SCRATCH)) →
  ∃ m c, load_phdrs polls n (ELF_SCRATCH + off) s = Ok (tt, mkB m c) ∧ Forall (loaded m) (hdrs n off) ∧ ∀ x, x < lo → m x = bmem s x.
Proof.
  unfold ELF_SCRATCH. induction n as [|n IH]; intros s lo off Hlo Ho Hn Hst Hmem; cbn [load_phdrs hdrs].
  { exists (bmem s), (clock s). split; [by destruct s|]. by split; [constructor|]. }
  assert (mem_bytes (bmem s) (0x10000 + off) Exec.SIZEOF_PROGHDR = img <$> seqZ off Exec.SIZEOF_PROGHDR) as Eh.
  { unfold mem_bytes, Exec.SIZEOF_PROGHDR. apply list_eq. intros j. rewrite !list_lookup_fmap. destruct (decide (Z.of_nat j < 32)).
    - rewrite !lookup_seqZ_lt by lia. cbn. f_equal. rewrite Hmem by lia. f_equal. lia.
    - by rewrite !lookup_seqZ_ge by lia. }
  rewrite (bind_Ok get _ _ _ _ eq_refl), Eh. cbn [hdrs stacked] in Hst. destruct (hdr_fields off) as (H1 & H2 & H3 & H4).
  set (h := Exec.dec_proghdr (img <$> seqZ off Exec.SIZEOF_PROGHDR)) in *. destruct Hst as (Hva & Htop & Hst).
  pose proof (Z.mod_pos_bound (Exec.ph_offset h) 512 eq_refl) as Hmod.
  destruct (load_one s h H1 H2 H3 H4) as (m1 & c1 & E1 & Hl1 & Hout1); [lia|done|]. cbv zeta. rewrite <-bind_assoc. step E1.
  assert (lo ≤ seg_end h) as Hle by (unfold seg_end, is_u32 in *; lia).
  replace (u32 (0x10000 + off + Exec.SIZEOF_PROGHDR)) with (0x10000 + (off + Exec.SIZEOF_PROGHDR)) by (unfold Exec.SIZEOF_PROGHDR; rewrite u32_small; unfold is_u32; lia).
  destruct (IH (mkB m1 c1) (seg_end h) (off + Exec.SIZEOF_PROGHDR)) as (m & c & E & Hl & Hout); [lia|unfold Exec.SIZEOF_PROGHDR; lia..|done| |].
  { intros x Hx. cbn [bmem]. rewrite Hout1 by lia. by apply Hmem. }
  exists m, c. split; [done|]. cbn [bmem] in Hout. split.
  - constructor; [|done]. intros x Hx. rewrite Hout by (unfold seg_end in *; lia). by apply Hl1.
  - intros x Hx. rewrite Hout, Hout1 by lia. done.
Qed.

Lemma header_in_memory m : (∀ x, 0x10000 ≤ x < 0x10000 + 4096 → m x = img (x - 0x10000)) → mem_bytes m 0x10000 Exec.SIZEOF_ELFHDR = img <$> seqZ 0 Exec.SIZEOF_ELFHDR.
Proof.
  intros Hm. unfold mem_bytes, Exec.SIZEOF_ELFHDR. apply list_eq. intros j. rewrite !list_lookup_fmap. destruct (decide (Z.of_nat j < 52)).
  - rewrite !lookup_seqZ_lt by lia. cbn. f_equal. rewrite Hm by lia. f_equal. lia.
  - by rewrite !lookup_seqZ_ge by lia.
Qed.

(** C20: The boot loader loads the kernel: with the kernel's image on the disk
    from sector 1 on, its headers in the first 4096 bytes, and its segments in
    the order of their addresses and apart (whole sectors are read, so what
    lies before a segment in its first sector is overwritten), [bootmain] calls
    the entry of the image, and then every segment has its bytes in memory,
    followed by zeroes up to its size; the loops end, for a controller that
    becomes ready within some number of looks. *)
Theorem boot_loads_kernel s : let elf := Exec.dec_elfhdr (img <$> seqZ 0 Exec.SIZEOF_ELFHDR) in
  Exec.e_magic elf = Exec.ELF_MAGIC → Exec.e_phoff elf + 32 * Exec.e_phnum elf ≤ 4096 →
  let hs := hdrs (Z.to_nat (Exec.e_phnum elf)) (Exec.e_phoff elf) in stacked (ELF_SCRATCH + 4096) hs →
  ∃ m c, bootmain polls s = Ok (Some (Exec.e_entry elf), mkB m c) ∧ Forall (loaded m) hs.
Proof.
  intros elf Hmg Hin hs Hst. assert (Forall is_byte (img <$> seqZ 0 Exec.SIZEOF_ELFHDR)) as Hb by (apply list.Forall_fmap, list.Forall_forall; intros x _; apply img_bytes).
  assert (is_u32 (Exec.e_phoff elf)) as [Hpo _] by by apply wordk_u32. assert (0 ≤ Exec.e_phnum elf) as Hpn by by apply le_val_range, Forall_take, Forall_drop.
  unfold bootmain, ELF_SCRATCH in *. destruct (readseg_run s 0x10000 4096 0) as (m0 & c0 & E0 & Hin0 & _); [by split|lia|done|lia|]. step E0.
  assert (∀ x, 0x10000 ≤ x < 0x10000 + 4096 → m0 x = img (x - 0x10000)) as Hm0 by (intros x Hx; by rewrite Hin0).
  rewrite (bind_Ok get _ _ _ _ eq_refl). cbn [bmem].
  rewrite (header_in_memory m0 Hm0).
  fold elf. rewrite Hmg, Z.eqb_refl. cbn [negb]. rewrite u32_small by (unfold is_u32; lia).
  destruct (load_phdrs_run (Z.to_nat (Exec.e_phnum elf)) (mkB m0 c0) (0x10000 + 4096) (Exec.e_phoff elf)) as (m & c & E & Hl & Hout); [unfold ELF_SCRATCH; lia|done|lia|done|exact Hm0|].
  unfold ELF_SCRATCH in E. step E. rewrite (bind_Ok get _ _ _ _ eq_refl). cbn [bmem]. rewrite header_in_memory; [by exists m, c|].
  intros x Hx. rewrite Hout by lia. by apply Hm0.
Qed.
End boot.

(** A kernel of five bytes at [0x100000], with 5000 in memory. *)
Definition kernel_bytes : list Z :=
  le_bytes 4 Exec.ELF_MAGIC ++ replicate 20 0 ++ le_bytes 4 0x100000 ++ le_bytes 4 52 ++ replicate 12 0 ++ le_bytes 4 1 ++ replicate 4 0 ++
  mjoin (le_bytes 4 <$> [1; 84; 0x100000; 0; 5; 5000; 7; 4096]) ++ [104; 101; 108; 108; 111].
Definition kernel_img (o : Z) : Z := nth (Z.to_nat o) kernel_bytes 0.
Definition kernel_disk (n : Z) : list Z := kernel_img <$> seqZ ((n - 1) * 512) 512.

Lemma boot_loads_kernel_witness : ∃ m c, bootmain kernel_disk (λ _, 0x40) 1 (mkB (λ _, 0) 0) = Ok (Some 0x100000, mkB m c) ∧ m 0x100000 = 104 ∧ m (0x100000 + 4999) = 0.
Proof.
  assert (∀ o, is_byte (kernel_img o)) as Hb.
  { intros o. unfold kernel_img. destruct (nth_in_or_default (Z.to_nat o) kernel_bytes 0) as [Hi| ->]; [|unfold is_byte; lia].
    assert (Forall is_byte kernel_bytes) as Hf by (apply (bool_decide_unpack _); vm_compute; exact Logic.I). rewrite List.Forall_forall in Hf. by apply Hf. }
  assert (∀ n, 0 ≤ n < 2 ^ 28 - 1 → kernel_disk (n + 1) = kernel_img <$> seqZ (n * 512) 512) as Hd by (intros n _; unfold kernel_disk; by replace (n + 1 - 1) with n by lia).
  assert (∀ t : nat, ∃ k, (k < 1)%nat ∧ Z.land 0x40 0xC0 = 0x40) as Hr by (intros t; exists 0%nat; split; [lia|reflexivity]).
  destruct (boot_loads_kernel kernel_disk (λ _, 0x40) kernel_img 1 Hd Hr Hb (mkB (λ _, 0) 0)) as (m & c & E & Hl).
  - vm_compute. reflexivity.
  - vm_compute. discriminate.
  - vm_compute. repeat split; discriminate.
  - exists m, c. split; [exact E|]. apply Forall_cons_1 in Hl as [Hl _].
    match type of Hl with loaded _ _ ?h => assert (h = Exec.mkProghdr 1 84 0x100000 5 5000) as Eh by (vm_compute; reflexivity); rewrite Eh in Hl end.
    unfold loaded, seg_end in Hl. cbn [Exec.ph_va Exec.ph_filesz Exec.ph_memsz Exec.ph_offset] in Hl. split.
    + rewrite (Hl 0x100000) by lia. rewrite decide_True by lia. vm_compute. reflexivity.
    + rewrite (Hl (0x100000 + 4999)) by lia. by rewrite decide_False by lia.
Defined.
