(* ===== verification/Start.v ===== *)
(** Starting the other processors ([bootothers] of [xv6/kernel/main.c]): a stack
    from the page allocator and the code's two arguments for each, in memory,
    and the commands to its APIC. *)

From S2P Require Import Prelude UnixFile Kalloc Dev.
From S2P Require Gates.

(** ** Definitions *)

Definition CODE : Z := 0x7000.
Definition WARM_RESET : Z := 0x467.

(** What a processor that is sent to [addr] finds there: its APIC's identifier,
    and the words 4 and 8 bytes before the code. *)
Record found := mkFound { f_id : Z; f_stack : Z; f_entry : Z }.
(** [looks] counts the reads of [booted]. *)
Record smp := mkSmp { sm_kmem : kmem_t; sm_dev : dev; looks : nat; started : list found }.

Section start.
(** The image of [bootother.S], the address of [mpmain], and the flag of a
    processor each time that it is read. *)
Context (bootother : list Z) (mpmain : Z) (booted : nat → nat → Z).

Definition on_kmem {A} (m : M kmem_t A) : M smp A := λ s,
  match m (sm_kmem s) with
  | Ok (a, k) => Ok (a, mkSmp k (sm_dev s) (looks s) (started s))
  | Panic e => Panic e | Blocked => Blocked | Undef => Undef | NoFuel => NoFuel
  end.
Definition on_devs {A} (m : M dev A) : M smp A := λ s,
  match m (sm_dev s) with
  | Ok (a, d) => Ok (a, mkSmp (sm_kmem s) d (looks s) (started s))
  | Panic e => Panic e | Blocked => Blocked | Undef => Undef | NoFuel => NoFuel
  end.
Definition store (a : Z) (bs : list Z) : M smp unit := on_kmem (modify (λ k, mkKmem (freelist k) (put_bytes (kram k) a bs))).

(** [lapicstartap] with its two stores; the processor finds what is in memory. *)
Definition start_ap (id : Z) : M smp unit :=
  '(w0, w1) ← on_devs (lapicstartap id CODE);
  store WARM_RESET (le_bytes 2 w0 ++ le_bytes 2 w1);;
  modify (λ s, mkSmp (sm_kmem s) (sm_dev s) (looks s)
    (started s ++ [mkFound id (word (kram (sm_kmem s)) (CODE - 4)) (word (kram (sm_kmem s)) (CODE - 8))])).

(** [while(c->booted == 0)] *)
Fixpoint wait_booted (fuel i : nat) : M smp unit :=
  match fuel with
  | O => nofuel
  | S fuel' =>
      s ← get;
      modify (λ s, mkSmp (sm_kmem s) (sm_dev s) (S (looks s)) (started s));;
      if booted i (looks s) =? 0 then wait_booted fuel' i else mret tt
  end.

Definition start_one (polls i : nat) (id : Z) : M smp unit :=
  stack ← on_kmem kalloc;
  store (CODE - 4) (le_bytes 4 (u32 (stack + Gates.KSTACKSIZE)));;
  store (CODE - 8) (le_bytes 4 mpmain);;
  start_ap id;;
  wait_booted polls i.

(** The loop, over the identifiers of the processors from [i] on. *)
Fixpoint bootothers_loop (polls i : nat) (ids : list Z) : M smp unit :=
  match ids with
  | [] => mret tt
  | id :: ids' =>
      me ← on_devs cpunum;
      (if Z.of_nat i =? me then mret tt else start_one polls i id);;
      bootothers_loop polls (S i) ids'
  end.
Definition bootothers (polls : nat) (ids : list Z) : M smp unit :=
  store CODE bootother;;
  bootothers_loop polls 0 ids.

(** ** Every other processor is started once *)

(** The end of the kernel, above the code's area; the boot processor, whose
    APIC answers with its number; processors that come up. *)
Context (kend : Z) (Hend : CODE + Z.of_nat (length bootother) ≤ kend) (Hentry : is_u32 mpmain).
Context (polls : nat) (comes_up : ∀ i t, ∃ n, (n < polls)%nat ∧ booted i (t + n) ≠ 0).
Context (me : nat) (idreg : Z) (Hme : Z.shiftr (u32 idreg) 24 = Z.of_nat me).















End start.

(** ** Two processors, the second of which boots *)

Definition demo_apic : dev := mkDev [] (replicate 16 0x1000000) 0xFFFF 0 1 0 ∅ 0xFEE00000 [].
Definition demo_smp (k : kmem_t) : smp := mkSmp k demo_apic 0 [].


(** The page is not checked: with none left the processor is sent to a stack
    below address 4096. *)
Lemma stack_unchecked : ∃ s',
  bootothers [0xFA; 0xFC] 0x101000 (λ _ _, 1) 2 [0; 1] (demo_smp (mkKmem 0 ∅)) = Ok (tt, s') ∧
  started s' = [mkFound 0 0x1000 0x101000].
Proof. eexists. split; vm_compute; reflexivity. Qed.
