(* ===== verification/Utils.v ===== *)
(** The small programs ([xv6/user/cat.c], [echo.c], [init.c], [kill.c], [ln.c],
    [ls.c], [mkdir.c], [rm.c], [wc.c]) over the system calls that they make.
    What [printf] makes of a format is in [Printf.v]; here it is the text that
    comes out, byte by byte. *)

From S2P Require Import Prelude CString UnixFile Printf.

(** ** Definitions *)

(** The system calls, with the kernel's state. *)
Record ustat := mkUstat { u_type : Z; u_ino : Z; u_size : Z }.
Class Os (St : Type) := {
  open : list Z → Z → M St Z;
  close : Z → M St Z;
  read : Z → Z → M St (Z * list Z);
  write : Z → list Z → M St Z;
  fstat : Z → M St (option ustat);
  link : list Z → list Z → M St Z;
  unlink : list Z → M St Z;
  mkdir : list Z → M St Z;
  mknod : list Z → Z → Z → M St Z;
  dup : Z → M St Z;
  kill : Z → M St Z;
  fork : M St Z;
  exec : list Z → list (list Z) → M St Z;
  wait : M St Z
}.

Definition T_DIR : Z := 1.
Definition T_FILE : Z := 2.
Definition O_RDWR : Z := 2.
Definition DIRSIZ : nat := 14.
Definition BUF : Z := 512.

Section utils.
Context {St : Type} `{Os St}.

(** [stat] of the library: [fstat] of the file, which is opened for it. *)
Definition stat (n : list Z) : M St (option ustat) :=
  fd ← open n 0;
  if fd <? 0 then mret None else
  r ← fstat fd;
  close fd;;
  mret r.

(** [printf]: each byte is a [write]. *)
Fixpoint puts (fd : Z) (text : list Z) : M St unit :=
  match text with [] => mret tt | c :: text' => write fd [c];; puts fd text' end.
Definition num (n : Z) : list Z := printint (i32 n) 10 true.

(** Programs: [false] when [exit] was called. *)
Definition exits : M St bool := mret false.
Definition goes_on : M St bool := mret true.
Definition and_then (m k : M St bool) : M St bool := b ← m; if (b : bool) then k else exits.

(** *** cat *)
Fixpoint cat (fuel : nat) (fd : Z) : M St bool :=
  match fuel with
  | O => nofuel
  | S fuel' =>
      '(n, buf) ← read fd BUF;
      if 0 <? n then write 1 (take (Z.to_nat n) buf);; cat fuel' fd else
      if n <? 0 then puts 1 (zstr "cat: read error" ++ [10]);; exits else goes_on
  end.
(** The files of the command line, one after the other. *)
Fixpoint each_file (f : Z → list Z → M St bool) (args : list (list Z)) : M St bool :=
  match args with
  | [] => exits
  | a :: args' =>
      fd ← open a 0;
      if fd <? 0 then puts 1 (zstr "cat: cannot open " ++ a ++ [10]);; exits else
      and_then (f fd a) (close fd;; each_file f args')
  end.
Definition cat_main (fuel : nat) (args : list (list Z)) : M St bool :=
  match args with [] => and_then (cat fuel 0) exits | _ => each_file (λ fd _, cat fuel fd) args end.

(** *** wc *)
Record counts := mkCounts { c_l : Z; c_w : Z; c_c : Z; inword : bool }.
Definition wc_space : list Z := [32; 13; 9; 10; 11].
Definition wc_char (s : counts) (b : Z) : counts :=
  let c := i32 (c_c s + 1) in
  let l := if b =? 10 then i32 (c_l s + 1) else c_l s in
  if bool_decide (b ∈ wc_space) then mkCounts l (c_w s) c false
  else if inword s then mkCounts l (c_w s) c true else mkCounts l (i32 (c_w s + 1)) c true.
Fixpoint wc_loop (fuel : nat) (fd : Z) (s : counts) : M St (option counts) :=
  match fuel with
  | O => nofuel
  | S fuel' =>
      '(n, buf) ← read fd BUF;
      if 0 <? n then wc_loop fuel' fd (foldl wc_char s (take (Z.to_nat n) buf)) else
      mret (if n <? 0 then None else Some s)
  end.
Definition wc (fuel : nat) (fd : Z) (name : list Z) : M St bool :=
  s ← wc_loop fuel fd (mkCounts 0 0 0 false);
  match s with
  | None => puts 1 (zstr "wc: read error" ++ [10]);; exits
  | Some s => puts 1 (num (c_l s) ++ [32] ++ num (c_w s) ++ [32] ++ num (c_c s) ++ [32] ++ name ++ [10]);; goes_on
  end.
Definition wc_main (fuel : nat) (args : list (list Z)) : M St bool :=
  match args with [] => and_then (wc fuel 0 []) exits | _ => each_file (wc fuel) args end.

(** *** echo *)
Fixpoint echo_main (args : list (list Z)) : M St bool :=
  match args with
  | [] => exits
  | a :: args' => puts 1 (a ++ match args' with [] => [10] | _ => [32] end);; echo_main args'
  end.

(** *** kill, ln, mkdir, rm; [argc] counts the program's name *)
Fixpoint kill_each (args : list (list Z)) : M St bool :=
  match args with
  | [] => exits
  | a :: args' => n ← need (atoi (a ++ [0])); kill n;; kill_each args'
  end.
Definition kill_main (argv : list (list Z)) : M St bool :=
  if decide (length argv < 1)%nat then puts 2 (zstr "usage: kill pid..." ++ [10]);; exits else kill_each (tl argv).
Definition ln_main (argv : list (list Z)) : M St bool :=
  match argv with
  | [_; old; new] =>
      r ← link old new;
      when (r <? 0) (puts 2 (zstr "link " ++ old ++ [32] ++ new ++ zstr ": failed" ++ [10]));; exits
  | _ => puts 2 (zstr "Usage: ln old new" ++ [10]);; exits
  end.
(** Each argument until one fails. *)
Fixpoint until_fails (f : list Z → M St Z) (msg : list Z → list Z) (args : list (list Z)) : M St bool :=
  match args with
  | [] => exits
  | a :: args' => r ← f a; if r <? 0 then puts 2 (msg a);; exits else until_fails f msg args'
  end.
Definition mkdir_main (args : list (list Z)) : M St bool :=
  match args with
  | [] => puts 2 (zstr "Usage: mkdir files..." ++ [10]);; exits
  | _ => until_fails mkdir (λ a, zstr "mkdir: " ++ a ++ zstr " failed to create" ++ [10]) args
  end.
Definition rm_main (args : list (list Z)) : M St bool :=
  match args with
  | [] => puts 2 (zstr "Usage: rm files..." ++ [10]);; exits
  | _ => until_fails unlink (λ a, zstr "rm: " ++ a ++ zstr " failed to delete" ++ [10]) args
  end.

(** *** init *)
Definition console_path : list Z := zstr "console".
Definition sh_path : list Z := zstr "sh".
Definition init_start : M St unit :=
  fd ← open console_path O_RDWR;
  when (fd <? 0) (mknod console_path 1 1;; open console_path O_RDWR;; mret tt);;
  dup 0;; dup 0;; mret tt.
(** [while((wpid=wait()) >= 0 && wpid != pid)] *)
Fixpoint init_wait (fuel : nat) (pid : Z) : M St unit :=
  match fuel with
  | O => nofuel
  | S fuel' =>
      wpid ← wait;
      if (0 <=? wpid) && negb (wpid =? pid) then puts 1 (zstr "zombie!" ++ [10]);; init_wait fuel' pid else mret tt
  end.
(** One round of the endless loop; in the child [exec] only returns to fail. *)
Definition init_round (fuel : nat) : M St bool :=
  puts 1 (zstr "init: starting sh" ++ [10]);;
  pid ← fork;
  if pid <? 0 then puts 1 (zstr "init: fork failed" ++ [10]);; exits else
  if pid =? 0 then exec sh_path [sh_path];; puts 1 (zstr "init: exec sh failed" ++ [10]);; exits else
  init_wait fuel pid;; goes_on.

(** *** ls *)
(** The part of a path after its last slash. *)
Fixpoint after_slash (last path : list Z) : list Z :=
  match path with [] => last | c :: path' => if c =? 47 then after_slash path' path' else after_slash last path' end.
Definition fmtname (path : list Z) : list Z :=
  let p := after_slash path path in
  if decide (DIRSIZ ≤ length p)%nat then p else p ++ replicate (DIRSIZ - length p) 32.
Definition ls_line (path : list Z) (st : ustat) : list Z :=
  fmtname path ++ [32] ++ num (u_type st) ++ [32] ++ num (u_ino st) ++ [32] ++ num (u_size st) ++ [10].
(** The name of an entry of 16 bytes, up to its first NUL. *)
Definition entry_name (de : list Z) : list Z :=
  let name := drop 2 de in default name (cstr name).
Fixpoint ls_entries (fuel : nat) (fd : Z) (path : list Z) : M St unit :=
  match fuel with
  | O => nofuel
  | S fuel' =>
      '(n, de) ← read fd 16;
      if negb (n =? 16) then mret tt else
      if le_val (take 2 de) =? 0 then ls_entries fuel' fd path else
      let buf := path ++ [47] ++ entry_name de in
      st ← stat buf;
      (match st with
       | None => puts 1 (zstr "ls: cannot stat " ++ buf ++ [10])
       | Some st => puts 1 (ls_line buf st)
       end);;
      ls_entries fuel' fd path
  end.
Definition ls (fuel : nat) (path : list Z) : M St unit :=
  fd ← open path 0;
  if fd <? 0 then puts 2 (zstr "ls: cannot open " ++ path ++ [10]) else
  st ← fstat fd;
  match st with
  | None => puts 2 (zstr "ls: cannot stat " ++ path ++ [10]);; close fd;; mret tt
  | Some st =>
      (if u_type st =? T_FILE then puts 1 (ls_line path st)
       else if u_type st =? T_DIR then
         if decide (512 < length path + 1 + DIRSIZ + 1)%nat then puts 1 (zstr "ls: path too long" ++ [10]) else ls_entries fuel fd path
       else mret tt);;
      close fd;; mret tt
  end.
Fixpoint ls_each (fuel : nat) (args : list (list Z)) : M St bool :=
  match args with [] => exits | a :: args' => ls fuel a;; ls_each fuel args' end.
Definition ls_main (fuel : nat) (args : list (list Z)) : M St bool :=
  match args with [] => ls fuel (zstr ".");; exits | _ => ls_each fuel args end.
End utils.

(** ** A stream and a screen

    What the loops rely on: a read gives the next bytes of the stream, at least
    one while there are any, and a write to descriptor 1 adds to the output. *)
Section streams.
Context {St : Type} `{Os St} (fd : Z) (rest out : St → list Z).

Class Stream := {
  read_next s : ∃ n buf s',
    read fd BUF s = Ok ((Z.of_nat n, buf), s') ∧ (n ≤ length (rest s))%nat ∧
    (rest s ≠ [] → (0 < n)%nat) ∧ take n buf = take n (rest s) ∧
    rest s' = drop n (rest s) ∧ out s' = out s;
  write_adds bytes s : ∃ r s', write 1 bytes s = Ok (r, s') ∧ out s' = out s ++ bytes ∧ rest s' = rest s
}.
Context `{!Stream}.

Lemma puts_adds text : ∀ s, ∃ s', puts 1 text s = Ok (tt, s') ∧ out s' = out s ++ text ∧ rest s' = rest s.
Proof.
  induction text as [|c text IH]; intros s; cbn [puts].
  - exists s. by rewrite app_nil_r.
  - destruct (write_adds [c] s) as (r & s1 & Hw & Ho & Hr). step Hw.
    destruct (IH s1) as (s2 & Hp & Ho2 & Hr2). exists s2. split; [done|].
    by rewrite Ho2, Ho, <- app_assoc, Hr2, Hr.
Qed.

(** The two ways a read ends. *)
Lemma read_cases s :
  (rest s = [] ∧ ∃ buf s', read fd BUF s = Ok ((0, buf), s') ∧ rest s' = [] ∧ out s' = out s) ∨
  (∃ n buf s', (0 < n)%nat ∧ read fd BUF s = Ok ((Z.of_nat n, buf), s') ∧ take n buf = take n (rest s) ∧
     rest s' = drop n (rest s) ∧ out s' = out s ∧ (length (rest s') < length (rest s))%nat).
Proof.
  destruct (read_next s) as (n & buf & s' & Hr & Hn & Hp & Ht & Hd & Ho).
  destruct (rest s) as [|b l] eqn:E.
  - left. split; [done|]. cbn in Hn. assert (n = 0%nat) as -> by lia. by exists buf, s'.
  - right. exists n, buf, s'. assert (0 < n)%nat by (apply Hp; done). split_and!; try done.
    rewrite Hd, length_drop. lia.
Qed.

Lemma wc_loop_all fuel : ∀ s c, (length (rest s) < fuel)%nat →
  ∃ s', wc_loop fuel fd c s = Ok (Some (foldl wc_char c (rest s)), s') ∧ out s' = out s ∧ rest s' = [].
Proof.
  induction fuel as [|fuel IH]; intros s c Hf; [lia|]. cbn [wc_loop].
  destruct (read_cases s) as [(E & buf & s' & Hr & Hn & Ho)|(n & buf & s' & Hp & Hr & Ht & Hd & Ho & Hl)]; step Hr.
  - exists s'. by rewrite E.
  - rewrite (proj2 (Z.ltb_lt 0 (Z.of_nat n))) by lia. rewrite Nat2Z.id, Ht.
    destruct (IH s' (foldl wc_char c (take n (rest s)))) as (s2 & H2 & Ho2 & Hr2); [lia|].
    exists s2. rewrite H2, Hd, <- foldl_app, take_drop. by rewrite Ho2, Ho.
Qed.

Lemma cat_all fuel : ∀ s, (length (rest s) < fuel)%nat →
  ∃ s', cat fuel fd s = Ok (true, s') ∧ out s' = out s ++ rest s ∧ rest s' = [].
Proof.
  induction fuel as [|fuel IH]; intros s Hf; [lia|]. cbn [cat].
  destruct (read_cases s) as [(E & buf & s' & Hr & Hn & Ho)|(n & buf & s' & Hp & Hr & Ht & Hd & Ho & Hl)]; step Hr.
  - exists s'. by rewrite E, app_nil_r.
  - rewrite (proj2 (Z.ltb_lt 0 (Z.of_nat n))) by lia. rewrite Nat2Z.id, Ht.
    destruct (write_adds (take n (rest s)) s') as (r & s1 & Hw & Ho1 & Hr1). step Hw.
    destruct (IH s1) as (s2 & H2 & Ho2 & Hr2); [rewrite Hr1; lia|].
    exists s2. split_and!; [exact H2| |done]. by rewrite Ho2, Ho1, Ho, Hr1, Hd, <- app_assoc, take_drop.
Qed.

(** *** The counts of a text *)

Definition is_space (b : Z) : bool := bool_decide (b ∈ wc_space).
(** The bytes that begin a word: one that is no space, after one that is. *)
Definition begins_word (pb : Z * Z) : bool := is_space pb.1 && negb (is_space pb.2).
Definition words_after (prev : Z) (text : list Z) : Z :=
  Z.of_nat (length (List.filter begins_word (zip (prev :: text) text))).
Definition words (text : list Z) : Z := words_after 32 text.
Definition lines (text : list Z) : Z := Z.of_nat (length (List.filter (Z.eqb 10) text)).

Lemma wc_char_counts text : ∀ l w n prev, 0 ≤ l → 0 ≤ w → 0 ≤ n →
  l + Z.of_nat (length text) < 2147483648 → w + Z.of_nat (length text) < 2147483648 → n + Z.of_nat (length text) < 2147483648 →
  foldl wc_char (mkCounts l w n (negb (is_space prev))) text =
    mkCounts (l + lines text) (w + words_after prev text) (n + Z.of_nat (length text)) (negb (is_space (List.last text prev))).
Proof.
  induction text as [|b text IH]; intros l w n prev Hl Hw Hn Bl Bw Bn.
  { cbn. by rewrite !Z.add_0_r. }
  cbn [foldl length] in *. rewrite Nat2Z.inj_succ in *.
  assert (List.last (b :: text) prev = List.last text b) as ->.
  { clear. revert b prev. induction text as [|c text IH]; intros b prev; [done|]. cbn. destruct text; [done|]. apply IH. }
  assert (wc_char (mkCounts l w n (negb (is_space prev))) b =
    mkCounts (l + if 10 =? b then 1 else 0) (w + if begins_word (prev, b) then 1 else 0) (n + 1) (negb (is_space b))) as ->.
  { unfold wc_char, begins_word, is_space. cbn [c_l c_w c_c inword fst snd]. rewrite !i32_small by (unfold is_i32; lia).
    rewrite (Z.eqb_sym 10 b). destruct (b =? 10), (bool_decide (b ∈ wc_space)), (bool_decide (prev ∈ wc_space)); cbn [andb negb];
      f_equal; lia. }
  assert (lines (b :: text) = (if 10 =? b then 1 else 0) + lines text) as ->.
  { unfold lines. cbn [List.filter]. destruct (10 =? b); cbn [length]; lia. }
  assert (words_after prev (b :: text) = (if begins_word (prev, b) then 1 else 0) + words_after b text) as ->.
  { unfold words_after. cbn [zip zip_with List.filter]. destruct (begins_word (prev, b)); cbn [length]; lia. }
  rewrite IH; [f_equal; lia|destruct (10 =? b); lia|destruct (begins_word (prev, b)); lia|lia|destruct (10 =? b); lia|destruct (begins_word (prev, b)); lia|lia].
Qed.

(** However the reads cut the stream up, [wc] prints the number of its
    lines, of its words (the runs of bytes that are no space) and of its bytes,
    and comes back with the stream at its end; [cat] copies the stream. *)
Theorem wc_counts fuel name s :
  (length (rest s) < fuel)%nat → Z.of_nat (length (rest s)) < 2147483648 →
  (∃ s', wc fuel fd name s = Ok (true, s') ∧ rest s' = [] ∧
    out s' = out s ++ num (lines (rest s)) ++ [32] ++ num (words (rest s)) ++ [32] ++ num (Z.of_nat (length (rest s))) ++ [32] ++ name ++ [10]) ∧
  (∃ s', cat fuel fd s = Ok (true, s') ∧ rest s' = [] ∧ out s' = out s ++ rest s).
Proof.
  intros Hf Hb. split.
  - destruct (wc_loop_all fuel s (mkCounts 0 0 0 false) Hf) as (s1 & H1 & Ho1 & Hr1).
    unfold wc. step H1.
    pose proof (wc_char_counts (rest s) 0 0 0 32) as Hc. change (negb (is_space 32)) with false in Hc.
    rewrite Hc by lia. rewrite !Z.add_0_l. cbn [c_l c_w c_c].
    edestruct puts_adds as (s2 & H2 & Ho2 & Hr2). step H2. exists s2.
    split_and!; [done|congruence|]. by rewrite Ho2, Ho1.
  - destruct (cat_all fuel s Hf) as (s' & H1 & Ho & Hr). by exists s'.
Qed.
End streams.

(** *** A terminal *)

(** The bytes still to come, the size the next reads give, the screen. *)
Record tty := mkTty { t_rest : list Z; t_reads : list nat; t_screen : list Z }.
Definition tty_read (fd n : Z) : M tty (Z * list Z) := λ s,
  let k := (min (S (default O (head (t_reads s)))) (min (Z.to_nat n) (length (t_rest s))))%nat in
  Ok ((Z.of_nat k, take k (t_rest s)), mkTty (drop k (t_rest s)) (tl (t_reads s)) (t_screen s)).
Definition tty_write (fd : Z) (bytes : list Z) : M tty Z :=
  modify (λ s, mkTty (t_rest s) (t_reads s) (t_screen s ++ bytes));; mret (Z.of_nat (length bytes)).
#[local] Instance tty_os : Os tty := {|
  open _ _ := mret (-1); close _ := mret (-1); read := tty_read; write := tty_write;
  fstat _ := mret None; link _ _ := mret (-1); unlink _ := mret (-1);
  mkdir _ := mret (-1); mknod _ _ _ := mret (-1); dup _ := mret (-1); kill _ := mret (-1);
  fork := mret (-1); exec _ _ := mret (-1); wait := mret (-1) |}.

#[local] Instance tty_stream : Stream 0 t_rest t_screen.
Proof.
  split.
  - intros s. set (k := (min (S (default O (head (t_reads s)))) (min (Z.to_nat BUF) (length (t_rest s))))%nat).
    exists k, (take k (t_rest s)), (mkTty (drop k (t_rest s)) (tl (t_reads s)) (t_screen s)).
    split_and!; try done; [lia| |by rewrite take_take, Nat.min_id].
    intros Hr. destruct (t_rest s); [done|]. subst k. unfold BUF. cbn [length]. lia.
  - intros bytes s. by eexists _, _.
Qed.

Definition some_text : list Z := zstr "two words" ++ [10] ++ zstr " three more words" ++ [10].

Lemma wc_counts_witness : ∃ s',
  wc 30 0 (zstr "stdin") (mkTty some_text [3; 0; 6]%nat []) = Ok (true, s') ∧
  t_screen s' = zstr "2 5 28 stdin" ++ [10].
Proof.
  destruct (proj1 (wc_counts 0 t_rest t_screen 30 (zstr "stdin") (mkTty some_text [3; 0; 6]%nat [])
    ltac:(vm_compute; lia) ltac:(vm_compute; reflexivity))) as (s' & H1 & _ & H2).
  exists s'. split; [exact H1|]. rewrite H2. vm_compute. reflexivity.
Defined.
