(* ===== verification/ShMain.v ===== *)
(** The main loop of the shell ([xv6/user/sh.c]): a prompt, a line read by
    [gets] of [xv6/user/ulib.c] one byte at a time into a buffer of 100 bytes,
    and the line run in a child or, for [cd], in the shell itself. *)

From S2P Require Import Prelude CString ShParse Utils.

Definition BUFSIZE : nat := 100.

(** [fork1() == 0] with what the child does then: it runs the parsed line. *)
Class ShOs (St : Type) := {
  sh_os :: Os St;
  chdir : list Z → M St Z;
  spawn : outcome (cmd * list Z) → M St Z
}.

Section shell.
Context {St : Type} `{ShOs St}.

(** The text that [gets] stores before the NUL, [n] bytes at most. *)
Fixpoint gets_loop (n : nat) : M St (list Z) :=
  match n with
  | O => mret []
  | S n' =>
      '(cc, b) ← read 0 1;
      if cc <? 1 then mret [] else
      c ← need (head b);
      if (c =? 10) || (c =? 13) then mret [c] else
      text ← gets_loop n';
      mret (c :: text)
  end.
Definition gets (max : nat) : M St (list Z) := gets_loop (max - 1).

(** The buffer, and -1 when it is empty. *)
Definition getcmd (nbuf : nat) : M St (Z * list Z) :=
  puts 2 (zstr "$ ");;
  text ← gets nbuf;
  let buf := splice 0 (text ++ [0]) (replicate nbuf 0) in
  mret (if default 0 (head buf) =? 0 then -1 else 0, buf).

Definition fork1 (child : outcome (cmd * list Z)) : M St bool :=
  pid ← spawn child;
  if pid =? -1 then puts 2 (zstr "fork" ++ [10]);; mret false else mret true.

(** One line; [false] when the shell ends. *)
Definition run_line (buf : list Z) : M St bool :=
  line ← need (cstr buf);
  if bool_decide (take 3 line = zstr "cd ") then
    let dir := drop 3 (take (length line - 1) line) in
    r ← chdir dir;
    when (r <? 0) (puts 2 (zstr "cannot cd " ++ dir ++ [10]));; mret true
  else
    ok ← fork1 (parsecmd line);
    if (ok : bool) then wait;; mret true else mret false.

Fixpoint sh_loop (fuel : nat) : M St unit :=
  match fuel with
  | O => nofuel
  | S fuel' =>
      '(r, buf) ← getcmd BUFSIZE;
      if r <? 0 then mret tt else
      ok ← run_line buf;
      if (ok : bool) then sh_loop fuel' else mret tt
  end.

(** [while((fd = open("console", O_RDWR)) >= 0) if(fd >= 3) { close(fd); break; }] *)
Fixpoint open_console (fuel : nat) : M St unit :=
  match fuel with
  | O => nofuel
  | S fuel' =>
      fd ← open console_path O_RDWR;
      if fd <? 0 then mret tt else
      if 3 <=? fd then close fd;; mret tt else open_console fuel'
  end.
Definition sh_main (fuel : nat) : M St unit := open_console 4;; sh_loop fuel.

(** ** The script that is run *)

(** What a line makes the shell do. *)
Inductive job := Cd (dir : list Z) | Run (child : outcome (cmd * list Z)).
Definition job_of (line : list Z) : job :=
  if bool_decide (take 3 line = zstr "cd ") then Cd (drop 3 line) else Run (parsecmd (line ++ [10])).

(** What the loop relies on: a read of descriptor 0 gives the next byte of the
    input, writes to the screen, waiting and opening leave the input and the
    jobs alone, and the jobs are recorded in order. *)
Class Script (input : St → list Z) (jobs : St → list job) := {
  read_byte s : match input s with
    | [] => ∃ b s', read 0 1 s = Ok ((0, b), s') ∧ input s' = [] ∧ jobs s' = jobs s
    | c :: l => ∃ s', read 0 1 s = Ok ((1, [c]), s') ∧ input s' = l ∧ jobs s' = jobs s
    end;
  write_screen bytes s : ∃ r s', write 2 bytes s = Ok (r, s') ∧ input s' = input s ∧ jobs s' = jobs s;
  chdir_job dir s : ∃ r s', chdir dir s = Ok (r, s') ∧ input s' = input s ∧ jobs s' = jobs s ++ [Cd dir];
  spawn_job child s : ∃ pid s', spawn child s = Ok (pid, s') ∧ 0 < pid ∧ input s' = input s ∧ jobs s' = jobs s ++ [Run child];
  wait_keeps s : ∃ r s', wait s = Ok (r, s') ∧ input s' = input s ∧ jobs s' = jobs s;
  open_third s : ∃ fd s', open console_path O_RDWR s = Ok (fd, s') ∧ (fd < 0 ∨ 3 ≤ fd) ∧ input s' = input s ∧ jobs s' = jobs s;
  close_keeps fd s : ∃ r s', close fd s = Ok (r, s') ∧ input s' = input s ∧ jobs s' = jobs s
}.
Context (input : St → list Z) (jobs : St → list job) `{!Script input jobs}.

Definition keeps (s s' : St) : Prop := input s' = input s ∧ jobs s' = jobs s.

Lemma puts_keeps text : ∀ s, ∃ s', puts 2 text s = Ok (tt, s') ∧ keeps s s'.
Proof.
  unfold keeps. induction text as [|c text IH]; intros s; cbn [puts]; [by exists s|].
  destruct (write_screen [c] s) as (r & s1 & Hw & Hi & Hj). step Hw.
  destruct (IH s1) as (s2 & Hp & Hi2 & Hj2). exists s2. split_and!; [done|congruence..].
Qed.

(** A byte that [gets] goes on after, and that no C string ends at. *)
Definition plain (c : Z) : Prop := c ≠ 10 ∧ c ≠ 13 ∧ c ≠ 0.

Lemma gets_line l rest' : ∀ n s, Forall plain l → (length l < n)%nat → input s = l ++ 10 :: rest' →
  ∃ s', gets_loop n s = Ok (l ++ [10], s') ∧ input s' = rest' ∧ jobs s' = jobs s.
Proof.
  induction l as [|c l IH]; intros n s Hl Hn Hs; (destruct n as [|n]; [cbn in Hn; lia|]); cbn [gets_loop];
    pose proof (read_byte s) as Hr; rewrite Hs in Hr; cbn [app] in Hr; destruct Hr as (s1 & Hr & Hi & Hj); step Hr.
  - change (1 <? 1) with false. cbn [head]. rewrite (bind_Ok _ _ _ _ _ (need_Some 10 s1)). by exists s1.
  - change (1 <? 1) with false. cbn [head]. rewrite (bind_Ok _ _ _ _ _ (need_Some c s1)).
    apply Forall_cons_1 in Hl as [(H10 & H13 & H0) Hl]. cbn [length] in Hn.
    rewrite (proj2 (Z.eqb_neq c 10) H10), (proj2 (Z.eqb_neq c 13) H13). cbn [orb].
    destruct (IH n s1 Hl ltac:(lia) Hi) as (s2 & H2 & Hi2 & Hj2). step H2. exists s2.
    split_and!; [done..|congruence].
Qed.

Lemma gets_eof n s : input s = [] → ∃ s', gets_loop n s = Ok ([], s') ∧ jobs s' = jobs s.
Proof.
  intros Hs. destruct n as [|n]; [by exists s|]. cbn [gets_loop].
  pose proof (read_byte s) as Hr. rewrite Hs in Hr. destruct Hr as (b & s1 & Hr & _ & Hj). step Hr. by exists s1.
Qed.

(** A line of at least one byte that fits the buffer with its newline. *)
Definition good_line (l : list Z) : Prop := Forall plain l ∧ (length l < BUFSIZE - 1)%nat.

Lemma nonul_line l : good_line l → nonul (l ++ [10]).
Proof.
  intros [Hl _]. unfold nonul. apply list.Forall_app. split; [|by repeat constructor].
  apply (list.Forall_impl _ _ _ Hl). by intros c (_ & _ & Hc).
Qed.

Lemma getcmd_line l rest' s : good_line l → input s = l ++ 10 :: rest' →
  ∃ pad s', getcmd BUFSIZE s = Ok ((0, (l ++ [10]) ++ 0 :: pad), s') ∧ input s' = rest' ∧ jobs s' = jobs s.
Proof.
  intros Hg Hs. unfold getcmd, gets. destruct (puts_keeps (zstr "$ ") s) as (s1 & H1 & Hi1 & Hj1). step H1.
  destruct (gets_line l rest' (BUFSIZE - 1) s1 (proj1 Hg) (proj2 Hg) ltac:(congruence)) as (s2 & H2 & Hi2 & Hj2). step H2.
  exists (drop (length ((l ++ [10]) ++ [0])) (replicate BUFSIZE 0)), s2. split_and!; [|done|congruence].
  assert (splice 0 ((l ++ [10]) ++ [0]) (replicate BUFSIZE 0) = (l ++ [10]) ++ 0 :: drop (length ((l ++ [10]) ++ [0])) (replicate BUFSIZE 0)) as ->.
  { unfold splice. rewrite take_0, Nat.sub_0_r, take_ge; [by rewrite <- !app_assoc|].
    rewrite !length_app, length_replicate. destruct Hg as [_ Hl]. cbn [length]. unfold BUFSIZE in *. lia. }
  pose proof (nonul_line l Hg) as Hn. destruct l as [|c l]; [done|]. cbn [app head default].
  apply Forall_cons_1 in Hn as [Hc _]. unfold id. by rewrite (proj2 (Z.eqb_neq c 0) Hc).
Qed.

Lemma run_line_job l pad s : good_line l →
  ∃ s', run_line ((l ++ [10]) ++ 0 :: pad) s = Ok (true, s') ∧ input s' = input s ∧ jobs s' = jobs s ++ [job_of l].
Proof.
  intros Hg. unfold run_line, job_of. rewrite (cstr_app _ pad (nonul_line l Hg)), (bind_Ok _ _ _ _ _ (need_Some (l ++ [10]) s)).
  assert (bool_decide (take 3 (l ++ [10]) = zstr "cd ") = bool_decide (take 3 l = zstr "cd ")) as ->.
  { apply bool_decide_ext. destruct l as [|a [|b [|c l]]]; [done..|]. reflexivity. }
  case_bool_decide as Hc.
  - assert (drop 3 (take (length (l ++ [10]) - 1) (l ++ [10])) = drop 3 l) as ->.
    { rewrite length_app, Nat.add_sub. by rewrite take_app_length. }
    destruct (chdir_job (drop 3 l) s) as (r & s1 & H1 & Hi1 & Hj1). step H1.
    destruct (r <? 0).
    + destruct (puts_keeps (zstr "cannot cd " ++ drop 3 l ++ [10]) s1) as (s2 & H2 & Hi2 & Hj2).
      unfold when. step H2. exists s2. split_and!; [done|congruence..].
    + by exists s1.
  - unfold fork1. rewrite bind_assoc. destruct (spawn_job (parsecmd (l ++ [10])) s) as (pid & s1 & H1 & Hp & Hi1 & Hj1). step H1.
    rewrite (proj2 (Z.eqb_neq pid (-1))) by lia. rewrite bind_ret.
    destruct (wait_keeps s1) as (r & s2 & H2 & Hi2 & Hj2). step H2. exists s2. split_and!; [done|congruence..].
Qed.

Definition script (lines : list (list Z)) : list Z := concat (map (λ l, l ++ [10]) lines).

(** C23: The shell runs its input line by line: of lines that fit its buffer of
    100 bytes each becomes exactly one job, in order - a [cd] in the shell
    itself to the path behind it, any other a child that runs the parse of
    just that line - and the shell ends when the input does. *)
Theorem shell_runs_script lines s fuel :
  Forall good_line lines → (length lines < fuel)%nat → input s = script lines →
  ∃ s', sh_main fuel s = Ok (tt, s') ∧ jobs s' = jobs s ++ map job_of lines.
Proof.
  intros Hl Hf Hs. unfold sh_main.
  destruct (open_third s) as (fd & s1 & H1 & Hfd & Hi1 & Hj1).
  assert (∃ s2, open_console 4 s = Ok (tt, s2) ∧ keeps s s2) as (s2 & H2 & Hi2 & Hj2).
  { unfold keeps. cbn [open_console]. step H1. destruct (Z.ltb_spec fd 0); [by exists s1|].
    rewrite (proj2 (Z.leb_le 3 fd)) by lia. destruct (close_keeps fd s1) as (r & s2 & H2 & Hi2 & Hj2). step H2.
    exists s2. split_and!; [done|congruence..]. }
  step H2. rewrite <- Hj2. rewrite <- Hi2 in Hs. clear - Script0 Hl Hf Hs. revert s2 lines Hl Hf Hs.
  induction fuel as [|fuel IH]; intros s lines Hl Hf Hs; [lia|]. cbn [sh_loop].
  destruct lines as [|l lines].
  - unfold getcmd, gets. rewrite bind_assoc. destruct (puts_keeps (zstr "$ ") s) as (s1 & H1 & Hi1 & Hj1). step H1.
    destruct (gets_eof (BUFSIZE - 1) s1 ltac:(by rewrite Hi1)) as (s2 & H2 & Hj2). rewrite bind_assoc. step H2.
    exists s2. split; [done|]. cbn [map]. rewrite app_nil_r. congruence.
  - apply Forall_cons_1 in Hl as [Hg Hl]. cbn [length] in Hf.
    assert (input s = l ++ 10 :: script lines) as Hs' by (rewrite Hs; unfold script; cbn [map concat]; by rewrite <- app_assoc).
    destruct (getcmd_line l (script lines) s Hg Hs') as (pad & s1 & H1 & Hi1 & Hj1). step H1. change (0 <? 0) with false. cbv iota.
    destruct (run_line_job l pad s1 Hg) as (s2 & H2 & Hi2 & Hj2). step H2.
    destruct (IH s2 lines Hl ltac:(lia) ltac:(congruence)) as (s3 & H3 & Hj3). exists s3. split; [exact H3|].
    rewrite Hj3, Hj2, Hj1. cbn [map]. by rewrite <- app_assoc.
Qed.
End shell.

(** *** A script *)

Record desk := mkDesk { d_input : list Z; d_screen : list Z; d_jobs : list job }.
Definition desk_read (fd n : Z) : M desk (Z * list Z) := λ s,
  let k := min (Z.to_nat n) (length (d_input s)) in
  Ok ((Z.of_nat k, take k (d_input s)), mkDesk (drop k (d_input s)) (d_screen s) (d_jobs s)).
Definition desk_write (fd : Z) (bytes : list Z) : M desk Z :=
  modify (λ s, mkDesk (d_input s) (d_screen s ++ bytes) (d_jobs s));; mret (Z.of_nat (length bytes)).
Definition desk_job (j : job) : M desk unit := modify (λ s, mkDesk (d_input s) (d_screen s) (d_jobs s ++ [j])).
#[local] Instance desk_os : Os desk := {|
  open _ _ := mret 3; Utils.close _ := mret 0; read := desk_read; write := desk_write;
  fstat _ := mret None; link _ _ := mret (-1); unlink _ := mret (-1);
  mkdir _ := mret (-1); mknod _ _ _ := mret (-1); Utils.dup _ := mret (-1); Utils.kill _ := mret (-1);
  Utils.fork := mret (-1); Utils.exec _ _ := mret (-1); Utils.wait := mret 7 |}.
#[local] Instance desk_sh : ShOs desk := {|
  sh_os := desk_os; chdir dir := desk_job (Cd dir);; mret 0; spawn child := desk_job (Run child);; mret 7 |}.
#[local] Instance desk_script : Script d_input d_jobs.
Proof.
  split.
  - intros [[|c l] o j]; cbn; by repeat eexists.
  - intros bytes s. by repeat eexists.
  - intros dir s. by repeat eexists.
  - intros child s. exists 7. by eexists.
  - intros s. by repeat eexists.
  - intros s. exists 3. eexists. split_and!; [done|lia|done..].
  - intros fd s. by repeat eexists.
Qed.

Lemma shell_runs_script_witness : ∃ s',
  sh_main 3 (mkDesk (script [zstr "cd src"; zstr "ls"]) [] []) = Ok (tt, s') ∧
  d_jobs s' = [Cd (zstr "src"); Run (Ok (EXEC [(3, 1)%nat], [108; 115; 0; 0]))].
Proof.
  destruct (shell_runs_script d_input d_jobs [zstr "cd src"; zstr "ls"] (mkDesk (script [zstr "cd src"; zstr "ls"]) [] []) 3)
    as (s' & H1 & H2).
  - repeat (constructor; [split; [repeat (constructor; [by vm_compute|]); constructor|vm_compute; lia]|]). constructor.
  - cbn; lia.
  - reflexivity.
  - exists s'. split; [exact H1|]. rewrite H2. vm_compute. reflexivity.
Defined.

(** At the end of the input a [cd] without a newline loses the last character
    of its path. *)
Lemma cd_loses_a_letter : ∃ s',
  sh_main 3 (mkDesk (zstr "cd src") [] []) = Ok (tt, s') ∧ d_jobs s' = [Cd (zstr "sr")].
Proof. eexists. split; vm_compute; reflexivity. Qed.
